(** * landlab [model_grid.py]: node/link/cell grids and their operators

    A shallow embedding of [src/landlab/model_grid.py] (classes [ModelGrid]
    and [RasterModelGrid], and the factory [create_and_initialize_grid]),
    followed by the properties of the grid sizes, the active-link
    derivation, the boundary handling and the differential operators.

    Conventions of the embedding:
    - Python integers (node, link and cell ids, status codes) are [Z];
      sequences are lists indexed the Python way (a negative index counts
      from the end, an index out of range raises [IndexError]);
    - numpy [float64] values are an abstract [Scalar] type with the four
      arithmetic operations and [==]; the grid code is generic in it, and
      so is every property of it. The instance that is [float64] itself
      is the binary64 floating-point type [float]; the rationals [Q] and
      [Qc] are instances with exact arithmetic, used to evaluate the
      code on small examples and to show what exactness adds;
    - the attributes of an object are the fields of a record, so an
      attribute that has not been assigned yet (on an object whose
      [initialize] did not run) reads as [0] or as the empty array,
      where Python raises [AttributeError]; the properties are about
      reads of attributes that have been assigned;
    - a method that mutates [self] is a computation in the state-and-
      exception monad [ST Grid]: when it raises, the assignments made so
      far remain in the state, as in Python;
    - arrays that a caller passes in as output buffers, and arrays that an
      operator returns, live in a heap of arrays addressed by location, so
      that aliasing between the buffer and the result is visible. *)

From Stdlib Require Import ZArith QArith Qcanon Lia String PrimFloat.
From stdpp Require Import base list list_numbers sorting gmap strings pretty.

Local Open Scope Z_scope.

(** ** Exceptions and results *)

Inductive exn : Type :=
  | AssertionError (msg : string)
  | IndexError
  | ValueError
  | KeyError (key : string)
  | AttributeError (name : string).

Inductive result (A : Type) : Type :=
  | Ok (a : A)
  | Raise (e : exn).
Arguments Ok {A} a.
Arguments Raise {A} e.

Definition rbind {A B} (m : result A) (k : A → result B) : result B :=
  match m with
  | Ok a => k a
  | Raise e => Raise e
  end.

Notation "'let+' x ':=' m 'in' k" := (rbind m (fun x => k))
  (at level 10, x name, m at level 100, k at level 200).

Fixpoint rmapM {A B} (f : A → result B) (l : list A) : result (list B) :=
  match l with
  | [] => Ok []
  | x :: l' => let+ y := f x in let+ ys := rmapM f l' in Ok (y :: ys)
  end.

(** ** The state-and-exception monad

    [ST S A] runs on a state and gives back the state reached together with
    either a value or the exception raised. *)

Definition ST (S A : Type) : Type := S → S * result A.

Definition ret {S A} (a : A) : ST S A := fun s => (s, Ok a).
Definition raise {S A} (e : exn) : ST S A := fun s => (s, Raise e).
Definition bind {S A B} (m : ST S A) (k : A → ST S B) : ST S B :=
  fun s => match m s with
           | (s', Ok a) => k a s'
           | (s', Raise e) => (s', Raise e)
           end.
Definition get {S} : ST S S := fun s => (s, Ok s).
Definition modify {S} (f : S → S) : ST S unit := fun s => (f s, Ok tt).
Definition lift {S A} (r : result A) : ST S A := fun s => (s, r).
(** [assert b, msg]; an [assert b] without a message raises
    [AssertionError] with the empty message. *)
Definition assert {S} (b : bool) (msg : string) : ST S unit :=
  if b then ret tt else raise (AssertionError msg).

Notation "'let*' x ':=' m 'in' k" := (bind m (fun x => k))
  (at level 10, x name, m at level 100, k at level 200).

(** [for x in l: body x] *)
Fixpoint for_each {S A} (l : list A) (body : A → ST S unit) : ST S unit :=
  match l with
  | [] => ret tt
  | x :: l' => let* _ := body x in for_each l' body
  end.

(** ** Python and numpy sequence operations *)

(** [len(l)] *)
Definition len {A} (l : list A) : Z := Z.of_nat (length l).

(** The position a Python index denotes in a sequence of length [n]. *)
Definition index_of (n : Z) (i : Z) : result nat :=
  if bool_decide (0 ≤ i < n) then Ok (Z.to_nat i)
  else if bool_decide (- n ≤ i < 0) then Ok (Z.to_nat (n + i))
  else Raise IndexError.

(** [l[i]] *)
Definition getitem {A} (l : list A) (i : Z) : result A :=
  let+ k := index_of (len l) i in
  match l !! k with
  | Some x => Ok x
  | None => Raise IndexError
  end.

(** [l[i] = x] *)
Definition setitem {A} (l : list A) (i : Z) (x : A) : result (list A) :=
  let+ k := index_of (len l) i in Ok (<[k:=x]> l).

(** [a[idx]] for an index array [idx] *)
Definition np_take {A} (a : list A) (idx : list Z) : result (list A) :=
  rmapM (getitem a) idx.

(** [a[idx] = x] for an index sequence [idx] and a scalar [x]: the indices
    are checked before anything is stored. *)
Definition np_put_scalar {A} (a : list A) (idx : list Z) (x : A)
  : result (list A) :=
  let+ ks := rmapM (index_of (len a)) idx in
  Ok (foldl (fun acc k => <[k:=x]> acc) a ks).

(** [a[idx] = vals] for an index array and a value array of one length *)
Definition np_put {A} (a : list A) (idx : list Z) (vals : list A)
  : result (list A) :=
  let+ ks := rmapM (index_of (len a)) idx in
  if bool_decide (length idx = length vals)
  then Ok (foldl (fun acc kv => <[kv.1:=kv.2]> acc) a (zip ks vals))
  else Raise ValueError.

(** [range(a, b)] and [range(a, b, step)] for a positive step *)
Definition range (a b : Z) : list Z := seqZ a (b - a).
Definition range_step (a b step : Z) : list Z :=
  (fun i => a + i * step) <$> seqZ 0 ((b - a + step - 1) `div` step).

(** An element-wise binary operation with numpy's broadcasting of a
    one-element operand; other unequal lengths raise. *)
Definition np_binop {A B C} (f : A → B → C) (x : list A) (y : list B)
  : result (list C) :=
  if bool_decide (length x = length y) then Ok (zip_with f x y)
  else match x, y with
       | [a], _ => Ok (f a <$> y)
       | _, [b] => Ok ((fun a => f a b) <$> x)
       | _, _ => Raise ValueError
       end.

Definition np_eq (x : list Z) (v : Z) : list bool := (fun a => a =? v) <$> x.
Definition np_not (x : list bool) : list bool := negb <$> x.
Definition np_and := np_binop andb.
Definition np_or := np_binop orb.

(** [numpy.where(mask)] / [numpy.nonzero(mask)]: the positions holding
    [True], in increasing order. *)
Fixpoint where_from (i : Z) (mask : list bool) : list Z :=
  match mask with
  | [] => []
  | b :: mask' =>
      if b then i :: where_from (i + 1) mask' else where_from (i + 1) mask'
  end.
Definition np_where (mask : list bool) : list Z := where_from 0 mask.

(** [numpy.zeros(n)], [-numpy.ones(n)] and the like: a negative dimension
    raises. *)
Definition np_full {A} (n : Z) (x : A) : result (list A) :=
  if bool_decide (n < 0) then Raise ValueError
  else Ok (replicate (Z.to_nat n) x).

(** [numpy.bincount(x, minlength=n)]: how often each value [0, 1, ...]
    occurs; negative values raise. *)
Definition np_bincount (x : list Z) (minlength : Z) : result (list Z) :=
  if bool_decide (Forall (fun v => 0 ≤ v) x) then
    let n := Z.max minlength (foldr (fun v m => Z.max (v + 1) m) 0 x) in
    Ok ((fun v => Z.of_nat (length (filter (fun w => w = v) x))) <$> seqZ 0 n)
  else Raise ValueError.

(** ** Values of [float64] arrays *)

Class Scalar (F : Type) : Type := {
  fzero : F;
  fadd : F → F → F;
  fsub : F → F → F;
  fmul : F → F → F;
  fdiv : F → F → F;
  feqb : F → F → bool
}.

(** [float64] itself: IEEE 754 binary64 with rounding to nearest even,
    as numpy computes. *)
#[export] Instance float_Scalar : Scalar float := {
  fzero := 0%float;
  fadd := PrimFloat.add;
  fsub := PrimFloat.sub;
  fmul := PrimFloat.mul;
  fdiv := PrimFloat.div;
  feqb := PrimFloat.eqb
}.

(** Exact arithmetic: the rationals as fractions, and the rationals in
    lowest terms, on which equal numbers are equal terms. *)
#[export] Instance Q_Scalar : Scalar Q := {
  fzero := 0%Q;
  fadd := Qplus;
  fsub := Qminus;
  fmul := Qmult;
  fdiv := Qdiv;
  feqb := Qeq_bool
}.

#[export] Instance Qc_Scalar : Scalar Qc := {
  fzero := Q2Qc 0;
  fadd := Qcplus;
  fsub := Qcminus;
  fmul := Qcmult;
  fdiv := Qcdiv;
  feqb := fun x y => Qeq_bool x y
}.

(** ** Module constants *)

(** [BAD_INDEX_VALUE = numpy.iinfo(numpy.int).max] *)
Definition BAD_INDEX_VALUE : Z := 2 ^ 63 - 1.

Definition INTERIOR_NODE : Z := 0.
Definition FIXED_VALUE_BOUNDARY : Z := 1.
Definition FIXED_GRADIENT_BOUNDARY : Z := 2.
Definition TRACKS_CELL_BOUNDARY : Z := 3.
Definition INACTIVE_BOUNDARY : Z := 4.

(** [_SLOW = False] *)
Definition _SLOW : bool := false.

(** ** The grid object

    The attributes of a grid are grouped by the component that owns them:
    the topology written once by the builder, the node status and the
    active-cell list changed by the boundary operations, and the
    active-link structures rebuilt after every change of status.
    Attributes that no operation below reads (node coordinates, the
    in/outlink matrices over all links, neighbour lists, the legacy
    [ncells], [nfaces] and boundary-cell counts) are left out. *)

Inductive grid_class : Type := ModelGrid_class | RasterModelGrid_class.

Record ActiveElements : Type := {
  a_active_links : list Z;
  a_num_active_links : Z;
  a_activelink_fromnode : list Z;
  a_activelink_tonode : list Z;
  a_node_active_inlink_matrix : list (list Z);
  a_node_active_outlink_matrix : list (list Z);
  a_node_numactiveinlink : list Z;
  a_node_numactiveoutlink : list Z
}.

Record Topology (F : Type) : Type := {
  t_cls : grid_class;
  t_nrows : Z;
  t_ncols : Z;
  t__dx : F;
  t_cellarea : F;
  t_num_nodes : Z;
  t_num_cells : Z;
  t_num_active_cells : Z;
  t_num_links : Z;
  t_num_faces : Z;
  t_cell_node : list Z;
  t_node_activecell : list Z;
  t_link_fromnode : list Z;
  t_link_tonode : list Z;
  t_link_face : list Z;
  t_max_num_nbrs : Z;
  t_link_length : list F;
  t_face_width : list F;
  t_active_cell_areas : list F
}.
Arguments t_cls {F} _.
Arguments t_nrows {F} _.
Arguments t_ncols {F} _.
Arguments t__dx {F} _.
Arguments t_cellarea {F} _.
Arguments t_num_nodes {F} _.
Arguments t_num_cells {F} _.
Arguments t_num_active_cells {F} _.
Arguments t_num_links {F} _.
Arguments t_num_faces {F} _.
Arguments t_cell_node {F} _.
Arguments t_node_activecell {F} _.
Arguments t_link_fromnode {F} _.
Arguments t_link_tonode {F} _.
Arguments t_link_face {F} _.
Arguments t_max_num_nbrs {F} _.
Arguments t_link_length {F} _.
Arguments t_face_width {F} _.
Arguments t_active_cell_areas {F} _.

Record Grid (F : Type) : Type := {
  topology : Topology F;
  node_status : list Z;
  activecell_node : list Z;
  active : ActiveElements
}.
Arguments topology {F} _.
Arguments node_status {F} _.
Arguments activecell_node {F} _.
Arguments active {F} _.

Section Attributes.
Context {F : Type}.
Implicit Type g : Grid F.

(** Reading an attribute of [self] *)
Definition cls g := t_cls (topology g).
Definition nrows g := t_nrows (topology g).
Definition ncols g := t_ncols (topology g).
Definition _dx g := t__dx (topology g).
Definition cellarea g := t_cellarea (topology g).
Definition num_nodes g := t_num_nodes (topology g).
Definition num_cells g := t_num_cells (topology g).
Definition num_active_cells g := t_num_active_cells (topology g).
Definition num_links g := t_num_links (topology g).
Definition num_faces g := t_num_faces (topology g).
Definition cell_node g := t_cell_node (topology g).
Definition node_activecell g := t_node_activecell (topology g).
Definition link_fromnode g := t_link_fromnode (topology g).
Definition link_tonode g := t_link_tonode (topology g).
Definition link_face g := t_link_face (topology g).
Definition max_num_nbrs g := t_max_num_nbrs (topology g).
Definition link_length g := t_link_length (topology g).
Definition face_width g := t_face_width (topology g).
Definition active_cell_areas g := t_active_cell_areas (topology g).
Definition active_links g := a_active_links (active g).
Definition num_active_links g := a_num_active_links (active g).
Definition activelink_fromnode g := a_activelink_fromnode (active g).
Definition activelink_tonode g := a_activelink_tonode (active g).
Definition node_active_inlink_matrix g :=
  a_node_active_inlink_matrix (active g).
Definition node_active_outlink_matrix g :=
  a_node_active_outlink_matrix (active g).
Definition node_numactiveinlink g := a_node_numactiveinlink (active g).
Definition node_numactiveoutlink g := a_node_numactiveoutlink (active g).

(** Assigning an attribute of [self] *)
Definition set_topology (t : Topology F) g : Grid F :=
  {| topology := t; node_status := node_status g;
     activecell_node := activecell_node g; active := active g |}.
Definition set_node_status (v : list Z) g : Grid F :=
  {| topology := topology g; node_status := v;
     activecell_node := activecell_node g; active := active g |}.
Definition set_activecell_node (v : list Z) g : Grid F :=
  {| topology := topology g; node_status := node_status g;
     activecell_node := v; active := active g |}.
Definition set_active (a : ActiveElements) g : Grid F :=
  {| topology := topology g; node_status := node_status g;
     activecell_node := activecell_node g; active := a |}.

Definition set_active_links (v : list Z) g : Grid F :=
  let a := active g in
  set_active
    {| a_active_links := v;
       a_num_active_links := a_num_active_links a;
       a_activelink_fromnode := a_activelink_fromnode a;
       a_activelink_tonode := a_activelink_tonode a;
       a_node_active_inlink_matrix := a_node_active_inlink_matrix a;
       a_node_active_outlink_matrix := a_node_active_outlink_matrix a;
       a_node_numactiveinlink := a_node_numactiveinlink a;
       a_node_numactiveoutlink := a_node_numactiveoutlink a |} g.
Definition set_num_active_links (v : Z) g : Grid F :=
  let a := active g in
  set_active
    {| a_active_links := a_active_links a;
       a_num_active_links := v;
       a_activelink_fromnode := a_activelink_fromnode a;
       a_activelink_tonode := a_activelink_tonode a;
       a_node_active_inlink_matrix := a_node_active_inlink_matrix a;
       a_node_active_outlink_matrix := a_node_active_outlink_matrix a;
       a_node_numactiveinlink := a_node_numactiveinlink a;
       a_node_numactiveoutlink := a_node_numactiveoutlink a |} g.
Definition set_activelink_fromnode (v : list Z) g : Grid F :=
  let a := active g in
  set_active
    {| a_active_links := a_active_links a;
       a_num_active_links := a_num_active_links a;
       a_activelink_fromnode := v;
       a_activelink_tonode := a_activelink_tonode a;
       a_node_active_inlink_matrix := a_node_active_inlink_matrix a;
       a_node_active_outlink_matrix := a_node_active_outlink_matrix a;
       a_node_numactiveinlink := a_node_numactiveinlink a;
       a_node_numactiveoutlink := a_node_numactiveoutlink a |} g.
Definition set_activelink_tonode (v : list Z) g : Grid F :=
  let a := active g in
  set_active
    {| a_active_links := a_active_links a;
       a_num_active_links := a_num_active_links a;
       a_activelink_fromnode := a_activelink_fromnode a;
       a_activelink_tonode := v;
       a_node_active_inlink_matrix := a_node_active_inlink_matrix a;
       a_node_active_outlink_matrix := a_node_active_outlink_matrix a;
       a_node_numactiveinlink := a_node_numactiveinlink a;
       a_node_numactiveoutlink := a_node_numactiveoutlink a |} g.
Definition set_node_active_inlink_matrix (v : list (list Z)) g : Grid F :=
  let a := active g in
  set_active
    {| a_active_links := a_active_links a;
       a_num_active_links := a_num_active_links a;
       a_activelink_fromnode := a_activelink_fromnode a;
       a_activelink_tonode := a_activelink_tonode a;
       a_node_active_inlink_matrix := v;
       a_node_active_outlink_matrix := a_node_active_outlink_matrix a;
       a_node_numactiveinlink := a_node_numactiveinlink a;
       a_node_numactiveoutlink := a_node_numactiveoutlink a |} g.
Definition set_node_active_outlink_matrix (v : list (list Z)) g : Grid F :=
  let a := active g in
  set_active
    {| a_active_links := a_active_links a;
       a_num_active_links := a_num_active_links a;
       a_activelink_fromnode := a_activelink_fromnode a;
       a_activelink_tonode := a_activelink_tonode a;
       a_node_active_inlink_matrix := a_node_active_inlink_matrix a;
       a_node_active_outlink_matrix := v;
       a_node_numactiveinlink := a_node_numactiveinlink a;
       a_node_numactiveoutlink := a_node_numactiveoutlink a |} g.
Definition set_node_numactiveinlink (v : list Z) g : Grid F :=
  let a := active g in
  set_active
    {| a_active_links := a_active_links a;
       a_num_active_links := a_num_active_links a;
       a_activelink_fromnode := a_activelink_fromnode a;
       a_activelink_tonode := a_activelink_tonode a;
       a_node_active_inlink_matrix := a_node_active_inlink_matrix a;
       a_node_active_outlink_matrix := a_node_active_outlink_matrix a;
       a_node_numactiveinlink := v;
       a_node_numactiveoutlink := a_node_numactiveoutlink a |} g.
Definition set_node_numactiveoutlink (v : list Z) g : Grid F :=
  let a := active g in
  set_active
    {| a_active_links := a_active_links a;
       a_num_active_links := a_num_active_links a;
       a_activelink_fromnode := a_activelink_fromnode a;
       a_activelink_tonode := a_activelink_tonode a;
       a_node_active_inlink_matrix := a_node_active_inlink_matrix a;
       a_node_active_outlink_matrix := a_node_active_outlink_matrix a;
       a_node_numactiveinlink := a_node_numactiveinlink a;
       a_node_numactiveoutlink := v |} g.
End Attributes.

(** ** Helpers of [landlab.utils] *)

(** The positions of the value [v] in the array [x], in increasing order. *)
Definition positions (v : Z) (x : list Z) : list Z := np_where (np_eq x v).

(** [numpy.unique(x)]: the distinct values of [x], sorted. *)
Definition np_unique (x : list Z) : list Z := merge_sort Z.le (remove_dups x).

(** Modelled from the spec: [landlab.utils.count_repeated_values], which
    is imported by the module but is not part of the source at hand. The
    specification describes the matrices it fills as holding, for each
    node, the ids of the links arriving at (leaving) the node, one per row,
    and the doctest of [RasterModelGrid.initialize] shows them: entry [k]
    of the result pairs the values that occur more than [k] times in [x]
    (sorted) with the positions of their occurrence number [k]. *)
Definition count_repeated_values (x : list Z) : list (list Z * list Z) :=
  let u := np_unique x in
  let reps := foldr (fun v m => Nat.max (length (positions v x)) m) 0%nat u in
  (fun k =>
     let vs := filter (fun v => (k < length (positions v x))%nat) u in
     (vs, (fun v => positions v x !!! k) <$> vs)) <$> seq 0 reps.

(** [enumerate(l)] *)
Definition enumerate {A} (l : list A) : list (Z * A) :=
  zip (seqZ 0 (len l)) l.

(** A matrix of [rows] rows and [n] columns filled with [x]. *)
Definition np_full2 {A} (rows n : Z) (x : A) : result (list (list A)) :=
  let+ row := np_full n x in np_full rows row.

(** [m[i][j] = x] *)
Definition setitem2 {A} (m : list (list A)) (i j : Z) (x : A)
  : result (list (list A)) :=
  let+ row := getitem m i in
  let+ row' := setitem row j x in
  setitem m i row'.

(** ** Active-link structures ([ModelGrid] and [RasterModelGrid]) *)

Section ActiveLinks.
Context {F : Type}.
Implicit Type g : Grid F.

(** The number of rows of the active inlink and outlink matrices:
    [ModelGrid.setup_active_inlink_and_outlink_matrices] uses
    [self.max_num_nbrs], the override in [RasterModelGrid] uses 2; the
    two methods are otherwise the same text. *)
Definition matrix_rows g : Z :=
  match cls g with
  | RasterModelGrid_class => 2
  | ModelGrid_class => max_num_nbrs g
  end.

(** [for (count, (nodes, ids)) in enumerate(counts):
       matrix[count][nodes] = ids]
    on the matrix attribute read by [rd] and written by [wr]. *)
Definition fill_link_matrix (rd : Grid F → list (list Z))
    (wr : list (list Z) → Grid F → Grid F)
    (counts : list (list Z * list Z)) : ST (Grid F) unit :=
  for_each (enumerate counts) (fun entry =>
    let count := entry.1 in
    let nodes := entry.2.1 in
    let ids := entry.2.2 in
    let* g := get in
    let* row := lift (getitem (rd g) count) in
    let* row' := lift (np_put row nodes ids) in
    let* m := lift (setitem (rd g) count row') in
    modify (wr m)).

Definition setup_active_inlink_and_outlink_matrices : ST (Grid F) unit :=
  (* Create active in-link and out-link matrices. *)
  let* g := get in
  let* m_in := lift (np_full2 (matrix_rows g) (num_nodes g) (-1)) in
  let* _ := modify (set_node_active_inlink_matrix m_in) in
  let* m_out := lift (np_full2 (matrix_rows g) (num_nodes g) (-1)) in
  let* _ := modify (set_node_active_outlink_matrix m_out) in
  (* Set up the inlink arrays *)
  let* n_in := lift (np_bincount (activelink_tonode g) (num_nodes g)) in
  let* _ := modify (set_node_numactiveinlink n_in) in
  let* _ := fill_link_matrix node_active_inlink_matrix
              set_node_active_inlink_matrix
              (count_repeated_values (activelink_tonode g)) in
  (* Set up the outlink arrays *)
  let* n_out := lift (np_bincount (activelink_fromnode g) (num_nodes g)) in
  let* _ := modify (set_node_numactiveoutlink n_out) in
  fill_link_matrix node_active_outlink_matrix
    set_node_active_outlink_matrix
    (count_repeated_values (activelink_fromnode g)).

(** One pass of the loop of
    [RasterModelGrid.setup_active_inlink_and_outlink_matrices_slow]:
    enter the link in the next free row of its node's column and count
    it. *)
Definition enter_link (nodes : Grid F → list Z)
    (rd_num : Grid F → list Z) (wr_num : list Z → Grid F → Grid F)
    (rd : Grid F → list (list Z)) (wr : list (list Z) → Grid F → Grid F)
    (active_link_id : Z) : ST (Grid F) unit :=
  let* g := get in
  let* node := lift (getitem (nodes g) active_link_id) in
  let* linknum := lift (getitem (rd_num g) node) in
  let* m := lift (setitem2 (rd g) linknum node active_link_id) in
  let* _ := modify (wr m) in
  let* num := lift (setitem (rd_num g) node (linknum + 1)) in
  modify (wr_num num).

Definition setup_active_inlink_and_outlink_matrices_slow
  : ST (Grid F) unit :=
  let* g := get in
  match cls g with
  | ModelGrid_class =>
      raise (AttributeError "setup_active_inlink_and_outlink_matrices_slow")
  | RasterModelGrid_class =>
      let* n_in := lift (np_full (num_nodes g) 0) in
      let* _ := modify (set_node_numactiveinlink n_in) in
      let* n_out := lift (np_full (num_nodes g) 0) in
      let* _ := modify (set_node_numactiveoutlink n_out) in
      let* m_in := lift (np_full2 2 (num_nodes g) (-1)) in
      let* _ := modify (set_node_active_inlink_matrix m_in) in
      let* m_out := lift (np_full2 2 (num_nodes g) (-1)) in
      let* _ := modify (set_node_active_outlink_matrix m_out) in
      for_each (range 0 (num_active_links g)) (fun active_link_id =>
        let* _ := enter_link activelink_tonode
                    node_numactiveinlink set_node_numactiveinlink
                    node_active_inlink_matrix set_node_active_inlink_matrix
                    active_link_id in
        enter_link activelink_fromnode
          node_numactiveoutlink set_node_numactiveoutlink
          node_active_outlink_matrix set_node_active_outlink_matrix
          active_link_id)
  end.

(** [ModelGrid.reset_list_of_active_links] *)
Definition reset_list_of_active_links : ST (Grid F) unit :=
  let* g := get in
  let* fromnode_status :=
    lift (np_take (node_status g) (link_fromnode g)) in
  let* tonode_status := lift (np_take (node_status g) (link_tonode g)) in
  let* from_side :=
    lift (np_and (np_eq fromnode_status INTERIOR_NODE)
                 (np_not (np_eq tonode_status INACTIVE_BOUNDARY))) in
  let* to_side :=
    lift (np_and (np_eq tonode_status INTERIOR_NODE)
                 (np_not (np_eq fromnode_status INACTIVE_BOUNDARY))) in
  let* mask := lift (np_or from_side to_side) in
  let* _ := modify (set_active_links (np_where mask)) in
  let* _ := modify (fun g => set_num_active_links (len (active_links g)) g) in
  let* g := get in
  let* from_ := lift (np_take (link_fromnode g) (active_links g)) in
  let* _ := modify (set_activelink_fromnode from_) in
  let* to_ := lift (np_take (link_tonode g) (active_links g)) in
  let* _ := modify (set_activelink_tonode to_) in
  (* Set up active inlink and outlink matrices *)
  setup_active_inlink_and_outlink_matrices.

(** The test in the loop of [reset_list_of_active_links_slow] *)
Definition link_is_active (fromnode_status tonode_status : Z) : bool :=
  ((fromnode_status =? INTERIOR_NODE)
     && negb (tonode_status =? INACTIVE_BOUNDARY))
  || ((tonode_status =? INTERIOR_NODE)
        && negb (fromnode_status =? INACTIVE_BOUNDARY)).

(** One pass of the loop of [reset_list_of_active_links_slow]:
    [self.active_links.append(link)] when the test holds. *)
Definition append_if_active (link : Z) : ST (Grid F) unit :=
  let* g := get in
  let* fromnode := lift (getitem (link_fromnode g) link) in
  let* fromnode_status := lift (getitem (node_status g) fromnode) in
  let* tonode := lift (getitem (link_tonode g) link) in
  let* tonode_status := lift (getitem (node_status g) tonode) in
  if link_is_active fromnode_status tonode_status
  then modify (fun g => set_active_links (active_links g ++ [link]) g)
  else ret tt.

(** [a[numpy.array(l)]] for a Python list [l] of integers:
    [numpy.array] of the empty list is an array of floats, which cannot
    index. *)
Definition np_take_list {A} (a : list A) (l : list Z) : result (list A) :=
  match l with
  | [] => Raise IndexError
  | _ => np_take a l
  end.

(** [ModelGrid.reset_list_of_active_links_slow]: [active_links] is a
    Python list until [numpy.array] converts it. *)
Definition reset_list_of_active_links_slow : ST (Grid F) unit :=
  let* _ := modify (set_active_links []) in
  let* g := get in
  let* _ := for_each (range 0 (len (link_fromnode g))) append_if_active in
  let* _ := modify (fun g => set_num_active_links (len (active_links g)) g) in
  let* g := get in
  let* from_ := lift (np_take_list (link_fromnode g) (active_links g)) in
  let* _ := modify (set_activelink_fromnode from_) in
  let* to_ := lift (np_take_list (link_tonode g) (active_links g)) in
  let* _ := modify (set_activelink_tonode to_) in
  (* Set up active inlink and outlink matrices *)
  setup_active_inlink_and_outlink_matrices_slow.
End ActiveLinks.

(** ** Helpers of [landlab.utils.structured_grid]

    The module is imported as [sgrid]; it is not part of the source at
    hand. A shape is the pair (rows, columns); node [c + r * columns] is
    the node of row [r] and column [c]. *)

(** The two loops of the [_SLOW] branch of [RasterModelGrid.initialize]
    that append the from-node and the to-node of every link: the vertical
    links, row by row, and the horizontal links, row by row. *)
Definition vertical_links (num_rows num_cols : Z) : list (Z * Z) :=
  r ← range 0 (num_rows - 1); c ← range 0 num_cols;
  [(c + r * num_cols, c + (r + 1) * num_cols)].

Definition horizontal_links (num_rows num_cols : Z) : list (Z * Z) :=
  r ← range 0 num_rows; c ← range 0 (num_cols - 1);
  [(c + r * num_cols, c + r * num_cols + 1)].

Module sgrid.

Definition is_perimeter (shape : Z * Z) (node : Z) : bool :=
  let r := node `div` shape.2 in
  let c := node `mod` shape.2 in
  bool_decide (r = 0 ∨ r = shape.1 - 1 ∨ c = 0 ∨ c = shape.2 - 1).

(** Modelled from the spec: [sgrid.node_status]. "Default fully-open
    boundary (all perimeter nodes FIXED_VALUE)"; the other nodes are
    interior. *)
Definition node_status (shape : Z * Z) (boundary_status : Z) : list Z :=
  (fun node =>
     if is_perimeter shape node then boundary_status else INTERIOR_NODE)
  <$> range 0 (shape.1 * shape.2).

(** Modelled from the spec: [sgrid.cell_node_index]. "Cells are the
    (R-2) x (C-2) interior nodes, numbered row-major matching node
    order." *)
Definition cell_node_index (shape : Z * Z) : list Z :=
  r ← range 1 (shape.1 - 1); c ← range 1 (shape.2 - 1); [c + r * shape.2].

(** Modelled from the spec: [sgrid.node_active_cell]. The cell of each
    node; "a sentinel marks nodes without a cell". *)
Definition node_active_cell (shape : Z * Z) : list Z :=
  (fun node =>
     if is_perimeter shape node then BAD_INDEX_VALUE
     else (node `mod` shape.2 - 1)
          + (node `div` shape.2 - 1) * (shape.2 - 2))
  <$> range 0 (shape.1 * shape.2).

(** Modelled from the spec: [sgrid.node_link_index]. "Links are
    enumerated deterministically in two passes: all vertical links
    row-major, then all horizontal links row-major"; these are the two
    loops of the [_SLOW] branch of [RasterModelGrid.initialize]. *)
Definition node_link_index (shape : Z * Z) : list Z * list Z :=
  let links :=
    vertical_links shape.1 shape.2 ++ horizontal_links shape.1 shape.2 in
  (fst <$> links, snd <$> links).

(** Modelled from the spec: [sgrid.link_faces]. "Faces are assigned IDs
    in the same order as the active-link list"; a link without a face
    holds the sentinel. *)
Definition link_faces (shape : Z * Z) (actives : list Z)
  : result (list Z) :=
  let num_links :=
    shape.2 * (shape.1 - 1) + shape.1 * (shape.2 - 1) in
  let+ none := np_full num_links BAD_INDEX_VALUE in
  np_put none actives (range 0 (len actives)).

End sgrid.

(** ** [RasterModelGrid]: construction *)

Section Raster.
Context {F : Type} `{Scalar F}.
Implicit Type g : Grid F.

(** An object whose attributes have not been assigned yet. *)
Definition new_object (c : grid_class) : Grid F :=
  {| topology :=
       {| t_cls := c; t_nrows := 0; t_ncols := 0; t__dx := fzero;
          t_cellarea := fzero; t_num_nodes := 0; t_num_cells := 0;
          t_num_active_cells := 0; t_num_links := 0; t_num_faces := 0;
          t_cell_node := []; t_node_activecell := [];
          t_link_fromnode := []; t_link_tonode := []; t_link_face := [];
          t_max_num_nbrs := 0; t_link_length := []; t_face_width := [];
          t_active_cell_areas := [] |};
     node_status := [];
     activecell_node := [];
     active :=
       {| a_active_links := []; a_num_active_links := 0;
          a_activelink_fromnode := []; a_activelink_tonode := [];
          a_node_active_inlink_matrix := [];
          a_node_active_outlink_matrix := [];
          a_node_numactiveinlink := []; a_node_numactiveoutlink := [] |} |}.

(** [self.shape] *)
Definition shape g : Z * Z := (nrows g, ncols g).

(** The assignments of [initialize] up to its assertion: the basic
    information about raster size and shape. *)
Definition set_sizes (num_rows num_cols : Z) (dx : F) g : Grid F :=
  let t := topology g in
  let num_links := num_cols * (num_rows - 1) + num_rows * (num_cols - 1) in
  set_num_active_links
    (num_links - (2 * (num_cols - 1) + 2 * (num_rows - 1)))
    (set_topology
       {| t_cls := t_cls t;
          t_nrows := num_rows;
          t_ncols := num_cols;
          t__dx := dx;
          t_cellarea := fmul dx dx;
          t_num_nodes := num_rows * num_cols;
          t_num_cells := (num_rows - 2) * (num_cols - 2);
          t_num_active_cells := (num_rows - 2) * (num_cols - 2);
          t_num_links := num_links;
          t_num_faces := t_num_faces t;
          t_cell_node := t_cell_node t;
          t_node_activecell := t_node_activecell t;
          t_link_fromnode := t_link_fromnode t;
          t_link_tonode := t_link_tonode t;
          t_link_face := t_link_face t;
          t_max_num_nbrs := t_max_num_nbrs t;
          t_link_length := t_link_length t;
          t_face_width := t_face_width t;
          t_active_cell_areas := t_active_cell_areas t |} g).

(** The link lists of the [_SLOW] branch of [initialize]: vertical links
    first, then horizontal links. *)
Definition slow_link_lists (num_rows num_cols : Z) : list Z * list Z :=
  let links :=
    vertical_links num_rows num_cols
    ++ horizontal_links num_rows num_cols in
  (fst <$> links, snd <$> links).

(** The assignments of [initialize] between its assertion and the call
    that sets up the active links: the face count, the node status, the
    cell lists and the link lists. *)
Definition set_lists (num_rows num_cols : Z) g : Grid F :=
  let t := topology g in
  let cell_node := sgrid.cell_node_index (num_rows, num_cols) in
  let links :=
    if _SLOW then slow_link_lists num_rows num_cols
    else sgrid.node_link_index (num_rows, num_cols) in
  set_activecell_node cell_node
    (set_node_status (sgrid.node_status (shape g) FIXED_VALUE_BOUNDARY)
       (set_topology
          {| t_cls := t_cls t;
             t_nrows := t_nrows t;
             t_ncols := t_ncols t;
             t__dx := t__dx t;
             t_cellarea := t_cellarea t;
             t_num_nodes := t_num_nodes t;
             t_num_cells := t_num_cells t;
             t_num_active_cells := t_num_active_cells t;
             t_num_links := t_num_links t;
             t_num_faces :=
               (num_rows - 1) * (num_cols - 2)
               + (num_rows - 2) * (num_cols - 1);
             t_cell_node := cell_node;
             t_node_activecell :=
               sgrid.node_active_cell (num_rows, num_cols);
             t_link_fromnode := links.1;
             t_link_tonode := links.2;
             t_link_face := t_link_face t;
             t_max_num_nbrs := t_max_num_nbrs t;
             t_link_length := t_link_length t;
             t_face_width := t_face_width t;
             t_active_cell_areas := t_active_cell_areas t |} g)).

Definition set_link_face (v : list Z) g : Grid F :=
  let t := topology g in
  set_topology
    {| t_cls := t_cls t;
       t_nrows := t_nrows t;
       t_ncols := t_ncols t;
       t__dx := t__dx t;
       t_cellarea := t_cellarea t;
       t_num_nodes := t_num_nodes t;
       t_num_cells := t_num_cells t;
       t_num_active_cells := t_num_active_cells t;
       t_num_links := t_num_links t;
       t_num_faces := t_num_faces t;
       t_cell_node := t_cell_node t;
       t_node_activecell := t_node_activecell t;
       t_link_fromnode := t_link_fromnode t;
       t_link_tonode := t_link_tonode t;
       t_link_face := v;
       t_max_num_nbrs := t_max_num_nbrs t;
       t_link_length := t_link_length t;
       t_face_width := t_face_width t;
       t_active_cell_areas := t_active_cell_areas t |} g.

(** [RasterModelGrid.initialize] *)
Definition initialize (num_rows num_cols : Z) (dx : F)
  : ST (Grid F) unit :=
  (* Basic info about raster size and shape *)
  let* _ := modify (set_sizes num_rows num_cols dx) in
  (* the grid has to be at least 3x3 *)
  let* _ := assert (bool_decide (3 ≤ Z.min num_rows num_cols))
              EmptyString in
  let* _ := modify (set_lists num_rows num_cols) in
  (* set up the list of active links *)
  let* _ := if _SLOW then reset_list_of_active_links_slow
            else reset_list_of_active_links in
  (* set up link faces *)
  let* g := get in
  let* faces :=
    lift (sgrid.link_faces (num_rows, num_cols) (active_links g)) in
  modify (set_link_face faces).

Definition set_num_nodes (v : Z) g : Grid F :=
  let t := topology g in
  set_topology
    {| t_cls := t_cls t;
       t_nrows := t_nrows t;
       t_ncols := t_ncols t;
       t__dx := t__dx t;
       t_cellarea := t_cellarea t;
       t_num_nodes := v;
       t_num_cells := t_num_cells t;
       t_num_active_cells := t_num_active_cells t;
       t_num_links := t_num_links t;
       t_num_faces := t_num_faces t;
       t_cell_node := t_cell_node t;
       t_node_activecell := t_node_activecell t;
       t_link_fromnode := t_link_fromnode t;
       t_link_tonode := t_link_tonode t;
       t_link_face := t_link_face t;
       t_max_num_nbrs := t_max_num_nbrs t;
       t_link_length := t_link_length t;
       t_face_width := t_face_width t;
       t_active_cell_areas := t_active_cell_areas t |} g.

(** [RasterModelGrid.__init__], run on a fresh object: the grid built
    and the outcome of the constructor. *)
Definition RasterModelGrid (num_rows num_cols : Z) (dx : F)
  : Grid F * result unit :=
  (let* _ := modify (set_num_nodes (num_rows * num_cols)) in
   let* g := get in
   if bool_decide (0 < num_nodes g) then initialize num_rows num_cols dx
   else ret tt)
    (new_object RasterModelGrid_class).
End Raster.

(** ** Boundary handling *)

Section Boundaries.
Context {F : Type} `{Scalar F}.
Implicit Type g : Grid F.

(** [ModelGrid.set_fixed_value_boundaries] *)
Definition set_fixed_value_boundaries (node_ids : list Z)
  : ST (Grid F) unit :=
  let* g := get in
  let* status :=
    lift (np_put_scalar (node_status g) node_ids FIXED_VALUE_BOUNDARY) in
  let* _ := modify (set_node_status status) in
  if _SLOW then reset_list_of_active_links_slow
  else reset_list_of_active_links.

(** [ModelGrid.deactivate_nodata_nodes] *)
Definition deactivate_nodata_nodes (node_data : list F) (nodata_value : F)
  : ST (Grid F) unit :=
  (* Find locations where value equals the NODATA code and set these
     nodes as inactive boundaries. *)
  let nodata_locations :=
    np_where ((fun x => feqb x nodata_value) <$> node_data) in
  let* g := get in
  let* status :=
    lift (np_put_scalar (node_status g) nodata_locations
            INACTIVE_BOUNDARY) in
  let* _ := modify (set_node_status status) in
  (* Recreate the list of active cell IDs *)
  let* g := get in
  let node_ids := range 0 (num_nodes g) in
  let* cells :=
    lift (np_take node_ids
            (np_where (np_eq (node_status g) INTERIOR_NODE))) in
  let* _ := modify (set_activecell_node cells) in
  (* Recreate the list of active links *)
  reset_list_of_active_links.

(** [self.node_status[edge] = INACTIVE_BOUNDARY] or
    [FIXED_VALUE_BOUNDARY], by the flag of the edge. *)
Definition set_edge (edge : list Z) (is_inactive : bool)
  : ST (Grid F) unit :=
  let* g := get in
  let* status :=
    lift (np_put_scalar (node_status g) edge
            (if is_inactive then INACTIVE_BOUNDARY
             else FIXED_VALUE_BOUNDARY)) in
  modify (set_node_status status).

(** [RasterModelGrid.set_inactive_boundaries] *)
Definition set_inactive_boundaries
    (bottom_is_inactive right_is_inactive
     top_is_inactive left_is_inactive : bool) : ST (Grid F) unit :=
  let* g := get in
  let bottom_edge := range 0 (ncols g - 1) in
  let right_edge := range_step (ncols g - 1) (num_nodes g - 1) (ncols g) in
  let top_edge := range ((nrows g - 1) * ncols g + 1) (num_nodes g) in
  let left_edge := range_step (ncols g) (num_nodes g) (ncols g) in
  let* _ := set_edge bottom_edge bottom_is_inactive in
  let* _ := set_edge right_edge right_is_inactive in
  let* _ := set_edge top_edge top_is_inactive in
  let* _ := set_edge left_edge left_is_inactive in
  if _SLOW then reset_list_of_active_links_slow
  else reset_list_of_active_links.
End Boundaries.

(** ** The heap of arrays

    The value arrays handed to an operator ([s], [active_link_flux]), the
    optional output buffer and the array returned are numpy arrays owned
    by the caller: locations in a heap. *)

Abbreviation loc := positive.
Abbreviation heap F := (gmap positive (list F)).

Section Heap.
Context {F : Type}.

(** A new array *)
Definition alloc (v : list F) : ST (heap F) loc :=
  fun h => let l := fresh (dom h) in (<[l:=v]> h, Ok l).

(** The contents of an array. A location outside the heap is not a
    value that a caller can hold. *)
Definition load (l : loc) : ST (heap F) (list F) :=
  fun h => match h !! l with
           | Some v => (h, Ok v)
           | None => (h, Raise ValueError)
           end.

(** Overwriting the contents of an array in place *)
Definition store (l : loc) (v : list F) : ST (heap F) unit :=
  modify (fun h => <[l:=v]> h).

(** [a[i]] on the array at [l] *)
Definition load_item (l : loc) (i : Z) : ST (heap F) F :=
  let* a := load l in lift (getitem a i).

(** [a[i] = x] on the array at [l] *)
Definition store_item (l : loc) (i : Z) (x : F) : ST (heap F) unit :=
  let* a := load l in
  let* a' := lift (setitem a i x) in
  store l a'.
End Heap.

(** ** Differential operators *)

Section Operators.
Context {F : Type} `{Scalar F}.
Implicit Type g : Grid F.

(** The output array of an operator: a new array of [n] zeros when the
    caller supplied none. *)
Definition fresh_zeros (n : Z) : ST (heap F) loc :=
  let* z := lift (np_full n fzero) in alloc z.

(** One pass of the loop of
    [ModelGrid.calculate_gradients_at_active_links], for the active link
    number [entry.1], which is link [entry.2]. *)
Definition gradient_pass g (s gradient : loc) (entry : Z * Z)
  : ST (heap F) unit :=
  let active_link_id := entry.1 in
  let link_id := entry.2 in
  let* tonode := lift (getitem (link_tonode g) link_id) in
  let* s_to := load_item s tonode in
  let* fromnode := lift (getitem (link_fromnode g) link_id) in
  let* s_from := load_item s fromnode in
  let* length := lift (getitem (link_length g) link_id) in
  store_item gradient active_link_id (fdiv (fsub s_to s_from) length).

(** [ModelGrid.calculate_gradients_at_active_links] *)
Definition ModelGrid_calculate_gradients_at_active_links g
    (s : loc) (gradient : option loc) : ST (heap F) loc :=
  let* gradient :=
    match gradient with
    | None => fresh_zeros (num_active_links g)
    | Some l => ret l
    end in
  let* buf := load gradient in
  let* _ := assert (bool_decide (len buf = num_active_links g))
              "len(gradient)!=num_active_links" in
  let* _ := for_each (enumerate (active_links g))
              (gradient_pass g s gradient) in
  ret gradient.

(** [RasterModelGrid.calculate_gradients_at_active_links] *)
Definition RasterModelGrid_calculate_gradients_at_active_links g
    (s : loc) (gradient : option loc) : ST (heap F) loc :=
  let* gradient :=
    match gradient with
    | None => fresh_zeros (num_active_links g)
    | Some l => ret l
    end in
  let* buf := load gradient in
  let* _ := assert (bool_decide (len buf = num_active_links g))
              "len(gradient)!=num_active_links" in
  let* s_values := load s in
  let* s_to := lift (np_take s_values (activelink_tonode g)) in
  let* s_from := lift (np_take s_values (activelink_fromnode g)) in
  let* difference := lift (np_binop fsub s_to s_from) in
  alloc ((fun x => fdiv x (_dx g)) <$> difference).

(** The start of the flux-divergence operators of [RasterModelGrid]:
    check the flux array, then take a new array of zeros or zero the
    buffer supplied, and check its length. *)
Definition prepare_net_unit_flux g (active_link_flux : loc)
    (net_unit_flux : option loc) : ST (heap F) loc :=
  let* flux := load active_link_flux in
  let* _ := assert (bool_decide (len flux = num_active_links g))
              "incorrect length of active_link_flux array" in
  let* net_unit_flux :=
    match net_unit_flux with
    | None => fresh_zeros (num_nodes g)
    | Some l =>
        let* buf := load l in
        let* _ := store l (replicate (length buf) fzero) in
        ret l
    end in
  let* buf := load net_unit_flux in
  let* _ := assert (bool_decide (len buf = num_nodes g)) EmptyString in
  ret net_unit_flux.

(** The start of [ModelGrid.calculate_flux_divergence_at_nodes], which
    tests [net_unit_flux==False] where the methods of [RasterModelGrid]
    test [net_unit_flux is False]. On an array the comparison is made
    entry by entry, and [if] takes the truth value of the array of the
    outcomes: that of its entry when it has one entry (which is true when
    the entry of the buffer is zero), false when it has none, and a
    [ValueError] when it has more. *)
Definition prepare_net_unit_flux_eq g (active_link_flux : loc)
    (net_unit_flux : option loc) : ST (heap F) loc :=
  let* flux := load active_link_flux in
  let* _ := assert (bool_decide (len flux = num_active_links g))
              "incorrect length of active_link_flux array" in
  let* net_unit_flux :=
    match net_unit_flux with
    | None => fresh_zeros (num_nodes g)
    | Some l =>
        let* buf := load l in
        match buf with
        | [] => ret l
        | [x] =>
            if feqb x fzero then fresh_zeros (num_nodes g)
            else let* _ := store l [fzero] in ret l
        | _ => raise ValueError
        end
    end in
  let* buf := load net_unit_flux in
  let* _ := assert (bool_decide (len buf = num_nodes g)) EmptyString in
  ret net_unit_flux.

(** [a[i] += x] and [a[i] -= x] on the array at [l] *)
Definition iadd_item (l : loc) (i : Z) (x : F) : ST (heap F) unit :=
  let* old := load_item l i in store_item l i (fadd old x).
Definition isub_item (l : loc) (i : Z) (x : F) : ST (heap F) unit :=
  let* old := load_item l i in store_item l i (fsub old x).

(** One pass of the loop of
    [ModelGrid.calculate_flux_divergence_at_nodes]. *)
Definition flux_pass g (active_link_flux net_unit_flux : loc)
    (entry : Z * Z) : ST (heap F) unit :=
  let active_link_id := entry.1 in
  let link_id := entry.2 in
  let* from_node := lift (getitem (link_fromnode g) link_id) in
  let* from_cell := lift (getitem (node_activecell g) from_node) in
  let* to_node := lift (getitem (link_tonode g) link_id) in
  let* to_cell := lift (getitem (node_activecell g) to_node) in
  let* flux := load_item active_link_flux active_link_id in
  let* face := lift (getitem (link_face g) link_id) in
  let* width := lift (getitem (face_width g) face) in
  let total_flux := fmul flux width in
  let* _ :=
    if negb (from_cell =? BAD_INDEX_VALUE) then
      let* area := lift (getitem (active_cell_areas g) from_cell) in
      iadd_item net_unit_flux from_node (fdiv total_flux area)
    else ret tt in
  if negb (to_cell =? BAD_INDEX_VALUE) then
    let* area := lift (getitem (active_cell_areas g) to_cell) in
    isub_item net_unit_flux to_node (fdiv total_flux area)
  else ret tt.

(** [ModelGrid.calculate_flux_divergence_at_nodes] *)
Definition ModelGrid_calculate_flux_divergence_at_nodes g
    (active_link_flux : loc) (net_unit_flux : option loc)
  : ST (heap F) loc :=
  let* net_unit_flux :=
    prepare_net_unit_flux_eq g active_link_flux net_unit_flux in
  (* For each active link, add up the flux out of the "from" cell and
     into the "to" cell. *)
  let* _ := for_each (enumerate (active_links g))
              (flux_pass g active_link_flux net_unit_flux) in
  ret net_unit_flux.

(** [RasterModelGrid.calculate_flux_divergence_at_nodes] *)
Definition RasterModelGrid_calculate_flux_divergence_at_nodes g
    (active_link_flux : loc) (net_unit_flux : option loc)
  : ST (heap F) loc :=
  let* _ := prepare_net_unit_flux g active_link_flux net_unit_flux in
  let* alf := load active_link_flux in
  (* flux = numpy.zeros(len(active_link_flux)+1)
     flux[:len(active_link_flux)] = active_link_flux * self._dx *)
  let flux := ((fun x => fmul x (_dx g)) <$> alf) ++ [fzero] in
  let* out0 := lift (getitem (node_active_outlink_matrix g) 0) in
  let* flux_out0 := lift (np_take flux out0) in
  let* out1 := lift (getitem (node_active_outlink_matrix g) 1) in
  let* flux_out1 := lift (np_take flux out1) in
  let* outflux := lift (np_binop fadd flux_out0 flux_out1) in
  let* in0 := lift (getitem (node_active_inlink_matrix g) 0) in
  let* flux_in0 := lift (np_take flux in0) in
  let* in1 := lift (getitem (node_active_inlink_matrix g) 1) in
  let* flux_in1 := lift (np_take flux in1) in
  let* influx := lift (np_binop fadd flux_in0 flux_in1) in
  let* net := lift (np_binop fsub outflux influx) in
  alloc ((fun x => fdiv x (cellarea g)) <$> net).

(** One pass of the loop of
    [RasterModelGrid.calculate_flux_divergence_at_nodes_slow]. *)
Definition flux_pass_slow g (active_link_flux net_unit_flux : loc)
    (entry : Z * Z) : ST (heap F) unit :=
  let active_link_id := entry.1 in
  let link_id := entry.2 in
  let* from_node := lift (getitem (link_fromnode g) link_id) in
  let* from_cell := lift (getitem (node_activecell g) from_node) in
  let* to_node := lift (getitem (link_tonode g) link_id) in
  let* to_cell := lift (getitem (node_activecell g) to_node) in
  let* flux := load_item active_link_flux active_link_id in
  let total_flux := fmul flux (_dx g) in
  let* _ :=
    if negb (from_cell =? BAD_INDEX_VALUE) then
      iadd_item net_unit_flux from_node (fdiv total_flux (cellarea g))
    else ret tt in
  if negb (to_cell =? BAD_INDEX_VALUE) then
    isub_item net_unit_flux to_node (fdiv total_flux (cellarea g))
  else ret tt.

(** [RasterModelGrid.calculate_flux_divergence_at_nodes_slow] *)
Definition RasterModelGrid_calculate_flux_divergence_at_nodes_slow g
    (active_link_flux : loc) (net_unit_flux : option loc)
  : ST (heap F) loc :=
  let* net_unit_flux :=
    prepare_net_unit_flux g active_link_flux net_unit_flux in
  (* For each active link, add up the flux out of the "from" cell and
     into the "to" cell. *)
  let* _ := for_each (enumerate (active_links g))
              (flux_pass_slow g active_link_flux net_unit_flux) in
  ret net_unit_flux.

(** Method resolution: a call of [grid.calculate_gradients_at_active_links]
    or [grid.calculate_flux_divergence_at_nodes] runs the override of
    [RasterModelGrid] on a raster grid and the method of [ModelGrid]
    otherwise. *)
Definition calculate_gradients_at_active_links g :=
  match cls g with
  | RasterModelGrid_class =>
      RasterModelGrid_calculate_gradients_at_active_links g
  | ModelGrid_class => ModelGrid_calculate_gradients_at_active_links g
  end.

Definition calculate_flux_divergence_at_nodes g :=
  match cls g with
  | RasterModelGrid_class =>
      RasterModelGrid_calculate_flux_divergence_at_nodes g
  | ModelGrid_class => ModelGrid_calculate_flux_divergence_at_nodes g
  end.
End Operators.

(** ** Building a grid from named settings *)

(** Modelled from the spec: [mpd.ModelParameterDictionary], the
    configuration source, which is not part of the source at hand:
    "read-string/read-int/read-float accessors keyed by name". A setting
    is a string, an integer or a float; reading a name that is not there,
    or with the wrong accessor, raises. *)
Inductive setting (F : Type) : Type :=
  | SString (s : string)
  | SInt (n : Z)
  | SFloat (x : F).
Arguments SString {F} s.
Arguments SInt {F} n.
Arguments SFloat {F} x.

Abbreviation ModelParameterDictionary F := (gmap string (setting F)).

Section Settings.
Context {F : Type}.

Definition read_string (d : ModelParameterDictionary F) (name : string)
  : result string :=
  match d !! name with
  | Some (SString s) => Ok s
  | Some _ => Raise ValueError
  | None => Raise (KeyError name)
  end.

Definition read_int (d : ModelParameterDictionary F) (name : string)
  : result Z :=
  match d !! name with
  | Some (SInt n) => Ok n
  | Some _ => Raise ValueError
  | None => Raise (KeyError name)
  end.

Definition read_float (d : ModelParameterDictionary F) (name : string)
  : result F :=
  match d !! name with
  | Some (SFloat x) => Ok x
  | Some _ => Raise ValueError
  | None => Raise (KeyError name)
  end.

(** [param_dict.get(name, default)] *)
Definition get_setting (d : ModelParameterDictionary F) (name : string)
    (default : string) : setting F :=
  match d !! name with
  | Some v => v
  | None => SString default
  end.
End Settings.

(** [str.lower] *)
Definition lower_ascii (c : Ascii.ascii) : Ascii.ascii :=
  let n := Ascii.nat_of_ascii c in
  if ((65 <=? n) && (n <=? 90))%nat then Ascii.ascii_of_nat (n + 32) else c.

Fixpoint lower (s : string) : string :=
  match s with
  | EmptyString => EmptyString
  | String c s' => String (lower_ascii c) (lower s')
  end.

(** [str.strip]: the string without the blanks at its two ends (space,
    tab, line feed, vertical tab, form feed, carriage return). *)
Definition is_blank (c : Ascii.ascii) : bool :=
  let n := Ascii.nat_of_ascii c in
  ((9 <=? n) && (n <=? 13) || (n =? 32))%nat.

Fixpoint lstrip (s : string) : string :=
  match s with
  | EmptyString => EmptyString
  | String c s' => if is_blank c then lstrip s' else s
  end.

Fixpoint rstrip (s : string) : string :=
  match s with
  | EmptyString => EmptyString
  | String c s' =>
      match rstrip s' with
      | EmptyString => if is_blank c then EmptyString else String c EmptyString
      | rest => String c rest
      end
  end.

Definition strip (s : string) : string := rstrip (lstrip s).

(** [_is_closed_boundary]; only a string has [lower]. *)
Definition _is_closed_boundary {F} (boundary_string : setting F)
  : result bool :=
  match boundary_string with
  | SString s => Ok (bool_decide (lower s = "closed"))
  | _ => Raise (AttributeError "lower")
  end.

Section Factory.
Context {F : Type} `{Scalar F}.

(** The raster branch of [create_and_initialize_grid]. *)
Definition create_raster (param_dict : ModelParameterDictionary F)
  : result (Grid F) :=
  (* Read and create basic raster grid *)
  let+ nrows := read_int param_dict "NUM_ROWS" in
  let+ ncols := read_int param_dict "NUM_COLS" in
  let+ dx := read_float param_dict "GRID_SPACING" in
  let built := RasterModelGrid nrows ncols dx in
  let+ _ := built.2 in
  let mg := built.1 in
  (* Set boundaries *)
  let left_boundary_type := get_setting param_dict "LEFT_BOUNDARY" "open" in
  let right_boundary_type :=
    get_setting param_dict "RIGHT_BOUNDARY" "open" in
  let top_boundary_type := get_setting param_dict "TOP_BOUNDARY" "open" in
  let bottom_boundary_type :=
    get_setting param_dict "BOTTOM_BOUNDARY" "open" in
  let+ bottom := _is_closed_boundary bottom_boundary_type in
  let+ right := _is_closed_boundary right_boundary_type in
  let+ top := _is_closed_boundary top_boundary_type in
  let+ left := _is_closed_boundary left_boundary_type in
  let changed := set_inactive_boundaries bottom right top left mg in
  let+ _ := changed.2 in
  Ok changed.1.

(** [create_and_initialize_grid], on a parameter dictionary: the lines
    printed and the value returned ([None] is Python's [None]) or the
    exception raised. The statement [grid_type.strip().lower()] of the
    source discards its value, so the name read is compared as it is. *)
Definition create_and_initialize_grid
    (input_source : ModelParameterDictionary F)
  : list string * result (option (Grid F)) :=
  let param_dict := input_source in
  (* Find out what type of grid the user wants *)
  match read_string param_dict "GRID_TYPE" with
  | Raise e => ([], Raise e)
  | Ok grid_type =>
      (* Read parameters appropriate to that type, create it, and
         initialize it *)
      if bool_decide (grid_type = "raster") then
        ([], let+ mg := create_raster param_dict in Ok (Some mg))
      else
        (["Non-raster grids not yet available in ModelGrid"], Ok None)
  end.
End Factory.

(** * More of the module: array helpers, queries and slow forms *)

(** ** More sequence operations *)

(** An assertion outside a method with state. *)
Definition check (b : bool) (msg : string) : result unit :=
  if b then Ok tt else Raise (AssertionError msg).

(** A loop that threads a value and may raise. *)
Fixpoint rfoldl {A B} (f : B → A → result B) (b : B) (l : list A)
  : result B :=
  match l with
  | [] => Ok b
  | x :: l' => let+ b' := f b x in rfoldl f b' l'
  end.

(** [range(a, b, -1)] *)
Definition range_down (a b : Z) : list Z :=
  (fun i => a - i) <$> seqZ 0 (a - b).

(** [l[start:stop]]: a bound below zero counts from the end, and both
    bounds are clipped to the sequence. *)
Definition py_slice {A} (l : list A) (start stop : Z) : list A :=
  let n := len l in
  let clip i :=
    if bool_decide (i < 0) then Z.max (i + n) 0 else Z.min i n in
  take (Z.to_nat (clip stop - clip start)) (drop (Z.to_nat (clip start)) l).

(** [a[i] += 1] on an integer array *)
Definition increment (a : list Z) (i : Z) : result (list Z) :=
  let+ old := getitem a i in setitem a i (old + 1).

(** [rast[r,:] = v] on a two-dimensional array: the value has the length
    of the row, or one element that is broadcast; other lengths raise. *)
Definition set_row {A} (rast : list (list A)) (r : Z) (v : list A)
  : result (list (list A)) :=
  let+ row := getitem rast r in
  let+ row' :=
    if bool_decide (length v = length row) then Ok v
    else match v with
         | [x] => Ok (replicate (length row) x)
         | _ => Raise ValueError
         end in
  setitem rast r row'.

(** ** Array lengths by centering ([ModelGrid.zeros]) *)

(** What a call of the module raises: its own exception
    [BadCenteringString], which keeps the centering string, or a built-in
    exception. *)
Inductive raised : Type :=
  | BadCenteringString (_centering : string)
  | Builtin (e : exn).

Inductive outcome (A : Type) : Type :=
  | Returned (a : A)
  | Raised (e : raised).
Arguments Returned {A} a.
Arguments Raised {A} e.

(** Map names grid elements to the ModelGrid attribute that contains the
    count of that element in the grid. *)
Definition _ARRAY_LENGTH_ATTRIBUTES : gmap string string :=
  list_to_map
    [("node", "num_nodes"); ("cell", "num_active_cells");
     ("link", "num_active_links"); ("face", "num_faces")].

Section Centering.
Context {F : Type} `{Scalar F}.
Implicit Type g : Grid F.

(** [getattr(self, name)] for the attributes that hold a count, on an
    object on which they have been assigned (a count that has not been
    assigned reads as 0 here, where Python raises [AttributeError]). *)
Definition getattr_count g (name : string) : result Z :=
  if bool_decide (name = "num_nodes") then Ok (num_nodes g)
  else if bool_decide (name = "num_cells") then Ok (num_cells g)
  else if bool_decide (name = "num_active_cells")
       then Ok (num_active_cells g)
  else if bool_decide (name = "num_links") then Ok (num_links g)
  else if bool_decide (name = "num_active_links")
       then Ok (num_active_links g)
  else if bool_decide (name = "num_faces") then Ok (num_faces g)
  else Raise (AttributeError name).

(** [ModelGrid._array_length]: a [KeyError] of the look-up becomes
    [BadCenteringString]. *)
Definition _array_length g (centering : string) : outcome Z :=
  match _ARRAY_LENGTH_ATTRIBUTES !! centering with
  | None => Raised (BadCenteringString centering)
  | Some name =>
      match getattr_count g name with
      | Ok n => Returned n
      | Raise (KeyError _) => Raised (BadCenteringString centering)
      | Raise e => Raised (Builtin e)
      end
  end.

(** [ModelGrid.zeros], called with no keyword ([centering = None]) or
    with [centering=...] alone. *)
Definition zeros g (centering : option string) : outcome (list F) :=
  let centering := default "node" centering in
  match _array_length g centering with
  | Raised e => Raised e
  | Returned n =>
      match np_full n fzero with
      | Ok a => Returned a
      | Raise e => Raised (Builtin e)
      end
  end.
End Centering.

(** ** Queries on the links *)

Section Queries.
Context {F : Type}.
Implicit Type g : Grid F.

(** The test of [ModelGrid.get_active_link_connecting_node_pair],
    [(fromnode[alink]==node1 and tonode[alink]==node2) or
     (tonode[alink]==node1 and fromnode[alink]==node2)],
    evaluated from left to right as Python does. *)
Definition connects (fromnode tonode : list Z) (node1 node2 alink : Z)
  : result bool :=
  let+ first :=
    (let+ f := getitem fromnode alink in
     if f =? node1
     then (let+ t := getitem tonode alink in Ok (t =? node2))
     else Ok false) in
  if (first : bool) then Ok true
  else
    let+ t := getitem tonode alink in
    if t =? node1
    then (let+ f := getitem fromnode alink in Ok (f =? node2))
    else Ok false.

(** The loop of [get_active_link_connecting_node_pair]: it stops at the
    first link that passes the test. *)
Fixpoint first_connecting (fromnode tonode : list Z) (node1 node2 : Z)
    (alinks : list Z) : result (option Z) :=
  match alinks with
  | [] => Ok None
  | alink :: rest =>
      let+ hit := connects fromnode tonode node1 node2 alink in
      if (hit : bool) then Ok (Some alink)
      else first_connecting fromnode tonode node1 node2 rest
  end.

(** [ModelGrid.get_active_link_connecting_node_pair]; [None] is Python's
    [None]. *)
Definition get_active_link_connecting_node_pair g (node1 node2 : Z)
  : result (option Z) :=
  first_connecting (activelink_fromnode g) (activelink_tonode g)
    node1 node2 (range 0 (num_active_links g)).

(** [ModelGrid.calculate_numbers_of_node_neighbors] *)
Definition calculate_numbers_of_node_neighbors g : result (list Z) :=
  let+ num_nbrs := np_full (num_nodes g) 0 in
  rfoldl
    (fun num_nbrs link =>
       let+ fromnode := getitem (link_fromnode g) link in
       let+ num_nbrs := increment num_nbrs fromnode in
       let+ tonode := getitem (link_tonode g) link in
       increment num_nbrs tonode)
    num_nbrs (range 0 (num_links g)).
End Queries.

(** ** Vectors as rasters *)

Section Rasters.
Context {F : Type} `{Scalar F}.
Implicit Type g : Grid F.

(** The loop of [node_vector_to_raster] and [cell_vector_to_raster]:
    [for r in rows: rast[r,:] = u[id:(id+width)]; id += width]. *)
Fixpoint fill_raster (u : list F) (width : Z) (rows : list Z) (id : Z)
    (rast : list (list F)) : result (list (list F)) :=
  match rows with
  | [] => Ok rast
  | r :: rows' =>
      let+ rast' := set_row rast r (py_slice u id (id + width)) in
      fill_raster u width rows' (id + width) rast'
  end.

(** [RasterModelGrid.node_vector_to_raster] *)
Definition node_vector_to_raster g (u : list F) (flip_vertically : bool)
  : result (list (list F)) :=
  let+ _ := check (bool_decide (len u = num_nodes g))
              ("u should have " +:+ pretty (num_nodes g) +:+ " elements") in
  let+ rast := np_full2 (nrows g) (ncols g) fzero in
  let rows :=
    if flip_vertically then range_down (nrows g - 1) (-1)
    else range 0 (nrows g) in
  fill_raster u (ncols g) rows 0 rast.

(** [RasterModelGrid.cell_vector_to_raster] *)
Definition cell_vector_to_raster g (u : list F) (flip_vertically : bool)
  : result (list (list F)) :=
  let+ _ := check (bool_decide (len u = num_cells g))
              ("u should have " +:+ pretty (num_cells g) +:+ " elements") in
  let+ rast := np_full2 (nrows g - 2) (ncols g - 2) fzero in
  let rows :=
    if flip_vertically then range_down (nrows g - 3) (-1)
    else range 0 (nrows g - 2) in
  fill_raster u (ncols g - 2) rows 0 rast.
End Rasters.

(** ** Slow forms and the operators on active cells *)

Section SlowOperators.
Context {F : Type} `{Scalar F}.
Implicit Type g : Grid F.

(** One pass of the loop of
    [RasterModelGrid.calculate_gradients_at_active_links_slow]. *)
Definition gradient_pass_slow g (s gradient : loc) (entry : Z * Z)
  : ST (heap F) unit :=
  let active_link_id := entry.1 in
  let link_id := entry.2 in
  let* tonode := lift (getitem (link_tonode g) link_id) in
  let* s_to := load_item s tonode in
  let* fromnode := lift (getitem (link_fromnode g) link_id) in
  let* s_from := load_item s fromnode in
  store_item gradient active_link_id (fdiv (fsub s_to s_from) (_dx g)).

(** [RasterModelGrid.calculate_gradients_at_active_links_slow] *)
Definition RasterModelGrid_calculate_gradients_at_active_links_slow g
    (s : loc) (gradient : option loc) : ST (heap F) loc :=
  let* gradient :=
    match gradient with
    | None => fresh_zeros (num_active_links g)
    | Some l => ret l
    end in
  let* buf := load gradient in
  let* _ := assert (bool_decide (len buf = num_active_links g))
              "len(gradient)!=num_active_links" in
  let* _ := for_each (enumerate (active_links g))
              (gradient_pass_slow g s gradient) in
  ret gradient.

(** The start of the operators on active cells: check the flux array,
    then take a new array of zeros or zero the buffer supplied, and
    check its length. *)
Definition prepare_cell_flux g (active_link_flux : loc)
    (net_unit_flux : option loc) : ST (heap F) loc :=
  let* flux := load active_link_flux in
  let* _ := assert (bool_decide (len flux = num_active_links g))
              "incorrect length of active_link_flux array" in
  let* net_unit_flux :=
    match net_unit_flux with
    | None => fresh_zeros (num_active_cells g)
    | Some l =>
        let* buf := load l in
        let* _ := store l (replicate (length buf) fzero) in
        ret l
    end in
  let* buf := load net_unit_flux in
  let* _ := assert (bool_decide (len buf = num_active_cells g))
              EmptyString in
  ret net_unit_flux.

(** [RasterModelGrid.calculate_flux_divergence_at_active_cells]: the
    values at nodes, computed without a buffer, sliced at the nodes of
    the active cells. *)
Definition RasterModelGrid_calculate_flux_divergence_at_active_cells g
    (active_link_flux : loc) (net_unit_flux : option loc)
  : ST (heap F) loc :=
  let* _ := prepare_cell_flux g active_link_flux net_unit_flux in
  let* node_net_unit_flux :=
    calculate_flux_divergence_at_nodes g active_link_flux None in
  let* values := load node_net_unit_flux in
  let* net_unit_flux := lift (np_take values (activecell_node g)) in
  alloc net_unit_flux.

(** One pass of the loop of
    [RasterModelGrid.calculate_flux_divergence_at_active_cells_slow]. *)
Definition cell_flux_pass_slow g (active_link_flux net_unit_flux : loc)
    (entry : Z * Z) : ST (heap F) unit :=
  let active_link_id := entry.1 in
  let link_id := entry.2 in
  let* from_node := lift (getitem (link_fromnode g) link_id) in
  let* from_cell := lift (getitem (node_activecell g) from_node) in
  let* to_node := lift (getitem (link_tonode g) link_id) in
  let* to_cell := lift (getitem (node_activecell g) to_node) in
  let* flux := load_item active_link_flux active_link_id in
  let total_flux := fmul flux (_dx g) in
  let* _ :=
    if negb (from_cell =? BAD_INDEX_VALUE) then
      iadd_item net_unit_flux from_cell total_flux
    else ret tt in
  if negb (to_cell =? BAD_INDEX_VALUE) then
    isub_item net_unit_flux to_cell total_flux
  else ret tt.

(** [RasterModelGrid.calculate_flux_divergence_at_active_cells_slow]:
    the division by the cell area makes a new array. *)
Definition RasterModelGrid_calculate_flux_divergence_at_active_cells_slow
    g (active_link_flux : loc) (net_unit_flux : option loc)
  : ST (heap F) loc :=
  let* net_unit_flux :=
    prepare_cell_flux g active_link_flux net_unit_flux in
  let* _ := for_each (enumerate (active_links g))
              (cell_flux_pass_slow g active_link_flux net_unit_flux) in
  let* totals := load net_unit_flux in
  alloc ((fun x => fdiv x (cellarea g)) <$> totals).
End SlowOperators.

(** * Vocabulary of the properties *)

(** ** Frames of computations *)

Section FrameVocabulary.
Context {S : Type}.

(** A computation keeps the part [π] of the state when it never changes
    it, whatever the outcome. *)
Definition keeps {A T} (π : S → T) (m : ST S A) : Prop :=
  ∀ s, π (m s).1 = π s.
End FrameVocabulary.

Section GridVocabulary.
Context {F : Type}.
Implicit Type g : Grid F.

(** Everything but the four matrix attributes. *)
Definition outside_matrices g :=
  (topology g, node_status g, activecell_node g,
   (active_links g, num_active_links g,
    activelink_fromnode g, activelink_tonode g)).

(** Everything the active-link structures are derived from. *)
Definition outside_active g :=
  (topology g, node_status g, activecell_node g).

(** The link lists can be read: they have one length and every end is an
    index into the status array (in Python's sense, so from [-n] to
    [n-1]). *)
Definition links_readable g : Prop :=
  length (link_fromnode g) = length (link_tonode g)
  ∧ Forall (fun n => - len (node_status g) ≤ n < len (node_status g))
      (link_fromnode g)
  ∧ Forall (fun n => - len (node_status g) ≤ n < len (node_status g))
      (link_tonode g).

(** The four attributes that describe the active links. *)
Definition active_link_lists g :=
  (active_links g, num_active_links g,
   activelink_fromnode g, activelink_tonode g).
End GridVocabulary.

Section HeapVocabulary.
Context {F : Type}.

(** A heap extends another when every array of the other is in it,
    unchanged. *)
Definition extends (h h' : heap F) : Prop :=
  ∀ l v, h !! l = Some v → h' !! l = Some v.

(** A computation only allocates when the heap it ends with extends the
    heap it started from. *)
Definition only_allocates {A} (m : ST (heap F) A) : Prop :=
  ∀ h, extends h (m h).1.
End HeapVocabulary.

Section OperatorVocabulary.
Context {F : Type} `{Scalar F}.
Implicit Type g : Grid F.

(** The active-link attributes are up to date: the count and the two
    node lists are those of [active_links], as after
    [reset_list_of_active_links]. *)
Definition active_links_current g : Prop :=
  num_active_links g = len (active_links g)
  ∧ np_take (link_fromnode g) (active_links g)
    = Ok (activelink_fromnode g)
  ∧ np_take (link_tonode g) (active_links g) = Ok (activelink_tonode g).

(** The length of a link: the entry of [link_length], and the grid
    spacing on a raster grid, which keeps no such array. *)
Definition link_length_of g (link_id : Z) : result F :=
  match cls g with
  | RasterModelGrid_class => Ok (_dx g)
  | ModelGrid_class => getitem (link_length g) link_id
  end.

(** The value that the loop of the [ModelGrid] version stores for a
    link, over the node values [sv]. *)
Definition gradient_value g (sv : list F) (link_id : Z) : result F :=
  let+ tonode := getitem (link_tonode g) link_id in
  let+ s_to := getitem sv tonode in
  let+ fromnode := getitem (link_fromnode g) link_id in
  let+ s_from := getitem sv fromnode in
  let+ length := getitem (link_length g) link_id in
  Ok (fdiv (fsub s_to s_from) length).

(** The array [out] is zero at every node without a cell. *)
Definition zero_without_cell g (out : list F) : Prop :=
  ∀ j, node_activecell g !! j = Some BAD_INDEX_VALUE →
       (j < length out)%nat → out !! j = Some fzero.

(** What one pass of the loop of the [ModelGrid] version reads from the
    grid for a link: the two ends, their cells, the width of the face
    and the areas of the cells that exist. *)
Definition flux_link_data g (link_id : Z) : result (Z * Z * Z * Z * F) :=
  let+ from_node := getitem (link_fromnode g) link_id in
  let+ from_cell := getitem (node_activecell g) from_node in
  let+ to_node := getitem (link_tonode g) link_id in
  let+ to_cell := getitem (node_activecell g) to_node in
  let+ face := getitem (link_face g) link_id in
  let+ width := getitem (face_width g) face in
  let+ _ := if negb (from_cell =? BAD_INDEX_VALUE)
            then getitem (active_cell_areas g) from_cell else Ok fzero in
  let+ _ := if negb (to_cell =? BAD_INDEX_VALUE)
            then getitem (active_cell_areas g) to_cell else Ok fzero in
  Ok (from_node, from_cell, to_node, to_cell, width).
End OperatorVocabulary.

(** ** Link matrices *)

(** The position of occurrence number [k] of [v] in [x], or -1. *)
Definition occurrence (k : nat) (v : Z) (x : list Z) : Z :=
  default (-1) (positions v x !! k).

(** The loop of [fill_link_matrix] on the matrix alone. *)
Fixpoint fill_rows (m : list (list Z))
    (entries : list (Z * (list Z * list Z))) : result (list (list Z)) :=
  match entries with
  | [] => Ok m
  | e :: rest =>
      let+ row := getitem m e.1 in
      let+ row' := np_put row e.2.1 e.2.2 in
      let+ m' := setitem m e.1 row' in
      fill_rows m' rest
  end.

(** Entry [k] of [count_repeated_values x]. *)
Definition round (x : list Z) (k : nat) : list Z * list Z :=
  let vs :=
    filter (fun v => (k < length (positions v x))%nat) (np_unique x) in
  (vs, (fun v => positions v x !!! k) <$> vs).

Definition repeats (x : list Z) : nat :=
  foldr (fun v m => Nat.max (length (positions v x)) m) 0%nat
    (np_unique x).

(** The rows of the matrix: those below [k0] are filled, the others
    still hold -1 everywhere. *)
Definition filled_below (x : list Z) (N : nat) (k0 : nat) (m : list (list Z)) : Prop :=
  ∀ k row, m !! k = Some row →
    length row = N
    ∧ ((k < k0)%nat →
       ∀ n, 0 ≤ n < Z.of_nat N →
            row !! Z.to_nat n = Some (occurrence k n x))
    ∧ ((k0 ≤ k)%nat → row = replicate N (-1)).

(** The matrix [m], of [rows] rows and [N] columns, holds in row [k] and
    column [n] the position of occurrence number [k] of the node [n] in
    the node list [x], or -1: the inlink matrix of the to-nodes, the
    outlink matrix of the from-nodes. *)
Definition link_matrix_of (m : list (list Z)) (x : list Z) (rows N : nat)
  : Prop :=
  length m = rows
  ∧ ∀ k row, m !! k = Some row →
      length row = N
      ∧ ∀ n, 0 ≤ n < Z.of_nat N →
             row !! Z.to_nat n = Some (occurrence k n x).

(** The entries of [l] at the positions where [mask] holds. *)
Fixpoint select {A} (mask : list bool) (l : list A) : list A :=
  match mask, l with
  | b :: mask', a :: l' =>
      if b then a :: select mask' l' else select mask' l'
  | _, _ => []
  end.

Section RasterVocabulary.
Context {F : Type}.
Implicit Type g : Grid F.

(** The links of a raster grid: the two link lists have one length,
    every end of a link is a node, the status array and the cell array
    have one entry per node, and no node has more than two links
    arriving or more than two links leaving. *)
Definition raster_links_ok g : Prop :=
  cls g = RasterModelGrid_class
  ∧ length (link_fromnode g) = length (link_tonode g)
  ∧ len (node_status g) = num_nodes g
  ∧ len (node_activecell g) = num_nodes g
  ∧ Forall (fun n => 0 ≤ n < num_nodes g) (link_fromnode g)
  ∧ Forall (fun n => 0 ≤ n < num_nodes g) (link_tonode g)
  ∧ (∀ n, (length (positions n (link_fromnode g)) ≤ 2)%nat)
  ∧ (∀ n, (length (positions n (link_tonode g)) ≤ 2)%nat).

(** The status of the two ends of every link, and the mask of the
    active links. *)
Definition active_mask g : list bool :=
  zip_with
    (fun f t =>
       link_is_active
         (default 0 (node_status g !! Z.to_nat f))
         (default 0 (node_status g !! Z.to_nat t)))
    (link_fromnode g) (link_tonode g).
End RasterVocabulary.

(** The status of a node of the raster of [R] rows and [C] columns under
    the default boundary. *)
Definition default_status (R C : Z) (n : Z) : Z :=
  default 0 (sgrid.node_status (R, C) FIXED_VALUE_BOUNDARY !! Z.to_nat n).

(** ** Fluxes at a node *)

Section FluxVocabulary.
Context {F : Type} `{Scalar F}.
Implicit Type g : Grid F.

(** The value, among the values [w] of the active links, of the link
    that is occurrence number [k] of the node [p] in the node list [x];
    zero when the node occurs less often. *)
Definition gathered (w : list F) (k : nat) (p : Z) (x : list Z) : F :=
  match positions p x !! k with
  | Some j => default fzero (w !! Z.to_nat j)
  | None => fzero
  end.

(** The flux through the face of every active link: the unit flux times
    the grid spacing. *)
Definition link_fluxes g (fl : list F) : list F :=
  (fun x => fmul x (_dx g)) <$> fl.

(** The net flux at the node [p] as the whole-array form combines it:
    the fluxes of the first and the second active link leaving the node,
    minus those of the first and the second active link arriving, over
    the cell area. *)
Definition gather_net g (fl : list F) (p : Z) : F :=
  let w := link_fluxes g fl in
  fdiv
    (fsub
       (fadd (gathered w 0 p (activelink_fromnode g))
             (gathered w 1 p (activelink_fromnode g)))
       (fadd (gathered w 0 p (activelink_tonode g))
             (gathered w 1 p (activelink_tonode g))))
    (cellarea g).

(** One pass of a loop over the links, seen from [p]: the value [v] of
    the link is added when the link leaves [p] and then subtracted when
    it arrives at [p]. *)
Definition net_step (p f t : Z) (v acc : F) : F :=
  let acc := if f =? p then fadd acc v else acc in
  if t =? p then fsub acc v else acc.

(** The running total at [p] after the links with ends [fs] and [ts]
    and values [vs], taken in order, starting from [acc]. *)
Fixpoint running_net (p : Z) (fs ts : list Z) (vs : list F) (acc : F) : F :=
  match fs, ts, vs with
  | f :: fs', t :: ts', v :: vs' =>
      running_net p fs' ts' vs' (net_step p f t v acc)
  | _, _, _ => acc
  end.

(** The net flux at the node [p] as the loop form accumulates it: every
    active link in turn adds or subtracts its flux over the cell
    area. *)
Definition loop_net g (fl : list F) (p : Z) : F :=
  running_net p (activelink_fromnode g) (activelink_tonode g)
    ((fun x => fdiv (fmul x (_dx g)) (cellarea g)) <$> fl) fzero.

(** The sum of the values [w] of the links whose node in [x] is [p]. *)
Fixpoint sum_at (p : Z) (x : list Z) (w : list F) : F :=
  match x, w with
  | n :: x', v :: w' =>
      if n =? p then fadd v (sum_at p x' w') else sum_at p x' w'
  | _, _ => fzero
  end.

(** The arithmetic of the values is exact: addition, subtraction and
    multiplication are those of a commutative ring, and division is
    multiplication by an inverse. The rationals in lowest terms are
    such values; [float64], which rounds every result, is not. *)
Definition exact_arithmetic : Prop :=
  ∃ (one : F) (opp inv : F → F),
    ring_theory fzero one fadd fmul fsub opp eq
    ∧ ∀ x y, fdiv x y = fmul x (inv y).

(** What the flux divergence at nodes needs of the grid, by the class of
    the grid: for the loop of [ModelGrid], an up-to-date count of the
    active links, one cell entry per node, and links whose ends, faces
    and cell areas can be read; for the array expression of
    [RasterModelGrid], active-link attributes that have just been
    derived on a raster. *)
Definition flux_divergence_ready g : Prop :=
  match cls g with
  | ModelGrid_class =>
      num_active_links g = len (active_links g)
      ∧ len (node_activecell g) = num_nodes g
      ∧ Forall (fun l => ∃ data, flux_link_data g l = Ok data)
          (active_links g)
  | RasterModelGrid_class =>
      ∃ g0, raster_links_ok g0
            ∧ reset_list_of_active_links g0 = (g, Ok tt)
  end.
End FluxVocabulary.
Arguments exact_arithmetic F {_}.

(** ** Vocabulary of the queries and of the rasters *)

(** How often [v] occurs in [x]. *)
Definition occurrences (v : Z) (x : list Z) : Z :=
  len (filter (fun w => w = v) x).

(** Entry [alink] of the two node lists joins [node1] and [node2], in
    either direction. *)
Definition joined (fromnode tonode : list Z) (alink node1 node2 : Z)
  : Prop :=
  ∃ f t,
    fromnode !! Z.to_nat alink = Some f
    ∧ tonode !! Z.to_nat alink = Some t
    ∧ ((f = node1 ∧ t = node2) ∨ (t = node1 ∧ f = node2)).

(** The active link number [alink] joins [node1] and [node2]. *)
Definition joins {F} (g : Grid F) (alink node1 node2 : Z) : Prop :=
  joined (activelink_fromnode g) (activelink_tonode g) alink node1 node2.

(** Piece number [j] of [u] cut into pieces of [width] entries. *)
Definition chunk {A} (u : list A) (width : Z) (j : Z) : list A :=
  take (Z.to_nat width) (drop (Z.to_nat (j * width)) u).

(** The first [n] pieces of [u]. *)
Definition chunks {A} (u : list A) (width : Z) (n : Z) : list (list A) :=
  chunk u width <$> seqZ 0 n.

Section SlowVocabulary.
Context {F : Type} `{Scalar F}.
Implicit Type g : Grid F.

(** The value that the loop of
    [RasterModelGrid.calculate_gradients_at_active_links_slow] stores for
    a link, over the node values [sv]. *)
Definition gradient_value_slow g (sv : list F) (link_id : Z) : result F :=
  let+ tonode := getitem (link_tonode g) link_id in
  let+ s_to := getitem sv tonode in
  let+ fromnode := getitem (link_fromnode g) link_id in
  let+ s_from := getitem sv fromnode in
  Ok (fdiv (fsub s_to s_from) (_dx g)).
End SlowVocabulary.

(** The entry of node [n] in [node_data] is the no-data value. *)
Definition nodata_at {F} `{Scalar F} (node_data : list F) (nodata_value : F)
    (n : Z) : bool :=
  match node_data !! Z.to_nat n with
  | Some x => feqb x nodata_value
  | None => false
  end.

(** The counts [num] and the matrix [m] of two rows after the first [k]
    entries of the node list [x] have been entered, on a grid of [N]
    nodes. *)
Definition entered (x : list Z) (k : nat) (N : nat) (num : list Z)
    (m : list (list Z)) : Prop :=
  length num = N
  ∧ (∀ n, 0 ≤ n < Z.of_nat N →
          num !! Z.to_nat n = Some (occurrences n (take k x)))
  ∧ link_matrix_of m (take k x) 2 N.

Section CellVocabulary.
Context {F : Type} `{Scalar F}.
Implicit Type g : Grid F.

(** The array expression of
    [RasterModelGrid.calculate_flux_divergence_at_nodes] on the fluxes
    [fl]: the values that the operator returns. *)
Definition raster_node_values g (fl : list F) : result (list F) :=
  let flux := ((fun x => fmul x (_dx g)) <$> fl) ++ [fzero] in
  let+ out0 := getitem (node_active_outlink_matrix g) 0 in
  let+ flux_out0 := np_take flux out0 in
  let+ out1 := getitem (node_active_outlink_matrix g) 1 in
  let+ flux_out1 := np_take flux out1 in
  let+ outflux := np_binop fadd flux_out0 flux_out1 in
  let+ in0 := getitem (node_active_inlink_matrix g) 0 in
  let+ flux_in0 := np_take flux in0 in
  let+ in1 := getitem (node_active_inlink_matrix g) 1 in
  let+ flux_in1 := np_take flux in1 in
  let+ influx := np_binop fadd flux_in0 flux_in1 in
  let+ net := np_binop fsub outflux influx in
  Ok ((fun x => fdiv x (cellarea g)) <$> net).

(** The cell of a node and the node of a cell agree: the node of cell
    [c] is the only node whose cell is [c]. *)
Definition cells_consistent g : Prop :=
  Forall (fun cn : Z * Z =>
            Forall (fun mc : Z * Z => mc.2 = cn.1 ↔ mc.1 = cn.2)
              (enumerate (node_activecell g)))
    (enumerate (activecell_node g)).
End CellVocabulary.

(** The cell of an end of a link: [node_activecell[ends[link]]]. *)
Definition cell_of_end {F} (g : Grid F) (ends : list Z) (link : Z)
  : result Z :=
  let+ n := getitem ends link in getitem (node_activecell g) n.

Section CellLoopVocabulary.
Context {F : Type} `{Scalar F}.
Implicit Type g : Grid F.

(** The cell of the node [n]. *)
Definition cell_of g (n : Z) : Z :=
  default 0 (node_activecell g !! Z.to_nat n).

(** The net flux at the cell [c] as the loop form at the active cells
    accumulates it: every active link in turn adds or subtracts its
    flux, and the total is divided by the cell area. *)
Definition cell_loop_net g (fl : list F) (c : Z) : F :=
  fdiv
    (running_net c (cell_of g <$> activelink_fromnode g)
       (cell_of g <$> activelink_tonode g) (link_fluxes g fl) fzero)
    (cellarea g).
End CellLoopVocabulary.

(** * Example grids *)

(** The grid of the doctests of the source: 4 rows, 5 columns, unit
    spacing. *)
Definition example_grid : Grid Q := (RasterModelGrid 4 5 1%Q).1.

(** The node values of the doctest of
    [RasterModelGrid.calculate_gradients_at_active_links]. *)
Definition example_values : list Q :=
  inject_Z <$> [0; 1; 2; 3; 0; 1; 2; 3; 2; 3; 0; 1; 2; 1; 2; 0; 0; 2; 2; 0].

(** The fluxes of the doctest of
    [RasterModelGrid.calculate_flux_divergence_at_nodes]: minus the
    gradients of [example_values]. *)
Definition example_flux : list Q :=
  inject_Z
    <$> [-1; -1; 1; 1; 1; 1; 1; 0; -1; -1; -1; 1; -1; -1; -1; 1; -1].

(** A heap with the array [a] at location 1, and one that has the buffer
    [b] at location 2 as well. *)
Definition example_heap (a : list Q) : heap Q := {[ 1%positive := a ]}.
Definition example_heap_with_buffer (a b : list Q) : heap Q :=
  <[ 2%positive := b ]> (example_heap a).

(** The array that a call returns, if it returns one. *)
Definition returned_array {F} (run : heap F * result loc)
  : option (list F) :=
  match run.2 with
  | Ok r => run.1 !! r
  | Raise _ => None
  end.

(** A grid of class [ModelGrid] with the attributes that the methods of
    [ModelGrid] read: the nodes and links of the raster of 3 rows and 3
    columns, with unit link lengths, face widths and cell areas. *)
Definition unstructured_example : Grid Q :=
  let g := (RasterModelGrid 3 3 1%Q).1 in
  let t := topology g in
  set_topology
    {| t_cls := ModelGrid_class;
       t_nrows := t_nrows t;
       t_ncols := t_ncols t;
       t__dx := t__dx t;
       t_cellarea := t_cellarea t;
       t_num_nodes := t_num_nodes t;
       t_num_cells := t_num_cells t;
       t_num_active_cells := t_num_active_cells t;
       t_num_links := t_num_links t;
       t_num_faces := t_num_faces t;
       t_cell_node := t_cell_node t;
       t_node_activecell := t_node_activecell t;
       t_link_fromnode := t_link_fromnode t;
       t_link_tonode := t_link_tonode t;
       t_link_face := t_link_face t;
       t_max_num_nbrs := t_max_num_nbrs t;
       t_link_length := replicate 12 1%Q;
       t_face_width := replicate 4 1%Q;
       t_active_cell_areas := [1%Q] |} g.

(** Settings that name a grid type other than raster. *)
Definition hex_settings : ModelParameterDictionary Q :=
  {[ "GRID_TYPE" := SString "hex" ]}.

(** One value per cell of the doctest grid, as in the doctest of
    [cell_vector_to_raster]. *)
Definition example_cell_values : list Q := inject_Z <$> [0; 1; 2; 3; 4; 5].

(** The doctest grid with its active links derived again. *)
Definition example_grid_reset : Grid Q :=
  (reset_list_of_active_links example_grid).1.

(** A heap with the array [a] at location 1, for any values. *)
Definition heap_of {F} (a : list F) : heap F := {[ 1%positive := a ]}.

(** The doctest grid and the doctest fluxes in [float64]. *)
Definition float_grid : Grid float := (RasterModelGrid 4 5 1%float).1.
Definition float_flux : list float :=
  [-1; -1; 1; 1; 1; 1; 1; 0; -1; -1; -1; 1; -1; -1; -1; 1; -1]%float.

(** The raster of 3 rows and 3 columns in [float64]: its one cell is
    that of node 4, and its four active links are those of node 4. The
    fluxes are 0.1, 0.1, 0.1 and 0.2, each the nearest [float64]. *)
Definition small_float_grid : Grid float := (RasterModelGrid 3 3 1%float).1.
Definition tenths : list float :=
  [0x1.999999999999ap-4; 0x1.999999999999ap-4;
   0x1.999999999999ap-4; 0x1.999999999999ap-3]%float.

(** The doctest grid and the doctest fluxes in exact arithmetic. *)
Definition exact_grid : Grid Qc := (RasterModelGrid 4 5 (Q2Qc 1)).1.
Definition exact_grid_reset : Grid Qc :=
  (reset_list_of_active_links exact_grid).1.
Definition exact_flux : list Qc := Q2Qc <$> example_flux.

(** The raster of 3 rows and 3 columns after its eight perimeter nodes
    have been given the status INACTIVE by assignment to [node_status]:
    the active-link attributes are still those of the construction, and
    no link is active under the new statuses. *)
Definition closed_grid : Grid Q :=
  set_node_status [4; 4; 4; 4; 0; 4; 4; 4; 4] (RasterModelGrid 3 3 1%Q).1.

(** * Properties *)

(** * Properties *)

(** ** Running computations *)

Section Monad.
Context {S : Type}.

Lemma bind_ok {A B} (m : ST S A) (k : A → ST S B) s s' a :
  m s = (s', Ok a) → bind m k s = k a s'.
Proof. unfold bind. by intros ->. Qed.

Lemma bind_raise {A B} (m : ST S A) (k : A → ST S B) s s' e :
  m s = (s', Raise e) → bind m k s = (s', Raise e).
Proof. unfold bind. by intros ->. Qed.

Lemma bind_inv_ok {A B} (m : ST S A) (k : A → ST S B) s s2 b :
  bind m k s = (s2, Ok b) →
  ∃ s1 a, m s = (s1, Ok a) ∧ k a s1 = (s2, Ok b).
Proof.
  unfold bind. destruct (m s) as [s1 [a|e]]; [eauto | discriminate].
Qed.


Lemma keeps_ret {A T} (π : S → T) (a : A) : keeps π (ret a).
Proof. done. Qed.
Lemma keeps_raise {A T} (π : S → T) e : keeps π (raise (A:=A) e).
Proof. done. Qed.
Lemma keeps_lift {A T} (π : S → T) (r : result A) : keeps π (lift r).
Proof. done. Qed.
Lemma keeps_get {T} (π : S → T) : keeps π get.
Proof. done. Qed.
Lemma keeps_assert {T} (π : S → T) b msg : keeps π (assert b msg).
Proof. by destruct b. Qed.
Lemma keeps_modify {T} (π : S → T) f :
  (∀ s, π (f s) = π s) → keeps π (modify f).
Proof. intros Hf s. apply Hf. Qed.
Lemma keeps_bind {A B T} (π : S → T) (m : ST S A) (k : A → ST S B) :
  keeps π m → (∀ a, keeps π (k a)) → keeps π (bind m k).
Proof.
  intros Hm Hk s. unfold bind. specialize (Hm s).
  destruct (m s) as [s1 [a|e]]; simpl in *; [|done].
  by rewrite Hk.
Qed.
Lemma keeps_for_each {A T} (π : S → T) (l : list A) body :
  (∀ x, keeps π (body x)) → keeps π (for_each l body).
Proof.
  intros Hb. induction l as [|x l IH]; simpl; [done|].
  apply keeps_bind; auto.
Qed.

(** An invariant of the passes of a loop that ran to its end holds at
    the end. *)
Lemma for_each_invariant {A} (I : S → Prop) (l : list A) body s s' :
  (∀ x s1 s2, x ∈ l → I s1 → body x s1 = (s2, Ok tt) → I s2) →
  I s → for_each l body s = (s', Ok tt) → I s'.
Proof.
  revert s. induction l as [|x l IH]; intros s Hb Hs Hrun; simpl in *.
  - by inversion Hrun; subst.
  - apply bind_inv_ok in Hrun as (s1 & [] & H1 & H2).
    apply (IH s1); [|eapply Hb; eauto; by left|done].
    intros y t1 t2 Hy. apply Hb. by right.
Qed.
End Monad.

(** ** Python indexing *)

Lemma index_of_Ok n i k :
  index_of n i = Ok k →
  (Z.of_nat k < n) ∧ (0 ≤ i ∧ Z.of_nat k = i ∨ i < 0 ∧ Z.of_nat k = n + i).
Proof.
  unfold index_of. repeat case_bool_decide; intros [= <-]; lia.
Qed.

Lemma index_of_nonneg n i : 0 ≤ i < n → index_of n i = Ok (Z.to_nat i).
Proof. intros. unfold index_of. by rewrite bool_decide_eq_true_2. Qed.

Lemma index_of_is_Ok n i : - n ≤ i < n → ∃ k, index_of n i = Ok k.
Proof.
  intros. unfold index_of. repeat case_bool_decide; eauto. lia.
Qed.

Lemma getitem_nonneg {A} (l : list A) i x :
  0 ≤ i → l !! Z.to_nat i = Some x → getitem l i = Ok x.
Proof.
  intros Hi Hx. unfold getitem, len.
  apply lookup_lt_Some in Hx as Hlt.
  rewrite index_of_nonneg by lia. simpl. by rewrite Hx.
Qed.

Lemma getitem_Ok {A} (l : list A) i x :
  getitem l i = Ok x →
  ∃ k, index_of (len l) i = Ok k ∧ l !! k = Some x.
Proof.
  unfold getitem. destruct (index_of (len l) i) as [k|]; simpl; [|done].
  destruct (l !! k) eqn:E; intros [= <-]. eauto.
Qed.

Lemma getitem_is_Ok {A} (l : list A) i :
  - len l ≤ i < len l → ∃ x, getitem l i = Ok x.
Proof.
  intros Hi. destruct (index_of_is_Ok _ _ Hi) as [k Hk].
  unfold getitem. rewrite Hk. simpl.
  apply index_of_Ok in Hk as [Hlt _]. unfold len in Hlt.
  destruct (lookup_lt_is_Some_2 l k) as [x ->]; [lia | eauto].
Qed.

Lemma rmapM_Ok_length {A B} (f : A → result B) l ys :
  rmapM f l = Ok ys → length ys = length l.
Proof.
  revert ys. induction l as [|x l IH]; intros ys; simpl.
  - by intros [= <-].
  - destruct (f x); simpl; [|done].
    destruct (rmapM f l); simpl; [|done].
    intros [= <-]. simpl. f_equal. by apply IH.
Qed.

Lemma rmapM_Ok_lookup {A B} (f : A → result B) l ys i x :
  rmapM f l = Ok ys → l !! i = Some x →
  ∃ y, f x = Ok y ∧ ys !! i = Some y.
Proof.
  revert ys i. induction l as [|a l IH]; intros ys i; simpl; [done|].
  destruct (f a) as [b|] eqn:Ea; simpl; [|done].
  destruct (rmapM f l) as [bs|]; simpl; [|done].
  intros [= <-]. destruct i as [|i]; simpl.
  - intros [= <-]. eauto.
  - intros Hi. by apply IH.
Qed.

Lemma rmapM_is_Ok {A B} (f : A → result B) l :
  Forall (fun x => ∃ y, f x = Ok y) l → ∃ ys, rmapM f l = Ok ys.
Proof.
  induction 1 as [|x l [y Hy] _ [ys Hys]]; simpl; [eauto|].
  rewrite Hy, Hys. simpl. eauto.
Qed.

Lemma rmapM_ext {A B} (f g : A → result B) l :
  Forall (fun x => f x = g x) l → rmapM f l = rmapM g l.
Proof.
  induction 1 as [|x l Hx _ IH]; simpl; [done|]. by rewrite Hx, IH.
Qed.

Lemma rmapM_Ok_Forall {A B} (f : A → result B) l ys :
  rmapM f l = Ok ys → Forall (fun x => ∃ y, f x = Ok y) l.
Proof.
  revert ys. induction l as [|a l IH]; intros ys; simpl; [by constructor|].
  destruct (f a) as [b|] eqn:Ea; simpl; [|done].
  destruct (rmapM f l) as [bs|]; simpl; [|done].
  intros _. constructor; eauto.
Qed.

(** ** Storing one value at several positions *)

Lemma foldl_insert_const_length {A} (x : A) ks a :
  length (foldl (fun acc k => <[k:=x]> acc) a ks) = length a.
Proof.
  revert a. induction ks as [|k ks IH]; intros a; simpl; [done|].
  by rewrite IH, length_insert.
Qed.

Lemma foldl_insert_const_lookup {A} (x : A) ks a j :
  foldl (fun acc k => <[k:=x]> acc) a ks !! j =
    if bool_decide (j ∈ ks ∧ (j < length a)%nat) then Some x else a !! j.
Proof.
  revert a. induction ks as [|k ks IH]; intros a; cbn [foldl].
  - case_bool_decide as Hc; [|done]. by destruct Hc as [?%elem_of_nil _].
  - rewrite IH, length_insert.
    destruct (decide (j ∈ ks ∧ (j < length a)%nat)) as [[Hin Hlt]|Hn].
    + rewrite !bool_decide_eq_true_2; [done| |done].
      split; [by right|done].
    + rewrite (bool_decide_eq_false_2 _ Hn).
      destruct (decide (j = k)) as [->|Hne].
      * destruct (decide (k < length a)%nat).
        -- rewrite list_lookup_insert_eq by done.
           rewrite bool_decide_eq_true_2; [done|]. split; [by left|done].
        -- rewrite list_insert_ge by lia.
           rewrite bool_decide_eq_false_2; [done|]. intros [_ ?]. lia.
      * rewrite list_lookup_insert_ne by done.
        rewrite bool_decide_eq_false_2; [done|].
        intros [[->|?]%elem_of_cons ?]; [done|]. apply Hn. done.
Qed.

Lemma np_put_scalar_length {A} (a : list A) idx x a' :
  np_put_scalar a idx x = Ok a' → length a' = length a.
Proof.
  unfold np_put_scalar.
  destruct (rmapM _ idx) as [ks|]; simpl; [|done].
  intros [= <-]. apply foldl_insert_const_length.
Qed.

(** Storing the same value at the same positions once more changes
    nothing. *)
Lemma np_put_scalar_idempotent {A} (a : list A) idx x a' :
  np_put_scalar a idx x = Ok a' → np_put_scalar a' idx x = Ok a'.
Proof.
  intros Hput. pose proof (np_put_scalar_length _ _ _ _ Hput) as Hlen.
  revert Hput. unfold np_put_scalar, len. rewrite Hlen.
  destruct (rmapM _ idx) as [ks|]; simpl; [|done].
  intros [= <-]. f_equal. apply list_eq. intros j.
  rewrite !foldl_insert_const_lookup, foldl_insert_const_length.
  by case_bool_decide.
Qed.

(** ** What the set-up of the active matrices leaves alone *)

Ltac keeps_tac :=
  repeat first
    [ apply keeps_get | apply keeps_ret | apply keeps_raise
    | apply keeps_lift | apply keeps_assert
    | apply keeps_modify; intros ?; reflexivity
    | apply keeps_bind; [|intros ?]
    | apply keeps_for_each; intros ?
    | match goal with
      | |- keeps _ (if ?b then _ else _) => destruct b
      | |- keeps _ (match cls ?g with _ => _ end) => destruct (cls g)
      end ].

Section Frames.
Context {F : Type} `{Scalar F}.
Implicit Type g : Grid F.


Lemma setup_active_keeps :
  keeps outside_matrices
    (setup_active_inlink_and_outlink_matrices (F:=F)).
Proof.
  unfold setup_active_inlink_and_outlink_matrices, fill_link_matrix.
  keeps_tac.
Qed.

Lemma setup_active_slow_keeps :
  keeps outside_matrices
    (setup_active_inlink_and_outlink_matrices_slow (F:=F)).
Proof.
  unfold setup_active_inlink_and_outlink_matrices_slow, enter_link.
  keeps_tac.
Qed.


Lemma reset_keeps :
  keeps outside_active (reset_list_of_active_links (F:=F)).
Proof.
  unfold reset_list_of_active_links,
    setup_active_inlink_and_outlink_matrices, fill_link_matrix.
  keeps_tac.
Qed.

Lemma reset_slow_keeps :
  keeps outside_active (reset_list_of_active_links_slow (F:=F)).
Proof.
  unfold reset_list_of_active_links_slow, append_if_active,
    setup_active_inlink_and_outlink_matrices_slow, enter_link.
  keeps_tac.
Qed.

Lemma reset_keeps_node_status g :
  node_status (reset_list_of_active_links g).1 = node_status g.
Proof. pose proof (reset_keeps g) as E. by inversion E. Qed.

(** The status array that [deactivate_nodata_nodes] leaves behind. *)
Lemma deactivate_nodata_nodes_status (node_data : list F) nodata_value g :
  node_status (deactivate_nodata_nodes node_data nodata_value g).1 =
    match
      np_put_scalar (node_status g)
        (np_where ((fun x => feqb x nodata_value) <$> node_data))
        INACTIVE_BOUNDARY
    with
    | Ok status => status
    | Raise _ => node_status g
    end.
Proof.
  unfold deactivate_nodata_nodes.
  set (locs := np_where _).
  unfold bind at 1. cbn [get].
  unfold bind at 1. unfold lift at 1.
  destruct (np_put_scalar (node_status g) locs INACTIVE_BOUNDARY)
    as [status|e]; [|done].
  unfold bind at 1. cbn [modify].
  match goal with
  | |- node_status (?m ?s).1 = _ =>
      assert (keeps node_status m) as Hk; [|by rewrite Hk]
  end.
  unfold reset_list_of_active_links,
    setup_active_inlink_and_outlink_matrices, fill_link_matrix.
  keeps_tac.
Qed.
End Frames.

(** ** The derivation of the active links *)

Lemma where_from_elem i mask k :
  k ∈ where_from i mask ↔
  i ≤ k ∧ mask !! Z.to_nat (k - i) = Some true.
Proof.
  revert i. induction mask as [|b mask IH]; intros i; cbn [where_from].
  - split; [by intros ?%elem_of_nil | by intros [_ ?]].
  - assert (k ∈ where_from (i + 1) mask ↔
            i < k ∧ (b :: mask) !! Z.to_nat (k - i) = Some true) as Hrest.
    { rewrite IH. split; intros [? Hl]; (split; [lia|]).
      - replace (Z.to_nat (k - i)) with (S (Z.to_nat (k - (i + 1)))) by lia.
        done.
      - replace (Z.to_nat (k - i)) with (S (Z.to_nat (k - (i + 1))))
          in Hl by lia.
        done. }
    destruct b.
    + rewrite elem_of_cons, Hrest. split.
      * intros [->|[? ?]]; [|split; [lia|done]].
        split; [lia|]. by replace (Z.to_nat (i - i)) with 0%nat by lia.
      * intros [Hle Hl]. destruct (decide (k = i)); [by left|right].
        split; [lia|done].
    + rewrite Hrest. split.
      * intros [? ?]. split; [lia|done].
      * intros [Hle Hl]. split; [|done].
        destruct (decide (k = i)) as [->|]; [|lia].
        by replace (Z.to_nat (i - i)) with 0%nat in Hl by lia.
Qed.

Lemma np_where_elem mask k :
  k ∈ np_where mask ↔ 0 ≤ k ∧ mask !! Z.to_nat k = Some true.
Proof.
  unfold np_where. rewrite where_from_elem, Z.sub_0_r. tauto.
Qed.

Lemma where_from_app i m1 m2 :
  where_from i (m1 ++ m2) =
    where_from i m1 ++ where_from (i + len m1) m2.
Proof.
  revert i. induction m1 as [|b m1 IH]; intros i; cbn [where_from app].
  - unfold len. simpl. by rewrite Z.add_0_r.
  - rewrite IH. unfold len. cbn [length].
    replace (i + 1 + Z.of_nat (length m1))
      with (i + Z.of_nat (S (length m1))) by lia.
    by destruct b.
Qed.

Lemma where_from_bound i mask :
  Forall (fun k => i ≤ k < i + len mask) (where_from i mask).
Proof.
  apply Forall_forall. intros k [Hle Hl]%where_from_elem.
  apply lookup_lt_Some in Hl. unfold len. lia.
Qed.

Lemma np_binop_same_length {A B C} (f : A → B → C) x y :
  length x = length y → np_binop f x y = Ok (zip_with f x y).
Proof. intros E. unfold np_binop. by rewrite bool_decide_eq_true_2. Qed.

(** The mask computed with whole-array operations is the test of the loop
    applied link by link. *)
Lemma active_mask_zip fs ts :
  length fs = length ts →
  (let+ from_side :=
     np_and (np_eq fs INTERIOR_NODE) (np_not (np_eq ts INACTIVE_BOUNDARY)) in
   let+ to_side :=
     np_and (np_eq ts INTERIOR_NODE) (np_not (np_eq fs INACTIVE_BOUNDARY)) in
   np_or from_side to_side)
  = Ok (zip_with link_is_active fs ts).
Proof.
  intros E. unfold np_and, np_or, np_eq, np_not.
  rewrite !np_binop_same_length
    by (rewrite ?length_fmap; done).
  cbn [rbind].
  rewrite np_binop_same_length
    by (rewrite !length_zip_with, !length_fmap; lia).
  f_equal. clear E. revert ts.
  induction fs as [|f fs IH]; intros [|t ts]; simpl; [done..|].
  by rewrite IH.
Qed.

Section Derivation.
Context {F : Type}.
Implicit Type g : Grid F.


Lemma links_readable_take g :
  links_readable g →
  ∃ fs ts,
    np_take (node_status g) (link_fromnode g) = Ok fs
    ∧ np_take (node_status g) (link_tonode g) = Ok ts
    ∧ length fs = length (link_fromnode g)
    ∧ length ts = length (link_tonode g).
Proof.
  intros (Hlen & Hf & Ht).
  destruct (rmapM_is_Ok (getitem (node_status g)) (link_fromnode g))
    as [fs Hfs].
  { eapply Forall_impl; [exact Hf|]. intros n Hn.
    by apply getitem_is_Ok. }
  destruct (rmapM_is_Ok (getitem (node_status g)) (link_tonode g))
    as [ts Hts].
  { eapply Forall_impl; [exact Ht|]. intros n Hn.
    by apply getitem_is_Ok. }
  exists fs, ts. unfold np_take.
  split_and!; [done|done|by eapply rmapM_Ok_length..].
Qed.

(** Taking the entries at positions found by [numpy.where] on a mask no
    longer than the array succeeds. *)
Lemma np_take_where {A} (a : list A) mask :
  (length mask ≤ length a)%nat →
  ∃ vs, np_take a (np_where mask) = Ok vs.
Proof.
  intros Hle. apply rmapM_is_Ok.
  eapply Forall_impl; [apply where_from_bound|].
  intros k Hk. apply getitem_is_Ok. unfold len in *. lia.
Qed.


(** What [reset_list_of_active_links] assigns to them. *)
Lemma reset_active_link_lists g fs ts :
  length (link_fromnode g) = length (link_tonode g) →
  np_take (node_status g) (link_fromnode g) = Ok fs →
  np_take (node_status g) (link_tonode g) = Ok ts →
  ∃ from_ to_,
    np_take (link_fromnode g)
      (np_where (zip_with link_is_active fs ts)) = Ok from_
    ∧ np_take (link_tonode g)
        (np_where (zip_with link_is_active fs ts)) = Ok to_
    ∧ active_link_lists (reset_list_of_active_links g).1 =
        (np_where (zip_with link_is_active fs ts),
         len (np_where (zip_with link_is_active fs ts)), from_, to_).
Proof.
  intros Hlen Hfs Hts.
  pose proof (rmapM_Ok_length _ _ _ Hfs) as Lf.
  pose proof (rmapM_Ok_length _ _ _ Hts) as Lt.
  set (al := np_where (zip_with link_is_active fs ts)).
  destruct (np_take_where (link_fromnode g)
              (zip_with link_is_active fs ts)) as [from_ Hfrom].
  { rewrite length_zip_with. lia. }
  destruct (np_take_where (link_tonode g)
              (zip_with link_is_active fs ts)) as [to_ Hto].
  { rewrite length_zip_with. lia. }
  exists from_, to_. split; [done|]. split; [done|].
  pose proof (active_mask_zip fs ts ltac:(lia)) as Hmask.
  unfold reset_list_of_active_links.
  unfold bind at 1. cbn [get].
  unfold bind at 1. unfold lift at 1. rewrite Hfs.
  unfold bind at 1. unfold lift at 1. rewrite Hts.
  destruct (np_and (np_eq fs INTERIOR_NODE) _) as [from_side|];
    [|discriminate Hmask].
  unfold bind at 1. unfold lift at 1.
  cbn [rbind] in Hmask.
  destruct (np_and (np_eq ts INTERIOR_NODE) _) as [to_side|];
    [|discriminate Hmask].
  unfold bind at 1. unfold lift at 1.
  cbn [rbind] in Hmask.
  unfold bind at 1. unfold lift at 1. rewrite Hmask.
  unfold bind at 1. cbn [modify].
  unfold bind at 1. cbn [modify].
  unfold bind at 1. cbn [get].
  unfold bind at 1. unfold lift at 1.
  change (link_fromnode (set_num_active_links _ _)) with (link_fromnode g).
  change (active_links (set_num_active_links _ _)) with al.
  fold al in Hfrom, Hto. rewrite Hfrom.
  unfold bind at 1. cbn [modify].
  unfold bind at 1. unfold lift at 1.
  change (link_tonode (set_num_active_links _ _)) with (link_tonode g).
  rewrite Hto.
  unfold bind at 1. cbn [modify].
  match goal with
  | |- active_link_lists (?m ?s).1 = _ =>
      change (active_link_lists (m s).1)
        with (outside_matrices (m s).1).2;
      rewrite (setup_active_keeps s)
  end.
  reflexivity.
Qed.
End Derivation.

Section SlowDerivation.
Context {F : Type}.
Implicit Type g : Grid F.

Lemma append_if_active_run g fs ts link (b : bool) :
  np_take (node_status g) (link_fromnode g) = Ok fs →
  np_take (node_status g) (link_tonode g) = Ok ts →
  length (link_fromnode g) = length (link_tonode g) →
  0 ≤ link →
  zip_with link_is_active fs ts !! Z.to_nat link = Some b →
  append_if_active link g =
    (if b then set_active_links (active_links g ++ [link]) g else g,
     Ok tt).
Proof.
  intros Hfs Hts Hlen Hlink Hb.
  apply lookup_zip_with_Some in Hb as (sf & st & -> & Hsf & Hst).
  pose proof (rmapM_Ok_length _ _ _ Hfs) as Lf.
  pose proof (rmapM_Ok_length _ _ _ Hts) as Lt.
  destruct (lookup_lt_is_Some_2 (link_fromnode g) (Z.to_nat link))
    as [f Hf].
  { apply lookup_lt_Some in Hsf. lia. }
  destruct (lookup_lt_is_Some_2 (link_tonode g) (Z.to_nat link))
    as [t Ht].
  { apply lookup_lt_Some in Hst. lia. }
  destruct (rmapM_Ok_lookup _ _ _ _ _ Hfs Hf) as (sf' & Hgf & Hsf').
  destruct (rmapM_Ok_lookup _ _ _ _ _ Hts Ht) as (st' & Hgt & Hst').
  assert (sf' = sf) as -> by congruence.
  assert (st' = st) as -> by congruence.
  unfold append_if_active.
  unfold bind at 1. cbn [get].
  unfold bind at 1. unfold lift at 1.
  rewrite (getitem_nonneg _ _ _ Hlink Hf).
  unfold bind at 1. unfold lift at 1. rewrite Hgf.
  unfold bind at 1. unfold lift at 1.
  rewrite (getitem_nonneg _ _ _ Hlink Ht).
  unfold bind at 1. unfold lift at 1. rewrite Hgt.
  by destruct (link_is_active sf st).
Qed.

(** The loop of the slow derivation, started at link [k] with [m] links
    to go, appends the positions of the mask that hold from [k] on. *)
Lemma append_if_active_loop (m : nat) : ∀ k g fs ts,
  np_take (node_status g) (link_fromnode g) = Ok fs →
  np_take (node_status g) (link_tonode g) = Ok ts →
  length (link_fromnode g) = length (link_tonode g) →
  0 ≤ k → k + Z.of_nat m = len (link_fromnode g) →
  ∃ g',
    for_each (seqZ k (Z.of_nat m)) append_if_active g = (g', Ok tt)
    ∧ outside_active g' = outside_active g
    ∧ active_links g' =
        active_links g
        ++ where_from k
             (drop (Z.to_nat k) (zip_with link_is_active fs ts)).
Proof.
  induction m as [|m IH]; intros k g fs ts Hfs Hts Hlen Hk Hend.
  - exists g. rewrite seqZ_nil by lia. split; [done|]. split; [done|].
    pose proof (rmapM_Ok_length _ _ _ Hfs) as Lf.
    pose proof (rmapM_Ok_length _ _ _ Hts) as Lt.
    rewrite drop_ge; [by rewrite app_nil_r|].
    rewrite length_zip_with. unfold len in Hend. lia.
  - pose proof (rmapM_Ok_length _ _ _ Hfs) as Lf.
    pose proof (rmapM_Ok_length _ _ _ Hts) as Lt.
    destruct (lookup_lt_is_Some_2 (zip_with link_is_active fs ts)
                (Z.to_nat k)) as [b Hb].
    { rewrite length_zip_with. unfold len in Hend. lia. }
    rewrite seqZ_cons by lia. cbn [for_each].
    erewrite bind_ok
      by (eapply (append_if_active_run g fs ts k b); eauto).
    replace (Z.pred (Z.of_nat (S m))) with (Z.of_nat m) by lia.
    set (g1 := if b then set_active_links (active_links g ++ [k]) g
               else g).
    assert (outside_active g1 = outside_active g) as Hout
      by (subst g1; by destruct b).
    assert (active_links g1 = active_links g ++ (if b then [k] else []))
      as Hal.
    { subst g1. destruct b; [done|by rewrite app_nil_r]. }
    assert (topology g1 = topology g ∧ node_status g1 = node_status g)
      as [Ht Hs] by (by inversion Hout).
    destruct (IH (Z.succ k) g1 fs ts) as (g' & Hrun & Hout' & Hal').
    { unfold link_fromnode. by rewrite Hs, Ht. }
    { unfold link_tonode. by rewrite Hs, Ht. }
    { unfold link_fromnode, link_tonode. by rewrite Ht. }
    { lia. }
    { unfold link_fromnode. rewrite Ht. fold (link_fromnode g). lia. }
    exists g'. split; [done|]. split; [congruence|].
    rewrite Hal', Hal, <- app_assoc. f_equal.
    rewrite (drop_S _ b (Z.to_nat k)) by done.
    replace (Z.to_nat (Z.succ k)) with (S (Z.to_nat k)) by lia.
    cbn [where_from]. replace (k + 1) with (Z.succ k) by lia.
    by destruct b.
Qed.

Lemma np_take_list_cons {A} (a : list A) l :
  l ≠ [] → np_take_list a l = np_take a l.
Proof. by destruct l. Qed.

(** The loop changes [active_links] only. *)
Lemma append_loop_keeps_ends (l : list Z) :
  keeps (fun g => (activelink_fromnode g, activelink_tonode g))
    (for_each (S:=Grid F) l append_if_active).
Proof.
  apply keeps_for_each. intros link. unfold append_if_active.
  keeps_tac.
Qed.

(** Without an active link, [reset_list_of_active_links_slow] fails on
    the index array that [numpy.array] makes of the empty list, and the
    two lists of ends stay as they were. *)
Lemma reset_slow_no_active_link g fs ts :
  length (link_fromnode g) = length (link_tonode g) →
  np_take (node_status g) (link_fromnode g) = Ok fs →
  np_take (node_status g) (link_tonode g) = Ok ts →
  np_where (zip_with link_is_active fs ts) = [] →
  (reset_list_of_active_links_slow g).2 = Raise IndexError
  ∧ active_link_lists (reset_list_of_active_links_slow g).1
    = ([], 0, activelink_fromnode g, activelink_tonode g).
Proof.
  intros Hlen Hfs Hts Hnone.
  destruct (append_if_active_loop (length (link_fromnode g)) 0
              (set_active_links [] g) fs ts)
    as (g1 & Hloop & Hout & Hal); [done..|lia|done|].
  change (Z.to_nat 0) with 0%nat in Hal. rewrite drop_0 in Hal.
  change (active_links (set_active_links [] g)) with (@nil Z) in Hal.
  rewrite app_nil_l in Hal. fold (np_where (zip_with link_is_active fs ts))
    in Hal. rewrite Hnone in Hal.
  pose proof (append_loop_keeps_ends
                (seqZ 0 (Z.of_nat (length (link_fromnode g))))
                (set_active_links [] g)) as Hends.
  rewrite Hloop in Hends. cbn [fst] in Hends.
  change (activelink_fromnode (set_active_links [] g))
    with (activelink_fromnode g) in Hends.
  change (activelink_tonode (set_active_links [] g))
    with (activelink_tonode g) in Hends.
  injection Hends as Hef Het.
  assert (reset_list_of_active_links_slow g
          = (set_num_active_links (len (active_links g1)) g1,
             Raise IndexError)) as Hrun.
  { unfold reset_list_of_active_links_slow.
    unfold bind at 1. cbn [modify].
    unfold bind at 1. cbn [get].
    unfold range. rewrite Z.sub_0_r.
    change (link_fromnode (set_active_links [] g)) with (link_fromnode g).
    unfold len at 1.
    erewrite bind_ok by exact Hloop.
    unfold bind at 1. cbn [modify].
    unfold bind at 1. cbn [get].
    unfold bind at 1. unfold lift at 1.
    change (active_links (set_num_active_links ?v g1))
      with (active_links g1).
    by rewrite Hal. }
  rewrite Hrun. cbn [fst snd].
  split; [done|]. unfold active_link_lists.
  change (active_links (set_num_active_links ?v g1))
    with (active_links g1).
  change (activelink_fromnode (set_num_active_links ?v g1))
    with (activelink_fromnode g1).
  change (activelink_tonode (set_num_active_links ?v g1))
    with (activelink_tonode g1).
  change (num_active_links (set_num_active_links ?v g1)) with v.
  by rewrite Hal, Hef, Het.
Qed.

(** What [reset_list_of_active_links_slow] assigns to the attributes
    that describe the active links, when there is an active link. *)
Lemma reset_slow_active_link_lists g fs ts :
  length (link_fromnode g) = length (link_tonode g) →
  np_take (node_status g) (link_fromnode g) = Ok fs →
  np_take (node_status g) (link_tonode g) = Ok ts →
  np_where (zip_with link_is_active fs ts) ≠ [] →
  ∃ from_ to_,
    np_take (link_fromnode g)
      (np_where (zip_with link_is_active fs ts)) = Ok from_
    ∧ np_take (link_tonode g)
        (np_where (zip_with link_is_active fs ts)) = Ok to_
    ∧ active_link_lists (reset_list_of_active_links_slow g).1 =
        (np_where (zip_with link_is_active fs ts),
         len (np_where (zip_with link_is_active fs ts)), from_, to_).
Proof.
  intros Hlen Hfs Hts Hsome.
  pose proof (rmapM_Ok_length _ _ _ Hfs) as Lf.
  pose proof (rmapM_Ok_length _ _ _ Hts) as Lt.
  set (al := np_where (zip_with link_is_active fs ts)) in *.
  destruct (np_take_where (link_fromnode g)
              (zip_with link_is_active fs ts)) as [from_ Hfrom].
  { rewrite length_zip_with. lia. }
  destruct (np_take_where (link_tonode g)
              (zip_with link_is_active fs ts)) as [to_ Hto].
  { rewrite length_zip_with. lia. }
  exists from_, to_. split; [done|]. split; [done|].
  destruct (append_if_active_loop (length (link_fromnode g)) 0
              (set_active_links [] g) fs ts)
    as (g1 & Hloop & Hout & Hal); [done..|lia|done|].
  change (Z.to_nat 0) with 0%nat in Hal. rewrite drop_0 in Hal.
  change (active_links (set_active_links [] g)) with (@nil Z) in Hal.
  rewrite app_nil_l in Hal. fold (np_where (zip_with link_is_active fs ts))
    in Hal. fold al in Hal, Hfrom, Hto.
  assert (topology g1 = topology g) as Ht by (by inversion Hout).
  unfold reset_list_of_active_links_slow.
  unfold bind at 1. cbn [modify].
  unfold bind at 1. cbn [get].
  unfold range. rewrite Z.sub_0_r.
  change (link_fromnode (set_active_links [] g)) with (link_fromnode g).
  unfold len at 1.
  erewrite bind_ok by exact Hloop.
  unfold bind at 1. cbn [modify].
  unfold bind at 1. cbn [get].
  unfold bind at 1. unfold lift at 1.
  change (link_fromnode (set_num_active_links ?v g1))
    with (t_link_fromnode (topology g1)).
  change (link_tonode (set_activelink_fromnode ?v ?g))
    with (link_tonode g).
  change (active_links (set_num_active_links ?v g1))
    with (active_links g1).
  rewrite Ht, Hal. fold (link_fromnode g).
  rewrite (np_take_list_cons _ _ Hsome), Hfrom.
  unfold bind at 1. cbn [modify].
  unfold bind at 1. unfold lift at 1.
  change (link_tonode (set_num_active_links ?v g1))
    with (t_link_tonode (topology g1)).
  change (active_links (set_activelink_fromnode ?w
            (set_num_active_links ?v g1))) with (active_links g1).
  rewrite ?Ht, ?Hal. fold (link_tonode g).
  rewrite (np_take_list_cons _ _ Hsome), Hto.
  unfold bind at 1. cbn [modify].
  match goal with
  | |- active_link_lists (?m ?s).1 = _ =>
      change (active_link_lists (m s).1)
        with (outside_matrices (m s).1).2;
      rewrite (setup_active_slow_keeps s)
  end.
  unfold outside_matrices. cbn [snd].
  change (active_links (set_activelink_tonode ?a (set_activelink_fromnode ?b
            (set_num_active_links ?v g1)))) with (active_links g1).
  change (num_active_links (set_activelink_tonode ?a
            (set_activelink_fromnode ?b
               (set_num_active_links ?v g1)))) with v.
  by rewrite Hal.
Qed.
End SlowDerivation.

(** ** The derivation of the active links: the rule and the two forms *)

(** C3. After [reset_list_of_active_links], on a grid whose link lists can
    be read, a link is in [active_links] exactly when its from-node is
    INTERIOR and its to-node is not INACTIVE, or its to-node is INTERIOR
    and its from-node is not INACTIVE. *)
Theorem active_links_iff_rule {F} (g : Grid F) (link fromnode tonode : Z)
    (fromnode_status tonode_status : Z) :
  links_readable g →
  0 ≤ link →
  getitem (link_fromnode g) link = Ok fromnode →
  getitem (link_tonode g) link = Ok tonode →
  getitem (node_status g) fromnode = Ok fromnode_status →
  getitem (node_status g) tonode = Ok tonode_status →
  link ∈ active_links (reset_list_of_active_links g).1
  ↔ (fromnode_status = INTERIOR_NODE ∧ tonode_status ≠ INACTIVE_BOUNDARY)
    ∨ (tonode_status = INTERIOR_NODE ∧ fromnode_status ≠ INACTIVE_BOUNDARY).
Proof.
  intros Hread Hlink Hf Ht Hsf Hst.
  destruct (links_readable_take g Hread) as (fs & ts & Hfs & Hts & Lf & Lt).
  destruct Hread as (Hlen & _ & _).
  destruct (reset_active_link_lists g fs ts Hlen Hfs Hts)
    as (from_ & to_ & _ & _ & Hlists).
  assert (active_links (reset_list_of_active_links g).1
          = np_where (zip_with link_is_active fs ts)) as ->.
  { unfold active_link_lists in Hlists. by inversion Hlists. }
  apply getitem_Ok in Hf as (k & Hk & Hf).
  apply getitem_Ok in Ht as (k' & Hk' & Ht).
  apply index_of_Ok in Hk as [_ [[_ Hk]|[? _]]]; [|lia].
  apply index_of_Ok in Hk' as [_ [[_ Hk']|[? _]]]; [|lia].
  assert (k = Z.to_nat link) as -> by lia.
  assert (k' = Z.to_nat link) as -> by lia.
  destruct (rmapM_Ok_lookup _ _ _ _ _ Hfs Hf) as (sf & Hgf & Hsf').
  destruct (rmapM_Ok_lookup _ _ _ _ _ Hts Ht) as (st & Hgt & Hst').
  assert (sf = fromnode_status) as -> by congruence.
  assert (st = tonode_status) as -> by congruence.
  rewrite np_where_elem, lookup_zip_with, Hsf', Hst'. simpl.
  unfold link_is_active, INTERIOR_NODE, INACTIVE_BOUNDARY.
  split.
  - intros [_ [= Hact]].
    apply orb_true_iff in Hact as [Hact|Hact];
      apply andb_true_iff in Hact as [H1 H2];
      apply Z.eqb_eq in H1; apply negb_true_iff, Z.eqb_neq in H2; auto.
  - intros Hrule. split; [done|]. f_equal.
    apply orb_true_iff.
    destruct Hrule as [[H1 H2]|[H1 H2]]; [left|right];
      apply andb_true_iff; split;
      (apply Z.eqb_eq || apply negb_true_iff, Z.eqb_neq); done.
Qed.

(** C8, as the code has it. On a grid whose link lists can be read, the
    array formulation and the loop formulation of the derivation leave
    the same [active_links], [num_active_links], [activelink_fromnode]
    and [activelink_tonode] when there is an active link. When there is
    none, the array formulation leaves the four of them empty, and the
    loop formulation raises [IndexError] after it has emptied
    [active_links] and set [num_active_links] to zero: the two lists of
    ends stay as they were before the call. *)
Theorem reset_fast_slow_agree {F} (g : Grid F) :
  links_readable g →
  let fast := reset_list_of_active_links g in
  let slow := reset_list_of_active_links_slow g in
  match active_links fast.1 with
  | [] =>
      active_link_lists fast.1 = ([], 0, [], [])
      ∧ slow.2 = Raise IndexError
      ∧ active_link_lists slow.1
        = ([], 0, activelink_fromnode g, activelink_tonode g)
  | _ :: _ => active_link_lists fast.1 = active_link_lists slow.1
  end.
Proof.
  intros Hread fast slow. subst fast slow.
  destruct (links_readable_take g Hread) as (fs & ts & Hfs & Hts & _ & _).
  destruct Hread as (Hlen & _ & _).
  destruct (reset_active_link_lists g fs ts Hlen Hfs Hts)
    as (from_ & to_ & Hfrom & Hto & Hfast).
  assert (active_links (reset_list_of_active_links g).1
          = np_where (zip_with link_is_active fs ts)) as Hal
    by (unfold active_link_lists in Hfast; by inversion Hfast).
  rewrite Hal.
  destruct (np_where (zip_with link_is_active fs ts)) as [|l al] eqn:Hwhere.
  - destruct (reset_slow_no_active_link g fs ts Hlen Hfs Hts Hwhere)
      as [Hraise Hslow].
    split; [|done]. rewrite Hfast.
    cbn in Hfrom, Hto. injection Hfrom as <-. injection Hto as <-. done.
  - destruct (reset_slow_active_link_lists g fs ts Hlen Hfs Hts)
      as (from' & to' & Hfrom' & Hto' & Hslow); [by rewrite Hwhere|].
    rewrite Hfast, Hslow, Hwhere in *. congruence.
Qed.

(** C6. Applying [deactivate_nodata_nodes] a second time with the same
    data and the same no-data value leaves the status array as the first
    application left it. *)
Theorem deactivate_nodata_nodes_idempotent {F} `{Scalar F}
    (g : Grid F) (node_data : list F) (nodata_value : F) :
  node_status
    (deactivate_nodata_nodes node_data nodata_value
       (deactivate_nodata_nodes node_data nodata_value g).1).1
  = node_status (deactivate_nodata_nodes node_data nodata_value g).1.
Proof.
  rewrite (deactivate_nodata_nodes_status node_data nodata_value
             (deactivate_nodata_nodes node_data nodata_value g).1).
  rewrite (deactivate_nodata_nodes_status node_data nodata_value g).
  destruct (np_put_scalar (node_status g) _ INACTIVE_BOUNDARY)
    as [status|e] eqn:Hput.
  - by rewrite (np_put_scalar_idempotent _ _ _ _ Hput).
  - by rewrite Hput.
Qed.

(** ** Ranges *)

Lemma elem_of_range a b k : k ∈ range a b ↔ a ≤ k < b.
Proof. unfold range. rewrite elem_of_seqZ. lia. Qed.

Lemma elem_of_range_step a b step k :
  0 < step →
  k ∈ range_step a b step ↔ ∃ i, 0 ≤ i ∧ k = a + i * step ∧ k < b.
Proof.
  intros Hstep. unfold range_step. rewrite list_elem_of_fmap.
  setoid_rewrite elem_of_seqZ.
  set (q := (b - a + step - 1) `div` step).
  assert (∀ i, i < q ↔ a + i * step < b) as Hq.
  { intros i. subst q.
    pose proof (Z.div_mod (b - a + step - 1) step ltac:(lia)) as Hdm.
    pose proof (Z.mod_pos_bound (b - a + step - 1) step Hstep) as Hmod.
    split; intros Hi; nia. }
  split.
  - intros (i & -> & Hi). exists i. split; [lia|]. split; [done|].
    apply Hq. lia.
  - intros (i & Hi & -> & Hlt). exists i. split; [done|].
    apply Hq in Hlt. lia.
Qed.

(** ** Storing at positions that need no wrap-around *)

Lemma rmapM_index_of_nonneg n idx :
  Forall (fun i => 0 ≤ i < n) idx →
  rmapM (index_of n) idx = Ok (Z.to_nat <$> idx).
Proof.
  induction 1 as [|i idx Hi _ IH]; simpl; [done|].
  by rewrite index_of_nonneg, IH.
Qed.

Lemma np_put_scalar_getitem {A} (a : list A) idx x n :
  Forall (fun i => 0 ≤ i < len a) idx →
  0 ≤ n < len a →
  ∃ a',
    np_put_scalar a idx x = Ok a'
    ∧ len a' = len a
    ∧ getitem a' n = if bool_decide (n ∈ idx) then Ok x else getitem a n.
Proof.
  intros Hidx Hn. unfold np_put_scalar.
  rewrite (rmapM_index_of_nonneg _ _ Hidx). cbn [rbind].
  eexists. split; [done|].
  assert (length (foldl (fun acc k => <[k:=x]> acc) a (Z.to_nat <$> idx))
          = length a) as Hlen by apply foldl_insert_const_length.
  split; [unfold len; by rewrite Hlen|].
  unfold getitem, len in *. rewrite Hlen.
  rewrite !index_of_nonneg by lia. cbn [rbind].
  rewrite foldl_insert_const_lookup.
  assert (Z.to_nat n ∈ Z.to_nat <$> idx ↔ n ∈ idx) as Hmem.
  { rewrite list_elem_of_fmap. split.
    - intros (i & Hi & Hin).
      rewrite Forall_forall in Hidx. specialize (Hidx i Hin).
      by replace n with i by lia.
    - intros Hin. eauto. }
  destruct (decide (n ∈ idx)) as [Hin|Hnin].
  - rewrite !bool_decide_eq_true_2; [done..|].
    split; [by apply Hmem|lia].
  - rewrite !bool_decide_eq_false_2; [done..|].
    intros [Hin _]. by apply Hnin, Hmem.
Qed.

Section Edges.
Context {F : Type} `{Scalar F}.
Implicit Type g : Grid F.

Lemma set_edge_run g edge is_inactive n :
  Forall (fun i => 0 ≤ i < len (node_status g)) edge →
  0 ≤ n < len (node_status g) →
  ∃ status,
    set_edge edge is_inactive g = (set_node_status status g, Ok tt)
    ∧ len status = len (node_status g)
    ∧ getitem status n =
        if bool_decide (n ∈ edge)
        then Ok (if is_inactive then INACTIVE_BOUNDARY
                 else FIXED_VALUE_BOUNDARY)
        else getitem (node_status g) n.
Proof.
  intros Hedge Hn.
  destruct (np_put_scalar_getitem (node_status g) edge
              (if is_inactive then INACTIVE_BOUNDARY
               else FIXED_VALUE_BOUNDARY) n Hedge Hn)
    as (status & Hput & Hlen & Hget).
  exists status. split; [|done].
  unfold set_edge. unfold bind at 1. cbn [get].
  unfold bind at 1. unfold lift at 1. by rewrite Hput.
Qed.
End Edges.

(** ** The claim on the raster edges *)

(** C7. [set_inactive_boundaries] gives every node of the bottom, right,
    top and left edge the status INACTIVE or FIXED_VALUE chosen by the
    flag of that edge, where the bottom-left corner counts as bottom, the
    bottom-right corner as right, the top-right corner as top and the
    top-left corner as left; the other nodes keep their status. The node
    of row [row] and column [col] is node [col + row * ncols]. *)
Theorem set_inactive_boundaries_edges {F} `{Scalar F} (g : Grid F)
    (bottom right top left : bool) (row col : Z) :
  2 ≤ nrows g → 2 ≤ ncols g →
  num_nodes g = nrows g * ncols g →
  len (node_status g) = num_nodes g →
  0 ≤ row < nrows g → 0 ≤ col < ncols g →
  let g' := (set_inactive_boundaries bottom right top left g).1 in
  let status_of (is_inactive : bool) :=
    if is_inactive then INACTIVE_BOUNDARY else FIXED_VALUE_BOUNDARY in
  let node := col + row * ncols g in
  (row = 0 ∧ col < ncols g - 1 →
     getitem (node_status g') node = Ok (status_of bottom))
  ∧ (col = ncols g - 1 ∧ row < nrows g - 1 →
     getitem (node_status g') node = Ok (status_of right))
  ∧ (row = nrows g - 1 ∧ 0 < col →
     getitem (node_status g') node = Ok (status_of top))
  ∧ (col = 0 ∧ 0 < row →
     getitem (node_status g') node = Ok (status_of left))
  ∧ (0 < row < nrows g - 1 ∧ 0 < col < ncols g - 1 →
     getitem (node_status g') node = getitem (node_status g) node).
Proof.
  intros HR HC HN Hlen Hrow Hcol g' status_of node.
  set (R := nrows g) in *. set (C := ncols g) in *.
  set (N := num_nodes g) in *.
  assert (0 ≤ node < N) as Hnode by (subst node; nia).
  (* the four edges *)
  set (bottom_edge := range 0 (C - 1)).
  set (right_edge := range_step (C - 1) (N - 1) C).
  set (top_edge := range ((R - 1) * C + 1) N).
  set (left_edge := range_step C N C).
  assert (Forall (fun i => 0 ≤ i < N) bottom_edge) as Vb.
  { apply Forall_forall. intros i Hi%elem_of_range. nia. }
  assert (Forall (fun i => 0 ≤ i < N) right_edge) as Vr.
  { apply Forall_forall.
    intros i (j & ? & -> & ?)%elem_of_range_step; [nia|lia]. }
  assert (Forall (fun i => 0 ≤ i < N) top_edge) as Vt.
  { apply Forall_forall. intros i Hi%elem_of_range. nia. }
  assert (Forall (fun i => 0 ≤ i < N) left_edge) as Vl.
  { apply Forall_forall.
    intros i (j & ? & -> & ?)%elem_of_range_step; [nia|lia]. }
  (* the four assignments *)
  destruct (set_edge_run g bottom_edge bottom node)
    as (s1 & Run1 & Len1 & Get1); [by rewrite Hlen..|].
  set (g1 := set_node_status s1 g) in *.
  destruct (set_edge_run g1 right_edge right node)
    as (s2 & Run2 & Len2 & Get2);
    [subst g1; cbn [node_status set_node_status];
     rewrite Len1, Hlen; done..|].
  set (g2 := set_node_status s2 g1) in *.
  destruct (set_edge_run g2 top_edge top node)
    as (s3 & Run3 & Len3 & Get3);
    [subst g2 g1; cbn [node_status set_node_status] in *;
     rewrite Len2, Len1, Hlen; done..|].
  set (g3 := set_node_status s3 g2) in *.
  destruct (set_edge_run g3 left_edge left node)
    as (s4 & Run4 & Len4 & Get4);
    [subst g3 g2 g1; cbn [node_status set_node_status] in *;
     rewrite Len3, Len2, Len1, Hlen; done..|].
  set (g4 := set_node_status s4 g3) in *.
  assert (node_status g' = s4) as ->.
  { subst g'. unfold set_inactive_boundaries.
    unfold bind at 1. cbn [get].
    fold R C N bottom_edge right_edge top_edge left_edge.
    erewrite bind_ok by exact Run1.
    erewrite bind_ok by exact Run2.
    erewrite bind_ok by exact Run3.
    erewrite bind_ok by exact Run4.
    change (if _SLOW then reset_list_of_active_links_slow
            else reset_list_of_active_links)
      with (reset_list_of_active_links (F:=F)).
    by rewrite reset_keeps_node_status. }
  rewrite Get4. change (node_status g3) with s3.
  rewrite Get3. change (node_status g2) with s2.
  rewrite Get2. change (node_status g1) with s1.
  rewrite Get1. clear Get1 Get2 Get3 Get4 Run1 Run2 Run3 Run4.
  (* which edge the node lies on *)
  assert (node ∈ bottom_edge ↔ row = 0 ∧ col < C - 1) as Mb.
  { subst bottom_edge node. rewrite elem_of_range. nia. }
  assert (node ∈ right_edge ↔ col = C - 1 ∧ row < R - 1) as Mr.
  { subst right_edge node. rewrite elem_of_range_step by lia. split.
    - intros (i & ? & ? & ?). assert (row = i) by nia. nia.
    - intros [-> ?]. exists row. nia. }
  assert (node ∈ top_edge ↔ row = R - 1 ∧ 0 < col) as Mt.
  { subst top_edge node. rewrite elem_of_range. nia. }
  assert (node ∈ left_edge ↔ col = 0 ∧ 0 < row) as Ml.
  { subst left_edge node. rewrite elem_of_range_step by lia. split.
    - intros (i & ? & ? & ?). assert (row = i + 1) by nia. nia.
    - intros [-> ?]. exists (row - 1). nia. }
  rewrite (bool_decide_ext _ _ Mb), (bool_decide_ext _ _ Mr),
    (bool_decide_ext _ _ Mt), (bool_decide_ext _ _ Ml).
  split_and!; intros Hcase; repeat case_bool_decide;
    first [done | exfalso; lia].
Qed.

(** ** The heap of arrays *)

Section HeapFacts.
Context {F : Type}.
Implicit Type h : heap F.

Lemma fresh_not_allocated h : h !! fresh (dom h) = None.
Proof. apply not_elem_of_dom, is_fresh. Qed.

Lemma fresh_ne h l (v : list F) : h !! l = Some v → fresh (dom h) ≠ l.
Proof. intros Hl <-. by rewrite fresh_not_allocated in Hl. Qed.

Lemma load_Some h l v : h !! l = Some v → load l h = (h, Ok v).
Proof. unfold load. by intros ->. Qed.

Lemma load_inv h h' l v :
  load l h = (h', Ok v) → h' = h ∧ h !! l = Some v.
Proof. unfold load. destruct (h !! l); by intros [= <- <-]. Qed.

Lemma load_heap h l : (load l h).1 = h.
Proof. unfold load. by destruct (h !! l). Qed.

Lemma load_item_Some h l a i x :
  h !! l = Some a → getitem a i = Ok x → load_item l i h = (h, Ok x).
Proof.
  intros Hl Hx. unfold load_item.
  erewrite bind_ok by (by apply load_Some). unfold lift. by rewrite Hx.
Qed.

Lemma store_item_Some h l a k x :
  h !! l = Some a → (k < length a)%nat →
  store_item l (Z.of_nat k) x h = (<[l := <[k := x]> a]> h, Ok tt).
Proof.
  intros Hl Hk. unfold store_item.
  erewrite bind_ok by (by apply load_Some).
  unfold setitem, len. rewrite index_of_nonneg by lia.
  cbn [rbind]. unfold bind, lift, store, modify.
  by rewrite Nat2Z.id.
Qed.


Lemma extends_refl h : extends h h.
Proof. by intros l v. Qed.

Lemma extends_trans h1 h2 h3 :
  extends h1 h2 → extends h2 h3 → extends h1 h3.
Proof. intros H12 H23 l v Hl. by apply H23, H12. Qed.

Lemma extends_alloc h v : extends h (alloc v h).1.
Proof.
  intros l w Hl. cbn [alloc fst].
  rewrite lookup_insert_ne; [done|]. by eapply fresh_ne.
Qed.


Lemma only_allocates_ret {A} (a : A) : only_allocates (F:=F) (ret a).
Proof. intros h. apply extends_refl. Qed.
Lemma only_allocates_lift {A} (r : result A) : only_allocates (F:=F) (lift r).
Proof. intros h. apply extends_refl. Qed.
Lemma only_allocates_assert b msg : only_allocates (F:=F) (assert b msg).
Proof. intros h. destruct b; apply extends_refl. Qed.
Lemma only_allocates_load l : only_allocates (F:=F) (load l).
Proof. intros h. rewrite load_heap. apply extends_refl. Qed.
Lemma only_allocates_alloc v : only_allocates (F:=F) (alloc v).
Proof. intros h. apply extends_alloc. Qed.
Lemma only_allocates_bind {A B} (m : ST (heap F) A) (k : A → ST _ B) :
  only_allocates m → (∀ a, only_allocates (k a)) →
  only_allocates (bind m k).
Proof.
  intros Hm Hk h. unfold bind. specialize (Hm h).
  destruct (m h) as [h1 [a|e]]; cbn [fst] in *; [|done].
  eapply extends_trans; [exact Hm|apply Hk].
Qed.
End HeapFacts.

Ltac only_allocates_tac :=
  repeat first
    [ apply only_allocates_ret | apply only_allocates_lift
    | apply only_allocates_assert | apply only_allocates_load
    | apply only_allocates_alloc
    | apply only_allocates_bind; [|intros ?] ].

(** ** Gradients on a raster grid *)

Section RasterGradient.
Context {F : Type} `{Scalar F}.
Implicit Type g : Grid F.
Implicit Type h : heap F.

Lemma fresh_zeros_run h n :
  0 ≤ n →
  fresh_zeros n h =
    (<[fresh (dom h) := replicate (Z.to_nat n) fzero]> h,
     Ok (fresh (dom h))).
Proof.
  intros Hn. unfold fresh_zeros, np_full.
  rewrite bool_decide_eq_false_2 by lia. done.
Qed.

(** The raster version never stores into an array it did not allocate
    itself. *)
Lemma raster_gradient_only_allocates g s gradient :
  only_allocates
    (RasterModelGrid_calculate_gradients_at_active_links g s gradient).
Proof.
  unfold RasterModelGrid_calculate_gradients_at_active_links, fresh_zeros.
  destruct gradient; only_allocates_tac.
Qed.

(** The array it returns is the last thing it allocates. *)
Lemma raster_gradient_result_fresh g s buffer h h' r :
  RasterModelGrid_calculate_gradients_at_active_links g s (Some buffer) h
    = (h', Ok r) →
  r ≠ buffer ∧ h !! r = None ∧ is_Some (h' !! r).
Proof.
  unfold RasterModelGrid_calculate_gradients_at_active_links.
  intros Hrun.
  apply bind_inv_ok in Hrun as (h1 & l & Hret & Hrun).
  injection Hret as <- <-.
  apply bind_inv_ok in Hrun as (h1 & buf & Hbuf & Hrun).
  apply load_inv in Hbuf as [-> Hbuf].
  apply bind_inv_ok in Hrun as (h1 & [] & Hassert & Hrun).
  assert (h1 = h) as ->.
  { revert Hassert. unfold assert. by case_bool_decide; intros [= <-]. }
  apply bind_inv_ok in Hrun as (h1 & sv & Hs & Hrun).
  apply load_inv in Hs as [-> Hs].
  apply bind_inv_ok in Hrun as (h1 & st & Hst & Hrun).
  injection Hst as <- Hst.
  apply bind_inv_ok in Hrun as (h1 & sf & Hsf & Hrun).
  injection Hsf as <- Hsf.
  apply bind_inv_ok in Hrun as (h1 & d & Hd & Hrun).
  injection Hd as <- Hd.
  injection Hrun as <- <-.
  split; [by eapply fresh_ne|]. split; [apply fresh_not_allocated|].
  rewrite lookup_insert_eq. eauto.
Qed.

(** The run of the raster version when its input can be read. *)
Lemma raster_gradient_run g s gradient h sv st sf :
  0 ≤ num_active_links g →
  h !! s = Some sv →
  match gradient with
  | None => True
  | Some b => ∃ bv, h !! b = Some bv ∧ len bv = num_active_links g
  end →
  np_take sv (activelink_tonode g) = Ok st →
  np_take sv (activelink_fromnode g) = Ok sf →
  length st = length sf →
  ∃ h' r,
    RasterModelGrid_calculate_gradients_at_active_links g s gradient h
      = (h', Ok r)
    ∧ h' !! r = Some ((fun x => fdiv x (_dx g)) <$> zip_with fsub st sf).
Proof.
  intros Hn Hs Hbuf Hst Hsf Hlen.
  unfold RasterModelGrid_calculate_gradients_at_active_links.
  assert (∃ h1 l bv,
    match gradient with
    | Some l => ret l
    | None => fresh_zeros (num_active_links g)
    end h = (h1, Ok l)
    ∧ h1 !! l = Some bv ∧ len bv = num_active_links g
    ∧ h1 !! s = Some sv) as (h1 & l & bv & Hstart & Hl & Hbv & Hs1).
  { destruct gradient as [b|].
    - destruct Hbuf as (bv & Hb & Hbv). by exists h, b, bv.
    - rewrite fresh_zeros_run by done.
      eexists _, _, _. split; [done|].
      rewrite lookup_insert_eq. split; [done|].
      split; [unfold len; rewrite length_replicate; lia|].
      rewrite lookup_insert_ne; [done|]. by eapply fresh_ne. }
  erewrite bind_ok by exact Hstart.
  erewrite bind_ok by (by apply load_Some).
  unfold assert. rewrite bool_decide_eq_true_2 by done.
  unfold bind at 1. cbn [ret].
  erewrite bind_ok by (by apply load_Some).
  unfold bind at 1. unfold lift at 1. rewrite Hst.
  unfold bind at 1. unfold lift at 1. rewrite Hsf.
  unfold bind at 1. unfold lift at 1.
  rewrite np_binop_same_length by done.
  eexists _, _. split; [done|]. by rewrite lookup_insert_eq.
Qed.
End RasterGradient.

(** ** The claim on the output buffer of the raster gradient *)

(** C10. [RasterModelGrid.calculate_gradients_at_active_links], called with
    an output buffer, never stores into the buffer: whatever the outcome,
    the buffer holds afterwards what it held before; and the array
    returned is a newly allocated one, distinct from the buffer; and the
    call does return when the buffer has [num_active_links] entries and
    the ends of the active links are indices into [s]. *)
Theorem raster_gradient_buffer_untouched {F} `{Scalar F} (g : Grid F)
    (s buffer : loc) (h : heap F) :
  let run :=
    RasterModelGrid_calculate_gradients_at_active_links
      g s (Some buffer) h in
  run.1 !! buffer = h !! buffer
  ∧ (∀ r, run.2 = Ok r →
       r ≠ buffer ∧ h !! r = None ∧ is_Some (run.1 !! r))
  ∧ (∀ bv sv st sf,
       h !! buffer = Some bv → len bv = num_active_links g →
       h !! s = Some sv →
       np_take sv (activelink_tonode g) = Ok st →
       np_take sv (activelink_fromnode g) = Ok sf →
       length st = length sf →
       ∃ r, run.2 = Ok r).
Proof.
  intros run. split_and!.
  - destruct (h !! buffer) as [bv|] eqn:Hb.
    + by apply (raster_gradient_only_allocates g s (Some buffer) h).
    + subst run.
      unfold RasterModelGrid_calculate_gradients_at_active_links.
      unfold bind at 1. cbn [ret]. unfold bind at 1. unfold load.
      by rewrite Hb.
  - intros r Hr. subst run.
    destruct (RasterModelGrid_calculate_gradients_at_active_links
                g s (Some buffer) h) as [h' res] eqn:Hrun.
    cbn [snd fst] in *. subst res.
    by eapply raster_gradient_result_fresh.
  - intros bv sv st sf Hb Hbv Hs Hst Hsf Hlen.
    destruct (raster_gradient_run g s (Some buffer) h sv st sf)
      as (h' & r & Hrun & _); [|done|eauto|done..|].
    { rewrite <- Hbv. unfold len. lia. }
    exists r. subst run. by rewrite Hrun.
Qed.

(** ** Gradients on any grid *)

Section Gradient.
Context {F : Type} `{Scalar F}.
Implicit Type g : Grid F.
Implicit Type h : heap F.


Lemma gradient_pass_run g s r h sv buf (k : nat) link_id v :
  h !! s = Some sv → h !! r = Some buf → s ≠ r →
  gradient_value g sv link_id = Ok v →
  (k < length buf)%nat →
  gradient_pass g s r (Z.of_nat k, link_id) h
    = (<[r := <[k := v]> buf]> h, Ok tt).
Proof.
  intros Hs Hr Hne Hv Hk. unfold gradient_pass, gradient_value in *.
  cbn [fst snd].
  destruct (getitem (link_tonode g) link_id) as [tonode|];
    cbn [rbind] in Hv; [|done].
  unfold bind at 1. unfold lift at 1.
  destruct (getitem sv tonode) as [s_to|] eqn:Eto;
    cbn [rbind] in Hv; [|done].
  erewrite bind_ok by (by eapply load_item_Some).
  destruct (getitem (link_fromnode g) link_id) as [fromnode|];
    cbn [rbind] in Hv; [|done].
  unfold bind at 1. unfold lift at 1.
  destruct (getitem sv fromnode) as [s_from|] eqn:Efrom;
    cbn [rbind] in Hv; [|done].
  erewrite bind_ok by (by eapply load_item_Some).
  destruct (getitem (link_length g) link_id) as [length|];
    cbn [rbind] in Hv; [|done].
  unfold bind at 1. unfold lift at 1.
  injection Hv as <-. by apply store_item_Some.
Qed.

Lemma gradient_loop g s r sv rest : ∀ (k : nat) h buf vs,
  h !! s = Some sv → h !! r = Some buf → s ≠ r →
  rmapM (gradient_value g sv) rest = Ok vs →
  (k + length rest ≤ length buf)%nat →
  for_each (zip (seqZ (Z.of_nat k) (len rest)) rest)
    (gradient_pass g s r) h
  = (<[r := list_inserts k vs buf]> h, Ok tt).
Proof.
  induction rest as [|link_id rest IH]; intros k h buf vs Hs Hr Hne Hvs Hk.
  - injection Hvs as <-. cbn [list_inserts]. by rewrite insert_id.
  - cbn [rmapM] in Hvs.
    destruct (gradient_value g sv link_id) as [v|] eqn:Hv;
      cbn [rbind] in Hvs; [|done].
    destruct (rmapM (gradient_value g sv) rest) as [vs'|] eqn:Hvs';
      cbn [rbind] in Hvs; [|done].
    injection Hvs as <-.
    unfold len. cbn [length] in *.
    rewrite seqZ_cons by lia. cbn [zip zip_with for_each].
    erewrite bind_ok
      by (eapply gradient_pass_run; eauto; lia).
    replace (Z.pred (Z.of_nat (S (length rest)))) with (len rest)
      by (unfold len; lia).
    replace (Z.succ (Z.of_nat k)) with (Z.of_nat (S k)) by lia.
    erewrite (IH (S k) _ (<[k:=v]> buf) vs');
      [|by rewrite lookup_insert_ne|by rewrite lookup_insert_eq
       |done|done|rewrite length_insert; lia].
    rewrite insert_insert_eq. cbn [list_inserts].
    by rewrite list_insert_inserts_lt by lia.
Qed.

(** The run of the [ModelGrid] version when its input can be read. *)
Lemma modelgrid_gradient_run g s gradient h sv vs :
  num_active_links g = len (active_links g) →
  h !! s = Some sv →
  match gradient with
  | None => True
  | Some b => b ≠ s ∧ ∃ bv, h !! b = Some bv ∧ len bv = num_active_links g
  end →
  rmapM (gradient_value g sv) (active_links g) = Ok vs →
  ∃ h' r,
    ModelGrid_calculate_gradients_at_active_links g s gradient h
      = (h', Ok r)
    ∧ h' !! r = Some vs.
Proof.
  intros Hn Hs Hbuf Hvs.
  pose proof (rmapM_Ok_length _ _ _ Hvs) as Lvs.
  unfold ModelGrid_calculate_gradients_at_active_links.
  assert (∃ h1 l bv,
    match gradient with
    | Some l => ret l
    | None => fresh_zeros (num_active_links g)
    end h = (h1, Ok l)
    ∧ h1 !! l = Some bv ∧ len bv = num_active_links g
    ∧ h1 !! s = Some sv ∧ s ≠ l)
    as (h1 & l & bv & Hstart & Hl & Hbv & Hs1 & Hne).
  { destruct gradient as [b|].
    - destruct Hbuf as (Hne & bv & Hb & Hbv). by exists h, b, bv.
    - rewrite fresh_zeros_run by (rewrite Hn; unfold len; lia).
      eexists _, _, _. split; [done|].
      rewrite lookup_insert_eq. split; [done|].
      split; [unfold len; rewrite length_replicate;
              rewrite Hn; unfold len; lia|].
      assert (fresh (dom h) ≠ s) by (by eapply fresh_ne).
      split; [by rewrite lookup_insert_ne|done]. }
  erewrite bind_ok by exact Hstart.
  erewrite bind_ok by (by apply load_Some).
  unfold assert. rewrite bool_decide_eq_true_2 by done.
  unfold bind at 1. cbn [ret].
  unfold enumerate.
  change 0 with (Z.of_nat 0).
  erewrite bind_ok
    by (eapply (gradient_loop g s l sv (active_links g) 0%nat h1 bv vs);
        eauto; unfold len in *; lia).
  eexists _, _. split; [done|]. rewrite lookup_insert_eq. f_equal.
  apply list_eq. intros j.
  destruct (decide (j < length vs)%nat).
  - rewrite list_lookup_inserts by (unfold len in *; lia).
    by rewrite Nat.sub_0_r.
  - rewrite list_lookup_inserts_ge by (cbn; lia).
    rewrite !lookup_ge_None_2; [done| |]; unfold len in *; lia.
Qed.
End Gradient.

(** ** The claim on the gradient operator *)

(** C5. On a grid whose active-link attributes are up to date,
    [calculate_gradients_at_active_links], given the node values [s] (one
    per node) and no buffer or a buffer of [num_active_links] entries that
    is not [s] itself, returns an array of [num_active_links] entries that
    holds, at the position of every active link, the value of [s] at the
    to-node minus the value at the from-node, divided by the length of the
    link. This holds for the method of [ModelGrid] and for the override of
    [RasterModelGrid]. *)
Theorem gradient_at_active_links {F} `{Scalar F} (g : Grid F)
    (s : loc) (gradient : option loc) (h : heap F) (sv : list F) :
  active_links_current g →
  h !! s = Some sv → len sv = num_nodes g →
  Forall (fun n => - num_nodes g ≤ n < num_nodes g) (activelink_fromnode g) →
  Forall (fun n => - num_nodes g ≤ n < num_nodes g) (activelink_tonode g) →
  Forall (fun l => ∃ x, link_length_of g l = Ok x) (active_links g) →
  match gradient with
  | None => True
  | Some b => b ≠ s ∧ ∃ bv, h !! b = Some bv ∧ len bv = num_active_links g
  end →
  ∃ h' r out,
    calculate_gradients_at_active_links g s gradient h = (h', Ok r)
    ∧ h' !! r = Some out
    ∧ len out = num_active_links g
    ∧ ∀ k link_id, active_links g !! k = Some link_id →
        ∃ tonode fromnode s_to s_from length,
          getitem (link_tonode g) link_id = Ok tonode
          ∧ getitem (link_fromnode g) link_id = Ok fromnode
          ∧ getitem sv tonode = Ok s_to
          ∧ getitem sv fromnode = Ok s_from
          ∧ link_length_of g link_id = Ok length
          ∧ out !! k = Some (fdiv (fsub s_to s_from) length).
Proof.
  intros (Hn & Hfrom & Hto) Hs Hsv Vfrom Vto Vlen Hbuf.
  pose proof (rmapM_Ok_length _ _ _ Hfrom) as Lfrom.
  pose proof (rmapM_Ok_length _ _ _ Hto) as Lto.
  (* the values of [s] at the two ends of every active link *)
  destruct (rmapM_is_Ok (getitem sv) (activelink_tonode g)) as [st Hst].
  { eapply Forall_impl; [exact Vto|]. intros n Hnode.
    apply getitem_is_Ok. by rewrite Hsv. }
  destruct (rmapM_is_Ok (getitem sv) (activelink_fromnode g)) as [sf Hsf].
  { eapply Forall_impl; [exact Vfrom|]. intros n Hnode.
    apply getitem_is_Ok. by rewrite Hsv. }
  pose proof (rmapM_Ok_length _ _ _ Hst) as Lst.
  pose proof (rmapM_Ok_length _ _ _ Hsf) as Lsf.
  assert (∀ k link_id, active_links g !! k = Some link_id →
    ∃ tonode fromnode s_to s_from,
      getitem (link_tonode g) link_id = Ok tonode
      ∧ getitem (link_fromnode g) link_id = Ok fromnode
      ∧ getitem sv tonode = Ok s_to ∧ getitem sv fromnode = Ok s_from
      ∧ st !! k = Some s_to ∧ sf !! k = Some s_from) as Hends.
  { intros k link_id Hk.
    destruct (rmapM_Ok_lookup _ _ _ _ _ Hto Hk) as (tonode & Ht & Ht').
    destruct (rmapM_Ok_lookup _ _ _ _ _ Hfrom Hk) as (fromnode & Hf & Hf').
    destruct (rmapM_Ok_lookup _ _ _ _ _ Hst Ht') as (s_to & ? & ?).
    destruct (rmapM_Ok_lookup _ _ _ _ _ Hsf Hf') as (s_from & ? & ?).
    by exists tonode, fromnode, s_to, s_from. }
  unfold calculate_gradients_at_active_links, link_length_of in *.
  destruct (cls g) eqn:Hcls.
  - (* the method of ModelGrid *)
    destruct (rmapM_is_Ok (gradient_value g sv) (active_links g))
      as [vs Hvs].
    { apply Forall_forall. intros link_id Hin.
      apply list_elem_of_lookup in Hin as [k Hk].
      destruct (Hends k link_id Hk)
        as (tonode & fromnode & s_to & s_from & Ht & Hf & Hsto & Hsfrom & _).
      rewrite Forall_forall in Vlen.
      destruct (Vlen link_id) as [x Hx];
        [by eapply list_elem_of_lookup_2|].
      unfold gradient_value. rewrite Ht. cbn [rbind]. rewrite Hsto.
      cbn [rbind]. rewrite Hf. cbn [rbind]. rewrite Hsfrom. cbn [rbind].
      rewrite Hx. cbn [rbind]. eauto. }
    destruct (modelgrid_gradient_run g s gradient h sv vs Hn Hs Hbuf Hvs)
      as (h' & r & Hrun & Hr).
    exists h', r, vs. split; [done|]. split; [done|].
    pose proof (rmapM_Ok_length _ _ _ Hvs) as Lvs.
    split; [unfold len in *; lia|].
    intros k link_id Hk.
    destruct (Hends k link_id Hk)
      as (tonode & fromnode & s_to & s_from & Ht & Hf & Hsto & Hsfrom & _).
    destruct (rmapM_Ok_lookup _ _ _ _ _ Hvs Hk) as (v & Hv & Hv').
    unfold gradient_value in Hv.
    rewrite Ht in Hv. cbn [rbind] in Hv. rewrite Hsto in Hv.
    cbn [rbind] in Hv. rewrite Hf in Hv. cbn [rbind] in Hv.
    rewrite Hsfrom in Hv. cbn [rbind] in Hv.
    destruct (getitem (link_length g) link_id) as [length|] eqn:Hl;
      cbn [rbind] in Hv; [|done].
    injection Hv as <-.
    by exists tonode, fromnode, s_to, s_from, length.
  - (* the override of RasterModelGrid *)
    destruct (raster_gradient_run g s gradient h sv st sf)
      as (h' & r & Hrun & Hr); [rewrite Hn; unfold len; lia|done| |done..|lia|].
    { destruct gradient as [b|]; [|done]. by destruct Hbuf as [_ ?]. }
    eexists h', r, _. split; [done|]. split; [done|].
    split.
    { unfold len in *.
      rewrite length_fmap, length_zip_with. lia. }
    intros k link_id Hk.
    destruct (Hends k link_id Hk)
      as (tonode & fromnode & s_to & s_from
          & Ht & Hf & Hsto & Hsfrom & Hstk & Hsfk).
    exists tonode, fromnode, s_to, s_from, (_dx g).
    split_and!; [done..|].
    by rewrite list_lookup_fmap, lookup_zip_with, Hstk, Hsfk.
Qed.

(** ** The claim on an unknown grid type *)

(** A name other than ["raster"] is printed about and gives [None]. *)
Lemma other_grid_type {F} `{Scalar F}
    (input_source : ModelParameterDictionary F) (grid_type : string) :
  read_string input_source "GRID_TYPE" = Ok grid_type →
  grid_type ≠ "raster" →
  create_and_initialize_grid input_source
  = (["Non-raster grids not yet available in ModelGrid"], Ok None).
Proof.
  intros Hread Hne. unfold create_and_initialize_grid.
  rewrite Hread. by rewrite bool_decide_eq_false_2.
Qed.

(** C9, as the code has it. When the grid type read from the settings,
    without the blanks at its ends and in lower case, is not ["raster"],
    [create_and_initialize_grid] prints one line and returns [None]; no
    exception is raised. *)
Theorem unknown_grid_type_returns_none {F} `{Scalar F}
    (input_source : ModelParameterDictionary F) (grid_type : string) :
  read_string input_source "GRID_TYPE" = Ok grid_type →
  lower (strip grid_type) ≠ "raster" →
  create_and_initialize_grid input_source
  = (["Non-raster grids not yet available in ModelGrid"], Ok None).
Proof.
  intros Hread Hne. apply (other_grid_type _ grid_type Hread).
  intros ->. by apply Hne.
Qed.

(** ** Flux divergence with the loop over the active links *)

Section FluxLoop.
Context {F : Type} `{Scalar F}.
Implicit Type g : Grid F.
Implicit Type h : heap F.


(** Changing an entry at a node that has a cell keeps the zeros at the
    nodes that have none. *)
Lemma zero_without_cell_insert g out node cell p x :
  len (node_activecell g) = len out →
  zero_without_cell g out →
  getitem (node_activecell g) node = Ok cell →
  cell ≠ BAD_INDEX_VALUE →
  index_of (len out) node = Ok p →
  zero_without_cell g (<[p := x]> out).
Proof.
  intros Hlen Hzero Hcell Hne Hp j Hj Hlt.
  rewrite length_insert in Hlt.
  apply getitem_Ok in Hcell as (p' & Hp' & Hcell).
  rewrite Hlen, Hp in Hp'. injection Hp' as <-.
  destruct (decide (j = p)) as [->|]; [congruence|].
  rewrite list_lookup_insert_ne by done. by apply Hzero.
Qed.

Lemma iadd_item_run h r buf node x :
  h !! r = Some buf → - len buf ≤ node < len buf →
  ∃ p old,
    index_of (len buf) node = Ok p ∧ buf !! p = Some old
    ∧ iadd_item r node x h = (<[r := <[p := fadd old x]> buf]> h, Ok tt).
Proof.
  intros Hr Hnode.
  destruct (index_of_is_Ok _ _ Hnode) as [p Hp].
  pose proof (index_of_Ok _ _ _ Hp) as [Hlt _].
  destruct (lookup_lt_is_Some_2 buf p) as [old Hold];
    [unfold len in Hlt; lia|].
  exists p, old. split; [done|]. split; [done|].
  unfold iadd_item.
  erewrite bind_ok.
  2:{ eapply load_item_Some; [done|]. unfold getitem. rewrite Hp.
      cbn [rbind]. by rewrite Hold. }
  unfold store_item. erewrite bind_ok by (by apply load_Some).
  unfold setitem. rewrite Hp. done.
Qed.

Lemma isub_item_run h r buf node x :
  h !! r = Some buf → - len buf ≤ node < len buf →
  ∃ p old,
    index_of (len buf) node = Ok p ∧ buf !! p = Some old
    ∧ isub_item r node x h = (<[r := <[p := fsub old x]> buf]> h, Ok tt).
Proof.
  intros Hr Hnode.
  destruct (index_of_is_Ok _ _ Hnode) as [p Hp].
  pose proof (index_of_Ok _ _ _ Hp) as [Hlt _].
  destruct (lookup_lt_is_Some_2 buf p) as [old Hold];
    [unfold len in Hlt; lia|].
  exists p, old. split; [done|]. split; [done|].
  unfold isub_item.
  erewrite bind_ok.
  2:{ eapply load_item_Some; [done|]. unfold getitem. rewrite Hp.
      cbn [rbind]. by rewrite Hold. }
  unfold store_item. erewrite bind_ok by (by apply load_Some).
  unfold setitem. rewrite Hp. done.
Qed.

Lemma getitem_in_range {A} (l : list A) i x :
  getitem l i = Ok x → - len l ≤ i < len l.
Proof.
  intros (k & Hk & _)%getitem_Ok.
  apply index_of_Ok in Hk. lia.
Qed.

Lemma flux_pass_run g flux r h fl buf (k : nat) link_id data :
  h !! flux = Some fl → h !! r = Some buf → flux ≠ r →
  len (node_activecell g) = len buf →
  zero_without_cell g buf →
  flux_link_data g link_id = Ok data →
  (k < length fl)%nat →
  ∃ buf',
    flux_pass g flux r (Z.of_nat k, link_id) h
      = (<[r := buf']> h, Ok tt)
    ∧ length buf' = length buf
    ∧ zero_without_cell g buf'.
Proof.
  intros Hflux Hr Hne Hlen Hzero Hdata Hk.
  unfold flux_pass, flux_link_data in *. cbn [fst snd].
  destruct (getitem (link_fromnode g) link_id) as [from_node|];
    cbn [rbind] in Hdata; [|done].
  unfold bind at 1. unfold lift at 1.
  destruct (getitem (node_activecell g) from_node) as [from_cell|]
    eqn:Hfc; cbn [rbind] in Hdata; [|done].
  unfold bind at 1. unfold lift at 1.
  destruct (getitem (link_tonode g) link_id) as [to_node|];
    cbn [rbind] in Hdata; [|done].
  unfold bind at 1. unfold lift at 1.
  destruct (getitem (node_activecell g) to_node) as [to_cell|]
    eqn:Htc; cbn [rbind] in Hdata; [|done].
  unfold bind at 1. unfold lift at 1.
  destruct (lookup_lt_is_Some_2 fl k Hk) as [f Hf].
  erewrite bind_ok.
  2:{ eapply load_item_Some; [done|].
      apply getitem_nonneg; [lia|]. by rewrite Nat2Z.id. }
  destruct (getitem (link_face g) link_id) as [face|];
    cbn [rbind] in Hdata; [|done].
  unfold bind at 1. unfold lift at 1.
  destruct (getitem (face_width g) face) as [width|];
    cbn [rbind] in Hdata; [|done].
  unfold bind at 1. unfold lift at 1.
  pose proof (getitem_in_range _ _ _ Hfc) as Rf.
  pose proof (getitem_in_range _ _ _ Htc) as Rt.
  rewrite Hlen in Rf, Rt.
  (* the from-node *)
  assert (∃ buf1,
    (if negb (from_cell =? BAD_INDEX_VALUE)
     then let* area := lift (getitem (active_cell_areas g) from_cell) in
          iadd_item r from_node (fdiv (fmul f width) area)
     else ret tt) h = (<[r := buf1]> h, Ok tt)
    ∧ length buf1 = length buf ∧ zero_without_cell g buf1)
    as (buf1 & Hrun1 & Hlen1 & Hzero1).
  { destruct (from_cell =? BAD_INDEX_VALUE) eqn:Hbad; cbn [negb] in *.
    - exists buf. by rewrite insert_id.
    - destruct (getitem (active_cell_areas g) from_cell) as [area|];
        cbn [rbind] in Hdata; [|done].
      unfold bind at 1. unfold lift at 1.
      destruct (iadd_item_run h r buf from_node
                  (fdiv (fmul f width) area) Hr Rf)
        as (p & old & Hp & Hold & ->).
      eexists. split; [done|]. split; [by rewrite length_insert|].
      eapply (zero_without_cell_insert g buf from_node from_cell p);
        [done|done|done|by apply Z.eqb_neq|done]. }
  erewrite bind_ok by exact Hrun1.
  assert (<[r:=buf1]> h !! r = Some buf1) as Hr1
    by apply lookup_insert_eq.
  assert (len buf1 = len buf) as Hlen1' by (unfold len; lia).
  (* the to-node *)
  destruct (to_cell =? BAD_INDEX_VALUE) eqn:Hbad; cbn [negb] in *.
  - exists buf1. done.
  - destruct (from_cell =? BAD_INDEX_VALUE); cbn [negb] in Hdata.
    all: destruct (getitem (active_cell_areas g) to_cell) as [area|] eqn:Ha;
      [|by repeat (destruct (getitem (active_cell_areas g) _);
                   cbn [rbind] in Hdata; try done)].
    all: unfold bind at 1; unfold lift at 1.
    all: destruct (isub_item_run (<[r:=buf1]> h) r buf1 to_node
                (fdiv (fmul f width) area) Hr1 ltac:(lia))
        as (p & old & Hp & Hold & ->).
    all: rewrite insert_insert_eq.
    all: eexists; split; [done|]; split;
      [by rewrite length_insert|].
    all: eapply (zero_without_cell_insert g buf1 to_node to_cell p);
      [lia|done|done|by apply Z.eqb_neq|done].
Qed.

Lemma flux_loop g flux r fl rest : ∀ (k : nat) h buf,
  h !! flux = Some fl → h !! r = Some buf → flux ≠ r →
  len (node_activecell g) = len buf →
  zero_without_cell g buf →
  Forall (fun l => ∃ data, flux_link_data g l = Ok data) rest →
  (k + length rest ≤ length fl)%nat →
  ∃ buf',
    for_each (zip (seqZ (Z.of_nat k) (len rest)) rest)
      (flux_pass g flux r) h
    = (<[r := buf']> h, Ok tt)
    ∧ length buf' = length buf
    ∧ zero_without_cell g buf'.
Proof.
  induction rest as [|link_id rest IH];
    intros k h buf Hflux Hr Hne Hlen Hzero Hdata Hk.
  - exists buf. by rewrite insert_id.
  - apply Forall_cons in Hdata as [[data Hd] Hdata].
    unfold len. cbn [length] in *.
    rewrite seqZ_cons by lia. cbn [zip zip_with for_each].
    destruct (flux_pass_run g flux r h fl buf k link_id data)
      as (buf1 & Hrun & Hlen1 & Hzero1); [done..|lia|].
    erewrite bind_ok by exact Hrun.
    replace (Z.pred (Z.of_nat (S (length rest)))) with (len rest)
      by (unfold len; lia).
    replace (Z.succ (Z.of_nat k)) with (Z.of_nat (S k)) by lia.
    destruct (IH (S k) (<[r:=buf1]> h) buf1)
      as (buf' & Hrun' & Hlen' & Hzero');
      [by rewrite lookup_insert_ne|by rewrite lookup_insert_eq|done
      |unfold len in *; lia|done|done|lia|].
    exists buf'. rewrite Hrun', insert_insert_eq.
    split; [done|]. split; [lia|done].
Qed.

(** The start of the flux operators when the input can be read: the
    output array holds zeros. *)
Lemma prepare_net_unit_flux_run g flux net_unit_flux h fl :
  h !! flux = Some fl → len fl = num_active_links g →
  0 ≤ num_nodes g →
  match net_unit_flux with
  | None => True
  | Some b => b ≠ flux ∧ ∃ bv, h !! b = Some bv ∧ len bv = num_nodes g
  end →
  ∃ h1 r,
    prepare_net_unit_flux g flux net_unit_flux h = (h1, Ok r)
    ∧ h1 !! r = Some (replicate (Z.to_nat (num_nodes g)) fzero)
    ∧ h1 !! flux = Some fl ∧ flux ≠ r
    ∧ h1 = <[r := replicate (Z.to_nat (num_nodes g)) fzero]> h.
Proof.
  intros Hflux Hfl Hn Hbuf. unfold prepare_net_unit_flux.
  erewrite bind_ok by (by apply load_Some).
  unfold assert at 1. rewrite bool_decide_eq_true_2 by done.
  unfold bind at 1. cbn [ret].
  assert (len (replicate (Z.to_nat (num_nodes g)) (fzero (F:=F)))
          = num_nodes g) as Hz
    by (unfold len; rewrite length_replicate; lia).
  destruct net_unit_flux as [b|].
  - destruct Hbuf as (Hne & bv & Hb & Hbv).
    erewrite bind_ok.
    2:{ erewrite bind_ok by (by apply load_Some).
        unfold bind, store, modify, ret. done. }
    assert (length bv = Z.to_nat (num_nodes g)) as ->
      by (unfold len in Hbv; lia).
    erewrite bind_ok by (apply load_Some, lookup_insert_eq).
    unfold assert. rewrite bool_decide_eq_true_2 by done.
    unfold bind, ret.
    eexists _, _. split; [done|].
    rewrite lookup_insert_eq, lookup_insert_ne by done. done.
  - erewrite bind_ok by (by apply fresh_zeros_run).
    erewrite bind_ok by (apply load_Some, lookup_insert_eq).
    unfold assert. rewrite bool_decide_eq_true_2 by done.
    unfold bind, ret.
    assert (fresh (dom h) ≠ flux) by (by eapply fresh_ne).
    eexists _, _. split; [done|].
    rewrite lookup_insert_eq, lookup_insert_ne by done. done.
Qed.

(** The start of the [ModelGrid] version without a buffer. *)
Lemma prepare_net_unit_flux_eq_None g flux :
  prepare_net_unit_flux_eq g flux None = prepare_net_unit_flux g flux None.
Proof. done. Qed.

(** With a buffer of more than one entry the comparison with [False]
    has no truth value. *)
Lemma prepare_net_unit_flux_eq_buffer g flux b h fl x y bv :
  h !! flux = Some fl → len fl = num_active_links g →
  h !! b = Some (x :: y :: bv) →
  prepare_net_unit_flux_eq g flux (Some b) h = (h, Raise ValueError).
Proof.
  intros Hflux Hfl Hb. unfold prepare_net_unit_flux_eq.
  erewrite bind_ok by (by apply load_Some).
  unfold assert at 1. rewrite bool_decide_eq_true_2 by done.
  unfold bind at 1. cbn [ret].
  unfold bind at 1.
  erewrite bind_ok by (by apply load_Some). done.
Qed.

(** The [ModelGrid] version without a buffer: zeros at the nodes
    without a cell. *)
Lemma modelgrid_flux_run g flux h fl :
  h !! flux = Some fl →
  len fl = num_active_links g →
  num_active_links g = len (active_links g) →
  len (node_activecell g) = num_nodes g →
  Forall (fun l => ∃ data, flux_link_data g l = Ok data) (active_links g) →
  ∃ h' r out,
    ModelGrid_calculate_flux_divergence_at_nodes g flux None h
      = (h', Ok r)
    ∧ h' !! r = Some out
    ∧ len out = num_nodes g
    ∧ ∀ node, 0 ≤ node < num_nodes g →
        getitem (node_activecell g) node = Ok BAD_INDEX_VALUE →
        getitem out node = Ok fzero.
Proof.
  intros Hflux Hfl Hnal Hcells Hdata.
  assert (0 ≤ num_nodes g) as Hn by (rewrite <- Hcells; unfold len; lia).
  destruct (prepare_net_unit_flux_run g flux None h fl)
    as (h1 & r & Hprep & Hr & Hflux1 & Hne & _); [done..|].
  set (zeros := replicate (Z.to_nat (num_nodes g)) fzero) in *.
  assert (length zeros = Z.to_nat (num_nodes g)) as Hz
    by apply length_replicate.
  destruct (flux_loop g flux r fl (active_links g) 0%nat
              h1 zeros) as (out & Hloop & Hlen & Hzero); [done..| | | | |].
  { unfold len in *. lia. }
  { intros j _ Hj. apply lookup_replicate. split; [done|lia]. }
  { done. }
  { unfold len in *. lia. }
  unfold ModelGrid_calculate_flux_divergence_at_nodes.
  rewrite prepare_net_unit_flux_eq_None.
  erewrite bind_ok by exact Hprep.
  unfold enumerate. change 0 with (Z.of_nat 0).
  erewrite bind_ok by exact Hloop.
  exists (<[r:=out]> h1), r, out. split; [done|].
  split; [apply lookup_insert_eq|].
  split; [unfold len in *; lia|].
  intros node Hnode Hbad.
  apply getitem_Ok in Hbad as (p & Hp & Hbad).
  apply index_of_Ok in Hp as [_ [[_ Hp]|[? _]]]; [|lia].
  apply getitem_nonneg; [lia|].
  replace (Z.to_nat node) with p by lia.
  apply Hzero; [done|lia].
Qed.
End FluxLoop.


(** ** Positions of a value in an array *)

Lemma where_from_length_le i mask :
  (length (where_from i mask) ≤ length mask)%nat.
Proof.
  revert i. induction mask as [|b mask IH]; intros i; cbn [where_from].
  - done.
  - specialize (IH (i + 1)). destruct b; cbn [length]; lia.
Qed.

Lemma positions_elem v x p :
  p ∈ positions v x ↔ 0 ≤ p ∧ x !! Z.to_nat p = Some v.
Proof.
  unfold positions, np_eq. rewrite np_where_elem, list_lookup_fmap.
  split; intros [Hp Hl]; (split; [done|]).
  - destruct (x !! Z.to_nat p) as [w|]; [|done].
    injection Hl as Hl. apply Z.eqb_eq in Hl. by subst.
  - rewrite Hl. cbn. by rewrite Z.eqb_refl.
Qed.

Lemma positions_nil v x : positions v x = [] ↔ v ∉ x.
Proof.
  split.
  - intros Hnil [k Hk]%list_elem_of_lookup.
    assert (Z.of_nat k ∈ positions v x) as Hin.
    { apply positions_elem. split; [lia|]. by rewrite Nat2Z.id. }
    rewrite Hnil in Hin. by apply elem_of_nil in Hin.
  - intros Hnot. destruct (positions v x) as [|p ps] eqn:E; [done|].
    exfalso. apply Hnot.
    assert (p ∈ positions v x) as [_ Hp]%positions_elem
      by (rewrite E; by left).
    by eapply list_elem_of_lookup_2.
Qed.


Lemma np_unique_elem v x : v ∈ np_unique x ↔ v ∈ x.
Proof.
  unfold np_unique. rewrite merge_sort_Permutation.
  apply elem_of_remove_dups.
Qed.

Lemma foldr_max_le {A} (f : A → nat) (l : list A) (b : nat) :
  (∀ v, v ∈ l → (f v ≤ b)%nat) →
  (foldr (fun v m => Nat.max (f v) m) 0%nat l ≤ b)%nat.
Proof.
  induction l as [|v l IH]; intros Hb; cbn [foldr]; [lia|].
  apply Nat.max_lub; [apply Hb; by left|].
  apply IH. intros w Hw. apply Hb. by right.
Qed.

Lemma foldr_max_ge {A} (f : A → nat) (l : list A) v :
  v ∈ l → (f v ≤ foldr (fun v m => Nat.max (f v) m) 0%nat l)%nat.
Proof.
  induction l as [|w l IH]; intros Hv; cbn [foldr].
  - by apply elem_of_nil in Hv.
  - apply elem_of_cons in Hv as [->|Hv]; [lia|].
    specialize (IH Hv). lia.
Qed.

(** ** Filling a link matrix, round by round *)


Section FillMatrix.
Context {F : Type}.
Variable rd : Grid F → list (list Z).
Variable wr : list (list Z) → Grid F → Grid F.
Hypothesis rd_wr : ∀ m g, rd (wr m g) = m.

Lemma fill_link_matrix_rows counts g m' :
  fill_rows (rd g) (enumerate counts) = Ok m' →
  (fill_link_matrix rd wr counts g).2 = Ok tt
  ∧ rd (fill_link_matrix rd wr counts g).1 = m'.
Proof.
  unfold fill_link_matrix.
  generalize (enumerate counts) as entries. intros entries.
  revert g. induction entries as [|e rest IH]; intros g Hfill.
  - injection Hfill as <-. done.
  - cbn [fill_rows] in Hfill. cbn [for_each].
    destruct (getitem (rd g) e.1) as [row|] eqn:Hrow;
      cbn [rbind] in Hfill; [|done].
    destruct (np_put row e.2.1 e.2.2) as [row'|] eqn:Hput;
      cbn [rbind] in Hfill; [|done].
    destruct (setitem (rd g) e.1 row') as [m1|] eqn:Hset;
      cbn [rbind] in Hfill; [|done].
    erewrite bind_ok.
    2:{ unfold bind at 1. cbn [get].
        unfold bind at 1. unfold lift at 1. rewrite Hrow.
        unfold bind at 1. unfold lift at 1. rewrite Hput.
        unfold bind at 1. unfold lift at 1. rewrite Hset.
        reflexivity. }
    apply IH. by rewrite rd_wr.
Qed.
End FillMatrix.

Lemma enumerate_fmap_seq {A} (f : nat → A) (a n : nat) :
  zip (seqZ (Z.of_nat a) (Z.of_nat n)) (f <$> seq a n)
  = (fun i => (Z.of_nat i, f i)) <$> seq a n.
Proof.
  revert a. induction n as [|n IH]; intros a.
  - by rewrite seqZ_nil by lia.
  - rewrite seqZ_cons by lia. cbn [seq fmap list_fmap zip zip_with].
    f_equal.
    replace (Z.succ (Z.of_nat a)) with (Z.of_nat (S a)) by lia.
    replace (Z.pred (Z.of_nat (S n))) with (Z.of_nat n) by lia.
    apply IH.
Qed.

(** Storing [f v] at every position [v] of a list of positions. *)
Lemma foldl_insert_fmap_lookup (f : Z → Z) (vs : list Z) : ∀ a n,
  0 ≤ n → (Z.to_nat n < length a)%nat →
  Forall (fun v => 0 ≤ v) vs →
  foldl (fun acc kv => <[kv.1:=kv.2]> acc) a
    (zip (Z.to_nat <$> vs) (f <$> vs)) !! Z.to_nat n
  = if bool_decide (n ∈ vs) then Some (f n) else a !! Z.to_nat n.
Proof.
  induction vs as [|v vs IH]; intros a n Hn Hlt Hvs.
  - cbn. rewrite bool_decide_eq_false_2; [done|]. by intros ?%elem_of_nil.
  - apply Forall_cons in Hvs as [Hv Hvs].
    cbn [fmap list_fmap zip zip_with foldl fst snd].
    rewrite IH by (rewrite ?length_insert; done).
    destruct (decide (n ∈ vs)) as [Hin|Hnin].
    + rewrite !bool_decide_eq_true_2; [done| |done]. by right.
    + rewrite (bool_decide_eq_false_2 _ Hnin).
      destruct (decide (n = v)) as [->|Hne].
      * rewrite list_lookup_insert_eq by done.
        rewrite bool_decide_eq_true_2; [done|by left].
      * rewrite list_lookup_insert_ne by lia.
        rewrite bool_decide_eq_false_2; [done|].
        by intros [?|?]%elem_of_cons.
Qed.

Section Rounds.
Variable x : list Z.
Variable N : nat.
Hypothesis x_in_range : Forall (fun v => 0 ≤ v < Z.of_nat N) x.


Lemma count_repeated_values_rounds :
  count_repeated_values x = round x <$> seq 0 (repeats x).
Proof. reflexivity. Qed.

Lemma repeats_ge v : (length (positions v x) ≤ repeats x)%nat.
Proof.
  destruct (decide (v ∈ x)) as [Hin|Hnin].
  - apply (foldr_max_ge (fun v => length (positions v x))).
    by apply np_unique_elem.
  - apply positions_nil in Hnin. rewrite Hnin. cbn. lia.
Qed.

Lemma round_values_elem k v :
  v ∈ (round x k).1 ↔ (k < length (positions v x))%nat.
Proof.
  unfold round. cbn [fst]. rewrite list_elem_of_filter, np_unique_elem.
  split; [by intros [? _]|]. intros Hk. split; [done|].
  destruct (decide (v ∈ x)) as [|Hnin]; [done|].
  apply positions_nil in Hnin. rewrite Hnin in Hk. cbn in Hk. lia.
Qed.

Lemma round_values_range k :
  Forall (fun v => 0 ≤ v < Z.of_nat N) (round x k).1.
Proof.
  apply Forall_forall. intros v Hv%round_values_elem.
  rewrite Forall_forall in x_in_range. apply x_in_range.
  destruct (decide (v ∈ x)) as [|Hnin]; [done|].
  apply positions_nil in Hnin. rewrite Hnin in Hv. cbn in Hv. lia.
Qed.

(** A row filled in round [k] holds, for each node, the position of
    occurrence number [k] of the node, or -1. *)
Lemma round_put k :
  ∃ row',
    np_put (replicate N (-1)) (round x k).1 (round x k).2 = Ok row'
    ∧ length row' = N
    ∧ ∀ n, 0 ≤ n < Z.of_nat N →
           row' !! Z.to_nat n = Some (occurrence k n x).
Proof.
  pose proof (round_values_range k) as Hrange.
  unfold np_put, len. rewrite length_replicate.
  rewrite (rmapM_index_of_nonneg _ _ Hrange). cbn [rbind].
  rewrite bool_decide_eq_true_2
    by (unfold round; cbn [fst snd]; by rewrite length_fmap).
  eexists. split; [done|].
  assert (∀ a, length (foldl (fun acc kv => <[kv.1:=kv.2]> acc) a
                 (zip (Z.to_nat <$> (round x k).1) (round x k).2))
               = length a) as Hlen.
  { generalize (zip (Z.to_nat <$> (round x k).1) (round x k).2).
    intros l. induction l as [|e l IH]; intros a; cbn [foldl]; [done|].
    by rewrite IH, length_insert. }
  split; [by rewrite Hlen, length_replicate|].
  intros n Hn. unfold round at 2. cbn [snd].
  fold (round x k).1.
  change (filter _ (np_unique x)) with (round x k).1.
  rewrite foldl_insert_fmap_lookup;
    [|lia|rewrite length_replicate; lia
     |eapply Forall_impl; [exact Hrange|]; cbn; lia].
  unfold occurrence.
  destruct (decide (n ∈ (round x k).1)) as [Hin|Hnin].
  - rewrite bool_decide_eq_true_2 by done.
    apply round_values_elem in Hin.
    destruct (lookup_lt_is_Some_2 _ _ Hin) as [p Hp].
    rewrite Hp. cbn. f_equal. by apply list_lookup_total_correct.
  - rewrite bool_decide_eq_false_2 by done.
    rewrite lookup_replicate_2 by lia.
    rewrite round_values_elem in Hnin.
    rewrite lookup_ge_None_2 by lia. done.
Qed.


Lemma fill_rows_rounds (n : nat) : ∀ (k0 : nat) m,
  filled_below x N k0 m → (k0 + n ≤ length m)%nat →
  ∃ m',
    fill_rows m ((fun i => (Z.of_nat i, round x i)) <$> seq k0 n) = Ok m'
    ∧ length m' = length m
    ∧ filled_below x N (k0 + n) m'.
Proof.
  induction n as [|n IH]; intros k0 m Hm Hlen.
  - exists m. rewrite Nat.add_0_r. done.
  - cbn [seq fmap list_fmap fill_rows fst snd].
    destruct (lookup_lt_is_Some_2 m k0) as [row Hrow]; [lia|].
    destruct (Hm k0 row Hrow) as (_ & _ & Hfresh).
    rewrite (Hfresh ltac:(lia)) in Hrow.
    rewrite (getitem_nonneg m (Z.of_nat k0) (replicate N (-1)))
      by first [lia | by rewrite Nat2Z.id].
    cbn [rbind].
    destruct (round_put k0) as (row' & -> & Hlen' & Hrow').
    cbn [rbind]. unfold setitem, len.
    rewrite index_of_nonneg by lia. cbn [rbind]. rewrite Nat2Z.id.
    destruct (IH (S k0) (<[k0:=row']> m)) as (m' & Hfill & Hlen'' & Hm');
      [|rewrite length_insert; lia|].
    { intros k r Hk. destruct (decide (k = k0)) as [->|Hne].
      - rewrite list_lookup_insert_eq in Hk by lia.
        injection Hk as <-. split; [done|]. split; [|lia].
        intros _. done.
      - rewrite list_lookup_insert_ne in Hk by done.
        destruct (Hm k r Hk) as (Hl & Hlow & Hhigh).
        split; [done|]. split.
        + intros Hlt. apply Hlow. lia.
        + intros Hge. apply Hhigh. lia. }
    exists m'. rewrite Hfill. rewrite length_insert in Hlen''.
    split; [done|]. split; [done|].
    by replace (k0 + S n)%nat with (S k0 + n)%nat by lia.
Qed.

(** Filling a matrix of -1 with the rounds of [x] succeeds when no value
    occurs more often than there are rows, and gives the matrix of the
    occurrences. *)
Lemma fill_rows_count_repeated_values (rows : nat) :
  (∀ v, (length (positions v x) ≤ rows)%nat) →
  ∃ m',
    fill_rows (replicate rows (replicate N (-1)))
      (enumerate (count_repeated_values x)) = Ok m'
    ∧ length m' = rows
    ∧ ∀ k row, m' !! k = Some row →
        length row = N
        ∧ ∀ n, 0 ≤ n < Z.of_nat N →
               row !! Z.to_nat n = Some (occurrence k n x).
Proof.
  intros Hrows.
  assert (repeats x ≤ rows)%nat as Hreps.
  { apply foldr_max_le. intros v _. apply Hrows. }
  rewrite count_repeated_values_rounds. unfold enumerate, len.
  rewrite length_fmap, length_seq.
  change 0 with (Z.of_nat 0). rewrite enumerate_fmap_seq.
  destruct (fill_rows_rounds (repeats x) 0 (replicate rows (replicate N (-1))))
    as (m' & Hfill & Hlen & Hm').
  { intros k row [-> _]%lookup_replicate.
    split; [apply length_replicate|]. split; [lia|done]. }
  { rewrite length_replicate. lia. }
  exists m'. split; [done|]. rewrite length_replicate in Hlen.
  split; [done|].
  intros k row Hk. destruct (Hm' k row Hk) as (Hl & Hlow & Hhigh).
  split; [done|]. intros n Hn.
  destruct (decide (k < 0 + repeats x)%nat) as [Hlt|Hge]; [by apply Hlow|].
  rewrite (Hhigh ltac:(lia)), lookup_replicate_2 by lia.
  unfold occurrence. rewrite lookup_ge_None_2; [done|].
  pose proof (repeats_ge n). lia.
Qed.
End Rounds.

(** ** Selecting by a mask *)

Lemma np_take_where_from {A} (mask : list bool) : ∀ (pre l : list A),
  (length mask ≤ length l)%nat →
  np_take (pre ++ l) (where_from (len pre) mask) = Ok (select mask l).
Proof.
  induction mask as [|b mask IH]; intros pre l Hlen; [done|].
  destruct l as [|a l]; [cbn in Hlen; lia|].
  cbn [where_from select]. cbn [length] in Hlen.
  assert (np_take (pre ++ a :: l) (where_from (len pre + 1) mask)
          = Ok (select mask l)) as Hrest.
  { replace (len pre + 1) with (len (pre ++ [a]))
      by (unfold len; rewrite length_app; cbn; lia).
    replace (pre ++ a :: l) with ((pre ++ [a]) ++ l)
      by (by rewrite <- app_assoc).
    apply IH. lia. }
  destruct b; [|done].
  unfold np_take in *. cbn [rmapM]. rewrite Hrest.
  rewrite (getitem_nonneg (pre ++ a :: l) (len pre) a);
    [done|unfold len; lia|].
  unfold len. rewrite Nat2Z.id. by rewrite list_lookup_middle.
Qed.

Lemma np_take_where_select {A} (mask : list bool) (l : list A) :
  (length mask ≤ length l)%nat →
  np_take l (np_where mask) = Ok (select mask l).
Proof. intros. by apply (np_take_where_from mask [] l). Qed.

Lemma select_sublist {A} (mask : list bool) (l : list A) :
  select mask l `sublist_of` l.
Proof.
  revert l. induction mask as [|b mask IH]; intros [|a l]; cbn [select].
  - constructor.
  - apply sublist_nil_l.
  - constructor.
  - destruct b; [by apply sublist_skip|by apply sublist_cons].
Qed.

Lemma where_from_length i mask :
  length (where_from i mask) = length (filter (fun b => b = true) mask).
Proof.
  revert i. induction mask as [|b mask IH]; intros i; [done|].
  cbn [where_from]. destruct b.
  - rewrite filter_cons_True by done. cbn [length]. by rewrite IH.
  - rewrite filter_cons_False by done. apply IH.
Qed.

Lemma positions_length v x :
  length (positions v x) = length (filter (fun w => w = v) x).
Proof.
  unfold positions, np_where, np_eq. generalize 0.
  induction x as [|w x IH]; intros i; [done|].
  cbn [fmap list_fmap where_from].
  destruct (Z.eqb_spec w v) as [->|Hne].
  - rewrite filter_cons_True by done. cbn [length]. by rewrite IH.
  - rewrite filter_cons_False by done. apply IH.
Qed.

Lemma sublist_filter_length {A} (P : A → Prop) `{∀ x, Decision (P x)}
    (l1 l2 : list A) :
  l1 `sublist_of` l2 →
  (length (filter P l1) ≤ length (filter P l2))%nat.
Proof.
  induction 1 as [|x l1 l2 _ IH|x l1 l2 _ IH]; [done| |].
  - destruct (decide (P x)).
    + rewrite !filter_cons_True by done. cbn [length]. lia.
    + by rewrite !filter_cons_False by done.
  - destruct (decide (P x)).
    + rewrite filter_cons_True by done. cbn [length]. lia.
    + by rewrite filter_cons_False by done.
Qed.

Lemma positions_select_le v mask x :
  (length (positions v (select mask x)) ≤ length (positions v x))%nat.
Proof.
  rewrite !positions_length.
  apply sublist_filter_length, select_sublist.
Qed.

Lemma select_Forall {A} (P : A → Prop) mask (l : list A) :
  Forall P l → Forall P (select mask l).
Proof.
  rewrite !Forall_forall. intros Hl x Hx. apply Hl.
  eapply elem_of_sublist; [exact Hx|apply select_sublist].
Qed.

Lemma select_length {A} mask (l : list A) :
  (length mask ≤ length l)%nat →
  length (select mask l) = length (filter (fun b => b = true) mask).
Proof.
  revert l. induction mask as [|b mask IH]; intros [|a l] Hlen;
    cbn [select length] in *; [done|done|lia|].
  destruct b.
  - rewrite filter_cons_True by done. cbn [length]. rewrite IH; [done|lia].
  - rewrite filter_cons_False by done. apply IH. lia.
Qed.

(** ** The set-up of the active matrices on a raster grid *)

Lemma np_full_nat {A} (n : nat) (x : A) :
  np_full (Z.of_nat n) x = Ok (replicate n x).
Proof.
  unfold np_full. rewrite bool_decide_eq_false_2 by lia.
  by rewrite Nat2Z.id.
Qed.

Lemma np_bincount_is_Ok x minlength :
  Forall (fun v => 0 ≤ v) x → ∃ counts, np_bincount x minlength = Ok counts.
Proof.
  intros Hx. unfold np_bincount. rewrite bool_decide_eq_true_2 by done.
  eauto.
Qed.

Section SetupRun.
Context {F : Type}.
Implicit Type g : Grid F.

Lemma fill_link_matrix_keeps {T} (π : Grid F → T) rd wr counts :
  (∀ m g, π (wr m g) = π g) →
  keeps π (fill_link_matrix rd wr counts).
Proof.
  intros Hwr. unfold fill_link_matrix.
  apply keeps_for_each. intros e.
  repeat first [ apply keeps_get | apply keeps_lift
               | apply keeps_bind; [|intros ?] ].
  by apply keeps_modify.
Qed.

Lemma fill_link_matrix_run rd wr x (rows N : nat) g :
  (∀ m g, rd (wr m g) = m) →
  rd g = replicate rows (replicate N (-1)) →
  Forall (fun v => 0 ≤ v < Z.of_nat N) x →
  (∀ v, (length (positions v x) ≤ rows)%nat) →
  ∃ g',
    fill_link_matrix rd wr (count_repeated_values x) g = (g', Ok tt)
    ∧ link_matrix_of (rd g') x rows N.
Proof.
  intros Hrw Hrd Hx Hrows.
  destruct (fill_rows_count_repeated_values x N Hx rows Hrows)
    as (m' & Hfill & Hlen & Hm').
  rewrite <- Hrd in Hfill.
  destruct (fill_link_matrix_rows rd wr Hrw _ g m' Hfill) as [Hok Hm].
  destruct (fill_link_matrix rd wr (count_repeated_values x) g)
    as [g' r]. cbn [fst snd] in *. subst r.
  exists g'. split; [done|]. rewrite Hm. by split.
Qed.

Lemma setup_active_run g (rows N : nat) :
  matrix_rows g = Z.of_nat rows →
  num_nodes g = Z.of_nat N →
  Forall (fun v => 0 ≤ v < Z.of_nat N) (activelink_tonode g) →
  Forall (fun v => 0 ≤ v < Z.of_nat N) (activelink_fromnode g) →
  (∀ v, (length (positions v (activelink_tonode g)) ≤ rows)%nat) →
  (∀ v, (length (positions v (activelink_fromnode g)) ≤ rows)%nat) →
  ∃ g',
    setup_active_inlink_and_outlink_matrices g = (g', Ok tt)
    ∧ outside_matrices g' = outside_matrices g
    ∧ link_matrix_of (node_active_inlink_matrix g')
        (activelink_tonode g) rows N
    ∧ link_matrix_of (node_active_outlink_matrix g')
        (activelink_fromnode g) rows N.
Proof.
  intros Hrows HN Vto Vfrom Dto Dfrom.
  pose proof (setup_active_keeps g) as Hkeeps.
  unfold setup_active_inlink_and_outlink_matrices in *.
  unfold bind at 1 in Hkeeps. unfold bind at 1. cbn [get] in *.
  unfold np_full2 in *. rewrite Hrows, HN, !np_full_nat in *.
  cbn [rbind] in *. rewrite !np_full_nat in *.
  unfold bind at 1 in Hkeeps. unfold bind at 1. unfold lift at 1 in Hkeeps.
  unfold lift at 1.
  unfold bind at 1 in Hkeeps. unfold bind at 1. cbn [modify] in *.
  unfold bind at 1 in Hkeeps. unfold bind at 1. unfold lift at 1 in Hkeeps.
  unfold lift at 1.
  unfold bind at 1 in Hkeeps. unfold bind at 1. cbn [modify] in *.
  destruct (np_bincount_is_Ok (activelink_tonode g) (Z.of_nat N))
    as [n_in Hn_in].
  { eapply Forall_impl; [exact Vto|]. cbn. lia. }
  destruct (np_bincount_is_Ok (activelink_fromnode g) (Z.of_nat N))
    as [n_out Hn_out].
  { eapply Forall_impl; [exact Vfrom|]. cbn. lia. }
  rewrite Hn_in, Hn_out in *.
  unfold bind at 1 in Hkeeps. unfold bind at 1. unfold lift at 1 in Hkeeps.
  unfold lift at 1.
  unfold bind at 1 in Hkeeps. unfold bind at 1. cbn [modify] in *.
  set (m0 := replicate rows (replicate N (-1))) in *.
  set (g1 := set_node_numactiveinlink n_in
               (set_node_active_outlink_matrix m0
                  (set_node_active_inlink_matrix m0 g))) in *.
  destruct (fill_link_matrix_run node_active_inlink_matrix
              set_node_active_inlink_matrix (activelink_tonode g)
              rows N g1) as (g2 & Hfill_in & Hin); [done..|].
  pose proof (fill_link_matrix_keeps node_active_outlink_matrix
                node_active_inlink_matrix set_node_active_inlink_matrix
                (count_repeated_values (activelink_tonode g))
                ltac:(done) g1) as Hout2.
  rewrite Hfill_in in Hout2. cbn [fst] in Hout2.
  erewrite bind_ok in Hkeeps by exact Hfill_in.
  erewrite bind_ok by exact Hfill_in.
  unfold bind at 1 in Hkeeps. unfold bind at 1. unfold lift at 1 in Hkeeps.
  unfold lift at 1.
  unfold bind at 1 in Hkeeps. unfold bind at 1. cbn [modify] in *.
  set (g3 := set_node_numactiveoutlink n_out g2) in *.
  destruct (fill_link_matrix_run node_active_outlink_matrix
              set_node_active_outlink_matrix (activelink_fromnode g)
              rows N g3) as (g4 & Hfill_out & Hout); [done|done|done..|].
  pose proof (fill_link_matrix_keeps node_active_inlink_matrix
                node_active_outlink_matrix set_node_active_outlink_matrix
                (count_repeated_values (activelink_fromnode g))
                ltac:(done) g3) as Hin4.
  rewrite Hfill_out in Hin4, Hkeeps. cbn [fst] in Hin4, Hkeeps.
  exists g4. split; [done|]. split; [done|].
  split; [|done]. by rewrite Hin4.
Qed.
End SetupRun.

(** ** The derivation of the active links on a raster grid *)

Lemma np_take_nonneg {A} (d : A) (a : list A) (idx : list Z) :
  Forall (fun i => 0 ≤ i < len a) idx →
  np_take a idx = Ok ((fun i => default d (a !! Z.to_nat i)) <$> idx).
Proof.
  unfold np_take.
  induction 1 as [|i idx Hi _ IH]; cbn [rmapM fmap list_fmap]; [done|].
  rewrite IH. unfold len in Hi.
  destruct (lookup_lt_is_Some_2 a (Z.to_nat i)) as [x Hx]; [lia|].
  rewrite (getitem_nonneg a i x) by (done || lia).
  by rewrite Hx.
Qed.

Section ResetRun.
Context {F : Type}.
Implicit Type g : Grid F.

(** Up to the set-up of the matrices, [reset_list_of_active_links] is a
    sequence of four assignments. *)
Lemma reset_unfold g fs ts from_ to_ :
  length (link_fromnode g) = length (link_tonode g) →
  np_take (node_status g) (link_fromnode g) = Ok fs →
  np_take (node_status g) (link_tonode g) = Ok ts →
  np_take (link_fromnode g)
    (np_where (zip_with link_is_active fs ts)) = Ok from_ →
  np_take (link_tonode g)
    (np_where (zip_with link_is_active fs ts)) = Ok to_ →
  reset_list_of_active_links g =
    setup_active_inlink_and_outlink_matrices
      (set_activelink_tonode to_
         (set_activelink_fromnode from_
            (set_num_active_links
               (len (np_where (zip_with link_is_active fs ts)))
               (set_active_links
                  (np_where (zip_with link_is_active fs ts)) g)))).
Proof.
  intros Hlen Hfs Hts Hfrom Hto.
  pose proof (rmapM_Ok_length _ _ _ Hfs) as Lf.
  pose proof (rmapM_Ok_length _ _ _ Hts) as Lt.
  pose proof (active_mask_zip fs ts ltac:(lia)) as Hmask.
  unfold reset_list_of_active_links.
  unfold bind at 1. cbn [get].
  unfold bind at 1. unfold lift at 1. rewrite Hfs.
  unfold bind at 1. unfold lift at 1. rewrite Hts.
  destruct (np_and (np_eq fs INTERIOR_NODE) _) as [from_side|];
    [|discriminate Hmask].
  unfold bind at 1. unfold lift at 1.
  cbn [rbind] in Hmask.
  destruct (np_and (np_eq ts INTERIOR_NODE) _) as [to_side|];
    [|discriminate Hmask].
  unfold bind at 1. unfold lift at 1.
  cbn [rbind] in Hmask.
  unfold bind at 1. unfold lift at 1. rewrite Hmask.
  unfold bind at 1. cbn [modify].
  unfold bind at 1. cbn [modify].
  unfold bind at 1. cbn [get].
  unfold bind at 1. unfold lift at 1.
  change (link_fromnode (set_num_active_links _ _)) with (link_fromnode g).
  change (active_links (set_num_active_links _ _))
    with (np_where (zip_with link_is_active fs ts)).
  rewrite Hfrom.
  unfold bind at 1. cbn [modify].
  unfold bind at 1. unfold lift at 1.
  change (link_tonode (set_num_active_links _ _)) with (link_tonode g).
  rewrite Hto.
  unfold bind at 1. cbn [modify]. reflexivity.
Qed.

(** On a raster grid, [reset_list_of_active_links] returns, and leaves
    the active links selected by the mask together with the matrices of
    their to-nodes and from-nodes. *)
Lemma reset_run g :
  raster_links_ok g →
  ∃ g',
    reset_list_of_active_links g = (g', Ok tt)
    ∧ outside_active g' = outside_active g
    ∧ active_links g' = np_where (active_mask g)
    ∧ num_active_links g' = len (np_where (active_mask g))
    ∧ activelink_fromnode g' = select (active_mask g) (link_fromnode g)
    ∧ activelink_tonode g' = select (active_mask g) (link_tonode g)
    ∧ link_matrix_of (node_active_inlink_matrix g')
        (activelink_tonode g') 2 (Z.to_nat (num_nodes g))
    ∧ link_matrix_of (node_active_outlink_matrix g')
        (activelink_fromnode g') 2 (Z.to_nat (num_nodes g)).
Proof.
  intros (Hcls & Hlen & Hstatus & _ & Vfrom & Vto & Dfrom & Dto).
  assert (0 ≤ num_nodes g) as HN
    by (rewrite <- Hstatus; unfold len; lia).
  pose proof (np_take_nonneg 0 (node_status g) (link_fromnode g)
                ltac:(by rewrite Hstatus)) as Hfs.
  pose proof (np_take_nonneg 0 (node_status g) (link_tonode g)
                ltac:(by rewrite Hstatus)) as Hts.
  set (fs := _ <$> link_fromnode g) in Hfs.
  set (ts := _ <$> link_tonode g) in Hts.
  assert (zip_with link_is_active fs ts = active_mask g) as Hmask.
  { subst fs ts. unfold active_mask.
    by rewrite zip_with_fmap_l, zip_with_fmap_r. }
  assert (length (active_mask g) = length (link_fromnode g)) as Lmask.
  { unfold active_mask. rewrite length_zip_with. lia. }
  pose proof (np_take_where_select (active_mask g) (link_fromnode g)
                ltac:(lia)) as Hfrom.
  pose proof (np_take_where_select (active_mask g) (link_tonode g)
                ltac:(lia)) as Hto.
  rewrite (reset_unfold g fs ts _ _ Hlen Hfs Hts)
    by (rewrite Hmask; done).
  rewrite Hmask.
  set (g_mid := set_activelink_tonode _ _).
  destruct (setup_active_run g_mid 2 (Z.to_nat (num_nodes g)))
    as (g' & Hrun & Hout & Hin_m & Hout_m).
  { unfold matrix_rows. subst g_mid.
    change (cls (set_activelink_tonode ?a ?b)) with (cls g).
    by rewrite Hcls. }
  { subst g_mid. change (num_nodes (set_activelink_tonode ?a ?b))
      with (num_nodes g). lia. }
  { subst g_mid. cbn. apply select_Forall.
    eapply Forall_impl; [exact Vto|]. cbn. lia. }
  { subst g_mid. cbn. apply select_Forall.
    eapply Forall_impl; [exact Vfrom|]. cbn. lia. }
  { intros v. subst g_mid. cbn.
    etrans; [apply positions_select_le|apply Dto]. }
  { intros v. subst g_mid. cbn.
    etrans; [apply positions_select_le|apply Dfrom]. }
  exists g'. split; [done|].
  unfold outside_matrices in Hout.
  assert (topology g' = topology g ∧ node_status g' = node_status g
          ∧ activecell_node g' = activecell_node g
          ∧ active_links g' = np_where (active_mask g)
          ∧ num_active_links g' = len (np_where (active_mask g))
          ∧ activelink_fromnode g'
            = select (active_mask g) (link_fromnode g)
          ∧ activelink_tonode g'
            = select (active_mask g) (link_tonode g))
    as (E1 & E2 & E3 & E4 & E5 & E6 & E7).
  { subst g_mid. by inversion Hout. }
  unfold outside_active. rewrite E1, E2, E3, E6, E7.
  split_and!; try done.
Qed.
End ResetRun.

(** ** Counting in nested loops *)

Lemma bind_singleton_fmap {A B} (f : A → B) (l : list A) :
  l ≫= (fun c => [f c]) = f <$> l.
Proof.
  induction l as [|a l IH]; [done|].
  rewrite bind_cons, IH. done.
Qed.

Lemma length_bind_uniform {A B} (f : A → list B) (l : list A) (k : nat) :
  (∀ r, r ∈ l → length (f r) = k) →
  length (l ≫= f) = (length l * k)%nat.
Proof.
  induction l as [|a l IH]; intros Hk; [done|].
  rewrite bind_cons, length_app, IH, Hk.
  - cbn [length]. lia.
  - by left.
  - intros r Hr. apply Hk. by right.
Qed.

Lemma filter_bind_length_uniform {A B} (P : B → Prop)
    `{∀ x, Decision (P x)} (f : A → list B) (l : list A) (k : nat) :
  (∀ r, r ∈ l → length (filter P (f r)) = k) →
  length (filter P (l ≫= f)) = (length l * k)%nat.
Proof.
  induction l as [|a l IH]; intros Hk; [done|].
  rewrite bind_cons, filter_app, length_app, IH, Hk.
  - cbn [length]. lia.
  - by left.
  - intros r Hr. apply Hk. by right.
Qed.

Lemma filter_fmap_length {A B} (P : B → Prop) `{∀ x, Decision (P x)}
    (f : A → B) (l : list A) :
  length (filter P (f <$> l)) = length (filter (fun x => P (f x)) l).
Proof.
  induction l as [|a l IH]; [done|]. cbn [fmap list_fmap].
  destruct (decide (P (f a))).
  - rewrite !filter_cons_True by done. cbn [length]. by rewrite IH.
  - by rewrite !filter_cons_False by done.
Qed.

Lemma filter_ext_in {A} (P Q : A → Prop) `{∀ x, Decision (P x)}
    `{∀ x, Decision (Q x)} (l : list A) :
  (∀ x, x ∈ l → P x ↔ Q x) → filter P l = filter Q l.
Proof.
  induction l as [|a l IH]; intros Hpq; [done|].
  assert (filter P l = filter Q l) as Hrest.
  { apply IH. intros x Hx. apply Hpq. by right. }
  destruct (decide (P a)) as [Hp|Hnp].
  - rewrite !filter_cons_True; [by rewrite Hrest|by apply Hpq; [left|]|done].
  - rewrite !filter_cons_False; [done| |done].
    intros Hq. apply Hnp, Hpq; [by left|done].
Qed.

Lemma filter_range_length (a b lo hi : Z) :
  lo ≤ a → a ≤ b → b ≤ hi →
  length (filter (fun c => a ≤ c < b) (range lo hi)) = Z.to_nat (b - a).
Proof.
  intros H1 H2 H3.
  assert (filter (fun c => a ≤ c < b) (range lo hi) ≡ₚ range a b) as ->.
  { apply NoDup_Permutation.
    - apply NoDup_filter, NoDup_seqZ.
    - apply NoDup_seqZ.
    - intros x. rewrite list_elem_of_filter, !elem_of_range. lia. }
  unfold range. by rewrite length_seqZ.
Qed.

Lemma filter_none_length {A} (P : A → Prop) `{∀ x, Decision (P x)}
    (l : list A) :
  (∀ x, x ∈ l → ¬ P x) → length (filter P l) = 0%nat.
Proof.
  induction l as [|a l IH]; intros Hn; [done|].
  rewrite filter_cons_False by (apply Hn; by left).
  apply IH. intros x Hx. apply Hn. by right.
Qed.

Lemma filter_all_length {A} (P : A → Prop) `{∀ x, Decision (P x)}
    (l : list A) :
  (∀ x, x ∈ l → P x) → length (filter P l) = length l.
Proof.
  induction l as [|a l IH]; intros Hn; [done|].
  rewrite filter_cons_True by (apply Hn; by left).
  cbn [length]. rewrite IH; [done|]. intros x Hx. apply Hn. by right.
Qed.

Lemma NoDup_filter_eq_length (v : Z) (l : list Z) :
  NoDup l → (length (filter (fun w => w = v) l) ≤ 1)%nat.
Proof.
  induction 1 as [|a l Hnin _ IH]; [cbn; lia|].
  destruct (decide (a = v)) as [->|Hne].
  - rewrite filter_cons_True by done. cbn [length].
    rewrite filter_none_length; [lia|]. intros x Hx ->. done.
  - by rewrite filter_cons_False by done.
Qed.

Lemma range_length a b : a ≤ b → length (range a b) = Z.to_nat (b - a).
Proof. intros. unfold range. by rewrite length_seqZ. Qed.

Lemma range_split a b c :
  a ≤ b → b ≤ c → range a c = range a b ++ range b c.
Proof.
  intros. unfold range.
  replace (c - a) with ((b - a) + (c - b)) by lia.
  rewrite seqZ_app by lia. by replace (a + (b - a)) with b by lia.
Qed.

(** ** Rows and columns of a raster *)

Lemma node_row (C r c : Z) : 0 ≤ c < C → (c + r * C) `div` C = r.
Proof.
  intros. rewrite Z.div_add by lia. rewrite Z.div_small by lia. lia.
Qed.

Lemma node_col (C r c : Z) : 0 ≤ c < C → (c + r * C) `mod` C = c.
Proof.
  intros. rewrite Z.mod_add by lia. by rewrite Z.mod_small by lia.
Qed.

Lemma is_perimeter_node (R C r c : Z) :
  0 ≤ c < C →
  sgrid.is_perimeter (R, C) (c + r * C)
  = bool_decide (r = 0 ∨ r = R - 1 ∨ c = 0 ∨ c = C - 1).
Proof.
  intros. unfold sgrid.is_perimeter. cbn [fst snd].
  by rewrite node_row, node_col.
Qed.

Lemma node_status_lookup (R C r c : Z) :
  0 ≤ c < C → 0 ≤ r < R →
  sgrid.node_status (R, C) FIXED_VALUE_BOUNDARY !! Z.to_nat (c + r * C)
  = Some (if bool_decide (r = 0 ∨ r = R - 1 ∨ c = 0 ∨ c = C - 1)
          then FIXED_VALUE_BOUNDARY else INTERIOR_NODE).
Proof.
  intros Hc Hr. unfold sgrid.node_status, range. cbn [fst snd].
  rewrite list_lookup_fmap, lookup_seqZ_lt by nia.
  cbn. rewrite Z2Nat.id by nia. rewrite Z.add_0_l.
  by rewrite is_perimeter_node.
Qed.

(** ** The links of a raster *)

Lemma fmap_nested_bind {A B C D} (g : C → D) (h : A → B → C)
    (rows : list A) (cols : list B) :
  g <$> (rows ≫= (fun r => cols ≫= (fun c => [h r c])))
  = rows ≫= (fun r => (fun c => g (h r c)) <$> cols).
Proof.
  induction rows as [|r rows IH]; [done|].
  rewrite !bind_cons, fmap_app, IH. f_equal.
  rewrite bind_singleton_fmap. by rewrite <- list_fmap_compose.
Qed.

Section RasterLinks.
Variables R C : Z.
Hypothesis HR : 3 ≤ R.
Hypothesis HC : 3 ≤ C.

(** The node lists of the two passes. *)
Lemma vertical_from :
  fst <$> vertical_links R C
  = range 0 (R - 1) ≫= (fun r => (fun c => c + r * C) <$> range 0 C).
Proof. apply (fmap_nested_bind fst). Qed.
Lemma vertical_to :
  snd <$> vertical_links R C
  = range 0 (R - 1)
      ≫= (fun r => (fun c => c + (r + 1) * C) <$> range 0 C).
Proof. apply (fmap_nested_bind snd). Qed.
Lemma horizontal_from :
  fst <$> horizontal_links R C
  = range 0 R ≫= (fun r => (fun c => c + r * C) <$> range 0 (C - 1)).
Proof. apply (fmap_nested_bind fst). Qed.
Lemma horizontal_to :
  snd <$> horizontal_links R C
  = range 0 R
      ≫= (fun r => (fun c => c + r * C + 1) <$> range 0 (C - 1)).
Proof. apply (fmap_nested_bind snd). Qed.

(** A list of nodes, one per row [r] of [rows] and column [c] below
    [cols], at [c + r * C + d]: no node twice, every node in range. *)
Lemma node_list_NoDup (rows_lo rows_hi cols d e : Z) :
  0 ≤ cols → cols + e ≤ C → 0 ≤ e →
  NoDup (range rows_lo rows_hi
           ≫= (fun r => (fun c => c + (r + d) * C + e) <$> range 0 cols)).
Proof.
  intros Hcols Hce He. apply NoDup_bind.
  - intros r1 r2 y _ _
      (c1 & -> & Hc1%elem_of_range)%list_elem_of_fmap
      (c2 & Heq & Hc2%elem_of_range)%list_elem_of_fmap.
    nia.
  - intros r _. apply NoDup_fmap_2_strong; [|apply NoDup_seqZ].
    intros c1 c2 _ _. lia.
  - apply NoDup_seqZ.
Qed.

Lemma node_list_Forall (rows_lo rows_hi cols d e : Z) :
  0 ≤ rows_lo + d → rows_hi + d ≤ R → 0 ≤ cols → cols + e ≤ C → 0 ≤ e →
  Forall (fun n => 0 ≤ n < R * C)
    (range rows_lo rows_hi
       ≫= (fun r => (fun c => c + (r + d) * C + e) <$> range 0 cols)).
Proof.
  intros. apply Forall_bind, Forall_forall.
  intros r Hr%elem_of_range. apply Forall_fmap, Forall_forall.
  intros c Hc%elem_of_range. cbn. nia.
Qed.

Lemma node_list_ext (rows cols : list Z) (f g : Z → Z → Z) :
  (∀ r c, f r c = g r c) →
  rows ≫= (fun r => (fun c => f r c) <$> cols)
  = rows ≫= (fun r => (fun c => g r c) <$> cols).
Proof.
  intros Hfg. induction rows as [|r rows IH]; [done|].
  rewrite !bind_cons, IH. f_equal. apply list_fmap_ext. intros _ c _.
  apply Hfg.
Qed.

Lemma raster_link_lists :
  let links := sgrid.node_link_index (R, C) in
  length links.1 = length links.2
  ∧ len links.1 = C * (R - 1) + R * (C - 1)
  ∧ Forall (fun n => 0 ≤ n < R * C) links.1
  ∧ Forall (fun n => 0 ≤ n < R * C) links.2
  ∧ (∀ n, (length (positions n links.1) ≤ 2)%nat)
  ∧ (∀ n, (length (positions n links.2) ≤ 2)%nat).
Proof.
  unfold sgrid.node_link_index. cbn [fst snd].
  rewrite !fmap_app, vertical_from, vertical_to, horizontal_from,
    horizontal_to.
  rewrite (node_list_ext _ _ (fun r c => c + r * C)
             (fun r c => c + (r + 0) * C + 0)) by (intros; lia).
  rewrite (node_list_ext _ _ (fun r c => c + (r + 1) * C)
             (fun r c => c + (r + 1) * C + 0)) by (intros; lia).
  rewrite (node_list_ext (range 0 R) _ (fun r c => c + r * C + 1)
             (fun r c => c + (r + 0) * C + 1)) by (intros; lia).
  rewrite (node_list_ext (range 0 R) _ (fun r c => c + r * C)
             (fun r c => c + (r + 0) * C + 0)) by (intros; lia).
  assert (∀ d e cols (rows_lo rows_hi : Z), rows_lo ≤ rows_hi → 0 ≤ cols →
    length (range rows_lo rows_hi
              ≫= (fun r => (fun c => c + (r + d) * C + e)
                             <$> range 0 cols))
    = (Z.to_nat (rows_hi - rows_lo) * Z.to_nat cols)%nat) as Hlength.
  { intros d e cols lo hi Hlo Hcols.
    rewrite (length_bind_uniform _ _ (Z.to_nat cols)).
    - by rewrite range_length by lia.
    - intros r _. rewrite length_fmap, range_length by lia.
      f_equal. lia. }
  split_and!.
  - rewrite !length_app, !Hlength by lia. lia.
  - unfold len. rewrite !length_app, !Hlength by lia. nia.
  - apply Forall_app. split; apply node_list_Forall; lia.
  - apply Forall_app. split; apply node_list_Forall; lia.
  - intros n. rewrite positions_length, filter_app, length_app.
    pose proof (NoDup_filter_eq_length n _
                  (node_list_NoDup 0 (R - 1) C 0 0
                     ltac:(lia) ltac:(lia) ltac:(lia))).
    pose proof (NoDup_filter_eq_length n _
                  (node_list_NoDup 0 R (C - 1) 0 0
                     ltac:(lia) ltac:(lia) ltac:(lia))).
    lia.
  - intros n. rewrite positions_length, filter_app, length_app.
    pose proof (NoDup_filter_eq_length n _
                  (node_list_NoDup 0 (R - 1) C 1 0
                     ltac:(lia) ltac:(lia) ltac:(lia))).
    pose proof (NoDup_filter_eq_length n _
                  (node_list_NoDup 0 R (C - 1) 0 1
                     ltac:(lia) ltac:(lia) ltac:(lia))).
    lia.
Qed.


Lemma default_status_node r c :
  0 ≤ c < C → 0 ≤ r < R →
  default_status R C (c + r * C)
  = if bool_decide (r = 0 ∨ r = R - 1 ∨ c = 0 ∨ c = C - 1)
    then FIXED_VALUE_BOUNDARY else INTERIOR_NODE.
Proof.
  intros. unfold default_status. by rewrite node_status_lookup.
Qed.

(** A vertical link is active when its column is not the first or the
    last one; a horizontal link when its row is not. *)
Lemma vertical_link_active r c :
  0 ≤ r < R - 1 → 0 ≤ c < C →
  link_is_active (default_status R C (c + r * C))
    (default_status R C (c + (r + 1) * C)) = true
  ↔ 1 ≤ c < C - 1.
Proof.
  intros Hr Hc. rewrite !default_status_node by lia.
  unfold link_is_active, FIXED_VALUE_BOUNDARY, INTERIOR_NODE,
    INACTIVE_BOUNDARY.
  repeat case_bool_decide; cbn; split; intros; try done; lia.
Qed.

Lemma horizontal_link_active r c :
  0 ≤ r < R → 0 ≤ c < C - 1 →
  link_is_active (default_status R C (c + r * C))
    (default_status R C (c + r * C + 1)) = true
  ↔ 1 ≤ r < R - 1.
Proof.
  intros Hr Hc.
  replace (c + r * C + 1) with ((c + 1) + r * C) by lia.
  rewrite !default_status_node by lia.
  unfold link_is_active, FIXED_VALUE_BOUNDARY, INTERIOR_NODE,
    INACTIVE_BOUNDARY.
  repeat case_bool_decide; cbn; split; intros; try done; lia.
Qed.

(** The number of active links under the default boundary. *)
Lemma raster_active_count :
  let links := vertical_links R C ++ horizontal_links R C in
  len (filter (fun b => b = true)
         ((fun p => link_is_active (default_status R C p.1)
                      (default_status R C p.2)) <$> links))
  = (R - 1) * (C - 2) + (R - 2) * (C - 1).
Proof.
  cbn zeta. unfold len.
  rewrite filter_fmap_length, filter_app, length_app.
  assert (length (filter
            (fun p => link_is_active (default_status R C p.1)
                        (default_status R C p.2) = true)
            (vertical_links R C))
          = (Z.to_nat (R - 1) * Z.to_nat (C - 2))%nat) as ->.
  { unfold vertical_links.
    rewrite (filter_bind_length_uniform _ _ _ (Z.to_nat (C - 2))).
    { rewrite range_length by lia. by rewrite Z.sub_0_r. }
    intros r Hr%elem_of_range.
    rewrite bind_singleton_fmap, filter_fmap_length. cbn [fst snd].
    rewrite (filter_ext_in _ (fun c => 1 ≤ c < C - 1)).
    - rewrite filter_range_length by lia. f_equal. lia.
    - intros c Hc%elem_of_range. apply vertical_link_active; lia. }
  assert (length (filter
            (fun p => link_is_active (default_status R C p.1)
                        (default_status R C p.2) = true)
            (horizontal_links R C))
          = (Z.to_nat (R - 2) * Z.to_nat (C - 1))%nat) as ->.
  { unfold horizontal_links.
    rewrite (range_split 0 1 R), (range_split 1 (R - 1) R) by lia.
    rewrite !bind_app, !filter_app, !length_app.
    assert (∀ lo hi (k : nat),
      0 ≤ lo → hi ≤ R →
      (∀ r, lo ≤ r < hi →
         ((1 ≤ r < R - 1) ∧ k = Z.to_nat (C - 1))
         ∨ (¬ (1 ≤ r < R - 1) ∧ k = 0%nat)) →
      length (filter
        (fun p => link_is_active (default_status R C p.1)
                    (default_status R C p.2) = true)
        (range lo hi ≫= (fun r => range 0 (C - 1)
           ≫= (fun c => [(c + r * C, c + r * C + 1)]))))
      = (length (range lo hi) * k)%nat) as Hpart.
    { intros lo hi k Hlo Hhi Hk.
      apply filter_bind_length_uniform.
      intros r Hr%elem_of_range.
      rewrite bind_singleton_fmap, filter_fmap_length. cbn [fst snd].
      destruct (Hk r Hr) as [[Hin ->]|[Hout ->]].
      - rewrite filter_all_length;
          [rewrite range_length by lia; by rewrite Z.sub_0_r|].
        intros c Hc%elem_of_range. apply horizontal_link_active; lia.
      - apply filter_none_length.
        intros c Hc%elem_of_range Hact.
        apply horizontal_link_active in Hact; lia. }
    rewrite (Hpart 0 1 0%nat);
      [|lia|lia|intros r Hr; right; split; [lia|done]].
    rewrite (Hpart 1 (R - 1) (Z.to_nat (C - 1)));
      [|lia|lia|intros r Hr; left; split; [lia|done]].
    rewrite (Hpart (R - 1) R 0%nat);
      [|lia|lia|intros r Hr; right; split; [lia|done]].
    rewrite !range_length by lia. lia. }
  nia.
Qed.
End RasterLinks.

(** ** Building a raster grid *)

Lemma np_put_is_Ok {A} (a : list A) idx vals :
  Forall (fun i => 0 ≤ i < len a) idx → length idx = length vals →
  ∃ a', np_put a idx vals = Ok a'.
Proof.
  intros Hidx Hlen. unfold np_put.
  rewrite (rmapM_index_of_nonneg _ _ Hidx). cbn [rbind].
  rewrite bool_decide_eq_true_2 by done. eauto.
Qed.

Section Build.
Context {F : Type} `{Scalar F}.
Implicit Type g : Grid F.
Variables R C : Z.
Hypothesis HR : 3 ≤ R.
Hypothesis HC : 3 ≤ C.

(** The grid after the assignments of [initialize] that come before the
    active links are set up. *)
Lemma set_lists_links_ok g :
  cls g = RasterModelGrid_class →
  nrows g = R → ncols g = C → num_nodes g = R * C →
  raster_links_ok (set_lists R C g).
Proof.
  intros Hcls Hrows Hcols Hnodes.
  destruct (raster_link_lists R C HR HC)
    as (Hlen & _ & Vfrom & Vto & Dfrom & Dto).
  unfold raster_links_ok.
  change (cls (set_lists R C g)) with (cls g).
  change (link_fromnode (set_lists R C g))
    with (sgrid.node_link_index (R, C)).1.
  change (link_tonode (set_lists R C g))
    with (sgrid.node_link_index (R, C)).2.
  change (num_nodes (set_lists R C g)) with (num_nodes g).
  change (node_status (set_lists R C g))
    with (sgrid.node_status (shape g) FIXED_VALUE_BOUNDARY).
  change (node_activecell (set_lists R C g))
    with (sgrid.node_active_cell (R, C)).
  unfold shape. rewrite Hrows, Hcols, Hnodes.
  split_and!; try done.
  - unfold sgrid.node_status, len. cbn [fst snd].
    rewrite length_fmap, range_length by nia. nia.
  - unfold sgrid.node_active_cell, len. cbn [fst snd].
    rewrite length_fmap, range_length by nia. nia.
Qed.

Lemma set_lists_active_mask g :
  nrows g = R → ncols g = C →
  active_mask (set_lists R C g)
  = (fun p => link_is_active (default_status R C p.1)
                (default_status R C p.2))
    <$> (vertical_links R C ++ horizontal_links R C).
Proof.
  intros Hrows Hcols. unfold active_mask.
  change (link_fromnode (set_lists R C g))
    with (fst <$> (vertical_links R C ++ horizontal_links R C)).
  change (link_tonode (set_lists R C g))
    with (snd <$> (vertical_links R C ++ horizontal_links R C)).
  change (node_status (set_lists R C g))
    with (sgrid.node_status (shape g) FIXED_VALUE_BOUNDARY).
  unfold shape. rewrite Hrows, Hcols.
  rewrite zip_with_fmap_l, zip_with_fmap_r, zip_with_diag.
  done.
Qed.

(** [RasterModelGrid(R, C, dx)] returns a grid with the sizes of the
    closed forms, whose links are those of a raster and whose
    active-link attributes are up to date. *)
Lemma raster_grid_built (dx : F) :
  ∃ g,
    RasterModelGrid R C dx = (g, Ok tt)
    ∧ raster_links_ok g
    ∧ nrows g = R ∧ ncols g = C
    ∧ num_nodes g = R * C
    ∧ num_cells g = (R - 2) * (C - 2)
    ∧ num_links g = C * (R - 1) + R * (C - 1)
    ∧ len (link_fromnode g) = num_links g
    ∧ num_active_links g = (R - 1) * (C - 2) + (R - 2) * (C - 1)
    ∧ len (active_links g) = num_active_links g.
Proof.
  unfold RasterModelGrid.
  unfold bind at 1. cbn [modify].
  unfold bind at 1. cbn [get].
  set (g0 := set_num_nodes (R * C) (new_object RasterModelGrid_class)).
  change (num_nodes g0) with (R * C).
  rewrite bool_decide_eq_true_2 by nia.
  unfold initialize.
  unfold bind at 1. cbn [modify].
  set (g1 := set_sizes R C dx g0).
  unfold assert. rewrite bool_decide_eq_true_2 by lia.
  unfold bind at 1. cbn [ret].
  unfold bind at 1. cbn [modify].
  set (g2 := set_lists R C g1).
  change (if _SLOW then reset_list_of_active_links_slow
          else reset_list_of_active_links)
    with (reset_list_of_active_links (F:=F)).
  assert (raster_links_ok g2) as Hok by (by apply set_lists_links_ok).
  destruct (reset_run g2 Hok)
    as (g3 & Hreset & Hout & Hal & Hnal & Hfrom & Hto & _ & _).
  erewrite bind_ok by exact Hreset.
  unfold bind at 1. cbn [get].
  assert (topology g3 = topology g2 ∧ node_status g3 = node_status g2)
    as [Ht Hs] by (by inversion Hout).
  pose proof (set_lists_active_mask g1 eq_refl eq_refl) as Hmask.
  fold g2 in Hmask.
  destruct (raster_link_lists R C HR HC)
    as (_ & Hnlinks & _ & _ & _ & _).
  change (sgrid.node_link_index (R, C)).1
    with (fst <$> (vertical_links R C ++ horizontal_links R C))
    in Hnlinks.
  assert (len (active_mask g2) = C * (R - 1) + R * (C - 1)) as Lmask.
  { rewrite Hmask. unfold len in *. rewrite length_fmap.
    by rewrite length_fmap in Hnlinks. }
  (* the faces of the links *)
  assert (∃ faces,
    sgrid.link_faces (R, C) (active_links g3) = Ok faces)
    as [faces Hfaces].
  { unfold sgrid.link_faces. cbn [fst snd].
    unfold np_full. rewrite bool_decide_eq_false_2 by nia.
    cbn [rbind]. apply np_put_is_Ok.
    - rewrite Hal. apply Forall_forall. intros k Hk.
      pose proof (where_from_bound 0 (active_mask g2)) as Hb.
      rewrite Forall_forall in Hb. specialize (Hb k Hk).
      unfold len at 1. rewrite length_replicate. lia.
    - unfold range. rewrite length_seqZ. unfold len. lia. }
  unfold bind at 1. unfold lift at 1. rewrite Hfaces.
  cbn [modify].
  exists (set_link_face faces g3).
  split; [done|].
  assert (raster_links_ok (set_link_face faces g3)) as Hok'.
  { destruct Hok as (K1 & K2 & K3 & K4 & K5 & K6 & K7 & K8).
    unfold raster_links_ok, cls, link_fromnode, link_tonode, num_nodes,
      node_activecell in *.
    cbn [set_link_face set_topology topology node_status t_cls
         t_link_fromnode t_link_tonode t_num_nodes t_node_activecell].
    rewrite Ht, Hs. done. }
  split; [done|].
  unfold nrows, ncols, num_nodes, num_cells, num_links, link_fromnode,
    num_active_links, active_links in *.
  cbn [set_link_face set_topology topology active t_nrows t_ncols
       t_num_nodes t_num_cells t_num_links t_link_fromnode].
  rewrite Ht.
  split_and!; try reflexivity.
  - exact Hnlinks.
  - rewrite Hnal. unfold np_where, len.
    rewrite where_from_length, Hmask.
    apply (raster_active_count R C HR HC).
  - rewrite Hal, Hnal. done.
Qed.
End Build.

(** ** The claim on the sizes of a raster grid *)

(** C1. A raster grid built with [R] rows and [C] columns, both at least
    3, and any spacing, has under the default boundary
    [num_nodes = R * C], [num_cells = (R - 2) * (C - 2)],
    [num_links = C * (R - 1) + R * (C - 1)] and
    [num_active_links = num_links - 2 * (C - 1) - 2 * (R - 1)]; the counts
    are those of the link list and of the active-link list that the grid
    holds. *)
Theorem raster_grid_sizes {F} `{Scalar F} (R C : Z) (dx : F) :
  3 ≤ R → 3 ≤ C →
  ∃ g,
    RasterModelGrid R C dx = (g, Ok tt)
    ∧ num_nodes g = R * C
    ∧ num_cells g = (R - 2) * (C - 2)
    ∧ num_links g = C * (R - 1) + R * (C - 1)
    ∧ num_active_links g = num_links g - 2 * (C - 1) - 2 * (R - 1)
    ∧ len (link_fromnode g) = num_links g
    ∧ len (active_links g) = num_active_links g.
Proof.
  intros HR HC.
  destruct (raster_grid_built R C HR HC dx)
    as (g & Hrun & _ & _ & _ & Hnodes & Hcells & Hlinks & Hlen & Hactive
        & Hlen').
  exists g. split_and!; try done.
  rewrite Hactive, Hlinks. lia.
Qed.
(** ** Sums of fluxes at a node *)

Section Sums.
Context {F : Type} `{Scalar F}.

(** The sum over the positions found by [numpy.where]. *)
Lemma sum_at_where p x : ∀ (w : list F) i,
  length x = length w →
  sum_at p x w
  = foldr fadd fzero
      ((fun j => default fzero (w !! Z.to_nat (j - i)))
         <$> where_from i (np_eq x p)).
Proof.
  induction x as [|n x IH]; intros [|v w] i Hlen; try discriminate.
  - reflexivity.
  - unfold np_eq at 1. rewrite fmap_cons. fold (np_eq x p).
    cbn [sum_at where_from].
    assert (foldr fadd fzero
              ((fun j => default fzero ((v :: w) !! Z.to_nat (j - i)))
                 <$> where_from (i + 1) (np_eq x p))
            = foldr fadd fzero
                ((fun j => default fzero (w !! Z.to_nat (j - (i + 1))))
                   <$> where_from (i + 1) (np_eq x p))) as Hshift.
    { f_equal. apply list_fmap_ext. intros k j Hj.
      apply list_elem_of_lookup_2 in Hj.
      pose proof (where_from_bound (i + 1) (np_eq x p)) as Hb.
      rewrite Forall_forall in Hb. specialize (Hb j Hj).
      replace (Z.to_nat (j - i)) with (S (Z.to_nat (j - (i + 1)))) by lia.
      done. }
    rewrite (IH w (i + 1)) by (cbn in Hlen; lia).
    destruct (n =? p).
    + rewrite fmap_cons. cbn [foldr]. rewrite Hshift.
      replace (i - i) with 0 by lia. done.
    + by rewrite Hshift.
Qed.

Lemma sum_at_positions p x (w : list F) :
  length x = length w →
  sum_at p x w
  = foldr fadd fzero
      ((fun j => default fzero (w !! Z.to_nat j)) <$> positions p x).
Proof.
  intros Hlen. rewrite (sum_at_where p x w 0 Hlen).
  unfold positions, np_where. f_equal.
  apply list_fmap_ext. intros _ j _. cbn beta. by rewrite Z.sub_0_r.
Qed.

(** The sum at [p] over the images of the nodes under a map that sends
    exactly the node [n] to [p]. *)
Lemma sum_at_image (cell : Z → Z) p n (x : list Z) : ∀ (w : list F),
  Forall (fun m => cell m = p ↔ m = n) x →
  sum_at p (cell <$> x) w = sum_at n x w.
Proof.
  induction x as [|m x IH]; intros w Hx; [reflexivity|].
  apply Forall_cons in Hx as [Hm Hx].
  destruct w as [|v w]; [reflexivity|].
  cbn [fmap list_fmap sum_at]. rewrite (IH w Hx).
  destruct (Z.eqb_spec (cell m) p) as [E|E],
    (Z.eqb_spec m n) as [E'|E']; try reflexivity; tauto.
Qed.
End Sums.

(** ** What exact arithmetic adds *)

Section Exact.
Context {F : Type} `{Scalar F}.
Variables (one : F) (opp inv : F → F).
Hypothesis Rth : ring_theory fzero one fadd fmul fsub opp eq.
Hypothesis Hdiv : ∀ x y, fdiv x y = fmul x (inv y).

Add Ring scalar_ring : Rth.

(** The running total is the sum of what leaves minus the sum of what
    arrives. *)
Lemma running_net_sums p fs : ∀ ts (vs : list F) acc,
  length fs = length ts →
  running_net p fs ts vs acc
  = fsub (fadd acc (sum_at p fs vs)) (sum_at p ts vs).
Proof.
  induction fs as [|f fs IH]; intros [|t ts] [|v vs] acc Hlen;
    try discriminate; cbn [running_net sum_at]; try ring.
  rewrite IH by (cbn in Hlen; lia). unfold net_step.
  destruct (f =? p), (t =? p); ring.
Qed.

Lemma sum_at_div p x (a : F) : ∀ w,
  sum_at p x ((fun v => fdiv v a) <$> w) = fdiv (sum_at p x w) a.
Proof.
  induction x as [|n x IH]; intros [|v w]; cbn [sum_at fmap list_fmap];
    rewrite ?Hdiv; try ring.
  rewrite IH. destruct (n =? p); rewrite ?Hdiv; ring.
Qed.

(** A node with no more than two links: the sum is that of the first
    two occurrences. *)
Lemma sum_at_pair p x (w : list F) :
  length x = length w →
  (length (positions p x) ≤ 2)%nat →
  sum_at p x w = fadd (gathered w 0 p x) (gathered w 1 p x).
Proof.
  intros Hlen Htwo. rewrite (sum_at_positions p x w Hlen).
  unfold gathered.
  destruct (positions p x) as [|j1 [|j2 [|j3 ps]]]; cbn in *;
    try ring. lia.
Qed.

Lemma gather_net_exact (g : Grid F) fl p :
  length (activelink_fromnode g) = length fl →
  length (activelink_tonode g) = length fl →
  (length (positions p (activelink_fromnode g)) ≤ 2)%nat →
  (length (positions p (activelink_tonode g)) ≤ 2)%nat →
  gather_net g fl p = loop_net g fl p.
Proof.
  intros Lf Lt Pf Pt. unfold gather_net, loop_net.
  rewrite running_net_sums by lia.
  assert (((fun x => fdiv (fmul x (_dx g)) (cellarea g)) <$> fl)
          = (fun v => fdiv v (cellarea g)) <$> link_fluxes g fl) as ->
    by (unfold link_fluxes; by rewrite <- list_fmap_compose).
  rewrite !sum_at_div.
  rewrite (sum_at_pair p (activelink_fromnode g))
    by (unfold link_fluxes; rewrite ?length_fmap; done).
  rewrite (sum_at_pair p (activelink_tonode g))
    by (unfold link_fluxes; rewrite ?length_fmap; done).
  cbn zeta. rewrite !Hdiv. ring.
Qed.

Lemma cell_net_exact (g : Grid F) fl c n :
  length (activelink_fromnode g) = length fl →
  length (activelink_tonode g) = length fl →
  (length (positions n (activelink_fromnode g)) ≤ 2)%nat →
  (length (positions n (activelink_tonode g)) ≤ 2)%nat →
  Forall (fun m => cell_of g m = c ↔ m = n) (activelink_fromnode g) →
  Forall (fun m => cell_of g m = c ↔ m = n) (activelink_tonode g) →
  gather_net g fl n = cell_loop_net g fl c.
Proof.
  intros Lf Lt Pf Pt Cf Ct. unfold gather_net, cell_loop_net.
  rewrite running_net_sums by (rewrite !length_fmap; lia).
  rewrite (sum_at_image (cell_of g) c n _ _ Cf).
  rewrite (sum_at_image (cell_of g) c n _ _ Ct).
  rewrite (sum_at_pair n (activelink_fromnode g))
    by (unfold link_fluxes; rewrite ?length_fmap; done).
  rewrite (sum_at_pair n (activelink_tonode g))
    by (unfold link_fluxes; rewrite ?length_fmap; done).
  cbn zeta. rewrite !Hdiv. ring.
Qed.
End Exact.
(** ** Gathering through the phantom slot *)

Lemma positions_bound p x j : j ∈ positions p x → 0 ≤ j < len x.
Proof.
  intros [Hj Hl]%positions_elem. apply lookup_lt_Some in Hl.
  unfold len. lia.
Qed.

Section Gather.
Context {F : Type} `{Scalar F}.

Lemma getitem_phantom (w : list F) :
  getitem (w ++ [fzero]) (-1) = Ok fzero.
Proof.
  unfold getitem, len, index_of. rewrite length_app. cbn [length].
  rewrite bool_decide_eq_false_2 by lia.
  rewrite bool_decide_eq_true_2 by lia. cbn [rbind].
  replace (Z.to_nat (Z.of_nat (length w + 1) + -1)) with (length w) by lia.
  by rewrite list_lookup_middle.
Qed.

Lemma getitem_before_phantom (w : list F) j :
  0 ≤ j < len w →
  getitem (w ++ [fzero]) j = Ok (default fzero (w !! Z.to_nat j)).
Proof.
  intros Hj. unfold len in Hj.
  destruct (lookup_lt_is_Some_2 w (Z.to_nat j)) as [v Hv]; [lia|].
  rewrite Hv. apply getitem_nonneg; [lia|].
  by rewrite lookup_app_l by lia.
Qed.

(** An entry of a link matrix is an index into the flux array extended by
    the phantom slot: it reads the flux of the link, or the zero of the
    slot. *)
Lemma occurrence_gather k p x (w : list F) :
  length x = length w →
  getitem (w ++ [fzero]) (occurrence k p x) = Ok (gathered w k p x).
Proof.
  intros Hlen. unfold occurrence, gathered.
  destruct (positions p x !! k) as [j|] eqn:Hj; cbn [default].
  - apply list_elem_of_lookup_2, positions_bound in Hj.
    apply getitem_before_phantom. unfold len in *. lia.
  - apply getitem_phantom.
Qed.

(** A row of a link matrix gathers, for every node, the flux of one of
    its links. *)
Lemma gather_row (w : list F) x m k row (rows N : nat) :
  link_matrix_of m x rows N → m !! k = Some row →
  length x = length w →
  np_take (w ++ [fzero]) row
  = Ok ((fun n => gathered w k n x) <$> seqZ 0 (Z.of_nat N)).
Proof.
  intros [_ Hm] Hrow Hlen. destruct (Hm k row Hrow) as [HN Hent].
  assert (row = (fun n => occurrence k n x) <$> seqZ 0 (Z.of_nat N)) as ->.
  { apply list_eq. intros i. rewrite list_lookup_fmap.
    destruct (decide (i < N)%nat) as [Hi|Hi].
    - rewrite lookup_seqZ_lt by lia. cbn.
      specialize (Hent (Z.of_nat i) ltac:(lia)).
      rewrite Nat2Z.id in Hent. rewrite Hent; repeat f_equal; lia.
    - rewrite lookup_seqZ_ge by lia. cbn.
      apply lookup_ge_None. lia. }
  unfold np_take. clear Hrow Hent HN.
  generalize (seqZ 0 (Z.of_nat N)) as ns.
  induction ns as [|n ns IH]; [done|].
  cbn [fmap list_fmap rmapM].
  rewrite (occurrence_gather k n x w Hlen). cbn [rbind].
  fold (fmap (M:=list) (fun n => occurrence k n x) ns).
  fold (fmap (M:=list) (fun n => gathered w k n x) ns).
  rewrite IH. done.
Qed.
End Gather.

Lemma link_matrix_rows m x N :
  link_matrix_of m x 2 N →
  ∃ row0 row1,
    getitem m 0 = Ok row0 ∧ m !! 0%nat = Some row0
    ∧ getitem m 1 = Ok row1 ∧ m !! 1%nat = Some row1.
Proof.
  intros [Hlen _].
  destruct (lookup_lt_is_Some_2 m 0) as [row0 H0]; [lia|].
  destruct (lookup_lt_is_Some_2 m 1) as [row1 H1]; [lia|].
  exists row0, row1. split_and!; try done.
  - by apply getitem_nonneg.
  - by apply getitem_nonneg.
Qed.

(** ** Flux divergence on a raster with the loop over the active links *)

Section FluxSlow.
Context {F : Type} `{Scalar F}.
Implicit Type g : Grid F.
Implicit Type h : heap F.

(** One pass of the loop: the entry of a node without a cell stays, the
    entry of a node with a cell takes one step of its running total. *)
Lemma flux_pass_slow_run g flux r h fl buf (k : nat) link_id f t fv :
  h !! flux = Some fl → h !! r = Some buf → flux ≠ r →
  len (node_activecell g) = len buf →
  getitem (link_fromnode g) link_id = Ok f →
  getitem (link_tonode g) link_id = Ok t →
  0 ≤ f < len buf → 0 ≤ t < len buf →
  fl !! k = Some fv →
  ∃ buf',
    flux_pass_slow g flux r (Z.of_nat k, link_id) h
      = (<[r := buf']> h, Ok tt)
    ∧ length buf' = length buf
    ∧ ∀ (p : nat) x,
        buf !! p = Some x →
        buf' !! p
        = Some (if decide (node_activecell g !! p = Some BAD_INDEX_VALUE)
                then x
                else net_step (Z.of_nat p) f t
                       (fdiv (fmul fv (_dx g)) (cellarea g)) x).
Proof.
  intros Hflux Hr Hne Hlen Hf Ht Rf Rt Hfv.
  set (v := fdiv (fmul fv (_dx g)) (cellarea g)).
  unfold flux_pass_slow. cbn [fst snd].
  unfold bind at 1. unfold lift at 1. rewrite Hf.
  destruct (getitem_is_Ok (node_activecell g) f ltac:(lia))
    as [from_cell Hfc].
  unfold bind at 1. unfold lift at 1. rewrite Hfc.
  unfold bind at 1. unfold lift at 1. rewrite Ht.
  destruct (getitem_is_Ok (node_activecell g) t ltac:(lia))
    as [to_cell Htc].
  unfold bind at 1. unfold lift at 1. rewrite Htc.
  erewrite bind_ok.
  2:{ eapply load_item_Some; [done|].
      apply getitem_nonneg; [lia|]. by rewrite Nat2Z.id. }
  fold v.
  apply getitem_Ok in Hfc as (pf & Hpf & Hfc).
  apply getitem_Ok in Htc as (pt & Hpt & Htc).
  apply index_of_Ok in Hpf as [_ [[_ Hpf]|[? _]]]; [|lia].
  apply index_of_Ok in Hpt as [_ [[_ Hpt]|[? _]]]; [|lia].
  (* the from-node *)
  assert (∃ buf1,
    (if negb (from_cell =? BAD_INDEX_VALUE)
     then iadd_item r f v else ret tt) h = (<[r := buf1]> h, Ok tt)
    ∧ length buf1 = length buf
    ∧ ∀ (p : nat) x,
        buf !! p = Some x →
        buf1 !! p
        = Some (if decide (node_activecell g !! p = Some BAD_INDEX_VALUE)
                then x
                else if f =? Z.of_nat p then fadd x v else x))
    as (buf1 & Hrun1 & Hlen1 & Hval1).
  { destruct (Z.eqb_spec from_cell BAD_INDEX_VALUE) as [->|Hbad];
      cbn [negb].
    - exists buf. rewrite insert_id by done. split; [done|].
      split; [done|]. intros p x Hx. rewrite Hx. f_equal.
      destruct (decide _) as [|Hcell]; [done|].
      destruct (Z.eqb_spec f (Z.of_nat p)) as [->|_]; [|done].
      assert (pf = p) as -> by lia. done.
    - destruct (iadd_item_run h r buf f v Hr ltac:(lia))
        as (q & old & Hq & Hold & ->).
      apply index_of_Ok in Hq as [_ [[_ Hq]|[? _]]]; [|lia].
      eexists. split; [done|]. split; [by rewrite length_insert|].
      intros p x Hx.
      destruct (Z.eqb_spec f (Z.of_nat p)) as [->|Hfp].
      + assert (q = p) as -> by lia.
        assert (pf = p) as -> by lia.
        rewrite list_lookup_insert_eq by (by eapply lookup_lt_Some).
        assert (old = x) as -> by congruence.
        destruct (decide _) as [Hcell|]; [congruence|done].
      + rewrite list_lookup_insert_ne by lia. rewrite Hx.
        by destruct (decide _). }
  erewrite bind_ok by exact Hrun1.
  assert (<[r:=buf1]> h !! r = Some buf1) as Hr1
    by apply lookup_insert_eq.
  (* the to-node *)
  assert (∃ buf2,
    (if negb (to_cell =? BAD_INDEX_VALUE)
     then isub_item r t v else ret tt) (<[r:=buf1]> h)
    = (<[r := buf2]> h, Ok tt)
    ∧ length buf2 = length buf1
    ∧ ∀ (p : nat) x,
        buf1 !! p = Some x →
        buf2 !! p
        = Some (if decide (node_activecell g !! p = Some BAD_INDEX_VALUE)
                then x
                else if t =? Z.of_nat p then fsub x v else x))
    as (buf2 & Hrun2 & Hlen2 & Hval2).
  { destruct (Z.eqb_spec to_cell BAD_INDEX_VALUE) as [->|Hbad];
      cbn [negb].
    - exists buf1. split; [done|].
      split; [done|]. intros p x Hx. rewrite Hx. f_equal.
      destruct (decide _) as [|Hcell]; [done|].
      destruct (Z.eqb_spec t (Z.of_nat p)) as [->|_]; [|done].
      assert (pt = p) as -> by lia. done.
    - destruct (isub_item_run (<[r:=buf1]> h) r buf1 t v Hr1
                  ltac:(unfold len in *; lia))
        as (q & old & Hq & Hold & ->).
      apply index_of_Ok in Hq as [_ [[_ Hq]|[? _]]]; [|lia].
      rewrite insert_insert_eq.
      eexists. split; [done|]. split; [by rewrite length_insert|].
      intros p x Hx.
      destruct (Z.eqb_spec t (Z.of_nat p)) as [->|Htp].
      + assert (q = p) as -> by lia.
        assert (pt = p) as -> by lia.
        rewrite list_lookup_insert_eq by (by eapply lookup_lt_Some).
        assert (old = x) as -> by congruence.
        destruct (decide _) as [Hcell|]; [congruence|done].
      + rewrite list_lookup_insert_ne by lia. rewrite Hx.
        by destruct (decide _). }
  exists buf2. split; [done|]. split; [lia|].
  intros p x Hx.
  rewrite (Hval2 p _ (Hval1 p x Hx)). unfold net_step.
  by destruct (decide _).
Qed.

Lemma flux_slow_loop g flux r fl (rest : list Z) :
  ∀ (k : nat) h buf fs ts,
  h !! flux = Some fl → h !! r = Some buf → flux ≠ r →
  len (node_activecell g) = len buf →
  rmapM (getitem (link_fromnode g)) rest = Ok fs →
  rmapM (getitem (link_tonode g)) rest = Ok ts →
  Forall (fun n => 0 ≤ n < len buf) fs →
  Forall (fun n => 0 ≤ n < len buf) ts →
  (k + length rest ≤ length fl)%nat →
  ∃ buf',
    for_each (zip (seqZ (Z.of_nat k) (len rest)) rest)
      (flux_pass_slow g flux r) h
    = (<[r := buf']> h, Ok tt)
    ∧ length buf' = length buf
    ∧ ∀ (p : nat) x,
        buf !! p = Some x →
        buf' !! p
        = Some (if decide (node_activecell g !! p = Some BAD_INDEX_VALUE)
                then x
                else running_net (Z.of_nat p) fs ts
                       ((fun fv => fdiv (fmul fv (_dx g)) (cellarea g))
                          <$> take (length rest) (drop k fl)) x).
Proof.
  induction rest as [|link_id rest IH];
    intros k h buf fs ts Hflux Hr Hne Hlen Hfs Hts Vf Vt Hk.
  - injection Hfs as <-. exists buf. rewrite insert_id by done.
    split; [done|]. split; [done|].
    intros p x Hx. rewrite Hx. by destruct (decide _).
  - cbn [rmapM] in Hfs, Hts.
    destruct (getitem (link_fromnode g) link_id) as [f|] eqn:Hf;
      cbn [rbind] in Hfs; [|done].
    destruct (rmapM _ rest) as [fs'|] eqn:Hfs';
      cbn [rbind] in Hfs; [|done].
    injection Hfs as <-.
    destruct (getitem (link_tonode g) link_id) as [t|] eqn:Ht;
      cbn [rbind] in Hts; [|done].
    destruct (rmapM (getitem (link_tonode g)) rest) as [ts'|] eqn:Hts';
      cbn [rbind] in Hts; [|done].
    injection Hts as <-.
    apply Forall_cons in Vf as [Rf Vf]. apply Forall_cons in Vt as [Rt Vt].
    cbn [length] in Hk.
    destruct (lookup_lt_is_Some_2 fl k) as [fv Hfv]; [lia|].
    unfold len. cbn [length].
    rewrite seqZ_cons by lia. cbn [zip zip_with for_each].
    destruct (flux_pass_slow_run g flux r h fl buf k link_id f t fv)
      as (buf1 & Hrun & Hlen1 & Hval1); [done..|].
    erewrite bind_ok by exact Hrun.
    replace (Z.pred (Z.of_nat (S (length rest)))) with (len rest)
      by (unfold len; lia).
    replace (Z.succ (Z.of_nat k)) with (Z.of_nat (S k)) by lia.
    assert (len buf1 = len buf) as Hlen1' by (unfold len; lia).
    destruct (IH (S k) (<[r:=buf1]> h) buf1 fs' ts')
      as (buf' & Hrun' & Hlen' & Hval');
      [by rewrite lookup_insert_ne|by rewrite lookup_insert_eq|done
      |lia|done|done
      |by rewrite Hlen1'|by rewrite Hlen1'|lia|].
    exists buf'. rewrite Hrun', insert_insert_eq.
    split; [done|]. split; [lia|].
    intros p x Hx.
    rewrite (Hval' p _ (Hval1 p x Hx)).
    rewrite (drop_S fl fv k Hfv). cbn [take fmap list_fmap running_net].
    by destruct (decide _).
Qed.
End FluxSlow.
(** ** Flux divergence on a raster: the two forms *)

Section FluxForms.
Context {F : Type} `{Scalar F}.
Implicit Type g : Grid F.
Implicit Type h : heap F.

(** The whole-array form: every entry is the gathered net flux. *)
Lemma raster_flux_fast_run g flux buffer h fl :
  link_matrix_of (node_active_inlink_matrix g) (activelink_tonode g)
    2 (Z.to_nat (num_nodes g)) →
  link_matrix_of (node_active_outlink_matrix g) (activelink_fromnode g)
    2 (Z.to_nat (num_nodes g)) →
  length (activelink_fromnode g) = length fl →
  length (activelink_tonode g) = length fl →
  h !! flux = Some fl → len fl = num_active_links g →
  0 ≤ num_nodes g →
  match buffer with
  | None => True
  | Some b => b ≠ flux ∧ ∃ bv, h !! b = Some bv ∧ len bv = num_nodes g
  end →
  ∃ h' r out,
    RasterModelGrid_calculate_flux_divergence_at_nodes g flux buffer h
      = (h', Ok r)
    ∧ h' !! r = Some out
    ∧ length out = Z.to_nat (num_nodes g)
    ∧ ∀ n, (n < Z.to_nat (num_nodes g))%nat →
        out !! n = Some (gather_net g fl (Z.of_nat n)).
Proof.
  intros Min Mout Lf Lt Hflux Hfl Hn Hbuf.
  destruct (prepare_net_unit_flux_run g flux buffer h fl)
    as (h1 & r0 & Hprep & _ & Hflux1 & _ & _); [done..|].
  set (w := link_fluxes g fl).
  assert (length (activelink_fromnode g) = length w) as Lf'
    by (unfold w, link_fluxes; by rewrite length_fmap).
  assert (length (activelink_tonode g) = length w) as Lt'
    by (unfold w, link_fluxes; by rewrite length_fmap).
  destruct (link_matrix_rows _ _ _ Mout)
    as (out0 & out1 & Go0 & Lo0 & Go1 & Lo1).
  destruct (link_matrix_rows _ _ _ Min)
    as (in0 & in1 & Gi0 & Li0 & Gi1 & Li1).
  pose proof (gather_row w _ _ _ _ _ _ Mout Lo0 Lf') as To0.
  pose proof (gather_row w _ _ _ _ _ _ Mout Lo1 Lf') as To1.
  pose proof (gather_row w _ _ _ _ _ _ Min Li0 Lt') as Ti0.
  pose proof (gather_row w _ _ _ _ _ _ Min Li1 Lt') as Ti1.
  unfold RasterModelGrid_calculate_flux_divergence_at_nodes.
  erewrite bind_ok by exact Hprep.
  erewrite bind_ok by (by apply load_Some).
  change (((fun x : F => fmul x (_dx g)) <$> fl) ++ [fzero])
    with (w ++ [fzero]).
  unfold bind at 1. unfold lift at 1. rewrite Go0.
  unfold bind at 1. unfold lift at 1. rewrite To0.
  unfold bind at 1. unfold lift at 1. rewrite Go1.
  unfold bind at 1. unfold lift at 1. rewrite To1.
  unfold bind at 1. unfold lift at 1.
  rewrite np_binop_same_length by (by rewrite !length_fmap).
  unfold bind at 1. unfold lift at 1. rewrite Gi0.
  unfold bind at 1. unfold lift at 1. rewrite Ti0.
  unfold bind at 1. unfold lift at 1. rewrite Gi1.
  unfold bind at 1. unfold lift at 1. rewrite Ti1.
  unfold bind at 1. unfold lift at 1.
  rewrite np_binop_same_length by (by rewrite !length_fmap).
  unfold bind at 1. unfold lift at 1.
  rewrite np_binop_same_length
    by (by rewrite !length_zip_with, !length_fmap).
  unfold alloc.
  eexists _, _, _. split; [reflexivity|].
  split; [apply lookup_insert_eq|].
  split.
  { rewrite length_fmap, !length_zip_with, !length_fmap, length_seqZ.
    lia. }
  intros n Hlt.
  rewrite list_lookup_fmap, !lookup_zip_with, !list_lookup_fmap.
  rewrite lookup_seqZ_lt by lia. cbn. by rewrite Z.add_0_l.
Qed.

(** The loop form: zero at a node without a cell, the running total of
    the node elsewhere. *)
Lemma raster_flux_slow_run g flux buffer h fl :
  h !! flux = Some fl → len fl = num_active_links g →
  num_active_links g = len (active_links g) →
  len (node_activecell g) = num_nodes g →
  np_take (link_fromnode g) (active_links g)
    = Ok (activelink_fromnode g) →
  np_take (link_tonode g) (active_links g)
    = Ok (activelink_tonode g) →
  Forall (fun n => 0 ≤ n < num_nodes g) (activelink_fromnode g) →
  Forall (fun n => 0 ≤ n < num_nodes g) (activelink_tonode g) →
  match buffer with
  | None => True
  | Some b => b ≠ flux ∧ ∃ bv, h !! b = Some bv ∧ len bv = num_nodes g
  end →
  ∃ h' r out,
    RasterModelGrid_calculate_flux_divergence_at_nodes_slow
      g flux buffer h = (h', Ok r)
    ∧ h' !! r = Some out
    ∧ length out = Z.to_nat (num_nodes g)
    ∧ ∀ n, (n < Z.to_nat (num_nodes g))%nat →
        out !! n
        = Some (if decide (node_activecell g !! n = Some BAD_INDEX_VALUE)
                then fzero else loop_net g fl (Z.of_nat n)).
Proof.
  intros Hflux Hfl Hnal Hcells Tf Tt Vf Vt Hbuf.
  assert (0 ≤ num_nodes g) as Hn by (rewrite <- Hcells; unfold len; lia).
  destruct (prepare_net_unit_flux_run g flux buffer h fl)
    as (h1 & r & Hprep & Hr & Hflux1 & Hne & _); [done..|].
  set (zeros := replicate (Z.to_nat (num_nodes g)) (fzero : F)) in *.
  assert (length zeros = Z.to_nat (num_nodes g)) as Hz
    by apply length_replicate.
  assert (len zeros = num_nodes g) as Hz' by (unfold len; lia).
  destruct (flux_slow_loop g flux r fl (active_links g) 0%nat h1 zeros
              (activelink_fromnode g) (activelink_tonode g))
    as (out & Hloop & Hlen & Hval);
    [done|done|done|lia|done|done
    |by rewrite Hz'|by rewrite Hz'|unfold len in *; lia|].
  unfold RasterModelGrid_calculate_flux_divergence_at_nodes_slow.
  erewrite bind_ok by exact Hprep.
  unfold enumerate. change 0 with (Z.of_nat 0).
  erewrite bind_ok by exact Hloop.
  eexists _, r, out. split; [reflexivity|].
  split; [apply lookup_insert_eq|]. split; [lia|].
  intros n Hlt.
  rewrite (Hval n fzero) by (by apply lookup_replicate_2).
  rewrite drop_0, take_ge by (unfold len in *; lia). done.
Qed.

(** What a raster offers to the operators once its active links have
    been derived. *)
Lemma raster_after_reset g0 g (fl : list F) :
  raster_links_ok g0 →
  reset_list_of_active_links g0 = (g, Ok tt) →
  len fl = num_active_links g →
  cls g = RasterModelGrid_class
  ∧ 0 ≤ num_nodes g
  ∧ len (node_activecell g) = num_nodes g
  ∧ num_active_links g = len (active_links g)
  ∧ np_take (link_fromnode g) (active_links g)
    = Ok (activelink_fromnode g)
  ∧ np_take (link_tonode g) (active_links g) = Ok (activelink_tonode g)
  ∧ length (activelink_fromnode g) = length fl
  ∧ length (activelink_tonode g) = length fl
  ∧ Forall (fun n => 0 ≤ n < num_nodes g) (activelink_fromnode g)
  ∧ Forall (fun n => 0 ≤ n < num_nodes g) (activelink_tonode g)
  ∧ (∀ n, (length (positions n (activelink_fromnode g)) ≤ 2)%nat)
  ∧ (∀ n, (length (positions n (activelink_tonode g)) ≤ 2)%nat)
  ∧ link_matrix_of (node_active_inlink_matrix g) (activelink_tonode g)
      2 (Z.to_nat (num_nodes g))
  ∧ link_matrix_of (node_active_outlink_matrix g) (activelink_fromnode g)
      2 (Z.to_nat (num_nodes g)).
Proof.
  intros Hok Hreset Hfl.
  destruct (reset_run g0 Hok)
    as (g' & Hrun & Hout & Hal & Hnal & Hfrom & Hto & Min & Mout).
  assert (g' = g) as -> by congruence.
  destruct Hok as (Hcls & Hlens & Hstatus & Hcells & Vf & Vt & Pf & Pt).
  assert (topology g = topology g0) as Htop
    by (unfold outside_active in Hout; congruence).
  assert (num_nodes g = num_nodes g0) as Hnn
    by (unfold num_nodes; by rewrite Htop).
  assert (node_activecell g = node_activecell g0) as Hnac
    by (unfold node_activecell; by rewrite Htop).
  assert (link_fromnode g = link_fromnode g0) as Hlf
    by (unfold link_fromnode; by rewrite Htop).
  assert (link_tonode g = link_tonode g0) as Hlt
    by (unfold link_tonode; by rewrite Htop).
  assert (length (active_mask g0) = length (link_fromnode g0)) as Hmask
    by (unfold active_mask; rewrite length_zip_with; lia).
  assert (length (np_where (active_mask g0))
          = length (filter (fun b => b = true) (active_mask g0))) as Hwh
    by apply where_from_length.
  split_and!.
  - unfold cls. by rewrite Htop.
  - rewrite Hnn, <- Hcells. unfold len. lia.
  - by rewrite Hnac, Hnn.
  - by rewrite Hnal, Hal.
  - rewrite Hal, Hlf, Hfrom. apply np_take_where_select. lia.
  - rewrite Hal, Hlt, Hto. apply np_take_where_select. lia.
  - rewrite Hfrom, select_length by lia. unfold len in *. lia.
  - rewrite Hto, select_length by lia. unfold len in *. lia.
  - rewrite Hfrom, Hnn. by apply select_Forall.
  - rewrite Hto, Hnn. by apply select_Forall.
  - intros n. rewrite Hfrom.
    etrans; [apply positions_select_le|apply Pf].
  - intros n. rewrite Hto.
    etrans; [apply positions_select_le|apply Pt].
  - by rewrite Hnn.
  - by rewrite Hnn.
Qed.

(** With exact arithmetic the gathered net flux is the running total. *)
Lemma exact_gather_loop g fl p :
  exact_arithmetic F →
  length (activelink_fromnode g) = length fl →
  length (activelink_tonode g) = length fl →
  (length (positions p (activelink_fromnode g)) ≤ 2)%nat →
  (length (positions p (activelink_tonode g)) ≤ 2)%nat →
  gather_net g fl p = loop_net g fl p.
Proof.
  intros (one & opp & inv & Rth & Hdiv).
  by apply (gather_net_exact one opp inv).
Qed.

(** The two forms on a raster whose active links have just been
    derived. *)
Lemma raster_flux_forms g0 g flux buffer h fl :
  raster_links_ok g0 →
  reset_list_of_active_links g0 = (g, Ok tt) →
  h !! flux = Some fl →
  len fl = num_active_links g →
  match buffer with
  | None => True
  | Some b => b ≠ flux ∧ ∃ bv, h !! b = Some bv ∧ len bv = num_nodes g
  end →
  ∃ h1 r1 out1 h2 r2 out2,
    RasterModelGrid_calculate_flux_divergence_at_nodes g flux buffer h
      = (h1, Ok r1)
    ∧ h1 !! r1 = Some out1
    ∧ RasterModelGrid_calculate_flux_divergence_at_nodes_slow
        g flux buffer h = (h2, Ok r2)
    ∧ h2 !! r2 = Some out2
    ∧ len out1 = num_nodes g
    ∧ len out2 = num_nodes g
    ∧ ∀ node cell,
        0 ≤ node < num_nodes g →
        getitem (node_activecell g) node = Ok cell →
        getitem out1 node = Ok (gather_net g fl node)
        ∧ getitem out2 node
          = Ok (if cell =? BAD_INDEX_VALUE then fzero
                else loop_net g fl node)
        ∧ (exact_arithmetic F → cell ≠ BAD_INDEX_VALUE →
           getitem out1 node = getitem out2 node).
Proof.
  intros Hok Hreset Hflux Hfl Hbuf.
  destruct (raster_after_reset g0 g fl Hok Hreset Hfl)
    as (Hcls & Hn & Hcells & Hnal & Tf & Tt & Lf & Lt & Vf & Vt
        & Pf & Pt & Min & Mout).
  destruct (raster_flux_fast_run g flux buffer h fl)
    as (h1 & r1 & out1 & Hrun1 & Hr1 & Hlen1 & Hval1); [done..|].
  destruct (raster_flux_slow_run g flux buffer h fl)
    as (h2 & r2 & out2 & Hrun2 & Hr2 & Hlen2 & Hval2); [done..|].
  exists h1, r1, out1, h2, r2, out2.
  split_and!; [done|done|done|done|unfold len; lia|unfold len; lia|].
  intros node cell Hnode Hcell.
  apply getitem_Ok in Hcell as (p & Hp & Hcell).
  apply index_of_Ok in Hp as [_ [[_ Hp]|[? _]]]; [|lia].
  assert (p = Z.to_nat node) as -> by lia.
  assert (getitem out1 node = Ok (gather_net g fl node)) as E1.
  { apply getitem_nonneg; [lia|].
    rewrite Hval1 by lia. by rewrite Z2Nat.id by lia. }
  assert (getitem out2 node
          = Ok (if cell =? BAD_INDEX_VALUE then fzero
                else loop_net g fl node)) as E2.
  { apply getitem_nonneg; [lia|].
    rewrite Hval2 by lia. rewrite Z2Nat.id by lia. f_equal.
    destruct (decide _) as [E|E], (Z.eqb_spec cell BAD_INDEX_VALUE);
      congruence. }
  split; [done|]. split; [done|].
  intros Hexact Hbad. rewrite E1, E2.
  destruct (Z.eqb_spec cell BAD_INDEX_VALUE); [done|].
  f_equal. by apply exact_gather_loop.
Qed.
End FluxForms.

(** ** The claims on the two forms and on the nodes without a cell *)

(** C2, as the code has it. On a raster whose active links have just
    been derived, and given one flux per active link, the whole-array
    form and the loop form of the flux divergence at nodes both return
    an array with one entry per node. At every node the whole-array form
    holds the fluxes of the node's first two outgoing active links minus
    those of its first two incoming ones, over the cell area. The loop
    form holds zero at a node without a cell, and at a node with a cell
    the total of the fluxes over the cell area, added and subtracted
    link by link. At a node with a cell the two values are equal when
    the arithmetic is exact. *)
Theorem flux_divergence_forms_agree_at_cells {F} `{Scalar F}
    (g0 g : Grid F) (active_link_flux : loc) (net_unit_flux : option loc)
    (h : heap F) (fl : list F) :
  raster_links_ok g0 →
  reset_list_of_active_links g0 = (g, Ok tt) →
  h !! active_link_flux = Some fl →
  len fl = num_active_links g →
  match net_unit_flux with
  | None => True
  | Some b =>
      b ≠ active_link_flux
      ∧ ∃ bv, h !! b = Some bv ∧ len bv = num_nodes g
  end →
  ∃ h1 r1 out1 h2 r2 out2,
    RasterModelGrid_calculate_flux_divergence_at_nodes
      g active_link_flux net_unit_flux h = (h1, Ok r1)
    ∧ h1 !! r1 = Some out1
    ∧ RasterModelGrid_calculate_flux_divergence_at_nodes_slow
        g active_link_flux net_unit_flux h = (h2, Ok r2)
    ∧ h2 !! r2 = Some out2
    ∧ len out1 = num_nodes g
    ∧ len out2 = num_nodes g
    ∧ ∀ node cell,
        0 ≤ node < num_nodes g →
        getitem (node_activecell g) node = Ok cell →
        getitem out1 node = Ok (gather_net g fl node)
        ∧ getitem out2 node
          = Ok (if cell =? BAD_INDEX_VALUE then fzero
                else loop_net g fl node)
        ∧ (exact_arithmetic F → cell ≠ BAD_INDEX_VALUE →
           getitem out1 node = getitem out2 node).
Proof. apply raster_flux_forms. Qed.

(** C4, as the code has it. [calculate_flux_divergence_at_nodes], called
    without a buffer and given one flux per active link, returns an
    array with one entry per node. At a node without a cell the method
    of [ModelGrid] leaves zero; the override of [RasterModelGrid] holds
    there what it holds at every node, the fluxes of the node's first
    two outgoing active links minus those of its first two incoming
    ones, over the cell area. *)
Theorem modelgrid_flux_divergence_zero_without_cell {F} `{Scalar F}
    (g : Grid F) (active_link_flux : loc) (h : heap F) (fl : list F) :
  flux_divergence_ready g →
  h !! active_link_flux = Some fl →
  len fl = num_active_links g →
  ∃ h' r out,
    calculate_flux_divergence_at_nodes g active_link_flux None h
      = (h', Ok r)
    ∧ h' !! r = Some out
    ∧ len out = num_nodes g
    ∧ ∀ node, 0 ≤ node < num_nodes g →
        getitem (node_activecell g) node = Ok BAD_INDEX_VALUE →
        getitem out node
        = Ok (match cls g with
              | ModelGrid_class => fzero
              | RasterModelGrid_class => gather_net g fl node
              end).
Proof.
  unfold flux_divergence_ready, calculate_flux_divergence_at_nodes.
  intros Hready Hflux Hfl. destruct (cls g) eqn:Hcls.
  - destruct Hready as (Hnal & Hcells & Hdata).
    by apply (modelgrid_flux_run g active_link_flux h fl).
  - destruct Hready as (g0 & Hok & Hreset).
    destruct (raster_flux_forms g0 g active_link_flux None h fl)
      as (h1 & r1 & out1 & h2 & r2 & out2
          & Hrun & Hout & _ & _ & Hlen & _ & Hval);
      [done..|].
    exists h1, r1, out1. split_and!; [done..|].
    intros node Hnode Hcell. by destruct (Hval node _ Hnode Hcell).
Qed.

(** ** Raster grids can be read *)

Lemma raster_links_readable {F} (g : Grid F) :
  raster_links_ok g → links_readable g.
Proof.
  intros (_ & Hlens & Hstatus & _ & Vf & Vt & _ & _).
  split; [done|]. rewrite Hstatus.
  split; (eapply Forall_impl; [eassumption|]); cbn; intros; lia.
Qed.

(** ** Array lengths by centering, and the constructor at its edges *)

Section CenteringFacts.
Context {F : Type} `{Scalar F}.
Implicit Type g : Grid F.

Lemma array_length_attributes_lookup c :
  _ARRAY_LENGTH_ATTRIBUTES !! c =
    if bool_decide (c = "node") then Some "num_nodes"
    else if bool_decide (c = "cell") then Some "num_active_cells"
    else if bool_decide (c = "link") then Some "num_active_links"
    else if bool_decide (c = "face") then Some "num_faces"
    else None.
Proof.
  unfold _ARRAY_LENGTH_ATTRIBUTES. cbn [list_to_map foldr uncurry].
  repeat case_bool_decide; subst;
    repeat first [rewrite lookup_insert_eq | rewrite lookup_insert_ne by done];
    try done.
Qed.

Lemma array_length_by_centering g c :
  _array_length g c =
    if bool_decide (c = "node") then Returned (num_nodes g)
    else if bool_decide (c = "cell") then Returned (num_active_cells g)
    else if bool_decide (c = "link") then Returned (num_active_links g)
    else if bool_decide (c = "face") then Returned (num_faces g)
    else Raised (BadCenteringString c).
Proof.
  unfold _array_length. rewrite array_length_attributes_lookup.
  repeat case_bool_decide; subst; done.
Qed.
End CenteringFacts.

(** X1. [zeros], called with a centering string other than
    ["node"], ["cell"], ["link"] and ["face"], raises
    [BadCenteringString] with that string. *)
Theorem zeros_unknown_centering {F} `{Scalar F} (g : Grid F) (c : string) :
  c ≠ "node" → c ≠ "cell" → c ≠ "link" → c ≠ "face" →
  zeros g (Some c) = Raised (BadCenteringString c).
Proof.
  intros. unfold zeros. cbn [default id].
  rewrite array_length_by_centering.
  by rewrite !bool_decide_eq_false_2 by done.
Qed.

(** X2. An array that [zeros] returns holds zeros only, and its
    length is [num_nodes] when no centering or ["node"] is given,
    [num_active_cells] for ["cell"], [num_active_links] for ["link"] and
    [num_faces] for ["face"]. *)
Theorem zeros_length_by_centering {F} `{Scalar F} (g : Grid F)
    (centering : option string) (a : list F) :
  zeros g centering = Returned a →
  a = replicate (length a) fzero
  ∧ (((centering = None ∨ centering = Some "node")
      ∧ len a = num_nodes g)
     ∨ (centering = Some "cell" ∧ len a = num_active_cells g)
     ∨ (centering = Some "link" ∧ len a = num_active_links g)
     ∨ (centering = Some "face" ∧ len a = num_faces g)).
Proof.
  unfold zeros. rewrite array_length_by_centering.
  assert (∀ n, match np_full n (fzero : F) with
               | Ok a0 => Returned a0
               | Raise e => Raised (Builtin e)
               end = Returned a →
          a = replicate (length a) fzero ∧ len a = n) as Hfull.
  { intros n. unfold np_full. case_bool_decide; [done|].
    intros [= <-]. rewrite length_replicate. split; [done|].
    unfold len. rewrite length_replicate. lia. }
  destruct centering as [c|]; cbn [default id].
  - repeat case_bool_decide; subst; try done;
      intros [? ?]%Hfull; (split; [done|]); eauto 10.
  - rewrite bool_decide_eq_true_2 by done.
    intros [? ?]%Hfull; split; eauto.
Qed.

(** X3. A raster of fewer than 3 rows or fewer than 3 columns, with
    a positive number of nodes, is refused by the assertion of
    [initialize], which carries no message; the sizes have been assigned
    by then. *)
Theorem raster_too_small {F} `{Scalar F} (R C : Z) (dx : F) :
  0 < R * C → Z.min R C < 3 →
  ∃ g,
    RasterModelGrid R C dx = (g, Raise (AssertionError EmptyString))
    ∧ nrows g = R ∧ ncols g = C ∧ num_nodes g = R * C
    ∧ num_cells g = (R - 2) * (C - 2)
    ∧ num_links g = C * (R - 1) + R * (C - 1).
Proof.
  intros Hpos Hmin. unfold RasterModelGrid.
  unfold bind at 1. cbn [modify].
  unfold bind at 1. cbn [get].
  change (num_nodes (set_num_nodes (R * C) (new_object _))) with (R * C).
  rewrite bool_decide_eq_true_2 by done.
  unfold initialize.
  unfold bind at 1. cbn [modify].
  rewrite bool_decide_eq_false_2 by lia.
  unfold bind at 1. cbn [assert raise].
  eexists. split; [reflexivity|]. done.
Qed.

(** X4. With a number of nodes that is not positive the constructor
    does not initialize: it returns, raising nothing, an object on which
    it has assigned [num_nodes] and nothing else. *)
Theorem raster_without_nodes {F} `{Scalar F} (R C : Z) (dx : F) :
  R * C ≤ 0 →
  RasterModelGrid R C dx
  = (set_num_nodes (R * C) (new_object RasterModelGrid_class), Ok tt).
Proof.
  intros Hneg. unfold RasterModelGrid.
  unfold bind at 1. cbn [modify].
  unfold bind at 1. cbn [get].
  change (num_nodes (set_num_nodes (R * C) (new_object _))) with (R * C).
  by rewrite bool_decide_eq_false_2 by lia.
Qed.

(** ** The active link between two nodes *)

Lemma connects_sym fromnode tonode node1 node2 alink :
  connects fromnode tonode node1 node2 alink
  = connects fromnode tonode node2 node1 alink.
Proof.
  unfold connects.
  destruct (getitem fromnode alink) as [f|e]; cbn [rbind]; [|done].
  destruct (getitem tonode alink) as [t|e]; cbn [rbind].
  - destruct (f =? node1) eqn:E1, (t =? node2) eqn:E2,
      (t =? node1) eqn:E3, (f =? node2) eqn:E4; cbn [rbind]; try done;
      rewrite ?E1, ?E2, ?E3, ?E4; done.
  - destruct (f =? node1), (f =? node2); cbn [rbind]; done.
Qed.

Lemma first_connecting_sym fromnode tonode node1 node2 alinks :
  first_connecting fromnode tonode node1 node2 alinks
  = first_connecting fromnode tonode node2 node1 alinks.
Proof.
  induction alinks as [|alink rest IH]; [done|].
  cbn [first_connecting]. rewrite connects_sym.
  destruct (connects fromnode tonode node2 node1 alink) as [[|]|];
    cbn [rbind]; done.
Qed.

Lemma connects_value fromnode tonode node1 node2 alink f t :
  getitem fromnode alink = Ok f → getitem tonode alink = Ok t →
  connects fromnode tonode node1 node2 alink
  = Ok ((f =? node1) && (t =? node2) || (t =? node1) && (f =? node2)).
Proof.
  intros Hf Ht. unfold connects. rewrite Hf, Ht. cbn [rbind].
  destruct (f =? node1), (t =? node2), (t =? node1), (f =? node2);
    cbn [rbind]; done.
Qed.

Lemma connects_joined fromnode tonode node1 node2 alink f t :
  0 ≤ alink →
  fromnode !! Z.to_nat alink = Some f →
  tonode !! Z.to_nat alink = Some t →
  ((f =? node1) && (t =? node2) || (t =? node1) && (f =? node2) = true
   ↔ joined fromnode tonode alink node1 node2).
Proof.
  intros Ha Hf Ht. unfold joined. split.
  - intros Hb. exists f, t. split; [done|]. split; [done|].
    apply orb_true_iff in Hb as [Hb|Hb];
      apply andb_true_iff in Hb as [?%Z.eqb_eq ?%Z.eqb_eq]; auto.
  - intros (f' & t' & Hf' & Ht' & Hcase).
    assert (f' = f) as -> by congruence.
    assert (t' = t) as -> by congruence.
    destruct Hcase as [[-> ->]|[-> ->]]; rewrite !Z.eqb_refl;
      [done|apply orb_true_r].
Qed.

Lemma first_connecting_run fromnode tonode node1 node2 (m : nat) :
  ∀ k, 0 ≤ k →
  k + Z.of_nat m ≤ len fromnode → k + Z.of_nat m ≤ len tonode →
  ∃ r,
    first_connecting fromnode tonode node1 node2 (seqZ k (Z.of_nat m))
    = Ok r
    ∧ match r with
      | Some a =>
          k ≤ a < k + Z.of_nat m
          ∧ joined fromnode tonode a node1 node2
          ∧ ∀ b, k ≤ b < a → ¬ joined fromnode tonode b node1 node2
      | None =>
          ∀ b, k ≤ b < k + Z.of_nat m →
               ¬ joined fromnode tonode b node1 node2
      end.
Proof.
  induction m as [|m IH]; intros k Hk Hf Ht.
  - exists None. split; [done|]. intros b ?. lia.
  - rewrite seqZ_cons by lia. cbn [first_connecting].
    unfold len in Hf, Ht.
    destruct (lookup_lt_is_Some_2 fromnode (Z.to_nat k)) as [f Ef]; [lia|].
    destruct (lookup_lt_is_Some_2 tonode (Z.to_nat k)) as [t Et]; [lia|].
    rewrite (connects_value _ _ _ _ _ f t)
      by (by apply getitem_nonneg).
    cbn [rbind].
    pose proof (connects_joined fromnode tonode node1 node2 k f t Hk Ef Et)
      as Hj.
    destruct ((f =? node1) && (t =? node2) || (t =? node1) && (f =? node2))
      eqn:Hhit.
    + exists (Some k). split; [done|]. split; [lia|].
      split; [by apply Hj|]. intros b ?. lia.
    + replace (Z.pred (Z.of_nat (S m))) with (Z.of_nat m) by lia.
      destruct (IH (Z.succ k)) as (r & Hr & Hspec);
        [lia|unfold len; lia|unfold len; lia|].
      exists r. split; [done|].
      assert (¬ joined fromnode tonode k node1 node2) as Hk'.
      { intros Hjk. apply Hj in Hjk. done. }
      destruct r as [a|].
      * destruct Hspec as (Ha & Hja & Hleast). split; [lia|].
        split; [done|]. intros b Hb.
        destruct (decide (b = k)) as [->|]; [done|]. apply Hleast. lia.
      * intros b Hb.
        destruct (decide (b = k)) as [->|]; [done|]. apply Hspec. lia.
Qed.

(** X5. [get_active_link_connecting_node_pair] gives the same
    answer, or raises the same exception, for a pair of nodes and for
    the pair in the other order. *)
Theorem connecting_node_pair_symmetric {F} (g : Grid F) (node1 node2 : Z) :
  get_active_link_connecting_node_pair g node1 node2
  = get_active_link_connecting_node_pair g node2 node1.
Proof. apply first_connecting_sym. Qed.

(** X6. On a grid whose two lists of active-link ends have at least
    [num_active_links] entries, [get_active_link_connecting_node_pair]
    returns the first active link that joins the two nodes, in either
    direction, and [None] when no active link joins them. *)
Theorem connecting_node_pair_first {F} (g : Grid F) (node1 node2 : Z) :
  num_active_links g ≤ len (activelink_fromnode g) →
  num_active_links g ≤ len (activelink_tonode g) →
  ∃ r,
    get_active_link_connecting_node_pair g node1 node2 = Ok r
    ∧ match r with
      | Some alink =>
          0 ≤ alink < num_active_links g
          ∧ joins g alink node1 node2
          ∧ ∀ b, 0 ≤ b < alink → ¬ joins g b node1 node2
      | None =>
          ∀ b, 0 ≤ b < num_active_links g → ¬ joins g b node1 node2
      end.
Proof.
  intros Hf Ht. unfold get_active_link_connecting_node_pair, range, joins.
  rewrite Z.sub_0_r.
  destruct (decide (0 ≤ num_active_links g)) as [Hn|Hn].
  - destruct (first_connecting_run (activelink_fromnode g)
                (activelink_tonode g) node1 node2
                (Z.to_nat (num_active_links g)) 0)
      as (r & Hr & Hspec); [lia..|].
    rewrite Z2Nat.id in Hr, Hspec by done.
    exists r. split; [done|]. destruct r as [a|].
    + destruct Hspec as (Ha & Hj & Hleast). split; [lia|]. done.
    + intros b Hb. apply Hspec. lia.
  - rewrite seqZ_nil by lia. exists None. split; [done|].
    intros b Hb. lia.
Qed.

(** ** The numbers of neighbours *)

Lemma increment_run (a : list Z) i :
  0 ≤ i < len a →
  ∃ old,
    a !! Z.to_nat i = Some old
    ∧ increment a i = Ok (<[Z.to_nat i := old + 1]> a).
Proof.
  intros Hi. unfold len in Hi.
  destruct (lookup_lt_is_Some_2 a (Z.to_nat i)) as [old Hold]; [lia|].
  exists old. split; [done|]. unfold increment.
  rewrite (getitem_nonneg a i old) by (done || lia). cbn [rbind].
  unfold setitem. rewrite index_of_nonneg by (unfold len; lia). done.
Qed.

Lemma sum_insert (a : list Z) k old x :
  a !! k = Some old →
  foldr Z.add 0 (<[k := x]> a) = foldr Z.add 0 a - old + x.
Proof.
  revert k. induction a as [|y a IH]; intros [|k] Hk; try done.
  - injection Hk as ->. cbn. lia.
  - cbn in Hk.
    change (<[S k := x]> (y :: a)) with (y :: <[k := x]> a).
    cbn [foldr]. rewrite (IH k Hk). lia.
Qed.

Lemma sum_replicate_zero n : foldr Z.add 0 (replicate n 0) = 0.
Proof. induction n as [|n IH]; [done|]. cbn [replicate foldr]. by rewrite IH. Qed.

Lemma occurrences_cons v w x :
  occurrences v (w :: x) = (if bool_decide (w = v) then 1 else 0)
                           + occurrences v x.
Proof.
  unfold occurrences, len. case_bool_decide.
  - rewrite filter_cons_True by done. cbn [length]. lia.
  - rewrite filter_cons_False by done. lia.
Qed.

Lemma rmapM_getitem_seqZ {A} (l : list A) : ∀ pre,
  rmapM (getitem (pre ++ l)) (seqZ (len pre) (len l)) = Ok l.
Proof.
  induction l as [|x l IH]; intros pre; [done|].
  unfold len. cbn [length]. rewrite seqZ_cons by lia. cbn [rmapM].
  rewrite (getitem_nonneg (pre ++ x :: l) (Z.of_nat (length pre)) x);
    [|lia|by rewrite Nat2Z.id, list_lookup_middle].
  cbn [rbind].
  replace (Z.succ (Z.of_nat (length pre))) with (len (pre ++ [x]))
    by (unfold len; rewrite length_app; cbn [length]; lia).
  replace (Z.pred (Z.of_nat (S (length l)))) with (len l)
    by (unfold len; lia).
  rewrite (cons_middle x pre l), app_assoc, IH. done.
Qed.

Lemma np_take_range {A} (l : list A) :
  np_take l (range 0 (len l)) = Ok l.
Proof.
  unfold np_take, range. rewrite Z.sub_0_r.
  apply (rmapM_getitem_seqZ l []).
Qed.

Section Neighbors.
Context {F : Type}.
Implicit Type g : Grid F.

Lemma neighbors_loop g (links : list Z) : ∀ acc fs ts,
  rmapM (getitem (link_fromnode g)) links = Ok fs →
  rmapM (getitem (link_tonode g)) links = Ok ts →
  Forall (fun n => 0 ≤ n < len acc) fs →
  Forall (fun n => 0 ≤ n < len acc) ts →
  ∃ acc',
    rfoldl
      (fun num_nbrs link =>
         let+ fromnode := getitem (link_fromnode g) link in
         let+ num_nbrs := increment num_nbrs fromnode in
         let+ tonode := getitem (link_tonode g) link in
         increment num_nbrs tonode)
      acc links = Ok acc'
    ∧ length acc' = length acc
    ∧ foldr Z.add 0 acc' = foldr Z.add 0 acc + 2 * len links
    ∧ ∀ (n : nat) x, acc !! n = Some x →
        acc' !! n = Some (x + occurrences (Z.of_nat n) fs
                            + occurrences (Z.of_nat n) ts).
Proof.
  induction links as [|link rest IH]; intros acc fs ts Hfs Hts Vf Vt.
  - injection Hfs as <-. injection Hts as <-. exists acc.
    split; [done|]. split; [done|].
    split; [unfold len; cbn [length]; lia|].
    intros n x Hx. rewrite Hx. f_equal. unfold occurrences, len.
    rewrite filter_nil. cbn [length]. lia.
  - cbn [rmapM] in Hfs, Hts.
    destruct (getitem (link_fromnode g) link) as [f|] eqn:Hf;
      cbn [rbind] in Hfs; [|done].
    destruct (rmapM _ rest) as [fs'|] eqn:Hfs';
      cbn [rbind] in Hfs; [|done].
    injection Hfs as <-.
    destruct (getitem (link_tonode g) link) as [t|] eqn:Ht;
      cbn [rbind] in Hts; [|done].
    destruct (rmapM (getitem (link_tonode g)) rest) as [ts'|] eqn:Hts';
      cbn [rbind] in Hts; [|done].
    injection Hts as <-.
    apply Forall_cons in Vf as [Rf Vf]. apply Forall_cons in Vt as [Rt Vt].
    cbn [rfoldl]. rewrite Hf. cbn [rbind].
    destruct (increment_run acc f Rf) as (old1 & Hold1 & ->).
    cbn [rbind]. rewrite Ht. cbn [rbind].
    set (acc1 := <[Z.to_nat f := old1 + 1]> acc).
    assert (length acc1 = length acc) as Hlen1
      by apply length_insert.
    destruct (increment_run acc1 t) as (old2 & Hold2 & ->);
      [unfold len in *; lia|].
    cbn [rbind].
    set (acc2 := <[Z.to_nat t := old2 + 1]> acc1).
    assert (length acc2 = length acc) as Hlen2
      by (unfold acc2; rewrite length_insert; done).
    destruct (IH acc2 fs' ts' eq_refl eq_refl) as (acc' & Hrun & Hlen & Hsum & Hval).
    { eapply Forall_impl; [exact Vf|]. cbn. unfold len in *. lia. }
    { eapply Forall_impl; [exact Vt|]. cbn. unfold len in *. lia. }
    exists acc'. split; [done|]. split; [lia|]. split.
    + rewrite Hsum. unfold acc2.
      rewrite (sum_insert acc1 _ old2) by done. unfold acc1.
      rewrite (sum_insert acc _ old1) by done.
      unfold len. cbn [length]. lia.
    + intros n x Hx.
      assert (acc2 !! n
              = Some (x + (if bool_decide (f = Z.of_nat n) then 1 else 0)
                        + (if bool_decide (t = Z.of_nat n) then 1 else 0)))
        as Hx2.
      { assert (acc1 !! n
                = Some (x + (if bool_decide (f = Z.of_nat n) then 1 else 0)))
          as Hx1.
        { unfold acc1. case_bool_decide as Hfn.
          - assert (Z.to_nat f = n) as Hn by lia. rewrite Hn in *.
            rewrite list_lookup_insert_eq by (by eapply lookup_lt_Some).
            congruence.
          - rewrite list_lookup_insert_ne by lia. rewrite Hx. f_equal. lia. }
        unfold acc2.
        destruct (decide (t = Z.of_nat n)) as [Htn|Htn];
          [rewrite (bool_decide_eq_true_2 _ Htn)
          |rewrite (bool_decide_eq_false_2 _ Htn)].
        - assert (Z.to_nat t = n) as Hn by lia. rewrite Hn in *.
          rewrite list_lookup_insert_eq by (by eapply lookup_lt_Some).
          congruence.
        - rewrite list_lookup_insert_ne by lia. rewrite Hx1. f_equal. lia. }
      rewrite (Hval n _ Hx2), !occurrences_cons. f_equal. lia.
Qed.
End Neighbors.

(** X7. On a grid whose link lists have [num_links] entries that are
    node ids, [calculate_numbers_of_node_neighbors] returns one number
    per node: the number of links that leave the node plus the number of
    links that arrive at it. The numbers add up to twice the number of
    links. *)
Theorem node_neighbor_numbers {F} (g : Grid F) :
  0 ≤ num_nodes g →
  len (link_fromnode g) = num_links g →
  len (link_tonode g) = num_links g →
  Forall (fun n => 0 ≤ n < num_nodes g) (link_fromnode g) →
  Forall (fun n => 0 ≤ n < num_nodes g) (link_tonode g) →
  ∃ num_nbrs,
    calculate_numbers_of_node_neighbors g = Ok num_nbrs
    ∧ len num_nbrs = num_nodes g
    ∧ foldr Z.add 0 num_nbrs = 2 * num_links g
    ∧ ∀ n, 0 ≤ n < num_nodes g →
        getitem num_nbrs n
        = Ok (occurrences n (link_fromnode g)
              + occurrences n (link_tonode g)).
Proof.
  intros Hn Hlf Hlt Vf Vt. unfold calculate_numbers_of_node_neighbors.
  unfold np_full. rewrite bool_decide_eq_false_2 by lia. cbn [rbind].
  set (zeros := replicate (Z.to_nat (num_nodes g)) 0).
  assert (len zeros = num_nodes g) as Hz
    by (unfold len, zeros; rewrite length_replicate; lia).
  destruct (neighbors_loop g (range 0 (num_links g)) zeros
              (link_fromnode g) (link_tonode g))
    as (acc' & Hrun & Hlen & Hsum & Hval).
  - rewrite <- Hlf. apply np_take_range.
  - rewrite <- Hlt. apply np_take_range.
  - by rewrite Hz.
  - by rewrite Hz.
  - exists acc'. split; [done|].
    split; [unfold len in *; lia|]. split.
    + rewrite Hsum. unfold range, len. rewrite length_seqZ.
      unfold zeros at 1. rewrite sum_replicate_zero.
      unfold len in Hlf. lia.
    + intros n Hrange.
      apply getitem_nonneg; [lia|].
      rewrite (Hval (Z.to_nat n) 0).
      * rewrite Z2Nat.id by lia. f_equal; lia.
      * apply lookup_replicate_2. lia.
Qed.

(** ** Vectors as rasters *)

Lemma py_slice_chunk {A} (u : list A) w j :
  0 ≤ w → 0 ≤ j → j * w + w ≤ len u →
  py_slice u (j * w) (j * w + w) = chunk u w j.
Proof.
  intros Hw Hj Hlen. unfold py_slice, chunk.
  rewrite !bool_decide_eq_false_2 by nia.
  rewrite !Z.min_l by nia. f_equal. f_equal. lia.
Qed.

Lemma chunk_length {A} (u : list A) w j :
  0 ≤ w → 0 ≤ j → j * w + w ≤ len u →
  length (chunk u w j) = Z.to_nat w.
Proof.
  intros Hw Hj Hlen. unfold chunk, len in *.
  rewrite length_take, length_drop. nia.
Qed.

Lemma set_row_run {A} (rast : list (list A)) r row v :
  0 ≤ r → rast !! Z.to_nat r = Some row → length v = length row →
  set_row rast r v = Ok (<[Z.to_nat r := v]> rast).
Proof.
  intros Hr Hrow Hlen. unfold set_row.
  rewrite (getitem_nonneg rast r row) by done. cbn [rbind].
  rewrite bool_decide_eq_true_2 by done. cbn [rbind].
  unfold setitem. rewrite index_of_nonneg; [done|].
  apply lookup_lt_Some in Hrow. unfold len. lia.
Qed.

Section FillRaster.
Context {F : Type} `{Scalar F}.

Lemma fill_unflipped (u : list F) w (m : nat) : ∀ k rast,
  0 ≤ w → 0 ≤ k → (k + Z.of_nat m) * w ≤ len u →
  k + Z.of_nat m ≤ len rast →
  Forall (fun row => length row = Z.to_nat w) rast →
  fill_raster u w (seqZ k (Z.of_nat m)) (k * w) rast
  = Ok (take (Z.to_nat k) rast ++ (chunk u w <$> seqZ k (Z.of_nat m))
        ++ drop (Z.to_nat k + m) rast).
Proof.
  induction m as [|m IH]; intros k rast Hw Hk Hu Hrast Hrows.
  - rewrite seqZ_nil by lia. cbn [fill_raster fmap list_fmap app].
    by rewrite Nat.add_0_r, take_drop.
  - rewrite seqZ_cons by lia. cbn [fill_raster fmap list_fmap].
    unfold len in Hrast.
    destruct (lookup_lt_is_Some_2 rast (Z.to_nat k)) as [row Hrow]; [lia|].
    rewrite py_slice_chunk by nia.
    rewrite (set_row_run rast k row); [|done|done|].
    2:{ rewrite chunk_length by nia.
        symmetry. eapply (Forall_lookup_1 _ _ _ _ Hrows Hrow). }
    cbn [rbind].
    replace (k * w + w) with (Z.succ k * w) by lia.
    replace (Z.pred (Z.of_nat (S m))) with (Z.of_nat m) by lia.
    rewrite IH; [|done|lia|nia|unfold len; rewrite length_insert; lia|].
    2:{ apply Forall_insert; [done|]. apply chunk_length; nia. }
    f_equal.
    replace (Z.to_nat (Z.succ k)) with (S (Z.to_nat k)) by lia.
    rewrite (take_S_r _ _ (chunk u w k))
      by (apply list_lookup_insert_eq; by eapply lookup_lt_Some).
    rewrite take_insert_ge by lia.
    rewrite drop_insert_lt by lia.
    rewrite <- app_assoc. cbn [app].
    by replace (S (Z.to_nat k) + m)%nat with (Z.to_nat k + S m)%nat by lia.
Qed.

Lemma fill_flipped (u : list F) w R (m : nat) : ∀ j rast,
  0 ≤ w → 0 ≤ j → j + Z.of_nat m = R → R * w ≤ len u →
  Z.of_nat m ≤ len rast →
  Forall (fun row => length row = Z.to_nat w) rast →
  fill_raster u w ((fun i => R - 1 - i) <$> seqZ j (Z.of_nat m)) (j * w) rast
  = Ok (((fun r => chunk u w (R - 1 - r)) <$> seqZ 0 (Z.of_nat m))
        ++ drop m rast).
Proof.
  induction m as [|m IH]; intros j rast Hw Hj HR Hu Hrast Hrows.
  - rewrite seqZ_nil by lia. cbn [fill_raster fmap list_fmap app].
    by rewrite seqZ_nil, drop_0 by lia.
  - rewrite seqZ_cons by lia. cbn [fill_raster fmap list_fmap].
    unfold len in Hrast.
    assert (R - 1 - j = Z.of_nat m) as Hrow_id by lia.
    rewrite Hrow_id.
    destruct (lookup_lt_is_Some_2 rast m) as [row Hrow]; [lia|].
    rewrite py_slice_chunk by nia.
    rewrite (set_row_run rast (Z.of_nat m) row);
      [|lia|by rewrite Nat2Z.id|].
    2:{ rewrite chunk_length by nia.
        symmetry. eapply (Forall_lookup_1 _ _ _ _ Hrows Hrow). }
    cbn [rbind]. rewrite Nat2Z.id.
    replace (j * w + w) with (Z.succ j * w) by lia.
    replace (Z.pred (Z.of_nat (S m))) with (Z.of_nat m) by lia.
    rewrite IH;
      [|done|lia|lia|done|unfold len; rewrite length_insert; lia|].
    2:{ apply Forall_insert; [done|]. apply chunk_length; nia. }
    f_equal. rewrite seqZ_S, fmap_app. cbn [fmap list_fmap].
    rewrite <- app_assoc. cbn [app]. f_equal.
    rewrite (drop_S _ (chunk u w j) m)
      by (apply list_lookup_insert_eq; by eapply lookup_lt_Some).
    rewrite drop_insert_lt by lia.
    do 2 f_equal. lia.
Qed.

Lemma reverse_fmap_seqZ {A} (f : Z → A) (n : nat) :
  reverse (f <$> seqZ 0 (Z.of_nat n))
  = (fun r => f (Z.of_nat n - 1 - r)) <$> seqZ 0 (Z.of_nat n).
Proof.
  induction n as [|n IH]; [done|].
  rewrite seqZ_S at 1. rewrite fmap_app, reverse_app. cbn [fmap list_fmap].
  rewrite reverse_singleton, IH. cbn [app].
  rewrite (seqZ_cons 0 (Z.of_nat (S n))) by lia. cbn [fmap list_fmap].
  f_equal; [f_equal; lia|].
  replace (Z.pred (Z.of_nat (S n))) with (Z.of_nat n) by lia.
  change (Z.succ 0) with (1 + 0).
  rewrite <- fmap_add_seqZ, <- list_fmap_compose.
  apply list_fmap_ext. intros i r _. cbn. f_equal. lia.
Qed.

Lemma vector_to_raster_run (u : list F) R w :
  0 ≤ R → 0 ≤ w → len u = R * w →
  (let+ rast := np_full2 R w fzero in
   fill_raster u w (range 0 R) 0 rast) = Ok (chunks u w R)
  ∧ (let+ rast := np_full2 R w fzero in
     fill_raster u w (range_down (R - 1) (-1)) 0 rast)
    = Ok (reverse (chunks u w R)).
Proof.
  intros HR Hw Hu. unfold np_full2, np_full.
  rewrite !bool_decide_eq_false_2 by lia. cbn [rbind].
  set (rast := replicate (Z.to_nat R) (replicate (Z.to_nat w) (fzero : F))).
  assert (len rast = R) as Hlen
    by (unfold len, rast; rewrite length_replicate; lia).
  assert (Forall (fun row => length row = Z.to_nat w) rast) as Hrows.
  { apply Forall_replicate. apply length_replicate. }
  split.
  - unfold range. rewrite Z.sub_0_r.
    pose proof (fill_unflipped u w (Z.to_nat R) 0 rast) as Hfill.
    rewrite Z2Nat.id in Hfill by done.
    change (0 * w) with 0 in Hfill.
    rewrite Hfill by (done || lia).
    change (Z.to_nat 0) with 0%nat. cbn [take app Nat.add].
    rewrite drop_ge by (unfold len in Hlen; lia).
    by rewrite app_nil_r.
  - unfold range_down.
    replace (R - 1 - -1) with R by lia.
    pose proof (fill_flipped u w R (Z.to_nat R) 0 rast) as Hfill.
    rewrite Z2Nat.id in Hfill by done.
    change (0 * w) with 0 in Hfill.
    rewrite Hfill by (done || lia).
    rewrite drop_ge by (unfold len in Hlen; lia).
    rewrite app_nil_r. f_equal. symmetry.
    clear Hfill Hlen Hu. unfold chunks.
    rewrite <- (Z2Nat.id R) by done. apply reverse_fmap_seqZ.
Qed.
End FillRaster.

Lemma chunks_length {A} (u : list A) w R :
  0 ≤ R → len (chunks u w R) = R.
Proof.
  intros. unfold chunks, len. rewrite length_fmap, length_seqZ. lia.
Qed.

Lemma concat_chunks {A} (u : list A) w (n : nat) :
  0 ≤ w →
  concat (chunks u w (Z.of_nat n)) = take (Z.to_nat (Z.of_nat n * w)) u.
Proof.
  intros Hw. unfold chunks. induction n as [|n IH]; [done|].
  rewrite seqZ_S, fmap_app, concat_app, IH. cbn [fmap list_fmap concat].
  rewrite app_nil_r. unfold chunk. cbn [Z.add].
  rewrite take_take_drop. f_equal. nia.
Qed.

Lemma chunks_entry {A} (u : list A) w R r c :
  0 ≤ r < R → 0 ≤ c < w → len u = R * w →
  ∃ row x,
    getitem (chunks u w R) r = Ok row
    ∧ getitem row c = Ok x
    ∧ getitem u (c + r * w) = Ok x.
Proof.
  intros Hr Hc Hu. unfold len in Hu.
  destruct (lookup_lt_is_Some_2 u (Z.to_nat (c + r * w))) as [x Hx];
    [nia|].
  exists (chunk u w r), x. split_and!.
  - apply getitem_nonneg; [lia|]. unfold chunks.
    rewrite list_lookup_fmap, lookup_seqZ_lt by lia.
    cbn. do 2 f_equal. lia.
  - apply getitem_nonneg; [lia|]. unfold chunk.
    rewrite lookup_take_lt by lia. rewrite lookup_drop.
    rewrite <- Hx. f_equal. nia.
  - apply getitem_nonneg; [nia|done].
Qed.

(** X8. For a grid of [nrows] rows and [ncols] columns,
    [node_vector_to_raster] turns a vector of one value per node into
    [nrows] rows of [ncols] values: the value of row [r] and column [c]
    is the value of node [c + r * ncols], and the rows put one after the
    other are the vector again. *)
Theorem node_vector_to_raster_layout {F} `{Scalar F} (g : Grid F)
    (u : list F) :
  0 ≤ nrows g → 0 ≤ ncols g →
  num_nodes g = nrows g * ncols g →
  len u = num_nodes g →
  ∃ rast,
    node_vector_to_raster g u false = Ok rast
    ∧ len rast = nrows g
    ∧ concat rast = u
    ∧ ∀ r c, 0 ≤ r < nrows g → 0 ≤ c < ncols g →
        ∃ row x,
          getitem rast r = Ok row ∧ getitem row c = Ok x
          ∧ getitem u (c + r * ncols g) = Ok x.
Proof.
  intros HR HC Hn Hu. unfold node_vector_to_raster, check.
  rewrite bool_decide_eq_true_2 by done. cbn [rbind].
  destruct (vector_to_raster_run u (nrows g) (ncols g)) as [Hrun _];
    [done|done|lia|].
  exists (chunks u (ncols g) (nrows g)). split; [exact Hrun|].
  split; [by apply chunks_length|]. split.
  - rewrite <- (Z2Nat.id (nrows g)) by done.
    rewrite concat_chunks by done. rewrite Z2Nat.id by done.
    apply take_ge. unfold len in Hu. lia.
  - intros r c Hr Hc. apply chunks_entry; [done|done|lia].
Qed.

(** X9. With [flip_vertically] set, [node_vector_to_raster] returns
    the rows of the raster in the reverse order. *)
Theorem node_vector_to_raster_flipped {F} `{Scalar F} (g : Grid F)
    (u : list F) :
  0 ≤ nrows g → 0 ≤ ncols g →
  num_nodes g = nrows g * ncols g →
  len u = num_nodes g →
  ∃ rast,
    node_vector_to_raster g u false = Ok rast
    ∧ node_vector_to_raster g u true = Ok (reverse rast).
Proof.
  intros HR HC Hn Hu. unfold node_vector_to_raster, check.
  rewrite bool_decide_eq_true_2 by done. cbn [rbind].
  destruct (vector_to_raster_run u (nrows g) (ncols g)) as [Hrun Hflip];
    [done|done|lia|].
  exists (chunks u (ncols g) (nrows g)). split; [exact Hrun|exact Hflip].
Qed.

(** X10. For a grid of [nrows] rows and [ncols] columns,
    [cell_vector_to_raster] turns a vector of one value per cell into
    [nrows - 2] rows of [ncols - 2] values whose rows, put one after the
    other, are the vector again; with [flip_vertically] set it returns
    the same rows in the reverse order. *)
Theorem cell_vector_to_raster_layout {F} `{Scalar F} (g : Grid F)
    (u : list F) :
  2 ≤ nrows g → 2 ≤ ncols g →
  num_cells g = (nrows g - 2) * (ncols g - 2) →
  len u = num_cells g →
  ∃ rast,
    cell_vector_to_raster g u false = Ok rast
    ∧ cell_vector_to_raster g u true = Ok (reverse rast)
    ∧ len rast = nrows g - 2
    ∧ concat rast = u
    ∧ ∀ r c, 0 ≤ r < nrows g - 2 → 0 ≤ c < ncols g - 2 →
        ∃ row x,
          getitem rast r = Ok row ∧ getitem row c = Ok x
          ∧ getitem u (c + r * (ncols g - 2)) = Ok x.
Proof.
  intros HR HC Hn Hu. unfold cell_vector_to_raster, check.
  rewrite bool_decide_eq_true_2 by done. cbn [rbind].
  destruct (vector_to_raster_run u (nrows g - 2) (ncols g - 2))
    as [Hrun Hflip]; [lia|lia|lia|].
  replace (nrows g - 3) with (nrows g - 2 - 1) by lia.
  exists (chunks u (ncols g - 2) (nrows g - 2)).
  split; [exact Hrun|]. split; [exact Hflip|].
  split; [apply chunks_length; lia|]. split.
  - rewrite <- (Z2Nat.id (nrows g - 2)) by lia.
    rewrite concat_chunks by lia. rewrite Z2Nat.id by lia.
    apply take_ge. unfold len in Hu. lia.
  - intros r c Hr Hc. apply chunks_entry; [done|done|lia].
Qed.

(** ** Gradients on a raster with the loop over the active links *)

Section GradientSlow.
Context {F : Type} `{Scalar F}.
Implicit Type g : Grid F.
Implicit Type h : heap F.

Lemma gradient_pass_slow_run g s r h sv buf (k : nat) link_id v :
  h !! s = Some sv → h !! r = Some buf → s ≠ r →
  gradient_value_slow g sv link_id = Ok v →
  (k < length buf)%nat →
  gradient_pass_slow g s r (Z.of_nat k, link_id) h
    = (<[r := <[k := v]> buf]> h, Ok tt).
Proof.
  intros Hs Hr Hne Hv Hk. unfold gradient_pass_slow, gradient_value_slow in *.
  cbn [fst snd].
  destruct (getitem (link_tonode g) link_id) as [tonode|];
    cbn [rbind] in Hv; [|done].
  unfold bind at 1. unfold lift at 1.
  destruct (getitem sv tonode) as [s_to|] eqn:Eto;
    cbn [rbind] in Hv; [|done].
  erewrite bind_ok by (by eapply load_item_Some).
  destruct (getitem (link_fromnode g) link_id) as [fromnode|];
    cbn [rbind] in Hv; [|done].
  unfold bind at 1. unfold lift at 1.
  destruct (getitem sv fromnode) as [s_from|] eqn:Efrom;
    cbn [rbind] in Hv; [|done].
  erewrite bind_ok by (by eapply load_item_Some).
  injection Hv as <-. by apply store_item_Some.
Qed.

Lemma gradient_slow_loop g s r sv rest : ∀ (k : nat) h buf vs,
  h !! s = Some sv → h !! r = Some buf → s ≠ r →
  rmapM (gradient_value_slow g sv) rest = Ok vs →
  (k + length rest ≤ length buf)%nat →
  for_each (zip (seqZ (Z.of_nat k) (len rest)) rest)
    (gradient_pass_slow g s r) h
  = (<[r := list_inserts k vs buf]> h, Ok tt).
Proof.
  induction rest as [|link_id rest IH]; intros k h buf vs Hs Hr Hne Hvs Hk.
  - injection Hvs as <-. cbn [list_inserts]. by rewrite insert_id.
  - cbn [rmapM] in Hvs.
    destruct (gradient_value_slow g sv link_id) as [v|] eqn:Hv;
      cbn [rbind] in Hvs; [|done].
    destruct (rmapM (gradient_value_slow g sv) rest) as [vs'|] eqn:Hvs';
      cbn [rbind] in Hvs; [|done].
    injection Hvs as <-.
    unfold len. cbn [length] in *.
    rewrite seqZ_cons by lia. cbn [zip zip_with for_each].
    erewrite bind_ok
      by (eapply gradient_pass_slow_run; eauto; lia).
    replace (Z.pred (Z.of_nat (S (length rest)))) with (len rest)
      by (unfold len; lia).
    replace (Z.succ (Z.of_nat k)) with (Z.of_nat (S k)) by lia.
    erewrite (IH (S k) _ (<[k:=v]> buf) vs');
      [|by rewrite lookup_insert_ne|by rewrite lookup_insert_eq
       |done|done|rewrite length_insert; lia].
    rewrite insert_insert_eq. cbn [list_inserts].
    by rewrite list_insert_inserts_lt by lia.
Qed.

(** The values of the loop are those of the array expression. *)
Lemma gradient_slow_values g sv : ∀ links tos froms st sf,
  rmapM (getitem (link_tonode g)) links = Ok tos →
  rmapM (getitem (link_fromnode g)) links = Ok froms →
  rmapM (getitem sv) tos = Ok st →
  rmapM (getitem sv) froms = Ok sf →
  rmapM (gradient_value_slow g sv) links
  = Ok ((fun x => fdiv x (_dx g)) <$> zip_with fsub st sf).
Proof.
  induction links as [|link_id links IH]; intros tos froms st sf Ht Hf Hst Hsf.
  - injection Ht as <-. injection Hf as <-.
    injection Hst as <-. injection Hsf as <-. done.
  - cbn [rmapM] in Ht, Hf.
    destruct (getitem (link_tonode g) link_id) as [t|] eqn:Et;
      cbn [rbind] in Ht; [|done].
    destruct (rmapM (getitem (link_tonode g)) links) as [tos'|] eqn:Etos;
      cbn [rbind] in Ht; [|done].
    injection Ht as <-.
    destruct (getitem (link_fromnode g) link_id) as [f|] eqn:Ef;
      cbn [rbind] in Hf; [|done].
    destruct (rmapM (getitem (link_fromnode g)) links) as [froms'|] eqn:Efs;
      cbn [rbind] in Hf; [|done].
    injection Hf as <-.
    cbn [rmapM] in Hst, Hsf.
    destruct (getitem sv t) as [s_to|] eqn:Esto;
      cbn [rbind] in Hst; [|done].
    destruct (rmapM (getitem sv) tos') as [st'|] eqn:Est;
      cbn [rbind] in Hst; [|done].
    injection Hst as <-.
    destruct (getitem sv f) as [s_from|] eqn:Esf;
      cbn [rbind] in Hsf; [|done].
    destruct (rmapM (getitem sv) froms') as [sf'|] eqn:Esfs;
      cbn [rbind] in Hsf; [|done].
    injection Hsf as <-.
    cbn [rmapM]. unfold gradient_value_slow at 1.
    rewrite Et. cbn [rbind]. rewrite Esto. cbn [rbind].
    rewrite Ef. cbn [rbind]. rewrite Esf. cbn [rbind].
    rewrite (IH tos' froms' st' sf') by done. done.
Qed.

Lemma raster_gradient_slow_run g s gradient h sv vs :
  num_active_links g = len (active_links g) →
  h !! s = Some sv →
  match gradient with
  | None => True
  | Some b => b ≠ s ∧ ∃ bv, h !! b = Some bv ∧ len bv = num_active_links g
  end →
  rmapM (gradient_value_slow g sv) (active_links g) = Ok vs →
  ∃ h' r,
    RasterModelGrid_calculate_gradients_at_active_links_slow g s gradient h
      = (h', Ok r)
    ∧ h' !! r = Some vs
    ∧ (∀ b, gradient = Some b → r = b).
Proof.
  intros Hn Hs Hbuf Hvs.
  pose proof (rmapM_Ok_length _ _ _ Hvs) as Lvs.
  unfold RasterModelGrid_calculate_gradients_at_active_links_slow.
  assert (∃ h1 l bv,
    match gradient with
    | Some l => ret l
    | None => fresh_zeros (num_active_links g)
    end h = (h1, Ok l)
    ∧ h1 !! l = Some bv ∧ len bv = num_active_links g
    ∧ h1 !! s = Some sv ∧ s ≠ l
    ∧ (∀ b, gradient = Some b → l = b))
    as (h1 & l & bv & Hstart & Hl & Hbv & Hs1 & Hne & Hsame).
  { destruct gradient as [b|].
    - destruct Hbuf as (Hne & bv & Hb & Hbv). exists h, b, bv.
      split_and!; try done. by intros ? [= <-].
    - rewrite fresh_zeros_run by (rewrite Hn; unfold len; lia).
      eexists _, _, _. split; [done|].
      rewrite lookup_insert_eq. split; [done|].
      split; [unfold len; rewrite length_replicate;
              rewrite Hn; unfold len; lia|].
      assert (fresh (dom h) ≠ s) by (by eapply fresh_ne).
      split; [by rewrite lookup_insert_ne|]. split; [done|]. done. }
  erewrite bind_ok by exact Hstart.
  erewrite bind_ok by (by apply load_Some).
  unfold assert. rewrite bool_decide_eq_true_2 by done.
  unfold bind at 1. cbn [ret].
  unfold enumerate.
  change 0 with (Z.of_nat 0).
  erewrite bind_ok
    by (eapply (gradient_slow_loop g s l sv (active_links g) 0%nat h1 bv vs);
        eauto; unfold len in *; lia).
  eexists _, _. split; [done|]. split; [|done].
  rewrite lookup_insert_eq. f_equal.
  apply list_eq. intros j.
  destruct (decide (j < length vs)%nat).
  - rewrite list_lookup_inserts by (unfold len in *; lia).
    by rewrite Nat.sub_0_r.
  - rewrite list_lookup_inserts_ge by (cbn; lia).
    rewrite !lookup_ge_None_2; [done| |]; unfold len in *; lia.
Qed.
End GradientSlow.

(** X11. On a raster whose active-link attributes are up to date,
    given the node values [s] (one per node) and no buffer or a buffer
    of [num_active_links] entries that is not [s] itself, the loop form
    [calculate_gradients_at_active_links_slow] returns an array with the
    same contents as the array form. With a buffer, the loop form
    returns the buffer itself, filled in, and the array form returns
    another array. *)
Theorem raster_gradient_slow_agrees {F} `{Scalar F} (g : Grid F)
    (s : loc) (gradient : option loc) (h : heap F) (sv : list F) :
  active_links_current g →
  h !! s = Some sv → len sv = num_nodes g →
  Forall (fun n => - num_nodes g ≤ n < num_nodes g) (activelink_fromnode g) →
  Forall (fun n => - num_nodes g ≤ n < num_nodes g) (activelink_tonode g) →
  match gradient with
  | None => True
  | Some b => b ≠ s ∧ ∃ bv, h !! b = Some bv ∧ len bv = num_active_links g
  end →
  ∃ h1 r1 h2 r2 out,
    RasterModelGrid_calculate_gradients_at_active_links g s gradient h
      = (h1, Ok r1)
    ∧ h1 !! r1 = Some out
    ∧ RasterModelGrid_calculate_gradients_at_active_links_slow
        g s gradient h = (h2, Ok r2)
    ∧ h2 !! r2 = Some out
    ∧ len out = num_active_links g
    ∧ ∀ b, gradient = Some b → r2 = b ∧ r1 ≠ b.
Proof.
  intros (Hn & Hfrom & Hto) Hs Hsv Vfrom Vto Hbuf.
  pose proof (rmapM_Ok_length _ _ _ Hfrom) as Lfrom.
  pose proof (rmapM_Ok_length _ _ _ Hto) as Lto.
  destruct (rmapM_is_Ok (getitem sv) (activelink_tonode g)) as [st Hst].
  { eapply Forall_impl; [exact Vto|]. intros n Hnode.
    apply getitem_is_Ok. by rewrite Hsv. }
  destruct (rmapM_is_Ok (getitem sv) (activelink_fromnode g)) as [sf Hsf].
  { eapply Forall_impl; [exact Vfrom|]. intros n Hnode.
    apply getitem_is_Ok. by rewrite Hsv. }
  pose proof (rmapM_Ok_length _ _ _ Hst) as Lst.
  pose proof (rmapM_Ok_length _ _ _ Hsf) as Lsf.
  set (out := (fun x => fdiv x (_dx g)) <$> zip_with fsub st sf).
  destruct (raster_gradient_run g s gradient h sv st sf)
    as (h1 & r1 & Hrun1 & Hr1);
    [rewrite Hn; unfold len; lia|done| |done|done|lia|].
  { destruct gradient as [b|]; [|done]. by destruct Hbuf as [_ ?]. }
  destruct (raster_gradient_slow_run g s gradient h sv out Hn Hs Hbuf)
    as (h2 & r2 & Hrun2 & Hr2 & Hsame).
  { by apply (gradient_slow_values g sv (active_links g)
                (activelink_tonode g) (activelink_fromnode g)). }
  exists h1, r1, h2, r2, out. split_and!; try done.
  - unfold out, len in *.
    rewrite length_fmap, length_zip_with. lia.
  - intros b ->. split; [by apply Hsame|].
    by destruct (raster_gradient_result_fresh g s b h h1 r1 Hrun1).
Qed.

(** ** Statuses and active links after a change of boundary *)

Lemma link_is_active_ends f t :
  link_is_active f t = true →
  f ≠ INACTIVE_BOUNDARY ∧ t ≠ INACTIVE_BOUNDARY
  ∧ (f = INTERIOR_NODE ∨ t = INTERIOR_NODE).
Proof.
  unfold link_is_active, INACTIVE_BOUNDARY, INTERIOR_NODE.
  intros Hb. apply orb_true_iff in Hb.
  destruct Hb as [Hb|Hb]; apply andb_true_iff in Hb as [Hz Hn];
    apply Z.eqb_eq in Hz; apply negb_true_iff, Z.eqb_neq in Hn; lia.
Qed.

Lemma getitem_range n i : 0 ≤ i < n → getitem (range 0 n) i = Ok i.
Proof.
  intros Hi. apply getitem_nonneg; [lia|]. unfold range.
  rewrite lookup_seqZ_lt by lia. f_equal. lia.
Qed.

Lemma rmapM_id {A} (f : A → result A) l :
  Forall (fun x => f x = Ok x) l → rmapM f l = Ok l.
Proof.
  induction 1 as [|x l Hx _ IH]; [done|].
  cbn [rmapM]. rewrite Hx. cbn [rbind]. rewrite IH. done.
Qed.

Section StatusChanges.
Context {F : Type} `{Scalar F}.
Implicit Type g : Grid F.

(** The statuses at the two ends of an active link, after the active
    links have been derived. *)
Lemma reset_active_link_status g link f t sf st :
  links_readable g →
  link ∈ active_links (reset_list_of_active_links g).1 →
  getitem (link_fromnode g) link = Ok f →
  getitem (link_tonode g) link = Ok t →
  getitem (node_status g) f = Ok sf →
  getitem (node_status g) t = Ok st →
  link_is_active sf st = true.
Proof.
  intros Hread Hin Hf Ht Hsf Hst.
  pose proof Hread as (Hlens & _ & _).
  destruct (links_readable_take g Hread) as (fs & ts & Hfs & Hts & Lf & Lt).
  destruct (reset_active_link_lists g fs ts Hlens Hfs Hts)
    as (from_ & to_ & _ & _ & Hlists).
  unfold active_link_lists in Hlists.
  assert (active_links (reset_list_of_active_links g).1
          = np_where (zip_with link_is_active fs ts)) as Hal
    by congruence.
  rewrite Hal in Hin. apply np_where_elem in Hin as [Hlink Hmask].
  apply lookup_zip_with_Some in Hmask as (a & b & Hab & Ha & Hb).
  apply getitem_Ok in Hf as (kf & Hkf & Hf).
  apply index_of_Ok in Hkf as [_ [[_ Hkf]|[? _]]]; [|lia].
  apply getitem_Ok in Ht as (kt & Hkt & Ht).
  apply index_of_Ok in Hkt as [_ [[_ Hkt]|[? _]]]; [|lia].
  assert (kf = Z.to_nat link) as -> by lia.
  assert (kt = Z.to_nat link) as -> by lia.
  destruct (rmapM_Ok_lookup _ _ _ _ _ Hfs Hf) as (a' & Ha' & Ha'').
  destruct (rmapM_Ok_lookup _ _ _ _ _ Hts Ht) as (b' & Hb' & Hb'').
  assert (a = sf) as -> by congruence.
  assert (b = st) as -> by congruence.
  done.
Qed.

Lemma nodata_locations_elem (node_data : list F) nodata_value n :
  n ∈ np_where ((fun x => feqb x nodata_value) <$> node_data)
  ↔ 0 ≤ n ∧ nodata_at node_data nodata_value n = true.
Proof.
  rewrite np_where_elem. unfold nodata_at. rewrite list_lookup_fmap.
  destruct (node_data !! Z.to_nat n) as [x|]; cbn; split;
    intros [? Hx]; split; try done; congruence.
Qed.

Lemma deactivate_run g (node_data : list F) nodata_value :
  len node_data ≤ len (node_status g) →
  len (node_status g) = num_nodes g →
  ∃ status,
    len status = len (node_status g)
    ∧ deactivate_nodata_nodes node_data nodata_value g
      = reset_list_of_active_links
          (set_activecell_node (np_where (np_eq status INTERIOR_NODE))
             (set_node_status status g))
    ∧ ∀ n, 0 ≤ n < len (node_status g) →
        getitem status n
        = if nodata_at node_data nodata_value n
          then Ok INACTIVE_BOUNDARY
          else getitem (node_status g) n.
Proof.
  intros Hdata Hnodes.
  set (locs := np_where ((fun x => feqb x nodata_value) <$> node_data)).
  assert (Forall (fun i => 0 ≤ i < len (node_status g)) locs) as Hlocs.
  { eapply Forall_impl; [apply where_from_bound|]. cbn.
    intros i. unfold len in *. rewrite length_fmap. lia. }
  pose proof (rmapM_index_of_nonneg _ _ Hlocs) as Hks.
  assert (np_put_scalar (node_status g) locs INACTIVE_BOUNDARY
          = Ok (foldl (fun acc k => <[k:=INACTIVE_BOUNDARY]> acc)
                  (node_status g) (Z.to_nat <$> locs))) as Hput
    by (unfold np_put_scalar; by rewrite Hks).
  set (status := foldl _ _ _) in Hput.
  assert (len status = len (node_status g)) as Hlen
    by (unfold len, status; by rewrite foldl_insert_const_length).
  exists status. split; [done|]. split.
  - unfold deactivate_nodata_nodes. fold locs.
    unfold bind at 1. cbn [get].
    unfold bind at 1. unfold lift at 1. rewrite Hput.
    unfold bind at 1. cbn [modify].
    unfold bind at 1. cbn [get].
    change (node_status (set_node_status status g)) with status.
    change (num_nodes (set_node_status status g)) with (num_nodes g).
    unfold bind at 1. unfold lift at 1.
    unfold np_take. rewrite rmapM_id.
    + unfold bind at 1. cbn [modify]. done.
    + eapply Forall_impl; [apply where_from_bound|]. cbn.
      intros i Hi. apply getitem_range. unfold np_eq in Hi.
      unfold len in *. rewrite length_fmap in Hi. lia.
  - intros n Hn.
    destruct (np_put_scalar_getitem (node_status g) locs
                INACTIVE_BOUNDARY n Hlocs Hn) as (a' & Ha' & _ & Hget).
    assert (a' = status) as -> by congruence.
    rewrite Hget. unfold locs.
    destruct (nodata_at node_data nodata_value n) eqn:Hnd.
    + rewrite bool_decide_eq_true_2; [done|].
      apply nodata_locations_elem. split; [lia|done].
    + rewrite bool_decide_eq_false_2; [done|].
      rewrite nodata_locations_elem. intros [_ ?]. congruence.
Qed.
End StatusChanges.

(** X12. Deriving the active links, in the array form or in the loop
    form, changes none of the topology, the node statuses and the list
    of the nodes of the active cells, whether it returns or raises. *)
Theorem reset_changes_active_attributes_only {F} (g : Grid F) :
  let fast := (reset_list_of_active_links g).1 in
  let slow := (reset_list_of_active_links_slow g).1 in
  (topology fast = topology g ∧ node_status fast = node_status g
   ∧ activecell_node fast = activecell_node g)
  ∧ (topology slow = topology g ∧ node_status slow = node_status g
     ∧ activecell_node slow = activecell_node g).
Proof.
  intros fast slow.
  pose proof (reset_keeps g) as Hfast.
  pose proof (reset_slow_keeps g) as Hslow.
  unfold outside_active in Hfast, Hslow. fold fast in Hfast.
  fold slow in Hslow. split; split_and!; congruence.
Qed.

(** X13. On a grid with one status per node, given at most one value
    per node, [deactivate_nodata_nodes] leaves every node whose value is
    the no-data value INACTIVE and the other nodes with the status they
    had, and it makes [activecell_node] the list of the INTERIOR
    nodes. *)
Theorem deactivate_nodata_nodes_statuses {F} `{Scalar F} (g : Grid F)
    (node_data : list F) (nodata_value : F) :
  len node_data ≤ len (node_status g) →
  len (node_status g) = num_nodes g →
  let g' := (deactivate_nodata_nodes node_data nodata_value g).1 in
  (∀ n, 0 ≤ n < num_nodes g →
     getitem (node_status g') n
     = if nodata_at node_data nodata_value n
       then Ok INACTIVE_BOUNDARY
       else getitem (node_status g) n)
  ∧ (∀ n, n ∈ activecell_node g'
          ↔ 0 ≤ n ∧ getitem (node_status g') n = Ok INTERIOR_NODE).
Proof.
  intros Hdata Hnodes g'.
  destruct (deactivate_run g node_data nodata_value Hdata Hnodes)
    as (status & Hlen & Hrun & Hstatus).
  set (g1 := set_activecell_node (np_where (np_eq status INTERIOR_NODE))
               (set_node_status status g)) in Hrun.
  pose proof (reset_keeps g1) as Hkeep. unfold outside_active in Hkeep.
  injection Hkeep as _ Hs Hc.
  assert (node_status g' = status) as Hs'
    by (unfold g'; rewrite Hrun; exact Hs).
  assert (activecell_node g' = np_where (np_eq status INTERIOR_NODE)) as Hc'
    by (unfold g'; rewrite Hrun; exact Hc).
  split.
  - intros n Hn. rewrite Hs'. apply Hstatus. lia.
  - intros n. rewrite Hc', Hs', np_where_elem. unfold np_eq.
    rewrite list_lookup_fmap. split.
    + intros [Hn Hl]. split; [done|].
      destruct (status !! Z.to_nat n) as [v|] eqn:Hv; [|done].
      cbn in Hl. injection Hl as Hl%Z.eqb_eq. subst v.
      by apply getitem_nonneg.
    + intros [Hn Hget]. split; [done|].
      apply getitem_Ok in Hget as (k & Hk & Hget).
      apply index_of_Ok in Hk as [_ [[_ Hk]|[? _]]]; [|lia].
      assert (k = Z.to_nat n) as -> by lia.
      by rewrite Hget.
Qed.

(** X14. After [deactivate_nodata_nodes], on a grid whose links
    join nodes of the grid, no active link has an end at a node whose
    value is the no-data value. *)
Theorem deactivate_nodata_nodes_links {F} `{Scalar F} (g : Grid F)
    (node_data : list F) (nodata_value : F) (link n : Z) :
  len node_data ≤ len (node_status g) →
  len (node_status g) = num_nodes g →
  length (link_fromnode g) = length (link_tonode g) →
  Forall (fun n => 0 ≤ n < num_nodes g) (link_fromnode g) →
  Forall (fun n => 0 ≤ n < num_nodes g) (link_tonode g) →
  link ∈ active_links
           (deactivate_nodata_nodes node_data nodata_value g).1 →
  getitem (link_fromnode g) link = Ok n
  ∨ getitem (link_tonode g) link = Ok n →
  nodata_at node_data nodata_value n = false.
Proof.
  intros Hdata Hnodes Hlens Vf Vt Hin Hend.
  destruct (deactivate_run g node_data nodata_value Hdata Hnodes)
    as (status & Hlen & Hrun & Hstatus).
  set (g1 := set_activecell_node (np_where (np_eq status INTERIOR_NODE))
               (set_node_status status g)) in Hrun.
  rewrite Hrun in Hin.
  assert (links_readable g1) as Hread.
  { split; [done|].
    change (node_status g1) with status.
    change (link_fromnode g1) with (link_fromnode g).
    change (link_tonode g1) with (link_tonode g).
    rewrite Hlen, Hnodes.
    split; (eapply Forall_impl; [eassumption|]); cbn; intros; lia. }
  assert (0 ≤ link) as Hlink.
  { destruct (links_readable_take g1 Hread)
      as (fs & ts & Hfs & Hts & _ & _).
    destruct (reset_active_link_lists g1 fs ts Hlens Hfs Hts)
      as (from_ & to_ & _ & _ & Hlists).
    unfold active_link_lists in Hlists.
    assert (active_links (reset_list_of_active_links g1).1
            = np_where (zip_with link_is_active fs ts)) as Hal
      by congruence.
    rewrite Hal in Hin. by apply np_where_elem in Hin as [? _]. }
  assert (∃ f t, getitem (link_fromnode g) link = Ok f
                 ∧ getitem (link_tonode g) link = Ok t)
    as (f & t & Hf & Ht).
  { assert (∀ (a b : list Z) x, length a = length b →
              getitem a link = Ok x → ∃ y, getitem b link = Ok y) as Hboth.
    { intros a b x Hab Ha. apply getitem_is_Ok.
      apply getitem_Ok in Ha as (k & Hk & Ha).
      apply index_of_Ok in Hk as [Hk [[_ Hk2]|[? _]]]; [|lia].
      unfold len in *. lia. }
    destruct Hend as [He|He].
    - destruct (Hboth _ _ _ Hlens He) as [y Hy]. eauto.
    - destruct (Hboth _ _ _ (eq_sym Hlens) He) as [y Hy]. eauto. }
  assert (∀ (l : list Z) m, Forall (fun n => 0 ≤ n < num_nodes g) l →
            getitem l link = Ok m → 0 ≤ m < num_nodes g) as Hnode.
  { intros l m Hl Hm. apply getitem_Ok in Hm as (k & _ & Hm).
    rewrite Forall_forall in Hl. apply Hl.
    by eapply list_elem_of_lookup_2. }
  pose proof (Hnode _ _ Vf Hf) as Rf. pose proof (Hnode _ _ Vt Ht) as Rt.
  destruct (getitem_is_Ok status f) as [sf Hsf]; [lia|].
  destruct (getitem_is_Ok status t) as [st Hst]; [lia|].
  pose proof (reset_active_link_status g1 link f t sf st Hread Hin Hf Ht
                Hsf Hst) as Hact.
  apply link_is_active_ends in Hact as (Hnf & Hnt & _).
  rewrite (Hstatus f) in Hsf by lia. rewrite (Hstatus t) in Hst by lia.
  assert (n = f ∨ n = t) as [->| ->]
    by (destruct Hend; [left|right]; congruence).
  - destruct (nodata_at node_data nodata_value f); [|done]. congruence.
  - destruct (nodata_at node_data nodata_value t); [|done]. congruence.
Qed.

(** X15. [set_fixed_value_boundaries], given ids of nodes of the
    grid, leaves exactly these nodes with the status FIXED_VALUE and the
    other nodes with the status they had. *)
Theorem set_fixed_value_boundaries_statuses {F} `{Scalar F} (g : Grid F)
    (node_ids : list Z) (n : Z) :
  Forall (fun i => 0 ≤ i < len (node_status g)) node_ids →
  0 ≤ n < len (node_status g) →
  getitem (node_status (set_fixed_value_boundaries node_ids g).1) n
  = if bool_decide (n ∈ node_ids) then Ok FIXED_VALUE_BOUNDARY
    else getitem (node_status g) n.
Proof.
  intros Hids Hn.
  destruct (np_put_scalar_getitem (node_status g) node_ids
              FIXED_VALUE_BOUNDARY n Hids Hn) as (status & Hput & _ & Hget).
  unfold set_fixed_value_boundaries.
  unfold bind at 1. cbn [get].
  unfold bind at 1. unfold lift at 1. rewrite Hput.
  unfold bind at 1. cbn [modify].
  change (if _SLOW then _ else _)
    with (reset_list_of_active_links (F:=F)).
  rewrite reset_keeps_node_status. exact Hget.
Qed.

(** ** The active inlink and outlink matrices, link by link *)

Lemma positions_snoc v l w :
  positions v (l ++ [w])
  = positions v l ++ (if w =? v then [len l] else []).
Proof.
  unfold positions, np_where, np_eq.
  rewrite fmap_app, where_from_app. cbn [fmap list_fmap where_from].
  unfold len. rewrite length_fmap. by destruct (w =? v).
Qed.

Lemma positions_take_le v n x :
  (length (positions v (take n x)) ≤ length (positions v x))%nat.
Proof.
  rewrite !positions_length. apply sublist_filter_length, sublist_take.
Qed.

Lemma occurrences_positions v x :
  occurrences v x = len (positions v x).
Proof. unfold occurrences, len. by rewrite positions_length. Qed.

Lemma entered_start x N :
  entered x 0 N (replicate N 0) (replicate 2 (replicate N (-1))).
Proof.
  split; [apply length_replicate|]. split.
  - intros n Hn. rewrite lookup_replicate_2 by lia. done.
  - split; [done|]. intros k row [-> _]%lookup_replicate.
    split; [apply length_replicate|]. intros n Hn.
    by rewrite lookup_replicate_2 by lia.
Qed.

Lemma enter_step x k N num m node :
  entered x k N num m → x !! k = Some node →
  0 ≤ node < Z.of_nat N →
  (length (positions node x) ≤ 2)%nat →
  ∃ linknum m' num',
    getitem num node = Ok linknum
    ∧ setitem2 m linknum node (Z.of_nat k) = Ok m'
    ∧ setitem num node (linknum + 1) = Ok num'
    ∧ entered x (S k) N num' m'.
Proof.
  intros (Hnum_len & Hnum & Hm_len & Hm) Hk Hnode Htwo.
  set (ps := positions node (take k x)).
  assert (take (S k) x = take k x ++ [node]) as Htake
    by (by apply take_S_r).
  assert (length (take k x) = k) as Hlenk
    by (rewrite length_take; apply lookup_lt_Some in Hk; lia).
  assert (positions node (take (S k) x) = ps ++ [Z.of_nat k]) as Hps'.
  { rewrite Htake, positions_snoc, Z.eqb_refl. unfold len.
    by rewrite Hlenk. }
  assert (∀ n, n ≠ node →
            positions n (take (S k) x) = positions n (take k x)) as Hother.
  { intros n Hn. rewrite Htake, positions_snoc.
    destruct (Z.eqb_spec node n); [congruence|]. by rewrite app_nil_r. }
  assert (length ps < 2)%nat as Hc.
  { pose proof (positions_take_le node (S k) x) as Hle.
    rewrite Hps', length_app in Hle. cbn [length] in Hle. lia. }
  assert (num !! Z.to_nat node = Some (Z.of_nat (length ps))) as Hold.
  { rewrite (Hnum node Hnode), occurrences_positions. done. }
  destruct (lookup_lt_is_Some_2 m (length ps)) as [row Hrow]; [lia|].
  destruct (Hm _ _ Hrow) as [Hrow_len Hrow_val].
  exists (Z.of_nat (length ps)),
    (<[length ps := <[Z.to_nat node := Z.of_nat k]> row]> m),
    (<[Z.to_nat node := Z.of_nat (length ps) + 1]> num).
  split; [by apply getitem_nonneg; [lia|]|]. split.
  { unfold setitem2.
    rewrite (getitem_nonneg m (Z.of_nat (length ps)) row)
      by (lia || by rewrite Nat2Z.id).
    cbn [rbind]. unfold setitem at 1.
    rewrite index_of_nonneg by (unfold len; lia). cbn [rbind].
    unfold setitem. rewrite index_of_nonneg by (unfold len; lia).
    cbn [rbind]. by rewrite Nat2Z.id. }
  split.
  { unfold setitem. rewrite index_of_nonneg by (unfold len; lia). done. }
  split; [by rewrite length_insert|]. split.
  - intros n Hn. destruct (decide (n = node)) as [->|Hne].
    + rewrite list_lookup_insert_eq by lia.
      rewrite occurrences_positions, Hps'. unfold len.
      rewrite length_app. cbn [length]. f_equal. lia.
    + rewrite list_lookup_insert_ne by lia.
      rewrite (Hnum n Hn), !occurrences_positions.
      by rewrite (Hother n Hne).
  - split; [by rewrite length_insert|].
    intros j row' Hj.
    destruct (decide (j = length ps)) as [->|Hjc].
    + rewrite list_lookup_insert_eq in Hj by lia. injection Hj as <-.
      split; [by rewrite length_insert|].
      intros n Hn. destruct (decide (n = node)) as [->|Hne].
      * rewrite list_lookup_insert_eq by lia. f_equal.
        unfold occurrence. rewrite Hps'.
        by rewrite list_lookup_middle.
      * rewrite list_lookup_insert_ne by lia.
        rewrite (Hrow_val n Hn). unfold occurrence.
        by rewrite (Hother n Hne).
    + rewrite list_lookup_insert_ne in Hj by done.
      destruct (Hm _ _ Hj) as [Hl Hv]. split; [done|].
      intros n Hn. rewrite (Hv n Hn). f_equal. unfold occurrence.
      destruct (decide (n = node)) as [->|Hne];
        [|by rewrite (Hother n Hne)].
      rewrite Hps'. fold ps.
      destruct (decide (j < length ps)%nat).
      * by rewrite lookup_app_l by done.
      * rewrite (lookup_ge_None_2 ps) by lia.
        rewrite lookup_ge_None_2; [done|].
        rewrite length_app. cbn [length]. lia.
Qed.

Section SetupSlow.
Context {F : Type}.
Implicit Type g : Grid F.

Lemma enter_link_run (nodes : Grid F → list Z) rd_num wr_num rd wr g
    (k : nat) node linknum m' num' :
  nodes g !! k = Some node →
  getitem (rd_num g) node = Ok linknum →
  setitem2 (rd g) linknum node (Z.of_nat k) = Ok m' →
  setitem (rd_num g) node (linknum + 1) = Ok num' →
  enter_link nodes rd_num wr_num rd wr (Z.of_nat k) g
  = (wr_num num' (wr m' g), Ok tt).
Proof.
  intros Hnode Hlinknum Hm Hnum. unfold enter_link.
  unfold bind at 1. cbn [get].
  unfold bind at 1. unfold lift at 1.
  rewrite (getitem_nonneg (nodes g) (Z.of_nat k) node)
    by (lia || by rewrite Nat2Z.id).
  unfold bind at 1. unfold lift at 1. rewrite Hlinknum.
  unfold bind at 1. unfold lift at 1. rewrite Hm.
  unfold bind at 1. cbn [modify].
  unfold bind at 1. unfold lift at 1. rewrite Hnum.
  done.
Qed.

Lemma setup_slow_loop (x_to x_from : list Z) (N : nat) (n : nat) :
  ∀ (k : nat) g,
  activelink_tonode g = x_to → activelink_fromnode g = x_from →
  (k + n ≤ length x_to)%nat → (k + n ≤ length x_from)%nat →
  Forall (fun v => 0 ≤ v < Z.of_nat N) x_to →
  Forall (fun v => 0 ≤ v < Z.of_nat N) x_from →
  (∀ v, (length (positions v x_to) ≤ 2)%nat) →
  (∀ v, (length (positions v x_from) ≤ 2)%nat) →
  entered x_to k N (node_numactiveinlink g) (node_active_inlink_matrix g) →
  entered x_from k N (node_numactiveoutlink g)
    (node_active_outlink_matrix g) →
  ∃ g',
    for_each (seqZ (Z.of_nat k) (Z.of_nat n))
      (fun active_link_id =>
         let* _ := enter_link activelink_tonode
                     node_numactiveinlink set_node_numactiveinlink
                     node_active_inlink_matrix set_node_active_inlink_matrix
                     active_link_id in
         enter_link activelink_fromnode
           node_numactiveoutlink set_node_numactiveoutlink
           node_active_outlink_matrix set_node_active_outlink_matrix
           active_link_id) g = (g', Ok tt)
    ∧ outside_matrices g' = outside_matrices g
    ∧ entered x_to (k + n) N (node_numactiveinlink g')
        (node_active_inlink_matrix g')
    ∧ entered x_from (k + n) N (node_numactiveoutlink g')
        (node_active_outlink_matrix g').
Proof.
  induction n as [|n IH];
    intros k g Hto Hfrom Lto Lfrom Vto Vfrom Dto Dfrom Ein Eout.
  - exists g. rewrite Nat.add_0_r. by rewrite seqZ_nil by lia.
  - rewrite seqZ_cons by lia. cbn [for_each].
    destruct (lookup_lt_is_Some_2 x_to k) as [tonode Htonode]; [lia|].
    destruct (lookup_lt_is_Some_2 x_from k) as [fromnode Hfromnode]; [lia|].
    destruct (enter_step x_to k N _ _ tonode Ein Htonode)
      as (c_in & m_in & num_in & G1 & G2 & G3 & Ein');
      [by eapply (Forall_lookup_1 _ _ _ _ Vto)|apply Dto|].
    destruct (enter_step x_from k N _ _ fromnode Eout Hfromnode)
      as (c_out & m_out & num_out & O1 & O2 & O3 & Eout');
      [by eapply (Forall_lookup_1 _ _ _ _ Vfrom)|apply Dfrom|].
    erewrite bind_ok.
    2:{ erewrite bind_ok.
        2:{ eapply (enter_link_run activelink_tonode); [|exact G1|exact G2|exact G3].
            by rewrite Hto. }
        eapply (enter_link_run activelink_fromnode);
          [|exact O1|exact O2|exact O3].
        by rewrite <- Hfrom in Hfromnode. }
    replace (Z.pred (Z.of_nat (S n))) with (Z.of_nat n) by lia.
    replace (Z.succ (Z.of_nat k)) with (Z.of_nat (S k)) by lia.
    destruct (IH (S k)
                (set_node_numactiveoutlink num_out
                   (set_node_active_outlink_matrix m_out
                      (set_node_numactiveinlink num_in
                         (set_node_active_inlink_matrix m_in g)))))
      as (g' & Hrun & Hout & Ein'' & Eout'');
      [done|done|lia|lia|done|done|done|done|exact Ein'|exact Eout'|].
    exists g'. split; [exact Hrun|]. split; [by rewrite Hout|].
    replace (k + S n)%nat with (S k + n)%nat by lia. done.
Qed.

Lemma setup_active_slow_run g (N : nat) :
  cls g = RasterModelGrid_class →
  num_nodes g = Z.of_nat N →
  num_active_links g = len (activelink_tonode g) →
  length (activelink_fromnode g) = length (activelink_tonode g) →
  Forall (fun v => 0 ≤ v < Z.of_nat N) (activelink_tonode g) →
  Forall (fun v => 0 ≤ v < Z.of_nat N) (activelink_fromnode g) →
  (∀ v, (length (positions v (activelink_tonode g)) ≤ 2)%nat) →
  (∀ v, (length (positions v (activelink_fromnode g)) ≤ 2)%nat) →
  ∃ g',
    setup_active_inlink_and_outlink_matrices_slow g = (g', Ok tt)
    ∧ outside_matrices g' = outside_matrices g
    ∧ entered (activelink_tonode g) (length (activelink_tonode g)) N
        (node_numactiveinlink g') (node_active_inlink_matrix g')
    ∧ entered (activelink_fromnode g) (length (activelink_fromnode g)) N
        (node_numactiveoutlink g') (node_active_outlink_matrix g').
Proof.
  intros Hcls HN Hnal Hlens Vto Vfrom Dto Dfrom.
  unfold setup_active_inlink_and_outlink_matrices_slow.
  unfold bind at 1. cbn [get]. rewrite Hcls.
  unfold np_full2. rewrite HN. change 2 with (Z.of_nat 2).
  rewrite !np_full_nat. cbn [rbind]. rewrite !np_full_nat.
  unfold bind at 1. unfold lift at 1.
  unfold bind at 1. cbn [modify].
  unfold bind at 1. unfold lift at 1.
  unfold bind at 1. cbn [modify].
  unfold bind at 1. unfold lift at 1.
  unfold bind at 1. cbn [modify].
  unfold bind at 1. unfold lift at 1.
  unfold bind at 1. cbn [modify].
  unfold range. rewrite Z.sub_0_r, Hnal. unfold len.
  set (g0 := set_node_active_outlink_matrix _ _).
  destruct (setup_slow_loop (activelink_tonode g) (activelink_fromnode g)
              N (length (activelink_tonode g)) 0 g0)
    as (g' & Hrun & Hout & Ein & Eout);
    [done|done|cbn; lia|cbn; lia|done|done|done|done
    |apply entered_start|apply entered_start|].
  exists g'. split; [exact Hrun|]. split; [by rewrite Hout|].
  cbn [Nat.add] in Ein, Eout. split; [done|]. by rewrite Hlens.
Qed.
End SetupSlow.

(** ** The two set-ups of the matrices, and the two derivations, agree *)

Lemma link_matrix_of_unique m1 m2 x rows N :
  link_matrix_of m1 x rows N → link_matrix_of m2 x rows N → m1 = m2.
Proof.
  intros [L1 H1] [L2 H2]. apply list_eq. intros k.
  destruct (m1 !! k) as [r1|] eqn:E1.
  - destruct (lookup_lt_is_Some_2 m2 k) as [r2 E2].
    { apply lookup_lt_Some in E1. lia. }
    rewrite E2. f_equal.
    destruct (H1 _ _ E1) as [Lr1 V1]. destruct (H2 _ _ E2) as [Lr2 V2].
    apply list_eq. intros n.
    destruct (decide (n < N)%nat).
    + pose proof (V1 (Z.of_nat n) ltac:(lia)) as A1.
      pose proof (V2 (Z.of_nat n) ltac:(lia)) as A2.
      rewrite Nat2Z.id in A1, A2. congruence.
    + rewrite !lookup_ge_None_2 by lia. done.
  - apply lookup_ge_None in E1. symmetry. apply lookup_ge_None. lia.
Qed.

Lemma np_bincount_nodes x (N : nat) :
  Forall (fun v => 0 ≤ v < Z.of_nat N) x →
  np_bincount x (Z.of_nat N)
  = Ok ((fun v => occurrences v x) <$> seqZ 0 (Z.of_nat N)).
Proof.
  intros Hx. unfold np_bincount.
  rewrite bool_decide_eq_true_2
    by (eapply Forall_impl; [exact Hx|]; cbn; lia).
  assert (foldr (fun v m => Z.max (v + 1) m) 0 x ≤ Z.of_nat N) as Hmax.
  { induction Hx as [|v x Hv _ IH]; cbn [foldr]; lia. }
  by rewrite Z.max_l by lia.
Qed.

Lemma counts_unique (num : list Z) x (N : nat) :
  length num = N →
  (∀ n, 0 ≤ n < Z.of_nat N →
        num !! Z.to_nat n = Some (occurrences n x)) →
  num = (fun v => occurrences v x) <$> seqZ 0 (Z.of_nat N).
Proof.
  intros Hlen Hnum. apply list_eq. intros n.
  destruct (decide (n < N)%nat).
  - pose proof (Hnum (Z.of_nat n) ltac:(lia)) as A.
    rewrite Nat2Z.id in A. rewrite A, list_lookup_fmap.
    rewrite lookup_seqZ_lt by lia. done.
  - rewrite !lookup_ge_None_2; [done| |lia].
    rewrite length_fmap, length_seqZ. lia.
Qed.

Section SetupAgree.
Context {F : Type}.
Implicit Type g : Grid F.

Lemma grid_ext g1 g2 :
  outside_matrices g1 = outside_matrices g2 →
  node_active_inlink_matrix g1 = node_active_inlink_matrix g2 →
  node_active_outlink_matrix g1 = node_active_outlink_matrix g2 →
  node_numactiveinlink g1 = node_numactiveinlink g2 →
  node_numactiveoutlink g1 = node_numactiveoutlink g2 →
  g1 = g2.
Proof.
  destruct g1 as [t1 s1 c1 [a1 b1 d1 e1 f1 h1 i1 j1]].
  destruct g2 as [t2 s2 c2 [a2 b2 d2 e2 f2 h2 i2 j2]].
  unfold outside_matrices. cbn. intros [= -> -> -> -> -> -> ->].
  by intros -> -> -> ->.
Qed.

Lemma set_active_links_id g : set_active_links (active_links g) g = g.
Proof. by destruct g as [? ? ? []]. Qed.

(** The run of the array form, with the counts. *)
Lemma setup_active_run_counts g (rows N : nat) :
  matrix_rows g = Z.of_nat rows →
  num_nodes g = Z.of_nat N →
  Forall (fun v => 0 ≤ v < Z.of_nat N) (activelink_tonode g) →
  Forall (fun v => 0 ≤ v < Z.of_nat N) (activelink_fromnode g) →
  (∀ v, (length (positions v (activelink_tonode g)) ≤ rows)%nat) →
  (∀ v, (length (positions v (activelink_fromnode g)) ≤ rows)%nat) →
  ∃ g',
    setup_active_inlink_and_outlink_matrices g = (g', Ok tt)
    ∧ outside_matrices g' = outside_matrices g
    ∧ link_matrix_of (node_active_inlink_matrix g')
        (activelink_tonode g) rows N
    ∧ link_matrix_of (node_active_outlink_matrix g')
        (activelink_fromnode g) rows N
    ∧ node_numactiveinlink g'
      = (fun v => occurrences v (activelink_tonode g))
        <$> seqZ 0 (Z.of_nat N)
    ∧ node_numactiveoutlink g'
      = (fun v => occurrences v (activelink_fromnode g))
        <$> seqZ 0 (Z.of_nat N).
Proof.
  intros Hrows HN Vto Vfrom Dto Dfrom.
  pose proof (setup_active_keeps g) as Hkeeps.
  unfold setup_active_inlink_and_outlink_matrices in *.
  unfold bind at 1 in Hkeeps. unfold bind at 1. cbn [get] in *.
  unfold np_full2 in *. rewrite Hrows, HN, !np_full_nat in *.
  cbn [rbind] in *. rewrite !np_full_nat in *.
  unfold bind at 1 in Hkeeps. unfold bind at 1. unfold lift at 1 in Hkeeps.
  unfold lift at 1.
  unfold bind at 1 in Hkeeps. unfold bind at 1. cbn [modify] in *.
  unfold bind at 1 in Hkeeps. unfold bind at 1. unfold lift at 1 in Hkeeps.
  unfold lift at 1.
  unfold bind at 1 in Hkeeps. unfold bind at 1. cbn [modify] in *.
  rewrite (np_bincount_nodes _ N Vto), (np_bincount_nodes _ N Vfrom) in *.
  set (n_in := _ <$> seqZ 0 (Z.of_nat N)) in *.
  set (n_out := (fun v => occurrences v (activelink_fromnode g))
                <$> seqZ 0 (Z.of_nat N)) in *.
  unfold bind at 1 in Hkeeps. unfold bind at 1. unfold lift at 1 in Hkeeps.
  unfold lift at 1.
  unfold bind at 1 in Hkeeps. unfold bind at 1. cbn [modify] in *.
  set (m0 := replicate rows (replicate N (-1))) in *.
  set (g1 := set_node_numactiveinlink n_in
               (set_node_active_outlink_matrix m0
                  (set_node_active_inlink_matrix m0 g))) in *.
  destruct (fill_link_matrix_run node_active_inlink_matrix
              set_node_active_inlink_matrix (activelink_tonode g)
              rows N g1) as (g2 & Hfill_in & Hin); [done..|].
  pose proof (fill_link_matrix_keeps node_active_outlink_matrix
                node_active_inlink_matrix set_node_active_inlink_matrix
                (count_repeated_values (activelink_tonode g))
                ltac:(done) g1) as Hout2.
  pose proof (fill_link_matrix_keeps node_numactiveinlink
                node_active_inlink_matrix set_node_active_inlink_matrix
                (count_repeated_values (activelink_tonode g))
                ltac:(done) g1) as Hnum2.
  rewrite Hfill_in in Hout2, Hnum2. cbn [fst] in Hout2, Hnum2.
  erewrite bind_ok in Hkeeps by exact Hfill_in.
  erewrite bind_ok by exact Hfill_in.
  unfold bind at 1 in Hkeeps. unfold bind at 1. unfold lift at 1 in Hkeeps.
  unfold lift at 1.
  unfold bind at 1 in Hkeeps. unfold bind at 1. cbn [modify] in *.
  set (g3 := set_node_numactiveoutlink n_out g2) in *.
  destruct (fill_link_matrix_run node_active_outlink_matrix
              set_node_active_outlink_matrix (activelink_fromnode g)
              rows N g3) as (g4 & Hfill_out & Hout); [done|done|done..|].
  pose proof (fill_link_matrix_keeps node_active_inlink_matrix
                node_active_outlink_matrix set_node_active_outlink_matrix
                (count_repeated_values (activelink_fromnode g))
                ltac:(done) g3) as Hin4.
  pose proof (fill_link_matrix_keeps node_numactiveinlink
                node_active_outlink_matrix set_node_active_outlink_matrix
                (count_repeated_values (activelink_fromnode g))
                ltac:(done) g3) as Hnumin4.
  pose proof (fill_link_matrix_keeps node_numactiveoutlink
                node_active_outlink_matrix set_node_active_outlink_matrix
                (count_repeated_values (activelink_fromnode g))
                ltac:(done) g3) as Hnumout4.
  rewrite Hfill_out in Hin4, Hnumin4, Hnumout4, Hkeeps.
  cbn [fst] in Hin4, Hnumin4, Hnumout4, Hkeeps.
  exists g4. split; [done|]. split; [done|].
  split; [by rewrite Hin4|]. split; [done|].
  split; [rewrite Hnumin4; exact Hnum2|exact Hnumout4].
Qed.

Lemma setup_fast_slow_equal g (N : nat) :
  cls g = RasterModelGrid_class →
  num_nodes g = Z.of_nat N →
  num_active_links g = len (activelink_tonode g) →
  length (activelink_fromnode g) = length (activelink_tonode g) →
  Forall (fun v => 0 ≤ v < Z.of_nat N) (activelink_tonode g) →
  Forall (fun v => 0 ≤ v < Z.of_nat N) (activelink_fromnode g) →
  (∀ v, (length (positions v (activelink_tonode g)) ≤ 2)%nat) →
  (∀ v, (length (positions v (activelink_fromnode g)) ≤ 2)%nat) →
  setup_active_inlink_and_outlink_matrices g
  = setup_active_inlink_and_outlink_matrices_slow g
  ∧ (setup_active_inlink_and_outlink_matrices_slow g).2 = Ok tt.
Proof.
  intros Hcls HN Hnal Hlens Vto Vfrom Dto Dfrom.
  destruct (setup_active_run_counts g 2 N)
    as (gf & Hf & Of & Mif & Mof & Nif & Nof);
    [unfold matrix_rows; by rewrite Hcls|done..|].
  destruct (setup_active_slow_run g N)
    as (gs & Hs & Os & (Lni & Vni & Mis) & (Lno & Vno & Mos)); [done..|].
  rewrite firstn_all in Vni, Mis, Vno, Mos.
  rewrite Hf, Hs. split; [|done]. f_equal.
  apply grid_ext.
  - by rewrite Of, Os.
  - by eapply link_matrix_of_unique.
  - by eapply link_matrix_of_unique.
  - rewrite Nif. symmetry. by apply counts_unique.
  - rewrite Nof. symmetry. by apply counts_unique.
Qed.

Lemma append_loop_exact (m : nat) : ∀ k g fs ts,
  np_take (node_status g) (link_fromnode g) = Ok fs →
  np_take (node_status g) (link_tonode g) = Ok ts →
  length (link_fromnode g) = length (link_tonode g) →
  0 ≤ k → k + Z.of_nat m = len (link_fromnode g) →
  for_each (seqZ k (Z.of_nat m)) append_if_active g
  = (set_active_links
       (active_links g
        ++ where_from k (drop (Z.to_nat k) (zip_with link_is_active fs ts)))
       g, Ok tt).
Proof.
  induction m as [|m IH]; intros k g fs ts Hfs Hts Hlen Hk Hend.
  - rewrite seqZ_nil by lia. cbn [for_each ret].
    pose proof (rmapM_Ok_length _ _ _ Hfs) as Lf.
    pose proof (rmapM_Ok_length _ _ _ Hts) as Lt.
    rewrite drop_ge
      by (rewrite length_zip_with; unfold len in Hend; lia).
    cbn [where_from]. by rewrite app_nil_r, set_active_links_id.
  - pose proof (rmapM_Ok_length _ _ _ Hfs) as Lf.
    pose proof (rmapM_Ok_length _ _ _ Hts) as Lt.
    destruct (lookup_lt_is_Some_2 (zip_with link_is_active fs ts)
                (Z.to_nat k)) as [b Hb].
    { rewrite length_zip_with. unfold len in Hend. lia. }
    rewrite seqZ_cons by lia. cbn [for_each].
    erewrite bind_ok
      by (eapply (append_if_active_run g fs ts k b); eauto).
    replace (Z.pred (Z.of_nat (S m))) with (Z.of_nat m) by lia.
    rewrite (drop_S _ b (Z.to_nat k)) by done.
    cbn [where_from]. replace (k + 1) with (Z.succ k) by lia.
    replace (S (Z.to_nat k)) with (Z.to_nat (Z.succ k)) by lia.
    destruct b.
    + rewrite (IH (Z.succ k) _ fs ts); [|done|done|done|lia|].
      2:{ change (link_fromnode (set_active_links ?v g))
            with (link_fromnode g). lia. }
      change (active_links (set_active_links ?v g)) with v.
      by rewrite <- app_assoc.
    + by rewrite (IH (Z.succ k) _ fs ts) by (done || lia).
Qed.

Lemma reset_slow_unfold g fs ts from_ to_ :
  length (link_fromnode g) = length (link_tonode g) →
  np_take (node_status g) (link_fromnode g) = Ok fs →
  np_take (node_status g) (link_tonode g) = Ok ts →
  np_take (link_fromnode g)
    (np_where (zip_with link_is_active fs ts)) = Ok from_ →
  np_take (link_tonode g)
    (np_where (zip_with link_is_active fs ts)) = Ok to_ →
  np_where (zip_with link_is_active fs ts) ≠ [] →
  reset_list_of_active_links_slow g =
    setup_active_inlink_and_outlink_matrices_slow
      (set_activelink_tonode to_
         (set_activelink_fromnode from_
            (set_num_active_links
               (len (np_where (zip_with link_is_active fs ts)))
               (set_active_links
                  (np_where (zip_with link_is_active fs ts)) g)))).
Proof.
  intros Hlen Hfs Hts Hfrom Hto Hsome.
  unfold reset_list_of_active_links_slow.
  unfold bind at 1. cbn [modify].
  unfold bind at 1. cbn [get].
  unfold range. rewrite Z.sub_0_r.
  change (link_fromnode (set_active_links [] g)) with (link_fromnode g).
  unfold len at 1.
  erewrite bind_ok.
  2:{ apply (append_loop_exact _ 0 (set_active_links [] g) fs ts);
        [done|done|done|lia|].
      change (link_fromnode (set_active_links [] g))
        with (link_fromnode g).
      unfold len; lia. }
  change (Z.to_nat 0) with 0%nat. rewrite drop_0.
  change (active_links (set_active_links [] g)) with (@nil Z).
  rewrite app_nil_l. fold (np_where (zip_with link_is_active fs ts)).
  unfold bind at 1. cbn [modify].
  unfold bind at 1. cbn [get].
  unfold bind at 1. unfold lift at 1.
  change (link_fromnode (set_num_active_links ?a ?b)) with (link_fromnode g).
  change (active_links (set_num_active_links ?a ?b))
    with (np_where (zip_with link_is_active fs ts)).
  rewrite (np_take_list_cons _ _ Hsome), Hfrom.
  unfold bind at 1. cbn [modify].
  unfold bind at 1. unfold lift at 1.
  change (link_tonode (set_num_active_links ?a ?b)) with (link_tonode g).
  rewrite (np_take_list_cons _ _ Hsome), Hto.
  unfold bind at 1. cbn [modify]. reflexivity.
Qed.
End SetupAgree.

(** X16. On a raster whose lists of active-link ends hold node
    ids, with no more than two active links arriving at a node and no
    more than two leaving it, the loop form of the set-up of the active
    inlink and outlink matrices returns; it changes the four matrix
    attributes only; row [k], column [n] of the inlink (outlink) matrix
    is the number of the active link that is occurrence [k] of node [n]
    among the to-nodes (from-nodes), or -1; and the counts are the
    numbers of these occurrences. *)
Theorem setup_active_slow_matrices {F} (g : Grid F) :
  cls g = RasterModelGrid_class →
  0 ≤ num_nodes g →
  num_active_links g = len (activelink_tonode g) →
  length (activelink_fromnode g) = length (activelink_tonode g) →
  Forall (fun v => 0 ≤ v < num_nodes g) (activelink_tonode g) →
  Forall (fun v => 0 ≤ v < num_nodes g) (activelink_fromnode g) →
  (∀ v, (length (positions v (activelink_tonode g)) ≤ 2)%nat) →
  (∀ v, (length (positions v (activelink_fromnode g)) ≤ 2)%nat) →
  ∃ g',
    setup_active_inlink_and_outlink_matrices_slow g = (g', Ok tt)
    ∧ outside_matrices g' = outside_matrices g
    ∧ link_matrix_of (node_active_inlink_matrix g')
        (activelink_tonode g) 2 (Z.to_nat (num_nodes g))
    ∧ link_matrix_of (node_active_outlink_matrix g')
        (activelink_fromnode g) 2 (Z.to_nat (num_nodes g))
    ∧ ∀ n, 0 ≤ n < num_nodes g →
        getitem (node_numactiveinlink g') n
        = Ok (occurrences n (activelink_tonode g))
        ∧ getitem (node_numactiveoutlink g') n
          = Ok (occurrences n (activelink_fromnode g)).
Proof.
  intros Hcls HN Hnal Hlens Vto Vfrom Dto Dfrom.
  destruct (setup_active_slow_run g (Z.to_nat (num_nodes g)))
    as (g' & Hrun & Hout & (Lni & Vni & Mi) & (Lno & Vno & Mo));
    [done|lia|done|done
    |by rewrite Z2Nat.id by done|by rewrite Z2Nat.id by done|done|done|].
  rewrite firstn_all in Vni, Mi, Vno, Mo.
  exists g'. split_and!; try done.
  intros n Hn. split; (apply getitem_nonneg; [lia|]).
  - apply Vni. lia.
  - apply Vno. lia.
Qed.

(** X17. Under the same conditions the array form and the loop
    form of the set-up of the active inlink and outlink matrices return
    and leave the same grid. *)
Theorem setup_active_fast_slow_agree {F} (g : Grid F) :
  cls g = RasterModelGrid_class →
  0 ≤ num_nodes g →
  num_active_links g = len (activelink_tonode g) →
  length (activelink_fromnode g) = length (activelink_tonode g) →
  Forall (fun v => 0 ≤ v < num_nodes g) (activelink_tonode g) →
  Forall (fun v => 0 ≤ v < num_nodes g) (activelink_fromnode g) →
  (∀ v, (length (positions v (activelink_tonode g)) ≤ 2)%nat) →
  (∀ v, (length (positions v (activelink_fromnode g)) ≤ 2)%nat) →
  setup_active_inlink_and_outlink_matrices g
  = setup_active_inlink_and_outlink_matrices_slow g
  ∧ (setup_active_inlink_and_outlink_matrices_slow g).2 = Ok tt.
Proof.
  intros Hcls HN Hnal Hlens Vto Vfrom Dto Dfrom.
  apply (setup_fast_slow_equal g (Z.to_nat (num_nodes g)));
    try done; try lia; by rewrite Z2Nat.id by done.
Qed.

(** X18. On a raster whose links join nodes of the grid, with no
    more than two links arriving at a node and no more than two leaving
    it, and on which the derivation finds an active link, the array form
    and the loop form of the derivation of the active links return and
    leave the same grid: the same active links, the same matrices and
    the same counts. *)
Theorem reset_fast_slow_same_grid {F} (g : Grid F) :
  raster_links_ok g →
  active_links (reset_list_of_active_links g).1 ≠ [] →
  reset_list_of_active_links g = reset_list_of_active_links_slow g
  ∧ (reset_list_of_active_links_slow g).2 = Ok tt.
Proof.
  intros Hok Hsome.
  assert (np_where (active_mask g) ≠ []) as Hwhere.
  { destruct (reset_run g Hok) as (g' & Hrun & _ & Hal & _).
    by rewrite Hrun in Hsome; cbn [fst] in Hsome; rewrite Hal in Hsome. }
  destruct Hok as (Hcls & Hlen & Hstatus & _ & Vfrom & Vto & Dfrom & Dto).
  assert (0 ≤ num_nodes g) as HN
    by (rewrite <- Hstatus; unfold len; lia).
  pose proof (np_take_nonneg 0 (node_status g) (link_fromnode g)
                ltac:(by rewrite Hstatus)) as Hfs.
  pose proof (np_take_nonneg 0 (node_status g) (link_tonode g)
                ltac:(by rewrite Hstatus)) as Hts.
  set (fs := _ <$> link_fromnode g) in Hfs.
  set (ts := _ <$> link_tonode g) in Hts.
  assert (zip_with link_is_active fs ts = active_mask g) as Hmask.
  { subst fs ts. unfold active_mask.
    by rewrite zip_with_fmap_l, zip_with_fmap_r. }
  assert (length (active_mask g) = length (link_fromnode g)) as Lmask.
  { unfold active_mask. rewrite length_zip_with. lia. }
  pose proof (np_take_where_select (active_mask g) (link_fromnode g)
                ltac:(lia)) as Hfrom.
  pose proof (np_take_where_select (active_mask g) (link_tonode g)
                ltac:(lia)) as Hto.
  rewrite (reset_unfold g fs ts _ _ Hlen Hfs Hts)
    by (rewrite Hmask; done).
  rewrite (reset_slow_unfold g fs ts _ _ Hlen Hfs Hts)
    by (rewrite Hmask; done).
  rewrite Hmask.
  set (g_mid := set_activelink_tonode _ _).
  apply (setup_fast_slow_equal g_mid (Z.to_nat (num_nodes g))).
  - done.
  - subst g_mid. change (num_nodes (set_activelink_tonode ?a ?b))
      with (num_nodes g). lia.
  - subst g_mid. cbn. unfold len, np_where.
    rewrite select_length, where_from_length by lia. done.
  - subst g_mid. cbn. rewrite !select_length by lia. done.
  - subst g_mid. cbn. apply select_Forall.
    eapply Forall_impl; [exact Vto|]. cbn. lia.
  - subst g_mid. cbn. apply select_Forall.
    eapply Forall_impl; [exact Vfrom|]. cbn. lia.
  - intros v. subst g_mid. cbn.
    etrans; [apply positions_select_le|apply Dto].
  - intros v. subst g_mid. cbn.
    etrans; [apply positions_select_le|apply Dfrom].
Qed.

(** ** Flux divergence at the active cells of a raster *)

Section CellFlux.
Context {F : Type} `{Scalar F}.
Implicit Type g : Grid F.
Implicit Type h : heap F.

Lemma prepare_cell_flux_run g flux net_unit_flux h fl :
  h !! flux = Some fl → len fl = num_active_links g →
  0 ≤ num_active_cells g →
  match net_unit_flux with
  | None => True
  | Some b =>
      b ≠ flux ∧ ∃ bv, h !! b = Some bv ∧ len bv = num_active_cells g
  end →
  ∃ h1 r,
    prepare_cell_flux g flux net_unit_flux h = (h1, Ok r)
    ∧ h1 !! r = Some (replicate (Z.to_nat (num_active_cells g)) fzero)
    ∧ h1 !! flux = Some fl ∧ flux ≠ r
    ∧ h1 = <[r := replicate (Z.to_nat (num_active_cells g)) fzero]> h
    ∧ match net_unit_flux with
      | None => h !! r = None
      | Some b => r = b
      end.
Proof.
  intros Hflux Hfl Hn Hbuf. unfold prepare_cell_flux.
  erewrite bind_ok by (by apply load_Some).
  unfold assert at 1. rewrite bool_decide_eq_true_2 by done.
  unfold bind at 1. cbn [ret].
  assert (len (replicate (Z.to_nat (num_active_cells g)) (fzero (F:=F)))
          = num_active_cells g) as Hz
    by (unfold len; rewrite length_replicate; lia).
  destruct net_unit_flux as [b|].
  - destruct Hbuf as (Hne & bv & Hb & Hbv).
    erewrite bind_ok.
    2:{ erewrite bind_ok by (by apply load_Some).
        unfold bind, store, modify, ret. done. }
    assert (length bv = Z.to_nat (num_active_cells g)) as ->
      by (unfold len in Hbv; lia).
    erewrite bind_ok by (apply load_Some, lookup_insert_eq).
    unfold assert. rewrite bool_decide_eq_true_2 by done.
    unfold bind, ret.
    eexists _, _. split; [done|].
    rewrite lookup_insert_eq, lookup_insert_ne by done. done.
  - erewrite bind_ok by (by apply fresh_zeros_run).
    erewrite bind_ok by (apply load_Some, lookup_insert_eq).
    unfold assert. rewrite bool_decide_eq_true_2 by done.
    unfold bind, ret.
    assert (fresh (dom h) ≠ flux) by (by eapply fresh_ne).
    eexists _, _. split; [done|].
    rewrite lookup_insert_eq, lookup_insert_ne by done.
    split_and!; try done. apply fresh_not_allocated.
Qed.

(** The operator at nodes, called without a buffer, allocates an array
    of zeros and then the array of the values. *)
Lemma raster_nodes_unbuffered g flux h fl :
  h !! flux = Some fl → len fl = num_active_links g →
  0 ≤ num_nodes g →
  ∃ r1,
    h !! r1 = None
    ∧ RasterModelGrid_calculate_flux_divergence_at_nodes g flux None h
      = let h1 := <[r1 := replicate (Z.to_nat (num_nodes g)) fzero]> h in
        match raster_node_values g fl with
        | Ok vals => (<[fresh (dom h1) := vals]> h1, Ok (fresh (dom h1)))
        | Raise e => (h1, Raise e)
        end.
Proof.
  intros Hflux Hfl Hn.
  destruct (prepare_net_unit_flux_run g flux None h fl)
    as (h1 & r1 & Hprep & _ & Hflux1 & Hne & Hh1); [done..|].
  exists r1. split.
  { unfold prepare_net_unit_flux in Hprep.
    erewrite bind_ok in Hprep by (by apply load_Some).
    unfold assert at 1 in Hprep.
    rewrite bool_decide_eq_true_2 in Hprep by done.
    unfold bind at 1 in Hprep. cbn [ret] in Hprep.
    erewrite bind_ok in Hprep by (by apply fresh_zeros_run).
    erewrite bind_ok in Hprep by (apply load_Some, lookup_insert_eq).
    unfold assert in Hprep.
    rewrite bool_decide_eq_true_2 in Hprep
      by (unfold len; rewrite length_replicate; lia).
    unfold bind, ret in Hprep. injection Hprep as _ <-.
    apply fresh_not_allocated. }
  cbn zeta. rewrite <- Hh1.
  unfold RasterModelGrid_calculate_flux_divergence_at_nodes,
    raster_node_values.
  erewrite bind_ok by exact Hprep.
  erewrite bind_ok by (by apply load_Some).
  repeat (unfold bind at 1; unfold lift at 1;
          match goal with
          | |- context [match ?r with Ok _ => _ | Raise _ => _ end] =>
              destruct r; cbn [rbind]; [|reflexivity]
          end).
  reflexivity.
Qed.
End CellFlux.

(** The run of the operator at active cells. *)
Lemma raster_cell_flux_run {F} `{Scalar F} (g : Grid F)
    (active_link_flux : loc) (net_unit_flux : option loc) (h : heap F)
    (fl vals out : list F) :
  cls g = RasterModelGrid_class →
  h !! active_link_flux = Some fl → len fl = num_active_links g →
  0 ≤ num_nodes g → 0 ≤ num_active_cells g →
  match net_unit_flux with
  | None => True
  | Some b =>
      b ≠ active_link_flux
      ∧ ∃ bv, h !! b = Some bv ∧ len bv = num_active_cells g
  end →
  raster_node_values g fl = Ok vals →
  np_take vals (activecell_node g) = Ok out →
  ∃ h' r,
    RasterModelGrid_calculate_flux_divergence_at_active_cells
      g active_link_flux net_unit_flux h = (h', Ok r)
    ∧ h' !! r = Some out
    ∧ h !! r = None
    ∧ (∀ b bv, net_unit_flux = Some b → h !! b = Some bv →
         r ≠ b ∧ h' !! b = Some (replicate (length bv) fzero))
    ∧ ∃ hn rn,
        RasterModelGrid_calculate_flux_divergence_at_nodes
          g active_link_flux None h = (hn, Ok rn)
        ∧ hn !! rn = Some vals.
Proof.
  intros Hcls Hflux Hfl Hn Hc Hbuf Hvals Hout.
  destruct (prepare_cell_flux_run g active_link_flux net_unit_flux h fl)
    as (h1 & r0 & Hprep & Hr0 & Hflux1 & Hne & Hh1 & Hr0'); [done..|].
  destruct (raster_nodes_unbuffered g active_link_flux h1 fl)
    as (r1 & Hr1 & Hnodes); [done..|].
  rewrite Hvals in Hnodes. cbn zeta in Hnodes.
  set (h2 := <[r1 := replicate (Z.to_nat (num_nodes g)) fzero]> h1)
    in Hnodes.
  set (r2 := fresh (dom h2)) in Hnodes.
  set (h3 := <[r2 := vals]> h2) in Hnodes.
  set (r3 := fresh (dom h3)).
  assert (h2 !! r2 = None) as Hr2 by apply fresh_not_allocated.
  assert (h3 !! r3 = None) as Hr3 by apply fresh_not_allocated.
  assert (∀ l v, h !! l = Some v → l ≠ r1 ∧ l ≠ r2 ∧ l ≠ r3) as Hold.
  { intros l v Hl.
    assert (is_Some (h1 !! l)) as [v1 Hl1].
    { rewrite Hh1. destruct (decide (l = r0)) as [->|];
        [rewrite lookup_insert_eq|rewrite lookup_insert_ne by done];
        eauto. }
    assert (l ≠ r1) as N1 by (intros ->; congruence).
    assert (h2 !! l = Some v1) as Hl2
      by (unfold h2; by rewrite lookup_insert_ne).
    assert (l ≠ r2) as N2 by (intros ->; congruence).
    assert (h3 !! l = Some v1) as Hl3
      by (unfold h3; by rewrite lookup_insert_ne).
    assert (l ≠ r3) as N3 by (intros ->; congruence). done. }
  exists (<[r3 := out]> h3), r3.
  split.
  { unfold RasterModelGrid_calculate_flux_divergence_at_active_cells.
    erewrite bind_ok by exact Hprep.
    unfold calculate_flux_divergence_at_nodes. rewrite Hcls.
    erewrite bind_ok by exact Hnodes.
    erewrite bind_ok by (apply load_Some, lookup_insert_eq).
    unfold bind at 1. unfold lift at 1. rewrite Hout.
    reflexivity. }
  split; [apply lookup_insert_eq|]. split.
  { destruct (h !! r3) as [v|] eqn:E; [|done].
    by destruct (Hold _ _ E) as (_ & _ & ?). }
  split.
  { intros b bv -> Hb. destruct Hbuf as (Hneb & bv' & Hb' & Hbv).
    assert (bv' = bv) as -> by congruence. subst r0.
    destruct (Hold _ _ Hb) as (N1 & N2 & N3). split; [done|].
    rewrite lookup_insert_ne by done. unfold h3.
    rewrite lookup_insert_ne by done. unfold h2.
    rewrite lookup_insert_ne by done. rewrite Hr0. f_equal. f_equal.
    unfold len in Hbv. lia. }
  destruct (raster_nodes_unbuffered g active_link_flux h fl)
    as (q1 & _ & Hrun); [done..|].
  rewrite Hvals in Hrun. cbn zeta in Hrun.
  eexists _, _. split; [exact Hrun|]. apply lookup_insert_eq.
Qed.

(** X19. On a raster, given one flux per active link and no buffer
    or a buffer of [num_active_cells] entries,
    [calculate_flux_divergence_at_active_cells] returns a new array that
    holds, for every active cell, the value that
    [calculate_flux_divergence_at_nodes] returns at the node of the
    cell. A buffer is overwritten with zeros and is not the array
    returned. *)
Theorem raster_cell_flux_slices_node_flux {F} `{Scalar F} (g : Grid F)
    (active_link_flux : loc) (net_unit_flux : option loc) (h : heap F)
    (fl vals out : list F) :
  cls g = RasterModelGrid_class →
  h !! active_link_flux = Some fl → len fl = num_active_links g →
  0 ≤ num_nodes g → 0 ≤ num_active_cells g →
  match net_unit_flux with
  | None => True
  | Some b =>
      b ≠ active_link_flux
      ∧ ∃ bv, h !! b = Some bv ∧ len bv = num_active_cells g
  end →
  raster_node_values g fl = Ok vals →
  np_take vals (activecell_node g) = Ok out →
  ∃ h' r,
    RasterModelGrid_calculate_flux_divergence_at_active_cells
      g active_link_flux net_unit_flux h = (h', Ok r)
    ∧ h' !! r = Some out
    ∧ h !! r = None
    ∧ (∀ b bv, net_unit_flux = Some b → h !! b = Some bv →
         r ≠ b ∧ h' !! b = Some (replicate (length bv) fzero))
    ∧ ∃ hn rn,
        RasterModelGrid_calculate_flux_divergence_at_nodes
          g active_link_flux None h = (hn, Ok rn)
        ∧ hn !! rn = Some vals.
Proof. apply raster_cell_flux_run. Qed.

(** ** Flux divergence at the active cells with the loop over the links *)

Lemma enumerate_lookup {A} (l : list A) i x :
  l !! i = Some x → enumerate l !! i = Some (Z.of_nat i, x).
Proof.
  intros Hx. unfold enumerate. apply lookup_zip_with_Some.
  exists (Z.of_nat i), x. split; [done|]. split; [|done].
  rewrite lookup_seqZ_lt; [f_equal; lia|].
  apply lookup_lt_Some in Hx. unfold len. lia.
Qed.

Section CellFluxSlow.
Context {F : Type} `{Scalar F}.
Implicit Type g : Grid F.
Implicit Type h : heap F.

Lemma cell_flux_pass_slow_run g flux r h fl buf (k : nat) link_id
    fc tc fv :
  h !! flux = Some fl → h !! r = Some buf → flux ≠ r →
  cell_of_end g (link_fromnode g) link_id = Ok fc →
  cell_of_end g (link_tonode g) link_id = Ok tc →
  (fc = BAD_INDEX_VALUE ∨ 0 ≤ fc < len buf) →
  (tc = BAD_INDEX_VALUE ∨ 0 ≤ tc < len buf) →
  len buf < BAD_INDEX_VALUE →
  fl !! k = Some fv →
  ∃ buf',
    cell_flux_pass_slow g flux r (Z.of_nat k, link_id) h
      = (<[r := buf']> h, Ok tt)
    ∧ length buf' = length buf
    ∧ ∀ (c : nat) x, buf !! c = Some x →
        buf' !! c
        = Some (net_step (Z.of_nat c) fc tc (fmul fv (_dx g)) x).
Proof.
  intros Hflux Hr Hne Hfc Htc Rf Rt Hbad Hfv.
  set (v := fmul fv (_dx g)).
  unfold cell_of_end in Hfc, Htc.
  destruct (getitem (link_fromnode g) link_id) as [f|] eqn:Hf;
    cbn [rbind] in Hfc; [|done].
  destruct (getitem (link_tonode g) link_id) as [t|] eqn:Ht;
    cbn [rbind] in Htc; [|done].
  unfold cell_flux_pass_slow. cbn [fst snd].
  unfold bind at 1. unfold lift at 1. rewrite Hf.
  unfold bind at 1. unfold lift at 1. rewrite Hfc.
  unfold bind at 1. unfold lift at 1. rewrite Ht.
  unfold bind at 1. unfold lift at 1. rewrite Htc.
  erewrite bind_ok.
  2:{ eapply load_item_Some; [done|].
      apply getitem_nonneg; [lia|]. by rewrite Nat2Z.id. }
  fold v.
  (* the cell of the from-node *)
  assert (∃ buf1,
    (if negb (fc =? BAD_INDEX_VALUE)
     then iadd_item r fc v else ret tt) h = (<[r := buf1]> h, Ok tt)
    ∧ length buf1 = length buf
    ∧ ∀ (c : nat) x, buf !! c = Some x →
        buf1 !! c = Some (if fc =? Z.of_nat c then fadd x v else x))
    as (buf1 & Hrun1 & Hlen1 & Hval1).
  { destruct (Z.eqb_spec fc BAD_INDEX_VALUE) as [->|Hnb]; cbn [negb].
    - exists buf. rewrite insert_id by done. split; [done|].
      split; [done|]. intros c x Hx. rewrite Hx.
      apply lookup_lt_Some in Hx. unfold len in Hbad.
      destruct (Z.eqb_spec BAD_INDEX_VALUE (Z.of_nat c)); [lia|done].
    - destruct Rf as [?|Rf]; [done|].
      destruct (iadd_item_run h r buf fc v Hr ltac:(lia))
        as (q & old & Hq & Hold & ->).
      apply index_of_Ok in Hq as [_ [[_ Hq]|[? _]]]; [|lia].
      eexists. split; [done|]. split; [by rewrite length_insert|].
      intros c x Hx.
      destruct (Z.eqb_spec fc (Z.of_nat c)) as [->|Hfp].
      + assert (q = c) as -> by lia.
        rewrite list_lookup_insert_eq by (by eapply lookup_lt_Some).
        by assert (old = x) as -> by congruence.
      + by rewrite list_lookup_insert_ne by lia. }
  erewrite bind_ok by exact Hrun1.
  assert (<[r:=buf1]> h !! r = Some buf1) as Hr1
    by apply lookup_insert_eq.
  (* the cell of the to-node *)
  assert (∃ buf2,
    (if negb (tc =? BAD_INDEX_VALUE)
     then isub_item r tc v else ret tt) (<[r:=buf1]> h)
    = (<[r := buf2]> h, Ok tt)
    ∧ length buf2 = length buf1
    ∧ ∀ (c : nat) x, buf1 !! c = Some x →
        buf2 !! c = Some (if tc =? Z.of_nat c then fsub x v else x))
    as (buf2 & Hrun2 & Hlen2 & Hval2).
  { destruct (Z.eqb_spec tc BAD_INDEX_VALUE) as [->|Hnb]; cbn [negb].
    - exists buf1. split; [done|].
      split; [done|]. intros c x Hx. rewrite Hx.
      apply lookup_lt_Some in Hx. unfold len in Hbad.
      destruct (Z.eqb_spec BAD_INDEX_VALUE (Z.of_nat c)); [lia|done].
    - destruct Rt as [?|Rt]; [done|].
      destruct (isub_item_run (<[r:=buf1]> h) r buf1 tc v Hr1
                  ltac:(unfold len in *; lia))
        as (q & old & Hq & Hold & ->).
      apply index_of_Ok in Hq as [_ [[_ Hq]|[? _]]]; [|lia].
      rewrite insert_insert_eq.
      eexists. split; [done|]. split; [by rewrite length_insert|].
      intros c x Hx.
      destruct (Z.eqb_spec tc (Z.of_nat c)) as [->|Htp].
      + assert (q = c) as -> by lia.
        rewrite list_lookup_insert_eq by (by eapply lookup_lt_Some).
        by assert (old = x) as -> by congruence.
      + by rewrite list_lookup_insert_ne by lia. }
  exists buf2. split; [done|]. split; [lia|].
  intros c x Hx. by rewrite (Hval2 c _ (Hval1 c x Hx)).
Qed.

Lemma cell_flux_slow_loop g flux r fl (rest : list Z) :
  ∀ (k : nat) h buf fcs tcs,
  h !! flux = Some fl → h !! r = Some buf → flux ≠ r →
  rmapM (cell_of_end g (link_fromnode g)) rest = Ok fcs →
  rmapM (cell_of_end g (link_tonode g)) rest = Ok tcs →
  Forall (fun c => c = BAD_INDEX_VALUE ∨ 0 ≤ c < len buf) fcs →
  Forall (fun c => c = BAD_INDEX_VALUE ∨ 0 ≤ c < len buf) tcs →
  len buf < BAD_INDEX_VALUE →
  (k + length rest ≤ length fl)%nat →
  ∃ buf',
    for_each (zip (seqZ (Z.of_nat k) (len rest)) rest)
      (cell_flux_pass_slow g flux r) h
    = (<[r := buf']> h, Ok tt)
    ∧ length buf' = length buf
    ∧ ∀ (c : nat) x, buf !! c = Some x →
        buf' !! c
        = Some (running_net (Z.of_nat c) fcs tcs
                  ((fun fv => fmul fv (_dx g))
                     <$> take (length rest) (drop k fl)) x).
Proof.
  induction rest as [|link_id rest IH];
    intros k h buf fcs tcs Hflux Hr Hne Hfcs Htcs Vf Vt Hbad Hk.
  - injection Hfcs as <-. exists buf. rewrite insert_id by done.
    split; [done|]. split; [done|]. by intros c x Hx.
  - cbn [rmapM] in Hfcs, Htcs.
    destruct (cell_of_end g (link_fromnode g) link_id) as [fc|] eqn:Hfc;
      cbn [rbind] in Hfcs; [|done].
    destruct (rmapM _ rest) as [fcs'|] eqn:Hfcs';
      cbn [rbind] in Hfcs; [|done].
    injection Hfcs as <-.
    destruct (cell_of_end g (link_tonode g) link_id) as [tc|] eqn:Htc;
      cbn [rbind] in Htcs; [|done].
    destruct (rmapM (cell_of_end g (link_tonode g)) rest)
      as [tcs'|] eqn:Htcs'; cbn [rbind] in Htcs; [|done].
    injection Htcs as <-.
    apply Forall_cons in Vf as [Rf Vf]. apply Forall_cons in Vt as [Rt Vt].
    cbn [length] in Hk.
    destruct (lookup_lt_is_Some_2 fl k) as [fv Hfv]; [lia|].
    unfold len at 1. cbn [length].
    rewrite seqZ_cons by lia. cbn [zip zip_with for_each].
    destruct (cell_flux_pass_slow_run g flux r h fl buf k link_id fc tc fv)
      as (buf1 & Hrun & Hlen1 & Hval1); [done..|].
    erewrite bind_ok by exact Hrun.
    replace (Z.pred (Z.of_nat (S (length rest)))) with (len rest)
      by (unfold len; lia).
    replace (Z.succ (Z.of_nat k)) with (Z.of_nat (S k)) by lia.
    assert (len buf1 = len buf) as Hlen1' by (unfold len; lia).
    destruct (IH (S k) (<[r:=buf1]> h) buf1 fcs' tcs')
      as (buf' & Hrun' & Hlen' & Hval');
      [by rewrite lookup_insert_ne|by rewrite lookup_insert_eq|done
      |done|done
      |by rewrite Hlen1'|by rewrite Hlen1'|by rewrite Hlen1'|lia|].
    exists buf'. rewrite Hrun', insert_insert_eq.
    split; [done|]. split; [lia|].
    intros c x Hx.
    rewrite (Hval' c _ (Hval1 c x Hx)).
    rewrite (drop_S fl fv k Hfv). by cbn [take fmap list_fmap running_net].
Qed.

Lemma raster_cell_flux_slow_run g flux buffer h fl fcs tcs :
  h !! flux = Some fl → len fl = num_active_links g →
  num_active_links g = len (active_links g) →
  0 ≤ num_active_cells g < BAD_INDEX_VALUE →
  rmapM (cell_of_end g (link_fromnode g)) (active_links g) = Ok fcs →
  rmapM (cell_of_end g (link_tonode g)) (active_links g) = Ok tcs →
  Forall (fun c => c = BAD_INDEX_VALUE ∨ 0 ≤ c < num_active_cells g) fcs →
  Forall (fun c => c = BAD_INDEX_VALUE ∨ 0 ≤ c < num_active_cells g) tcs →
  match buffer with
  | None => True
  | Some b =>
      b ≠ flux ∧ ∃ bv, h !! b = Some bv ∧ len bv = num_active_cells g
  end →
  ∃ h' r out,
    RasterModelGrid_calculate_flux_divergence_at_active_cells_slow
      g flux buffer h = (h', Ok r)
    ∧ h' !! r = Some out
    ∧ length out = Z.to_nat (num_active_cells g)
    ∧ ∀ c, (c < Z.to_nat (num_active_cells g))%nat →
        out !! c
        = Some (fdiv (running_net (Z.of_nat c) fcs tcs
                        (link_fluxes g fl) fzero) (cellarea g)).
Proof.
  intros Hflux Hfl Hnal Hcells Hfcs Htcs Vf Vt Hbuf.
  destruct (prepare_cell_flux_run g flux buffer h fl)
    as (h1 & r & Hprep & Hr & Hflux1 & Hne & _ & _); [done|done|lia|done|].
  set (zeros := replicate (Z.to_nat (num_active_cells g)) (fzero : F)) in *.
  assert (length zeros = Z.to_nat (num_active_cells g)) as Hz
    by apply length_replicate.
  assert (len zeros = num_active_cells g) as Hz' by (unfold len; lia).
  destruct (cell_flux_slow_loop g flux r fl (active_links g) 0%nat h1 zeros
              fcs tcs)
    as (tot & Hloop & Hlen & Hval);
    [done|done|done|done|done
    |by rewrite Hz'|by rewrite Hz'|lia|unfold len in *; lia|].
  unfold RasterModelGrid_calculate_flux_divergence_at_active_cells_slow.
  erewrite bind_ok by exact Hprep.
  unfold enumerate. change 0 with (Z.of_nat 0).
  erewrite bind_ok by exact Hloop.
  erewrite bind_ok by (apply load_Some, lookup_insert_eq).
  unfold alloc.
  eexists _, _, _. split; [reflexivity|].
  split; [apply lookup_insert_eq|].
  split; [rewrite length_fmap; lia|].
  intros c Hlt.
  rewrite list_lookup_fmap, (Hval c fzero) by (by apply lookup_replicate_2).
  cbn [fmap option_fmap option_map].
  by rewrite drop_0, take_ge by (unfold len in *; lia).
Qed.
End CellFluxSlow.

(** ** The two forms at the active cells *)

Section CellForms.
Context {F : Type} `{Scalar F}.
Implicit Type g : Grid F.
Implicit Type h : heap F.

(** The cells of the ends of the active links, read off the nodes. *)
Lemma cells_of_ends g (ends x : list Z) : ∀ links,
  np_take ends links = Ok x →
  Forall (fun n => 0 ≤ n < len (node_activecell g)) x →
  rmapM (cell_of_end g ends) links
  = Ok (cell_of g <$> x).
Proof.
  revert x. unfold np_take.
  intros x links. revert x.
  induction links as [|l links IH]; intros x Hx Vx.
  - by injection Hx as <-.
  - cbn [rmapM] in Hx |- *. unfold cell_of_end at 1.
    destruct (getitem ends l) as [n|]; cbn [rbind] in Hx |- *; [|done].
    destruct (rmapM (getitem ends) links) as [x'|] eqn:Hx';
      cbn [rbind] in Hx; [|done].
    injection Hx as <-. apply Forall_cons in Vx as [Hn Vx].
    destruct (lookup_lt_is_Some_2 (node_activecell g) (Z.to_nat n))
      as [c Hc]; [unfold len in Hn; lia|].
    rewrite (getitem_nonneg _ n c) by (done || lia). cbn [rbind].
    rewrite (IH x') by done. cbn [rbind fmap list_fmap].
    assert (cell_of g n = c) as -> by (unfold cell_of; by rewrite Hc).
    done.
Qed.

Lemma cells_in_range g (x : list Z) (N : Z) :
  Forall (fun c => c = BAD_INDEX_VALUE ∨ 0 ≤ c < N) (node_activecell g) →
  Forall (fun n => 0 ≤ n < len (node_activecell g)) x →
  Forall (fun c => c = BAD_INDEX_VALUE ∨ 0 ≤ c < N)
    (cell_of g <$> x).
Proof.
  intros Hcells Hx. apply Forall_fmap.
  eapply Forall_impl; [exact Hx|]. intros m Hm. cbn.
  destruct (lookup_lt_is_Some_2 (node_activecell g) (Z.to_nat m))
    as [c Hc]; [unfold len in Hm; lia|].
  unfold cell_of. rewrite Hc. cbn.
  by eapply (proj1 (Forall_lookup _ _) Hcells).
Qed.

Lemma cells_consistent_at g (c : nat) n (x : list Z) :
  cells_consistent g →
  activecell_node g !! c = Some n →
  Forall (fun m => 0 ≤ m < len (node_activecell g)) x →
  Forall (fun m => cell_of g m = Z.of_nat c ↔ m = n) x.
Proof.
  intros Hcons Hn Hx.
  pose proof (proj1 (Forall_lookup _ _) Hcons c _ (enumerate_lookup _ _ _ Hn))
    as Hc. cbn [fst snd] in Hc.
  eapply Forall_impl; [exact Hx|]. intros m Hm. cbn.
  destruct (lookup_lt_is_Some_2 (node_activecell g) (Z.to_nat m))
    as [cell Hcell]; [unfold len in Hm; lia|].
  unfold cell_of. rewrite Hcell. cbn [default].
  pose proof (proj1 (Forall_lookup _ _) Hc _ _
                (enumerate_lookup _ _ _ Hcell)) as Hm'.
  cbn beta in Hm. cbn [fst snd] in Hm'.
  rewrite Z2Nat.id in Hm' by lia. exact Hm'.
Qed.

Lemma exact_cell_net g fl c n :
  exact_arithmetic F →
  length (activelink_fromnode g) = length fl →
  length (activelink_tonode g) = length fl →
  (length (positions n (activelink_fromnode g)) ≤ 2)%nat →
  (length (positions n (activelink_tonode g)) ≤ 2)%nat →
  Forall (fun m => cell_of g m = c ↔ m = n) (activelink_fromnode g) →
  Forall (fun m => cell_of g m = c ↔ m = n) (activelink_tonode g) →
  gather_net g fl n = cell_loop_net g fl c.
Proof.
  intros (one & opp & inv & Rth & Hdiv).
  by apply (cell_net_exact one opp inv).
Qed.

Lemma raster_cell_flux_forms g0 g flux buffer h fl :
  raster_links_ok g0 →
  reset_list_of_active_links g0 = (g, Ok tt) →
  h !! flux = Some fl →
  len fl = num_active_links g →
  0 ≤ num_active_cells g < BAD_INDEX_VALUE →
  len (activecell_node g) = num_active_cells g →
  Forall (fun n => 0 ≤ n < num_nodes g) (activecell_node g) →
  Forall (fun c => c = BAD_INDEX_VALUE ∨ 0 ≤ c < num_active_cells g)
    (node_activecell g) →
  cells_consistent g →
  match buffer with
  | None => True
  | Some b =>
      b ≠ flux ∧ ∃ bv, h !! b = Some bv ∧ len bv = num_active_cells g
  end →
  ∃ h1 r1 out1 h2 r2 out2,
    RasterModelGrid_calculate_flux_divergence_at_active_cells
      g flux buffer h = (h1, Ok r1)
    ∧ h1 !! r1 = Some out1
    ∧ RasterModelGrid_calculate_flux_divergence_at_active_cells_slow
        g flux buffer h = (h2, Ok r2)
    ∧ h2 !! r2 = Some out2
    ∧ len out1 = num_active_cells g
    ∧ len out2 = num_active_cells g
    ∧ ∀ cell node, 0 ≤ cell < num_active_cells g →
        getitem (activecell_node g) cell = Ok node →
        getitem out1 cell = Ok (gather_net g fl node)
        ∧ getitem out2 cell = Ok (cell_loop_net g fl cell)
        ∧ (exact_arithmetic F → getitem out1 cell = getitem out2 cell).
Proof.
  intros Hok Hreset Hflux Hfl Hcells Hacn Vacn Vnac Hcons Hbuf.
  destruct (raster_after_reset g0 g fl Hok Hreset Hfl)
    as (Hcls & Hn & Hnacl & Hnal & Tf & Tt & Lf & Lt & Vf & Vt
        & Pf & Pt & Min & Mout).
  assert (Forall (fun n => 0 ≤ n < len (node_activecell g))
            (activelink_fromnode g)) as Vaf by (by rewrite Hnacl).
  assert (Forall (fun n => 0 ≤ n < len (node_activecell g))
            (activelink_tonode g)) as Vat by (by rewrite Hnacl).
  (* the array form at the nodes, without a buffer *)
  destruct (raster_flux_fast_run g flux None h fl)
    as (hn & rn & vals & Hrunn & Hrn & Hlenn & Hvaln); [done..|].
  destruct (raster_nodes_unbuffered g flux h fl) as (r0 & _ & Hunb);
    [done..|].
  rewrite Hrunn in Hunb. cbn zeta in Hunb.
  destruct (raster_node_values g fl) as [vals'|e] eqn:Hvals; [|done].
  assert (vals' = vals) as ->.
  { injection Hunb as -> ->. rewrite lookup_insert_eq in Hrn. congruence. }
  clear Hunb.
  assert (np_take vals (activecell_node g)
          = Ok ((fun i => default fzero (vals !! Z.to_nat i))
                  <$> activecell_node g)) as Htake.
  { apply np_take_nonneg. eapply Forall_impl; [exact Vacn|].
    intros n Hn'. cbn in Hn'. unfold len. lia. }
  destruct (raster_cell_flux_run g flux buffer h fl vals _
              Hcls Hflux Hfl Hn ltac:(lia) Hbuf Hvals Htake)
    as (h1 & r1 & Hrun1 & Hr1 & _).
  (* the loop form *)
  destruct (raster_cell_flux_slow_run g flux buffer h fl
              (cell_of g <$> activelink_fromnode g)
              (cell_of g <$> activelink_tonode g))
    as (h2 & r2 & out2 & Hrun2 & Hr2 & Hlen2 & Hval2);
    [done|done|done|done
    |by apply cells_of_ends|by apply cells_of_ends
    |by apply cells_in_range|by apply cells_in_range|done|].
  eexists h1, r1, _, h2, r2, out2.
  split_and!; [done|done|done|done
              |unfold len in *; rewrite length_fmap; lia
              |unfold len; lia|].
  intros cell node Hcell Hnode.
  apply getitem_Ok in Hnode as (p & Hp & Hcn).
  apply index_of_Ok in Hp as [_ [[_ Hp]|[? _]]]; [|lia].
  assert (p = Z.to_nat cell) as -> by lia.
  pose proof (proj1 (Forall_lookup _ _) Vacn _ _ Hcn) as Hnr.
  cbn in Hnr.
  assert (getitem ((fun i => default fzero (vals !! Z.to_nat i))
                     <$> activecell_node g) cell
          = Ok (gather_net g fl node)) as E1.
  { apply getitem_nonneg; [lia|].
    rewrite list_lookup_fmap, Hcn. cbn.
    rewrite Hvaln by lia. cbn. by rewrite Z2Nat.id by lia. }
  assert (getitem out2 cell = Ok (cell_loop_net g fl cell)) as E2.
  { apply getitem_nonneg; [lia|].
    rewrite Hval2 by lia. by rewrite Z2Nat.id by lia. }
  split; [done|]. split; [done|].
  intros Hexact. rewrite E1, E2. f_equal.
  apply exact_cell_net; try done.
  - pose proof (cells_consistent_at g (Z.to_nat cell) node _ Hcons Hcn Vaf)
      as Hc. by rewrite Z2Nat.id in Hc by lia.
  - pose proof (cells_consistent_at g (Z.to_nat cell) node _ Hcons Hcn Vat)
      as Hc. by rewrite Z2Nat.id in Hc by lia.
Qed.
End CellForms.

(** X20. On a raster whose active links have just been derived, whose
    cell-to-node and node-to-cell arrays describe one another and whose
    cells are numbered below [num_active_cells], the array form
    [calculate_flux_divergence_at_active_cells] and the loop form
    [calculate_flux_divergence_at_active_cells_slow] both return an
    array of [num_active_cells] entries. At every active cell the array
    form holds the gathered net flux of the node of the cell, and the
    loop form holds the total of the fluxes, added and subtracted link
    by link, over the cell area; the two are equal when the arithmetic
    is exact. *)
Theorem raster_cell_flux_fast_slow_agree {F} `{Scalar F}
    (g0 g : Grid F) (active_link_flux : loc) (net_unit_flux : option loc)
    (h : heap F) (fl : list F) :
  raster_links_ok g0 →
  reset_list_of_active_links g0 = (g, Ok tt) →
  h !! active_link_flux = Some fl →
  len fl = num_active_links g →
  0 ≤ num_active_cells g < BAD_INDEX_VALUE →
  len (activecell_node g) = num_active_cells g →
  Forall (fun n => 0 ≤ n < num_nodes g) (activecell_node g) →
  Forall (fun c => c = BAD_INDEX_VALUE ∨ 0 ≤ c < num_active_cells g)
    (node_activecell g) →
  cells_consistent g →
  match net_unit_flux with
  | None => True
  | Some b =>
      b ≠ active_link_flux
      ∧ ∃ bv, h !! b = Some bv ∧ len bv = num_active_cells g
  end →
  ∃ h1 r1 out1 h2 r2 out2,
    RasterModelGrid_calculate_flux_divergence_at_active_cells
      g active_link_flux net_unit_flux h = (h1, Ok r1)
    ∧ h1 !! r1 = Some out1
    ∧ RasterModelGrid_calculate_flux_divergence_at_active_cells_slow
        g active_link_flux net_unit_flux h = (h2, Ok r2)
    ∧ h2 !! r2 = Some out2
    ∧ len out1 = num_active_cells g
    ∧ len out2 = num_active_cells g
    ∧ ∀ cell node, 0 ≤ cell < num_active_cells g →
        getitem (activecell_node g) cell = Ok node →
        getitem out1 cell = Ok (gather_net g fl node)
        ∧ getitem out2 cell = Ok (cell_loop_net g fl cell)
        ∧ (exact_arithmetic F → getitem out1 cell = getitem out2 cell).
Proof. apply raster_cell_flux_forms. Qed.

(** ** The method of [ModelGrid] with a buffer *)

(** X21. [ModelGrid.calculate_flux_divergence_at_nodes], given one flux
    per active link and an array of more than one entry as the buffer,
    raises [ValueError] at its test [net_unit_flux==False] and changes
    no array. *)
Theorem modelgrid_flux_divergence_buffer_raises {F} `{Scalar F}
    (g : Grid F) (active_link_flux b : loc) (h : heap F)
    (fl bv : list F) :
  h !! active_link_flux = Some fl →
  len fl = num_active_links g →
  h !! b = Some bv →
  1 < len bv →
  ModelGrid_calculate_flux_divergence_at_nodes g active_link_flux (Some b) h
  = (h, Raise ValueError).
Proof.
  intros Hflux Hfl Hb Hlen.
  destruct bv as [|x [|y bv]]; [unfold len in Hlen; cbn in Hlen; lia..|].
  unfold ModelGrid_calculate_flux_divergence_at_nodes.
  unfold bind at 1.
  by rewrite (prepare_net_unit_flux_eq_buffer g active_link_flux b h
                fl x y bv).
Qed.

(** * The properties on the example grids *)

Lemma example_grid_ok : raster_links_ok example_grid.
Proof.
  destruct (raster_grid_built 4 5 ltac:(lia) ltac:(lia) 1%Q)
    as (g & Hrun & Hok & _).
  unfold example_grid. by rewrite Hrun.
Qed.

Lemma example_grid_readable : links_readable example_grid.
Proof. apply raster_links_readable, example_grid_ok. Qed.

(** The doctest grid: 4 rows and 5 columns give 20 nodes, 6 cells, 31
    links and 17 active links. *)
Lemma raster_grid_sizes_4_5 :
  3 ≤ 4 ∧ 3 ≤ 5
  ∧ ∃ g : Grid Q,
      RasterModelGrid 4 5 1%Q = (g, Ok tt)
      ∧ num_nodes g = 20 ∧ num_cells g = 6
      ∧ num_links g = 31 ∧ num_active_links g = 17.
Proof.
  split; [lia|]. split; [lia|].
  destruct (raster_grid_sizes 4 5 1%Q)
    as (g & Hrun & Hn & Hc & Hl & Ha & _); [lia|lia|].
  exists g. split_and!; [done|lia..].
Defined.

(** The rationals in lowest terms are exact. *)
Lemma Qc_exact : exact_arithmetic Qc.
Proof. exists (Q2Qc 1), Qcopp, Qcinv. split; [apply Qcrt|done]. Qed.

Lemma exact_grid_ok : raster_links_ok exact_grid.
Proof.
  destruct (raster_grid_built 4 5 ltac:(lia) ltac:(lia) (Q2Qc 1))
    as (g & Hrun & Hok & _).
  unfold exact_grid. by rewrite Hrun.
Qed.

Lemma exact_grid_reset_run :
  reset_list_of_active_links exact_grid = (exact_grid_reset, Ok tt).
Proof.
  destruct (reset_run exact_grid exact_grid_ok) as (g & Hrun & _).
  unfold exact_grid_reset. by rewrite Hrun.
Qed.

(** On the doctest grid in exact arithmetic: at node 6, which has a
    cell, the two forms of the flux divergence return the same value;
    at node 1, which has none, the loop form returns zero and the
    whole-array form the gathered net flux. *)
Lemma flux_divergence_forms_agree_on_example :
  raster_links_ok exact_grid
  ∧ len exact_flux = num_active_links exact_grid_reset
  ∧ exact_arithmetic Qc
  ∧ ∃ out1 out2,
      returned_array
        (RasterModelGrid_calculate_flux_divergence_at_nodes
           exact_grid_reset 1%positive None (heap_of exact_flux))
      = Some out1
      ∧ returned_array
          (RasterModelGrid_calculate_flux_divergence_at_nodes_slow
             exact_grid_reset 1%positive None (heap_of exact_flux))
        = Some out2
      ∧ getitem out1 6 = getitem out2 6
      ∧ getitem out1 1 = Ok (gather_net exact_grid_reset exact_flux 1)
      ∧ getitem out2 1 = Ok fzero.
Proof.
  split; [apply exact_grid_ok|].
  split; [vm_compute; reflexivity|].
  split; [apply Qc_exact|].
  destruct (flux_divergence_forms_agree_at_cells exact_grid
              exact_grid_reset 1%positive None (heap_of exact_flux)
              exact_flux)
    as (h1 & r1 & out1 & h2 & r2 & out2
        & Hfast & Ho1 & Hslow & Ho2 & _ & _ & Hforms).
  - apply exact_grid_ok.
  - apply exact_grid_reset_run.
  - vm_compute; reflexivity.
  - vm_compute; reflexivity.
  - exact I.
  - exists out1, out2. unfold returned_array.
    rewrite Hfast, Hslow. cbn [fst snd].
    split; [done|]. split; [done|].
    destruct (Hforms 6 0) as (_ & _ & Hsame);
      [split; by vm_compute|vm_compute; reflexivity|].
    destruct (Hforms 1 BAD_INDEX_VALUE) as (Hgather & Hzero & _);
      [split; by vm_compute|vm_compute; reflexivity|].
    split; [apply Hsame; [apply Qc_exact|by vm_compute]|].
    split; [done|]. by rewrite Hzero, Z.eqb_refl.
Defined.

(** In [float64] the two forms of the flux divergence differ. On the
    doctest grid with the doctest fluxes, at node 1, which has no cell,
    the whole-array form returns -1 and the loop form returns 0. On the
    raster of 3 rows and 3 columns with the fluxes 0.1, 0.1, 0.1 and
    0.2, at node 4, which has a cell, the whole-array form returns
    (0.1 + 0.2) - (0.1 + 0.1), which is 0.10000000000000003, and the
    loop form returns ((0 - 0.1) + 0.1 - 0.1) + 0.2, which is 0.1. *)
Lemma flux_divergence_forms_differ_in_float64 :
  (getitem (node_activecell float_grid) 1 = Ok BAD_INDEX_VALUE
   ∧ len float_flux = num_active_links float_grid
   ∧ ∃ out1 out2,
       returned_array
         (RasterModelGrid_calculate_flux_divergence_at_nodes
            float_grid 1%positive None (heap_of float_flux))
       = Some out1
       ∧ returned_array
           (RasterModelGrid_calculate_flux_divergence_at_nodes_slow
              float_grid 1%positive None (heap_of float_flux))
         = Some out2
       ∧ getitem out1 1 = Ok (-1)%float
       ∧ getitem out2 1 = Ok 0%float
       ∧ PrimFloat.eqb (-1) 0 = false)
  ∧ (getitem (node_activecell small_float_grid) 4 = Ok 0
     ∧ len tenths = num_active_links small_float_grid
     ∧ ∃ out1 out2,
         returned_array
           (RasterModelGrid_calculate_flux_divergence_at_nodes
              small_float_grid 1%positive None (heap_of tenths))
         = Some out1
         ∧ returned_array
             (RasterModelGrid_calculate_flux_divergence_at_nodes_slow
                small_float_grid 1%positive None (heap_of tenths))
           = Some out2
         ∧ getitem out1 4 = Ok 0x1.999999999999cp-4%float
         ∧ getitem out2 4 = Ok 0x1.999999999999ap-4%float
         ∧ PrimFloat.eqb 0x1.999999999999cp-4 0x1.999999999999ap-4
           = false).
Proof.
  split.
  - split; [vm_compute; reflexivity|].
    split; [vm_compute; reflexivity|].
    eexists _, _.
    split; [vm_compute; reflexivity|].
    split; [vm_compute; reflexivity|].
    split; [vm_compute; reflexivity|].
    split; [vm_compute; reflexivity|].
    vm_compute; reflexivity.
  - split; [vm_compute; reflexivity|].
    split; [vm_compute; reflexivity|].
    eexists _, _.
    split; [vm_compute; reflexivity|].
    split; [vm_compute; reflexivity|].
    split; [vm_compute; reflexivity|].
    split; [vm_compute; reflexivity|].
    vm_compute; reflexivity.
Qed.

(** Link 6 of the doctest grid joins the interior nodes 6 and 11, and is
    active. *)
Lemma active_links_iff_rule_on_example :
  links_readable example_grid
  ∧ (6 ∈ active_links (reset_list_of_active_links example_grid).1
     ↔ (INTERIOR_NODE = INTERIOR_NODE
        ∧ INTERIOR_NODE ≠ INACTIVE_BOUNDARY)
       ∨ (INTERIOR_NODE = INTERIOR_NODE
          ∧ INTERIOR_NODE ≠ INACTIVE_BOUNDARY)).
Proof.
  split; [apply example_grid_readable|].
  apply (active_links_iff_rule example_grid 6 6 11
           INTERIOR_NODE INTERIOR_NODE).
  - apply example_grid_readable.
  - lia.
  - vm_compute; reflexivity.
  - vm_compute; reflexivity.
  - vm_compute; reflexivity.
  - vm_compute; reflexivity.
Defined.

(** On the grid of class [ModelGrid] with one cell, the flux divergence
    is zero at node 1, which has no cell and is the from-node of the
    active link 1, whose flux is 1. *)
Lemma modelgrid_flux_divergence_on_example :
  flux_divergence_ready unstructured_example
  ∧ len [1; 2; 3; 4]%Q = num_active_links unstructured_example
  ∧ getitem (node_activecell unstructured_example) 1 = Ok BAD_INDEX_VALUE
  ∧ getitem (active_links unstructured_example) 0 = Ok 1
  ∧ getitem (link_fromnode unstructured_example) 1 = Ok 1
  ∧ ∃ out,
      returned_array
        (calculate_flux_divergence_at_nodes
           unstructured_example 1%positive None
           (example_heap [1; 2; 3; 4]%Q)) = Some out
      ∧ getitem out 1 = Ok 0%Q.
Proof.
  assert (flux_divergence_ready unstructured_example) as Hready.
  { unfold flux_divergence_ready.
    change (cls unstructured_example) with ModelGrid_class.
    split; [vm_compute; reflexivity|].
    split; [vm_compute; reflexivity|].
    assert (active_links unstructured_example = [1; 4; 8; 9]) as ->
      by (vm_compute; reflexivity).
    repeat constructor; vm_compute; eexists; reflexivity. }
  split; [done|].
  split; [vm_compute; reflexivity|].
  split; [vm_compute; reflexivity|].
  split; [vm_compute; reflexivity|].
  split; [vm_compute; reflexivity|].
  destruct (modelgrid_flux_divergence_zero_without_cell
              unstructured_example 1%positive
              (example_heap [1; 2; 3; 4]%Q) [1; 2; 3; 4]%Q)
    as (h' & r & out & Hrun & Hout & _ & Hzero).
  - done.
  - vm_compute; reflexivity.
  - vm_compute; reflexivity.
  - exists out. unfold returned_array. rewrite Hrun. cbn [fst snd].
    split; [done|].
    change (cls unstructured_example) with ModelGrid_class in Hzero.
    apply Hzero.
    + split; by vm_compute.
    + vm_compute; reflexivity.
Defined.

(** On the doctest grid in [float64], a raster, the flux divergence at
    node 1, which has no cell, is -1 and not zero. *)
Lemma raster_flux_divergence_nonzero_without_cell :
  getitem (node_activecell float_grid) 1 = Ok BAD_INDEX_VALUE
  ∧ len float_flux = num_active_links float_grid
  ∧ ∃ out,
      returned_array
        (calculate_flux_divergence_at_nodes
           float_grid 1%positive None (heap_of float_flux))
      = Some out
      ∧ getitem out 1 = Ok (-1)%float
      ∧ PrimFloat.eqb (-1) 0 = false.
Proof.
  split; [vm_compute; reflexivity|].
  split; [vm_compute; reflexivity|].
  eexists.
  split; [vm_compute; reflexivity|].
  split; [vm_compute; reflexivity|].
  vm_compute; reflexivity.
Qed.

(** The gradients of the doctest: the first active link of the doctest
    grid is link 1, from node 1 to node 6, and its gradient is
    (2 - 1) / 1. *)
Lemma gradient_at_active_links_on_example :
  let h := example_heap_with_buffer example_values (replicate 17 0%Q) in
  active_links_current example_grid
  ∧ len example_values = num_nodes example_grid
  ∧ ∃ out,
      returned_array
        (calculate_gradients_at_active_links
           example_grid 1%positive (Some 2%positive) h) = Some out
      ∧ len out = 17
      ∧ out !! 0%nat = Some ((2 - 1) / 1)%Q.
Proof.
  intros h.
  assert (active_links_current example_grid) as Hcur
    by (split_and!; vm_compute; reflexivity).
  split; [done|]. split; [vm_compute; reflexivity|].
  destruct (gradient_at_active_links example_grid 1%positive
              (Some 2%positive) h example_values)
    as (h' & r & out & Hrun & Hout & Hlen & Hval).
  - done.
  - vm_compute; reflexivity.
  - vm_compute; reflexivity.
  - compute_done.
  - compute_done.
  - apply Forall_forall. intros l _. exists 1%Q. vm_compute. reflexivity.
  - split; [done|]. eexists. split; vm_compute; reflexivity.
  - exists out. unfold returned_array. rewrite Hrun. cbn [fst snd].
    split; [done|]. split; [rewrite Hlen; vm_compute; reflexivity|].
    destruct (Hval 0%nat 1) as (t & f & st & sf & ll
                                & Ht & Hf & Hst & Hsf & Hll & Hv).
    { vm_compute; reflexivity. }
    vm_compute in Ht. injection Ht as <-.
    vm_compute in Hf. injection Hf as <-.
    vm_compute in Hst. injection Hst as <-.
    vm_compute in Hsf. injection Hsf as <-.
    vm_compute in Hll. injection Hll as <-.
    exact Hv.
Defined.

(** On the doctest grid with the top and the left edge closed, node 17
    of the top edge is inactive. *)
Lemma set_inactive_boundaries_on_example :
  2 ≤ nrows example_grid ∧ 2 ≤ ncols example_grid
  ∧ len (node_status example_grid) = num_nodes example_grid
  ∧ getitem
      (node_status
         (set_inactive_boundaries false false true true example_grid).1)
      (2 + 3 * ncols example_grid)
    = Ok INACTIVE_BOUNDARY.
Proof.
  split; [by vm_compute|]. split; [by vm_compute|].
  split; [vm_compute; reflexivity|].
  destruct (set_inactive_boundaries_edges example_grid
              false false true true 3 2)
    as (_ & _ & Htop & _).
  - by vm_compute.
  - by vm_compute.
  - vm_compute; reflexivity.
  - vm_compute; reflexivity.
  - split; by vm_compute.
  - split; by vm_compute.
  - apply Htop. split; [vm_compute; reflexivity|lia].
Defined.

(** On the raster of 3 rows and 3 columns whose perimeter has been made
    inactive, no link is active: the array form empties the four
    attributes, and the loop form raises [IndexError] and leaves the
    lists of ends of the four links that were active before. *)
Lemma reset_fast_slow_agree_on_example :
  links_readable closed_grid
  ∧ active_link_lists (reset_list_of_active_links closed_grid).1
    = ([], 0, [], [])
  ∧ (reset_list_of_active_links_slow closed_grid).2 = Raise IndexError
  ∧ active_link_lists (reset_list_of_active_links_slow closed_grid).1
    = ([], 0, [1; 4; 3; 4], [4; 7; 4; 5]).
Proof.
  assert (links_readable closed_grid) as Hread.
  { unfold links_readable. split; [vm_compute; reflexivity|].
    split; compute_done. }
  split; [done|].
  pose proof (reset_fast_slow_agree closed_grid Hread) as Hagree.
  cbv zeta in Hagree.
  assert (active_links (reset_list_of_active_links closed_grid).1 = [])
    as Hnone by (vm_compute; reflexivity).
  rewrite Hnone in Hagree.
  destruct Hagree as (Hfast & Hraise & Hslow).
  split; [done|]. split; [done|]. rewrite Hslow.
  vm_compute; reflexivity.
Defined.

(** Settings that ask for a hexagonal grid: one line is printed and
    [None] is returned. *)
Lemma unknown_grid_type_on_example :
  read_string hex_settings "GRID_TYPE" = Ok "hex"
  ∧ lower (strip "hex") ≠ "raster"
  ∧ create_and_initialize_grid hex_settings
    = (["Non-raster grids not yet available in ModelGrid"], Ok None).
Proof.
  split; [vm_compute; reflexivity|]. split; [by vm_compute|].
  apply (unknown_grid_type_returns_none hex_settings "hex");
    [vm_compute; reflexivity|by vm_compute].
Defined.

(** Settings that ask for a hexagonal grid raise nothing: the call
    returns, and what it returns is [None]. *)
Lemma unknown_grid_type_raises_nothing :
  read_string hex_settings "GRID_TYPE" = Ok "hex"
  ∧ (create_and_initialize_grid hex_settings).2 = Ok None
  ∧ ∀ e, (create_and_initialize_grid hex_settings).2 ≠ Raise e.
Proof.
  split; [vm_compute; reflexivity|].
  split; [vm_compute; reflexivity|].
  intros e. by vm_compute.
Qed.

(** The gradients of the doctest with a buffer of seventeen sevens: the
    call returns a new array and the buffer still holds the sevens. *)
Lemma raster_gradient_buffer_on_example :
  let h := example_heap_with_buffer example_values (replicate 17 7%Q) in
  let run :=
    RasterModelGrid_calculate_gradients_at_active_links
      example_grid 1%positive (Some 2%positive) h in
  run.1 !! 2%positive = Some (replicate 17 7%Q)
  ∧ ∃ r, run.2 = Ok r ∧ r ≠ 2%positive ∧ is_Some (run.1 !! r).
Proof.
  intros h run.
  destruct (raster_gradient_buffer_untouched example_grid
              1%positive 2%positive h)
    as (Hsame & Hfresh & Hret).
  fold run in Hsame, Hfresh, Hret.
  split; [by rewrite Hsame|].
  edestruct Hret as [r Hr].
  - vm_compute; reflexivity.
  - vm_compute; reflexivity.
  - vm_compute; reflexivity.
  - vm_compute; reflexivity.
  - vm_compute; reflexivity.
  - vm_compute; reflexivity.
  - exists r. destruct (Hfresh r Hr) as (Hne & _ & Hsome). done.
Defined.

(** * More of the module on the example grids *)

(** The plural of a centering is not a centering. *)
Lemma zeros_unknown_centering_on_example :
  zeros example_grid (Some "cells") = Raised (BadCenteringString "cells").
Proof. by apply (zeros_unknown_centering example_grid "cells"). Defined.

(** One zero per active cell of the doctest grid. *)
Lemma zeros_length_on_example :
  zeros example_grid (Some "cell") = Returned (replicate 6 0%Q)
  ∧ len (replicate 6 0%Q) = num_active_cells example_grid.
Proof.
  assert (zeros example_grid (Some "cell") = Returned (replicate 6 0%Q))
    as Hrun by (vm_compute; reflexivity).
  split; [done|].
  destruct (zeros_length_by_centering example_grid (Some "cell")
              (replicate 6 0%Q) Hrun)
    as [_ [[[?|?] _]|[[_ Hlen]|[[? _]|[? _]]]]]; done.
Defined.

(** Two rows are refused. *)
Lemma raster_too_small_2_5 :
  0 < 2 * 5 ∧ Z.min 2 5 < 3
  ∧ ∃ g : Grid Q,
      RasterModelGrid 2 5 1%Q = (g, Raise (AssertionError EmptyString))
      ∧ num_nodes g = 10 ∧ num_links g = 13.
Proof.
  split; [lia|]. split; [lia|].
  destruct (raster_too_small 2 5 1%Q) as (g & Hrun & _ & _ & Hn & _ & Hl);
    [lia|lia|].
  exists g. by split_and!.
Defined.

(** No rows: nothing is initialized. *)
Lemma raster_without_nodes_0_5 :
  0 * 5 ≤ 0
  ∧ RasterModelGrid 0 5 1%Q
    = (set_num_nodes (0 * 5) (new_object RasterModelGrid_class), Ok tt).
Proof. split; [lia|]. apply (raster_without_nodes 0 5 1%Q). lia. Defined.

(** The doctest: nodes 8 and 3 are joined by active link 2. *)
Lemma connecting_node_pair_on_example :
  num_active_links example_grid ≤ len (activelink_fromnode example_grid)
  ∧ get_active_link_connecting_node_pair example_grid 8 3 = Ok (Some 2)
  ∧ joins example_grid 2 8 3.
Proof.
  split; [by vm_compute|].
  assert (get_active_link_connecting_node_pair example_grid 8 3
          = Ok (Some 2)) as Hrun by (vm_compute; reflexivity).
  split; [done|].
  destruct (connecting_node_pair_first example_grid 8 3)
    as (r & Hr & Hjoin); [by vm_compute|by vm_compute|].
  rewrite Hrun in Hr. injection Hr as <-. apply Hjoin.
Defined.

(** The 31 links of the doctest grid give 62 neighbors in all. *)
Lemma node_neighbor_numbers_on_example :
  len (link_fromnode example_grid) = num_links example_grid
  ∧ ∃ num_nbrs,
      calculate_numbers_of_node_neighbors example_grid = Ok num_nbrs
      ∧ len num_nbrs = 20
      ∧ foldr Z.add 0 num_nbrs = 62.
Proof.
  split; [vm_compute; reflexivity|].
  destruct (node_neighbor_numbers example_grid)
    as (num_nbrs & Hrun & Hlen & Hsum & _).
  - by vm_compute.
  - vm_compute; reflexivity.
  - vm_compute; reflexivity.
  - compute_done.
  - compute_done.
  - exists num_nbrs. split; [done|].
    split; [rewrite Hlen; vm_compute; reflexivity|].
    rewrite Hsum. vm_compute; reflexivity.
Defined.

(** The values of the doctest grid as 4 rows of 5. *)
Lemma node_vector_to_raster_on_example :
  len example_values = num_nodes example_grid
  ∧ ∃ rast,
      node_vector_to_raster example_grid example_values false = Ok rast
      ∧ len rast = 4
      ∧ concat rast = example_values.
Proof.
  split; [vm_compute; reflexivity|].
  destruct (node_vector_to_raster_layout example_grid example_values)
    as (rast & Hrun & Hlen & Hcat & _).
  - by vm_compute.
  - by vm_compute.
  - vm_compute; reflexivity.
  - vm_compute; reflexivity.
  - exists rast. split; [done|].
    split; [rewrite Hlen; vm_compute; reflexivity|done].
Defined.

(** The flipped raster of the values of the doctest grid. *)
Lemma node_vector_to_raster_flipped_on_example :
  len example_values = num_nodes example_grid
  ∧ ∃ rast,
      node_vector_to_raster example_grid example_values false = Ok rast
      ∧ node_vector_to_raster example_grid example_values true
        = Ok (reverse rast).
Proof.
  split; [vm_compute; reflexivity|].
  apply (node_vector_to_raster_flipped example_grid example_values).
  - by vm_compute.
  - by vm_compute.
  - vm_compute; reflexivity.
  - vm_compute; reflexivity.
Defined.

(** The six cell values of the doctest grid as 2 rows of 3. *)
Lemma cell_vector_to_raster_on_example :
  len example_cell_values = num_cells example_grid
  ∧ ∃ rast,
      cell_vector_to_raster example_grid example_cell_values false = Ok rast
      ∧ cell_vector_to_raster example_grid example_cell_values true
        = Ok (reverse rast)
      ∧ len rast = 2
      ∧ concat rast = example_cell_values.
Proof.
  split; [vm_compute; reflexivity|].
  destruct (cell_vector_to_raster_layout example_grid example_cell_values)
    as (rast & Hrun & Hflip & Hlen & Hcat & _).
  - by vm_compute.
  - by vm_compute.
  - vm_compute; reflexivity.
  - vm_compute; reflexivity.
  - exists rast. split; [done|]. split; [done|].
    split; [rewrite Hlen; vm_compute; reflexivity|done].
Defined.

(** The gradients of the doctest, with a buffer: the loop form fills the
    buffer, the array form returns another array with the same
    contents. *)
Lemma raster_gradient_slow_on_example :
  let h := example_heap_with_buffer example_values (replicate 17 0%Q) in
  active_links_current example_grid
  ∧ len example_values = num_nodes example_grid
  ∧ ∃ h1 r1 h2 out,
      RasterModelGrid_calculate_gradients_at_active_links
        example_grid 1%positive (Some 2%positive) h = (h1, Ok r1)
      ∧ h1 !! r1 = Some out
      ∧ RasterModelGrid_calculate_gradients_at_active_links_slow
          example_grid 1%positive (Some 2%positive) h
        = (h2, Ok 2%positive)
      ∧ h2 !! 2%positive = Some out
      ∧ r1 ≠ 2%positive.
Proof.
  intros h.
  assert (active_links_current example_grid) as Hcur
    by (split_and!; vm_compute; reflexivity).
  split; [done|]. split; [vm_compute; reflexivity|].
  destruct (raster_gradient_slow_agrees example_grid 1%positive
              (Some 2%positive) h example_values)
    as (h1 & r1 & h2 & r2 & out & Hfast & Ho1 & Hslow & Ho2 & _ & Hbuf).
  - done.
  - vm_compute; reflexivity.
  - vm_compute; reflexivity.
  - compute_done.
  - compute_done.
  - split; [done|]. eexists. split; vm_compute; reflexivity.
  - destruct (Hbuf 2%positive eq_refl) as [-> Hne].
    exists h1, r1, h2, out.
    split; [exact Hfast|]. split; [exact Ho1|]. split; [exact Hslow|].
    split; [exact Ho2|exact Hne].
Defined.

(** On the doctest grid, with the no-data value 3 at nodes 3, 7 and 9:
    node 7 becomes inactive and node 6 stays interior. *)
Lemma deactivate_nodata_nodes_on_example :
  let g' := (deactivate_nodata_nodes example_values 3%Q example_grid).1 in
  len example_values ≤ len (node_status example_grid)
  ∧ getitem (node_status g') 7 = Ok INACTIVE_BOUNDARY
  ∧ getitem (node_status g') 6 = getitem (node_status example_grid) 6.
Proof.
  intros g'. split; [by vm_compute|].
  destruct (deactivate_nodata_nodes_statuses example_grid example_values
              3%Q) as [Hst _].
  - by vm_compute.
  - vm_compute; reflexivity.
  - split; [apply (Hst 7)|apply (Hst 6)]; by vm_compute.
Defined.

(** On the doctest grid, with the no-data value 3 at nodes 3, 7 and 9:
    link 6, from node 6 to node 11, stays active, and node 6 holds a
    value. *)
Lemma deactivate_nodata_nodes_links_on_example :
  6 ∈ active_links
        (deactivate_nodata_nodes example_values 3%Q example_grid).1
  ∧ getitem (link_fromnode example_grid) 6 = Ok 6
  ∧ nodata_at example_values 3%Q 6 = false.
Proof.
  assert (6 ∈ active_links
                (deactivate_nodata_nodes example_values 3%Q example_grid).1)
    as Hact by compute_done.
  assert (getitem (link_fromnode example_grid) 6 = Ok 6) as Hfrom
    by (vm_compute; reflexivity).
  split; [done|]. split; [done|].
  apply (deactivate_nodata_nodes_links example_grid example_values 3%Q 6 6).
  - by vm_compute.
  - vm_compute; reflexivity.
  - vm_compute; reflexivity.
  - compute_done.
  - compute_done.
  - done.
  - by left.
Defined.

(** Nodes 6 and 7 of the doctest grid made fixed-value boundaries. *)
Lemma set_fixed_value_boundaries_on_example :
  getitem
    (node_status (set_fixed_value_boundaries [6; 7] example_grid).1) 6
  = Ok FIXED_VALUE_BOUNDARY
  ∧ getitem
      (node_status (set_fixed_value_boundaries [6; 7] example_grid).1) 8
    = getitem (node_status example_grid) 8.
Proof.
  split.
  - rewrite (set_fixed_value_boundaries_statuses example_grid [6; 7] 6);
      [done|compute_done|by vm_compute].
  - rewrite (set_fixed_value_boundaries_statuses example_grid [6; 7] 8);
      [done|compute_done|by vm_compute].
Defined.

(** The ends of the active links of the doctest grid: at most two active
    links arrive at a node, and at most two leave it. *)
Lemma example_grid_reset_ends :
  (∀ v, (length (positions v (activelink_tonode example_grid_reset)) ≤ 2)%nat)
  ∧ (∀ v, (length (positions v (activelink_fromnode example_grid_reset))
           ≤ 2)%nat).
Proof.
  destruct (reset_run example_grid example_grid_ok)
    as (g' & Hrun & _ & _ & _ & Hfrom & Hto & _).
  destruct example_grid_ok as (_ & _ & _ & _ & _ & _ & Pf & Pt).
  unfold example_grid_reset. rewrite Hrun. cbn [fst].
  split; intros v.
  - rewrite Hto. etrans; [apply positions_select_le|apply Pt].
  - rewrite Hfrom. etrans; [apply positions_select_le|apply Pf].
Qed.

(** The loop form of the set-up on the doctest grid: node 6 has two
    active links arriving and two leaving. *)
Lemma setup_active_slow_on_example :
  cls example_grid_reset = RasterModelGrid_class
  ∧ ∃ g',
      setup_active_inlink_and_outlink_matrices_slow example_grid_reset
      = (g', Ok tt)
      ∧ getitem (node_numactiveinlink g') 6 = Ok 2
      ∧ getitem (node_numactiveoutlink g') 6 = Ok 2.
Proof.
  split; [reflexivity|].
  destruct (setup_active_slow_matrices example_grid_reset)
    as (g' & Hrun & _ & _ & _ & Hcount).
  - reflexivity.
  - by vm_compute.
  - vm_compute; reflexivity.
  - vm_compute; reflexivity.
  - compute_done.
  - compute_done.
  - apply example_grid_reset_ends.
  - apply example_grid_reset_ends.
  - exists g'. split; [done|].
    destruct (Hcount 6) as [Hin Hout]; [split; by vm_compute|].
    rewrite Hin, Hout. split; vm_compute; reflexivity.
Defined.

(** The two forms of the set-up leave the same doctest grid. *)
Lemma setup_active_fast_slow_on_example :
  cls example_grid_reset = RasterModelGrid_class
  ∧ setup_active_inlink_and_outlink_matrices example_grid_reset
    = setup_active_inlink_and_outlink_matrices_slow example_grid_reset.
Proof.
  split; [reflexivity|].
  apply (setup_active_fast_slow_agree example_grid_reset).
  - reflexivity.
  - by vm_compute.
  - vm_compute; reflexivity.
  - vm_compute; reflexivity.
  - compute_done.
  - compute_done.
  - apply example_grid_reset_ends.
  - apply example_grid_reset_ends.
Defined.

(** The two forms of the derivation leave the same doctest grid. *)
Lemma reset_fast_slow_same_grid_on_example :
  raster_links_ok example_grid
  ∧ active_links (reset_list_of_active_links example_grid).1 ≠ []
  ∧ reset_list_of_active_links example_grid
    = reset_list_of_active_links_slow example_grid.
Proof.
  assert (active_links (reset_list_of_active_links example_grid).1 ≠ [])
    as Hsome by (by vm_compute).
  split; [apply example_grid_ok|]. split; [done|].
  apply (reset_fast_slow_same_grid example_grid);
    [apply example_grid_ok|done].
Defined.

(** The doctest of [calculate_flux_divergence_at_active_cells]: the
    fluxes of the doctest give 2, 4, -2, 0, 1, -4 at the six cells. *)
Lemma raster_cell_flux_on_example :
  len example_flux = num_active_links example_grid
  ∧ ∃ h' r out,
      RasterModelGrid_calculate_flux_divergence_at_active_cells
        example_grid 1%positive None (example_heap example_flux)
      = (h', Ok r)
      ∧ h' !! r = Some out
      ∧ Forall2 Qeq out (inject_Z <$> [2; 4; -2; 0; 1; -4]).
Proof.
  split; [vm_compute; reflexivity|].
  edestruct (raster_cell_flux_slices_node_flux example_grid 1%positive
               None (example_heap example_flux) example_flux)
    as (h' & r & Hrun & Hout & _).
  - reflexivity.
  - vm_compute; reflexivity.
  - vm_compute; reflexivity.
  - by vm_compute.
  - by vm_compute.
  - exact I.
  - vm_compute; reflexivity.
  - vm_compute; reflexivity.
  - exists h', r. eexists. split; [exact Hrun|]. split; [exact Hout|].
    repeat constructor.
Defined.

(** On the doctest grid in exact arithmetic the two forms give the same
    value at cell 0, which is the cell of node 6. *)
Lemma raster_cell_flux_fast_slow_on_example :
  raster_links_ok exact_grid
  ∧ cells_consistent exact_grid_reset
  ∧ exact_arithmetic Qc
  ∧ ∃ out1 out2,
      returned_array
        (RasterModelGrid_calculate_flux_divergence_at_active_cells
           exact_grid_reset 1%positive None (heap_of exact_flux))
      = Some out1
      ∧ returned_array
          (RasterModelGrid_calculate_flux_divergence_at_active_cells_slow
             exact_grid_reset 1%positive None (heap_of exact_flux))
        = Some out2
      ∧ getitem out1 0 = Ok (gather_net exact_grid_reset exact_flux 6)
      ∧ getitem out2 0 = Ok (cell_loop_net exact_grid_reset exact_flux 0)
      ∧ getitem out1 0 = getitem out2 0.
Proof.
  assert (cells_consistent exact_grid_reset) as Hcons by compute_done.
  split; [apply exact_grid_ok|]. split; [done|].
  split; [apply Qc_exact|].
  destruct (raster_cell_flux_fast_slow_agree exact_grid exact_grid_reset
              1%positive None (heap_of exact_flux) exact_flux)
    as (h1 & r1 & out1 & h2 & r2 & out2
        & Hfast & Ho1 & Hslow & Ho2 & _ & _ & Hforms).
  - apply exact_grid_ok.
  - apply exact_grid_reset_run.
  - vm_compute; reflexivity.
  - vm_compute; reflexivity.
  - split; by vm_compute.
  - vm_compute; reflexivity.
  - compute_done.
  - compute_done.
  - done.
  - exact I.
  - destruct (Hforms 0 6) as (E1 & E2 & Hsame);
      [split; by vm_compute|vm_compute; reflexivity|].
    exists out1, out2. unfold returned_array.
    rewrite Hfast, Hslow. cbn [fst snd].
    split_and!; [done|done|done|done|apply Hsame, Qc_exact].
Defined.

(** On the grid of class [ModelGrid] with nine nodes, a buffer of nine
    zeros is refused. *)
Lemma modelgrid_flux_divergence_buffer_on_example :
  let h := example_heap_with_buffer [1; 2; 3; 4]%Q (replicate 9 0%Q) in
  len [1; 2; 3; 4]%Q = num_active_links unstructured_example
  ∧ ModelGrid_calculate_flux_divergence_at_nodes
      unstructured_example 1%positive (Some 2%positive) h
    = (h, Raise ValueError).
Proof.
  intros h. split; [vm_compute; reflexivity|].
  apply (modelgrid_flux_divergence_buffer_raises unstructured_example
           1%positive 2%positive h [1; 2; 3; 4]%Q (replicate 9 0%Q)).
  - vm_compute; reflexivity.
  - vm_compute; reflexivity.
  - vm_compute; reflexivity.
  - by vm_compute.
Defined.
